(** * telejson: an extended JSON codec

    A shallow embedding of [src/index.js] (the source normalizer, the
    [replacer] / [reviver] callbacks, [isJSON], [stringify] and [parse]) and
    of the parts of the JavaScript run time that the file calls
    ([JSON.stringify], [JSON.parse], regular expressions, [Date], property
    access), followed by the properties of the codec.

    Conventions of the embedding:
    - a JavaScript string is a [string]; its characters are the code units
      below 256;
    - a number is a binary64 [float];
    - objects live in a heap indexed by addresses, a reference is an address;
    - JSON text is represented by its syntax tree ([json]): the printer and the
      parser of the engine are inverse to each other on trees, apart from the
      sign of zero, which the printer drops. *)

From Stdlib Require Import ZArith Floats Ascii String DecimalString DecimalNat.
From stdpp Require Import base option list strings.

Local Open Scope string_scope.
Local Open Scope list_scope.
Local Open Scope bool_scope.

#[local] Arguments String.append !s1 s2 : simpl nomatch.

(** ** Characters and strings *)

Module Str.

Definition chr (n : nat) : ascii := ascii_of_nat n.

Definition LF : ascii := chr 10.
Definition DQ : ascii := chr 34.
Definition CR : ascii := chr 13.

(** [\s]: the white space and line terminator code units below 256. *)
Definition is_space (c : ascii) : bool :=
  let n := nat_of_ascii c in
  (9 <=? n)%nat && (n <=? 13)%nat || (n =? 32)%nat || (n =? 160)%nat.

(** [.]: any character but a line terminator. *)
Definition is_dot (c : ascii) : bool :=
  negb (Ascii.eqb c LF) && negb (Ascii.eqb c CR).

(** [\d] *)
Definition is_digit (c : ascii) : bool :=
  let n := nat_of_ascii c in (48 <=? n)%nat && (n <=? 57)%nat.

(** [\w] *)
Definition is_word (c : ascii) : bool :=
  let n := nat_of_ascii c in
  is_digit c || (65 <=? n)%nat && (n <=? 90)%nat
  || (97 <=? n)%nat && (n <=? 122)%nat || (n =? 95)%nat.

Definition one_of (cs : string) (c : ascii) : bool :=
  existsb (Ascii.eqb c) (list_ascii_of_string cs).

Definition none_of (cs : string) (c : ascii) : bool := negb (one_of cs c).

(** [s[i]], [undefined] out of range. *)
Definition at_ (s : string) (i : nat) : option ascii := String.get i s.

(** [s[i - k]] for an index that may fall before the start. *)
Definition before (s : string) (i k : nat) : option ascii :=
  if (k <=? i)%nat then at_ s (i - k) else None.

(** [o === c] for a character read from a string. *)
Definition is_chr (o : option ascii) (c : ascii) : bool :=
  match o with Some d => Ascii.eqb d c | None => false end.

Definition snoc (s : string) (c : ascii) : string := s +:+ String c "".

Fixpoint drop (n : nat) (s : string) : string :=
  match n, s with
  | S k, String _ s' => drop k s'
  | _, _ => s
  end.

Fixpoint take (n : nat) (s : string) : string :=
  match n, s with
  | S k, String c s' => String c (take k s')
  | _, _ => ""
  end.

Definition startsWith (s p : string) : bool := String.prefix p s.

Fixpoint trimStart (s : string) : string :=
  match s with
  | String c s' => if is_space c then trimStart s' else s
  | "" => ""
  end.

Fixpoint trimEnd (s : string) : string :=
  match s with
  | String c s' =>
      let t := trimEnd s' in
      if is_space c && String.eqb t "" then "" else String c t
  | "" => ""
  end.

Definition trim (s : string) : string := trimEnd (trimStart s).

(** [s.replace(p, r)] for a string pattern: the first occurrence only. *)
Fixpoint replace (p r s : string) : string :=
  if String.prefix p s then r +:+ drop (String.length p) s
  else match s with
       | String c s' => String c (replace p r s')
       | "" => ""
       end.

(** [s.split(sep)] for a one character separator. *)
Fixpoint split (sep : ascii) (s : string) : list string :=
  match s with
  | "" => [""]
  | String c s' =>
      if Ascii.eqb c sep then "" :: split sep s'
      else match split sep s' with
           | w :: ws => String c w :: ws
           | [] => [String c ""]
           end
  end.

(** [l.join(sep)] *)
Definition join (sep : string) (l : list string) : string := String.concat sep l.

(** [String(n)] for a non-negative integer. *)
Definition of_nat (n : nat) : string := NilZero.string_of_uint (Nat.to_uint n).

End Str.

(** ** Regular expressions

    The fragment of the regular expression language that [src/index.js] uses,
    matched by backtracking in the priority order of the language: the first
    candidate of [Regex.run] is the match JavaScript reports. *)

Module Regex.

Inductive regex : Type :=
| Chr (p : ascii -> bool)            (* one character of a class *)
| Lit (s : string)                   (* literal text *)
| Seq (r1 r2 : regex)
| Alt (r1 r2 : regex)                (* r1|r2 *)
| Star (p : ascii -> bool)           (* c*, greedy, over a class *)
| Rep (n : nat) (p : ascii -> bool)  (* c{n} *)
| Opt (r : regex)                    (* r?, greedy *)
| Group (r : regex)                  (* (r), capturing *)
| Bol                                (* ^ *)
| Eol.                               (* $ *)

(** A candidate: the captures of the groups met, in order, the position
    after the match and the text left. *)
Definition cand : Type := list (option string) * nat * string.

Fixpoint groups (r : regex) : nat :=
  match r with
  | Seq r1 r2 | Alt r1 r2 => groups r1 + groups r2
  | Opt r => groups r
  | Group r => S (groups r)
  | _ => 0
  end.

Fixpoint star (p : ascii -> bool) (i : nat) (s : string) : list cand :=
  match s with
  | String c s' => if p c then star p (S i) s' ++ [([], i, s)] else [([], i, s)]
  | "" => [([], i, s)]
  end.

Fixpoint rep (n : nat) (p : ascii -> bool) (i : nat) (s : string) : list cand :=
  match n with
  | 0 => [([], i, s)]
  | S k => match s with
           | String c s' => if p c then rep k p (S i) s' else []
           | "" => []
           end
  end.

Fixpoint run (r : regex) (i : nat) (s : string) : list cand :=
  match r with
  | Chr p => match s with
             | String c s' => if p c then [([], S i, s')] else []
             | "" => []
             end
  | Lit l => if String.prefix l s
             then [([], i + String.length l, Str.drop (String.length l) s)]
             else []
  | Seq r1 r2 =>
      '(c1, i1, s1) ← run r1 i s;
      '(c2, i2, s2) ← run r2 i1 s1;
      [(c1 ++ c2, i2, s2)]
  | Alt r1 r2 =>
      ('(c, j, t) ← run r1 i s; [(c ++ replicate (groups r2) None, j, t)])
      ++ ('(c, j, t) ← run r2 i s; [(replicate (groups r1) None ++ c, j, t)])
  | Star p => star p i s
  | Rep n p => rep n p i s
  | Opt r => run r i s ++ [(replicate (groups r) None, i, s)]
  | Group r =>
      '(c, j, t) ← run r i s; [(Some (Str.take (j - i) s) :: c, j, t)]
  | Bol => if (i =? 0)%nat then [([], i, s)] else []
  | Eol => match s with "" => [([], i, s)] | _ => [] end
  end.

(** The leftmost match at or after position [i]: where it starts, the text
    from there, and the candidate. *)
Fixpoint search (r : regex) (i : nat) (s : string) : option (nat * string * cand) :=
  match run r i s with
  | c :: _ => Some (i, s, c)
  | [] => match s with
          | String _ s' => search r (S i) s'
          | "" => None
          end
  end.

(** [s.match(r)] without the [g] flag: the matched text followed by the
    captures, or [null]. *)
Definition match_ (r : regex) (s : string) : option (list (option string)) :=
  match search r 0 s with
  | Some (i, t, (caps, j, _)) => Some (Some (Str.take (j - i) t) :: caps)
  | None => None
  end.

(** [r.test(s)] *)
Definition test (r : regex) (s : string) : bool :=
  match match_ r s with Some _ => true | None => false end.

(** [s.replace(r, '')] with the [g] flag, for an [r] that matches no empty
    text: [skip] counts the characters of the current match still to drop. *)
Fixpoint remove_all (r : regex) (skip i : nat) (s : string) : string :=
  match s with
  | "" => ""
  | String c s' =>
      match skip with
      | S k => remove_all r k (S i) s'
      | 0 => match run r i s with
             | (_, j, _) :: _ =>
                 if (i <? j)%nat then remove_all r (j - i - 1) (S i) s'
                 else String c (remove_all r 0 (S i) s')
             | [] => String c (remove_all r 0 (S i) s')
             end
      end
  end.

End Regex.

Import Regex.

(** ** The source normalizer *)

(** The mode variables of the scanner. *)
Record scanner : Type := Scanner {
  inQuoteChar : option ascii;
  inBlockComment : bool;
  inLineComment : bool;
  inRegexLiteral : bool
}.

Definition scanner_start : scanner := Scanner None false false false.

Definition set_inQuoteChar (q : option ascii) (st : scanner) : scanner :=
  Scanner q (inBlockComment st) (inLineComment st) (inRegexLiteral st).
Definition set_inBlockComment (b : bool) (st : scanner) : scanner :=
  Scanner (inQuoteChar st) b (inLineComment st) (inRegexLiteral st).
Definition set_inLineComment (b : bool) (st : scanner) : scanner :=
  Scanner (inQuoteChar st) (inBlockComment st) b (inRegexLiteral st).
Definition set_inRegexLiteral (b : bool) (st : scanner) : scanner :=
  Scanner (inQuoteChar st) (inBlockComment st) (inLineComment st) b.

Definition no_mode (st : scanner) : bool :=
  negb (bool_decide (is_Some (inQuoteChar st))) && negb (inBlockComment st)
  && negb (inLineComment st) && negb (inRegexLiteral st).

(** The mode switches of one turn of the loop, on the character [c = code[i]]
    with [n = code[i + 1]], [p1 = code[i - 1]] and [p2 = code[i - 2]]. *)
Definition switch_mode (st : scanner) (p2 p1 : option ascii) (c : ascii)
    (n : option ascii) : scanner :=
  if no_mode st then
    if Ascii.eqb c Str.DQ || Ascii.eqb c "'" || Ascii.eqb c "`"
    then set_inQuoteChar (Some c) st
    else if Ascii.eqb c "/" && Str.is_chr n "*" then set_inBlockComment true st
    else if Ascii.eqb c "/" && Str.is_chr n "/" then set_inLineComment true st
    else if Ascii.eqb c "/" && negb (Str.is_chr n "/") then set_inRegexLiteral true st
    else st
  else
    let st :=
      match inQuoteChar st with
      | Some q =>
          if Ascii.eqb c q && negb (Str.is_chr p1 "\")
             || Ascii.eqb c Str.LF && negb (Ascii.eqb q "`")
          then set_inQuoteChar None st else st
      | None => st
      end in
    let st :=
      if inRegexLiteral st
         && (Ascii.eqb c "/" && negb (Str.is_chr p1 "\") || Ascii.eqb c Str.LF)
      then set_inRegexLiteral false st else st in
    let st :=
      if inBlockComment st && Str.is_chr p1 "/" && Str.is_chr p2 "*"
      then set_inBlockComment false st else st in
    if inLineComment st && Ascii.eqb c Str.LF
    then set_inLineComment false st else st.

(** The body of the [for] loop at index [i], on the mode variables and
    [newCode]. *)
Definition scan_at (code : string) (state : scanner * string) (i : nat)
    : scanner * string :=
  let '(st, newCode) := state in
  match Str.at_ code i with
  | Some c =>
      let st := switch_mode st (Str.before code i 2) (Str.before code i 1) c
                  (Str.at_ code (i + 1)) in
      if negb (inBlockComment st) && negb (inLineComment st)
      then (st, Str.snoc newCode c)
      else (st, newCode)
  | None => state
  end.

Definition removeCodeComments (code : string) : string :=
  (fold_left (scan_at code) (seq 0 (String.length code)) (scanner_start, "")).2.

(** [/\n\s*/g] *)
Definition indent_re : regex := Seq (Chr (Ascii.eqb Str.LF)) (Star Str.is_space).

Definition cleanCode (code : string) : string :=
  Str.trim (remove_all indent_re 0 0 (removeCodeComments code)).

(** [/^\d{4}-\d{2}-\d{2}T\d{2}:\d{2}:\d{2}(\.\d{3})?Z$/] *)
Definition dateFormat : regex :=
  Seq Bol (Seq (Rep 4 Str.is_digit) (Seq (Lit "-") (Seq (Rep 2 Str.is_digit)
  (Seq (Lit "-") (Seq (Rep 2 Str.is_digit) (Seq (Lit "T") (Seq (Rep 2 Str.is_digit)
  (Seq (Lit ":") (Seq (Rep 2 Str.is_digit) (Seq (Lit ":") (Seq (Rep 2 Str.is_digit)
  (Seq (Opt (Group (Seq (Lit ".") (Rep 3 Str.is_digit))))
  (Seq (Lit "Z") Eol))))))))))))).

(** [/^[\[\{\"\}].*[\]\}\"]$/] *)
Definition isJSON_re : regex :=
  Seq Bol (Seq (Chr (Str.one_of (String Str.DQ "[{}")))
          (Seq (Star Str.is_dot) (Seq (Chr (Str.one_of (String Str.DQ "]}"))) Eol))).

(** [isJSON]: the result of [match], an array or [null]. *)
Definition isJSON (input : string) : option (list (option string)) :=
  match_ isJSON_re input.

Example cleanCode_ex1 :
  cleanCode ("function f(a) { // add" +:+ String Str.LF "  return a + 1; /* one */ }")
  = "function f(a) { return a + 1;  }".
Proof. vm_compute. reflexivity. Qed.

(** ** Values and the heap *)

Abbreviation addr := nat.

Inductive value : Type :=
| VUndef
| VNull
| VBool (b : bool)
| VNum (f : float)
| VStr (s : string)
| VSym (id : nat) (description : option string)
| VRef (a : addr).

(** What an object is besides its properties. *)
Inductive kind : Type :=
| KObject                              (* an ordinary object *)
| KArray (len : nat)                   (* an array and its [length] *)
| KFunction (name source : string)     (* a function: [name], [toString()] *)
| KRevived (name source : string)      (* the wrapper [revive] builds *)
| KRegExp (source flags : string)
| KDate (tv : option Z).               (* time value in ms, [None] for NaN *)

(** [cname] is the name of the constructor that the object inherits, empty
    when there is none; [frozen] tells that the object rejects every write;
    [props] lists the enumerable own properties with string keys in the
    order of enumeration. The identity of a symbol [VSym id d] is the
    address [id], which the heap reserves for it. *)
Record object : Type := Object {
  okind : kind;
  cname : string;
  frozen : bool;
  props : list (string * value)
}.

Abbreviation heap := (list object).

Definition MARKER : string := "_constructor-name_".

(** [a === b] *)
Definition strict_eq (a b : value) : bool :=
  match a, b with
  | VUndef, VUndef | VNull, VNull => true
  | VBool x, VBool y => Bool.eqb x y
  | VNum x, VNum y => PrimFloat.eqb x y
  | VStr x, VStr y => String.eqb x y
  | VSym i _, VSym j _ => Nat.eqb i j
  | VRef x, VRef y => Nat.eqb x y
  | _, _ => false
  end.

(** [ToBoolean] *)
Definition truthy (v : value) : bool :=
  match v with
  | VUndef | VNull => false
  | VBool b => b
  | VNum f => negb (PrimFloat.is_nan f || PrimFloat.is_zero f)
  | VStr s => negb (String.eqb s "")
  | VSym _ _ | VRef _ => true
  end.

Module Props.

Fixpoint lookup (k : string) (ps : list (string * value)) : option value :=
  match ps with
  | [] => None
  | (k', v) :: ps' => if String.eqb k' k then Some v else lookup k ps'
  end.

(** An existing key keeps its place, a new key goes last. *)
Fixpoint set (k : string) (v : value) (ps : list (string * value))
    : list (string * value) :=
  match ps with
  | [] => [(k, v)]
  | (k', v') :: ps' =>
      if String.eqb k' k then (k', v) :: ps' else (k', v') :: set k v ps'
  end.

Fixpoint delete (k : string) (ps : list (string * value))
    : list (string * value) :=
  match ps with
  | [] => []
  | (k', v') :: ps' =>
      if String.eqb k' k then delete k ps' else (k', v') :: delete k ps'
  end.

End Props.

(** The array index that a property key denotes, if it is one. *)
Definition to_index (k : string) : option nat :=
  match NilEmpty.uint_of_string k with
  | Some u => let n := Nat.of_uint u in
              if String.eqb (Str.of_nat n) k then Some n else None
  | None => None
  end.

Definition number_of_nat (n : nat) : float := PrimFloat.of_uint63 (Uint63.of_Z (Z.of_nat n)).

Definition set_props (ps : list (string * value)) (o : object) : object :=
  Object (okind o) (cname o) (frozen o) ps.
Definition set_kind (k : kind) (o : object) : object :=
  Object k (cname o) (frozen o) (props o).
Definition set_cname (n : string) (o : object) : object :=
  Object (okind o) n (frozen o) (props o).

Definition is_array (k : kind) : bool :=
  match k with KArray _ => true | _ => false end.

Definition is_callable (k : kind) : bool :=
  match k with KFunction _ _ | KRevived _ _ => true | _ => false end.

(** [Array.isArray(v)] *)
Definition isArray (h : heap) (v : value) : bool :=
  match v with
  | VRef a => match h !! a with Some o => is_array (okind o) | None => false end
  | _ => false
  end.

(** [isobject]: [val != null && typeof val === 'object' && !Array.isArray(val)] *)
Definition isObject (h : heap) (v : value) : bool :=
  match v with
  | VRef a => match h !! a with
              | Some o => negb (is_array (okind o)) && negb (is_callable (okind o))
              | None => false
              end
  | _ => false
  end.

(** [v[k]] on own properties; an array also has its [length] and a function
    its [name]. Properties of primitive values and inherited properties are
    not modelled and read [undefined]: the codec reads the keys that
    [JSON.stringify] and [JSON.parse] enumerate, the marker key and the name
    of a constructor; only the walk of [get] can ask for more, and the
    theorems on it keep to the paths of [own_walk]. *)
Definition Get (h : heap) (v : value) (k : string) : value :=
  match v with
  | VRef a =>
      match h !! a with
      | Some o =>
          match Props.lookup k (props o), okind o with
          | Some x, _ => x
          | None, KArray len =>
              if String.eqb k "length" then VNum (number_of_nat len) else VUndef
          | None, KFunction name _ | None, KRevived name _ =>
              if String.eqb k "name" then VStr name else VUndef
          | None, _ => VUndef
          end
      | None => VUndef
      end
  | _ => VUndef
  end.

(** The object after [o[k] = v]: writing past the end of an array moves its
    [length]. *)
Definition write (k : string) (v : value) (o : object) : object :=
  let o' := set_props (Props.set k v (props o)) o in
  match okind o, to_index k with
  | KArray len, Some i => if (len <=? i)%nat then set_kind (KArray (S i)) o' else o'
  | _, _ => o'
  end.

(** [a[k] = v] in strict code: [None] stands for the [TypeError] of a write
    to a frozen object. *)
Definition Set_ (h : heap) (a : addr) (k : string) (v : value) : option heap :=
  match h !! a with
  | Some o => if frozen o then None else Some (<[a := write k v o]> h)
  | None => Some h
  end.

(** [delete a[k]] *)
Definition Delete (h : heap) (a : addr) (k : string) : heap :=
  match h !! a with
  | Some o => <[a := set_props (Props.delete k (props o)) o]> h
  | None => h
  end.

Definition alloc (h : heap) (o : object) : heap * addr := (h ++ [o], length h).

(** The keys of the enumerable own properties, as [Object.keys] lists them. *)
Definition own_keys (h : heap) (a : addr) : list string :=
  match h !! a with Some o => (props o).*1 | None => [] end.

(** ** Dates

    The part of [Date] that the codec meets: [toISOString], [toJSON] and the
    constructor applied to a text in the format that [toISOString] writes.
    Time values are integral milliseconds since 1970-01-01T00:00:00Z in the
    proleptic Gregorian calendar. *)

Module Date.

Local Open Scope Z_scope.

Definition msPerDay : Z := 86400000.

(** Year, month (1 to 12) and day of the month of a day number. *)
Definition civil (day : Z) : Z * Z * Z :=
  let z := day + 719468 in
  let era := z / 146097 in
  let doe := z - era * 146097 in
  let yoe := (doe - doe / 1460 + doe / 36524 - doe / 146096) / 365 in
  let doy := doe - (365 * yoe + yoe / 4 - yoe / 100) in
  let mp := (5 * doy + 2) / 153 in
  let d := doy - (153 * mp + 2) / 5 + 1 in
  let m := if mp <? 10 then mp + 3 else mp - 9 in
  (yoe + era * 400 + (if m <=? 2 then 1 else 0), m, d).

(** The day number of a year, month and day of the month. *)
Definition day_number (y m d : Z) : Z :=
  let y := y - (if m <=? 2 then 1 else 0) in
  let era := y / 400 in
  let yoe := y - era * 400 in
  let doy := (153 * (if 2 <? m then m - 3 else m + 9) + 2) / 5 + d - 1 in
  let doe := yoe * 365 + yoe / 4 - yoe / 100 + doy in
  era * 146097 + doe - 719468.

Definition digit (n : Z) : ascii := ascii_of_nat (48 + Z.to_nat n).

(** The last [width] decimal digits of [n]. *)
Fixpoint pad (width : nat) (n : Z) : string :=
  match width with
  | O => ""
  | S w => pad w (n / 10) +:+ String (digit (n mod 10)) ""
  end.

Definition year_text (y : Z) : string :=
  if (0 <=? y) && (y <=? 9999) then pad 4 y
  else if y <? 0 then "-" +:+ pad 6 (- y)
  else "+" +:+ pad 6 y.

(** [new Date(t).toISOString()] for a time value in range. *)
Definition toISOString (t : Z) : string :=
  let '(y, m, d) := civil (t / msPerDay) in
  let r := t mod msPerDay in
  year_text y +:+ "-" +:+ pad 2 m +:+ "-" +:+ pad 2 d +:+ "T"
  +:+ pad 2 (r / 3600000) +:+ ":" +:+ pad 2 (r / 60000 mod 60) +:+ ":"
  +:+ pad 2 (r / 1000 mod 60) +:+ "." +:+ pad 3 (r mod 1000) +:+ "Z".

(** The number that a run of decimal digits writes. *)
Definition number (s : string) : Z :=
  fold_left (fun n c => 10 * n + (Z.of_nat (nat_of_ascii c) - 48))
    (list_ascii_of_string s) 0.

(** The time value of a text [YYYY-MM-DDTHH:mm:ss.sssZ] or
    [YYYY-MM-DDTHH:mm:ssZ], as V8 reads it; [None] stands for NaN, the
    result for a text with a field out of range. The month is 1 to 12 and
    the day 1 to 31, whatever the month: a day that the month does not have
    counts on into the next month, as 02-30 does to 03-01 (the day number is
    linear in the day). The hour 24 is midnight at the end of the day.
    Texts in other formats, which engines read each in their own way, are
    answered with NaN as well. *)
Definition parse (s : string) : option Z :=
  if test dateFormat s then
    let y := number (Str.take 4 s) in
    let m := number (Str.take 2 (Str.drop 5 s)) in
    let d := number (Str.take 2 (Str.drop 8 s)) in
    let hh := number (Str.take 2 (Str.drop 11 s)) in
    let mm := number (Str.take 2 (Str.drop 14 s)) in
    let ss := number (Str.take 2 (Str.drop 17 s)) in
    let ms := if (String.length s =? 24)%nat
              then number (Str.take 3 (Str.drop 20 s)) else 0 in
    let day := day_number y m d in
    if (1 <=? m) && (m <=? 12) && (1 <=? d) && (d <=? 31)
       && ((hh <=? 23) && (mm <=? 59) && (ss <=? 59)
           || (hh =? 24) && (mm =? 0) && (ss =? 0) && (ms =? 0))
    then Some (day * msPerDay + hh * 3600000 + mm * 60000 + ss * 1000 + ms)
    else None
  else None.

(** [Date.prototype.toJSON]: the ISO text, or [null] for an invalid date. *)
Definition toJSON (tv : option Z) : value :=
  match tv with
  | Some t => VStr (toISOString t)
  | None => VNull
  end.

End Date.

(** ** Exceptions and state *)

Inductive error : Type :=
| TypeError (msg : string)
| SyntaxError (msg : string)
| OutOfFuel.

Inductive result (A : Type) : Type :=
| Ok (a : A)
| Throw (e : error).
Arguments Ok {A} a.
Arguments Throw {A} e.

(** A computation over a state [S] that returns or throws; the state
    survives a throw, as the heap of a JavaScript program does. *)
Definition M (S A : Type) : Type := S -> S * result A.

#[global] Instance M_ret {S} : MRet (M S) := fun A a s => (s, Ok a).
#[global] Instance M_bind {S} : MBind (M S) := fun A B f m s =>
  match m s with
  | (s', Ok a) => f a s'
  | (s', Throw e) => (s', Throw e)
  end.

Definition throw {S A} (e : error) : M S A := fun s => (s, Throw e).
Definition gets {S A} (f : S -> A) : M S A := fun s => (s, Ok (f s)).
Definition modify {S} (f : S -> S) : M S unit := fun s => (f s, Ok tt).

Fixpoint mapM {S A B} (f : A -> M S B) (l : list A) : M S (list B) :=
  match l with
  | [] => mret []
  | x :: l' => y ← f x; ys ← mapM f l'; mret (y :: ys)
  end.

(** ** The encoder *)

(** The variables that the closure of [replacer] holds. *)
Record tracker : Type := Tracker {
  objects : list (string * value);   (* { keys, value } *)
  stack : list value;
  keys : list string
}.

(** The state of a [JSON.stringify] run: the heap, the closure variables of
    the replacer ([None] until the first call assigns them) and the stack of
    [JSON.stringify] itself, which detects cycles. *)
Record enc : Type := Enc {
  enc_heap : heap;
  enc_vars : option tracker;
  enc_path : list addr
}.

Definition put_heap (h : heap) : M enc unit :=
  modify (fun st => Enc h (enc_vars st) (enc_path st)).
Definition put_vars (t : tracker) : M enc unit :=
  modify (fun st => Enc (enc_heap st) (Some t) (enc_path st)).
Definition put_path (p : list addr) : M enc unit :=
  modify (fun st => Enc (enc_heap st) (enc_vars st) p).

(** [while (stack.length && this !== stack[0]) { stack.shift(); keys.pop(); }] *)
Fixpoint unwind (this : value) (stack : list value) (keys : list string)
    : list value * list string :=
  match stack with
  | [] => ([], keys)
  | top :: rest =>
      if strict_eq this top then (stack, keys)
      else unwind this rest (removelast keys)
  end.

Definition kind_of (h : heap) (v : value) : option kind :=
  match v with
  | VRef a => okind <$> h !! a
  | _ => None
  end.

(** [/(\[native code\]|WEBPACK_IMPORTED_MODULE)/] *)
Definition native_re : regex :=
  Group (Alt (Lit "[native code]") (Lit "WEBPACK_IMPORTED_MODULE")).

(** [Symbol.prototype.toString] *)
Definition Symbol_toString (description : option string) : string :=
  "Symbol(" +:+ default "" description +:+ ")".

(** [s.slice(b, -e)] *)
Definition slice (b e : nat) (s : string) : string :=
  Str.take (String.length s - e - b) (Str.drop b s).

(** [value.constructor && value.constructor.name]: [constructor] is the own
    property of that name if the object has one, and else the constructor
    that the object inherits. *)
Definition constructor_name (h : heap) (o : object) : value :=
  match Props.lookup "constructor" (props o) with
  | Some c => if truthy c then Get h c "name" else c
  | None => VStr (cname o)
  end.

(** The attachment of the constructor name, inside its [try]. *)
Definition attach_name (h : heap) (v : value) : heap :=
  match v with
  | VRef a =>
      match h !! a with
      | Some o =>
          let name := constructor_name h o in
          if isObject h v && truthy name && negb (strict_eq name (VStr "Object"))
          then match Set_ h a MARKER name with
               | Some h' => h'
               | None => h          (* the write threw, [catch] drops it *)
               end
          else h
      | None => h
      end
  | _ => h
  end.

Definition replace (depth : Z) (this : value) (key : string) (v : value)
    : M enc value :=
  if String.eqb key "" then
    _ ← put_vars (Tracker [("root", v)] [] ["root"]);
    mret v
  else
    vars ← gets enc_vars;
    match vars with
    | None => throw (TypeError "Cannot read properties of undefined (reading 'length')")
    | Some t =>
    let '(stack, keys) := unwind this (stack t) (keys t) in
    _ ← put_vars (Tracker (objects t) stack keys);
    h ← gets enc_heap;
    match kind_of h v with
    | Some (KRegExp source flags) =>
        mret (VStr ("_regexp_" +:+ flags +:+ "|" +:+ source))
    | Some (KFunction name text) | Some (KRevived name text) =>
        let stringified := cleanCode text in
        if negb (test native_re stringified)
        then mret (VStr ("_function_" +:+ name +:+ "|" +:+ stringified))
        else mret (VStr ("_function_" +:+ name +:+ "|" +:+ "() => {}"))
    | _ =>
    match v with
    | VSym _ d => mret (VStr ("_symbol_" +:+ slice 7 1 (Symbol_toString d)))
    | VStr s => if test dateFormat s then mret (VStr ("_date_" +:+ s)) else mret v
    | VUndef => mret (VStr "_undefined_")
    | VNum f =>
        if PrimFloat.eqb f neg_infinity then mret (VStr "_-Infinity_")
        else if PrimFloat.eqb f infinity then mret (VStr "_Infinity_")
        else if PrimFloat.is_nan f then mret (VStr "_NaN_")
        else mret v
    | _ =>
    if (depth <=? Z.of_nat (length stack))%Z then
      match kind_of h v with
      | Some (KArray len) => mret (VStr ("[Array(" +:+ Str.of_nat len +:+ ")]"))
      | _ => mret (VStr "[Object]")
      end
    else
      match List.find (fun o => strict_eq o.2 v) (objects t) with
      | None =>
          _ ← put_heap (attach_name h v);
          let keys := keys ++ [key] in
          let stack := v :: stack in
          _ ← put_vars (Tracker (objects t ++ [(Str.join "." keys, v)]) stack keys);
          mret v
      | Some found => mret (VStr ("_duplicate_" +:+ found.1))
      end
    end
    end
    end.

(** ** [JSON.stringify] with a replacer function *)

(** The syntax tree of a JSON text. *)
#[warnings="-register-all"]
Inductive json : Type :=
| JNull
| JBool (b : bool)
| JNum (f : float)
| JStr (s : string)
| JArr (elements : list json)
| JObj (members : list (string * json)).

(** The number that the text of a finite number denotes: the printer writes
    both zeros as [0]. *)
Definition printed (f : float) : float :=
  if PrimFloat.is_zero f then PrimFloat.zero else f.

(** The call of [toJSON] on a value that has one: of the objects modelled,
    a [Date]. A method [toJSON] that the caller has put on an object, as a
    property of its own or of its class, is code of the caller, and outside
    the model: the theorems on values that could carry one say that they
    carry none. *)
Definition call_toJSON (h : heap) (v : value) : value :=
  match kind_of h v with
  | Some (KDate tv) => Date.toJSON tv
  | _ => v
  end.

(** The entry of [SerializeJSONObject] and [SerializeJSONArray]: a value
    that is being serialized already is a cycle. *)
Definition enter (a : addr) : M enc unit :=
  path ← gets enc_path;
  if bool_decide (a ∈ path)
  then throw (TypeError "Converting circular structure to JSON")
  else put_path (a :: path).

Definition leave : M enc unit :=
  path ← gets enc_path; put_path (tail path).

Definition members_of (l : list (string * option json)) : list (string * json) :=
  omap (fun m => match m.2 with Some j => Some (m.1, j) | None => None end) l.

(** [SerializeJSONProperty] of ECMAScript after the call of the replacer: the
    text of the value that the replacer returned, with [SerializeJSONObject]
    and [SerializeJSONArray]; [recur] stands for the calls on the members,
    and [None] is the [undefined] of a value that has no JSON text. *)
Definition serialize_value (recur : value -> string -> M enc (option json))
    (value : value) : M enc (option json) :=
  h ← gets enc_heap;
  match value with
  | VNull => mret (Some JNull)
  | VBool b => mret (Some (JBool b))
  | VStr s => mret (Some (JStr s))
  | VNum f => mret (Some (if PrimFloat.is_finite f then JNum (printed f) else JNull))
  | VRef a =>
      match h !! a with
      | None => mret None
      | Some o =>
          if is_callable (okind o) then mret None
          else
            _ ← enter a;
            j ← match okind o with
                | KArray len =>
                    l ← mapM (fun i =>
                           e ← recur value (Str.of_nat i);
                           mret (default JNull e)) (seq 0 len);
                    mret (JArr l)
                | _ =>
                    l ← mapM (fun k =>
                           e ← recur value k;
                           mret (k, e)) (props o).*1;
                    mret (JObj (members_of l))
                end;
            _ ← leave;
            mret (Some j)
      end
  | VUndef | VSym _ _ => mret None
  end.

(** [SerializeJSONProperty]: the value read from the holder, its [toJSON],
    the replacer, and the text of what the replacer returned. *)
Definition serialize (recur : value -> string -> M enc (option json)) (depth : Z)
    (holder : value) (key : string) : M enc (option json) :=
  h ← gets enc_heap;
  value ← replace depth holder key (call_toJSON h (Get h holder key));
  serialize_value recur value.

(** [fuel] bounds the nesting of the calls. *)
Fixpoint SerializeJSONProperty (fuel : nat) (depth : Z) (holder : value)
    (key : string) : M enc (option json) :=
  match fuel with
  | O => throw OutOfFuel
  | S fuel => serialize (SerializeJSONProperty fuel depth) depth holder key
  end.

(** The wrapper object [{ '': v }] that holds the root of a traversal. *)
Definition wrapper_of (v : value) : object :=
  Object KObject "Object" false [("", v)].

(** [options.maxDepth || 10] *)
Definition depth_option (maxDepth : option Z) : Z :=
  match maxDepth with
  | Some d => if (d =? 0)%Z then 10%Z else d
  | None => 10%Z
  end.

(** [JSON.stringify(data, replace)]: the wrapper object [{ '': data }] holds
    the root. No nesting of calls is deeper than the heap has objects. *)
Definition JSON_stringify (depth : Z) (h : heap) (data : value)
    : heap * result (option json) :=
  let '(h, wrapper) := alloc h (wrapper_of data) in
  let '(st, r) :=
    SerializeJSONProperty (S (length h)) depth (VRef wrapper) "" (Enc h None []) in
  (enc_heap st, r).

(** [stringify(data, options)]; [options.space] only lays the text out. *)
Definition stringify (h : heap) (data : value) (maxDepth : option Z)
    : heap * result (option json) :=
  JSON_stringify (depth_option maxDepth) h data.

(** ** [get] of lodash

    [get(object, path)] for a path in dot notation; the bracket notation of
    lodash paths is not modelled (a path is cut at its dots only), and the
    walk reads own properties ([Get]). The theorems that depend on what a
    walk finds keep to the paths of [get_modelled]. *)

(** [/^\w*$/] *)
Definition plain_re : regex := Seq Bol (Seq (Star Str.is_word) Eol).

(** A dot, or a bracket pair with no bracket inside. *)
Definition deep_re : regex :=
  Alt (Lit ".") (Seq (Lit "[") (Seq (Star (Str.none_of "[]")) (Lit "]"))).

(** [path in Object(object)], on own properties: [isKey] asks it of the
    paths that are no plain name and have a dot or a bracket pair, and no
    name that the objects modelled inherit is one of these. *)
Definition has_property (h : heap) (object : value) (path : string) : bool :=
  match object with
  | VRef a =>
      match h !! a with
      | Some o =>
          bool_decide (is_Some (Props.lookup path (props o)))
          || is_array (okind o) && String.eqb path "length"
      | None => false
      end
  | _ => false
  end.

Definition isKey (h : heap) (object : value) (path : string) : bool :=
  test plain_re path || negb (test deep_re path) || has_property h object path.

Definition castPath (h : heap) (object : value) (path : string) : list string :=
  if isKey h object path then [path] else Str.split "." path.

Definition nullish (v : value) : bool :=
  match v with VUndef | VNull => true | _ => false end.

(** [while (object != null && index < length) object = object[path[index++]]],
    the result being [undefined] when the loop stops before the end. *)
Fixpoint baseGet (h : heap) (object : value) (path : list string) : value :=
  match path with
  | [] => object
  | k :: rest => if nullish object then VUndef else baseGet h (Get h object k) rest
  end.

Definition get (h : heap) (object : value) (path : string) : value :=
  if nullish object then VUndef else baseGet h object (castPath h object path).

(** ** The decoder *)

Record ref : Type := Ref {
  target : string;
  container : value;
  replacement : string
}.

(** The state of a [JSON.parse] run: the heap and the variables that the
    closure of [reviver] holds. *)
Record dec : Type := Dec {
  dec_heap : heap;
  refs : list ref;
  root : value
}.

Definition set_heap (h : heap) : M dec unit :=
  modify (fun st => Dec h (refs st) (root st)).
Definition set_refs (r : list ref) : M dec unit :=
  modify (fun st => Dec (dec_heap st) r (root st)).
Definition set_root (v : value) : M dec unit :=
  modify (fun st => Dec (dec_heap st) (refs st) v).

(** [container[target] = v] in strict code. *)
Definition assign (container : value) (target : string) (v : value) : M dec unit :=
  h ← gets dec_heap;
  match container with
  | VRef a =>
      match Set_ h a target v with
      | Some h' => set_heap h'
      | None => throw (TypeError "Cannot assign to read only property")
      end
  | _ => throw (TypeError "Cannot set properties of a primitive value")
  end.

(** The callback of [refs.forEach]. *)
Definition restore (r : ref) : M dec unit :=
  h ← gets dec_heap;
  root ← gets root;
  if String.eqb (replacement r) "root"
  then assign (container r) (target r) root
  else assign (container r) (target r)
         (get h root (Str.replace "root." "" (replacement r))).

(** The pattern of [value.match] for a function tag: [_function_], a group
    of [[^|]*], a bar and a group of [.*]. *)
Definition function_re : regex :=
  Seq (Lit "_function_") (Seq (Group (Star (Str.none_of "|")))
    (Seq (Lit "|") (Group (Star Str.is_dot)))).

(** The pattern of [value.match] for a regexp tag: [_regexp_], a group of
    [[^|]*], a bar and a group of [.*]. *)
Definition regexp_re : regex :=
  Seq (Lit "_regexp_") (Seq (Group (Star (Str.none_of "|")))
    (Seq (Lit "|") (Group (Star Str.is_dot)))).

(** The names that [function NAME(){}] accepts, on the characters
    modelled: a letter, [_] or [$], then letters, digits, [_] and [$], and
    no reserved word. A text that is no name and that [Function] accepts
    all the same, because it closes the function and opens another one, is
    outside the model; it is refused here like the names that [Function]
    rejects. *)
Definition reserved : list string :=
  ["break"; "case"; "catch"; "class"; "const"; "continue"; "debugger";
   "default"; "delete"; "do"; "else"; "enum"; "export"; "extends"; "false";
   "finally"; "for"; "function"; "if"; "import"; "in"; "instanceof"; "new";
   "null"; "return"; "super"; "switch"; "this"; "throw"; "true"; "try";
   "typeof"; "var"; "void"; "while"; "with"].

Definition is_identifier (s : string) : bool :=
  match s with
  | String c s' =>
      (Str.is_word c || Ascii.eqb c "$") && negb (Str.is_digit c)
      && forallb (fun c => Str.is_word c || Ascii.eqb c "$") (list_ascii_of_string s')
      && negb (bool_decide (s ∈ reserved))
  | "" => false
  end.

(** [new Function(`return function ${name}(){}`)()] followed by
    [Object.setPrototypeOf(value, new Fn())]: the object gets a constructor of
    that name. A name that is no identifier makes [Function] throw; so is a
    name that is not a string taken to do. *)
Definition rename (a : addr) (name : value) : M dec unit :=
  h ← gets dec_heap;
  match name, h !! a with
  | VStr n, Some o =>
      if is_identifier n then
        if frozen o then throw (TypeError "#<Object> is not extensible")
        else set_heap (<[a := set_cname n o]> h)
      else throw (SyntaxError "Unexpected token")
  | _, _ => throw (SyntaxError "Unexpected token")
  end.

(** [delete value[key]] in strict code. *)
Definition remove (a : addr) (key : string) : M dec unit :=
  h ← gets dec_heap;
  match h !! a with
  | Some o =>
      if frozen o && bool_decide (is_Some (Props.lookup key (props o)))
      then throw (TypeError "Cannot delete property")
      else set_heap (<[a := set_props (Props.delete key (props o)) o]> h)
  | None => mret tt
  end.

(** The allocation of a fresh object, the result being its reference. *)
Definition new (o : object) : M dec value :=
  h ← gets dec_heap;
  let '(h', a) := alloc h o in
  _ ← set_heap h';
  mret (VRef a).

(** The flags that [new RegExp] accepts: letters of [dgimsuvy], each once,
    and not [u] together with [v]. *)
Definition valid_flags (flags : string) : bool :=
  let l := list_ascii_of_string flags in
  forallb (Str.one_of "dgimsuvy") l && bool_decide (NoDup l)
  && negb (existsb (Ascii.eqb "u") l && existsb (Ascii.eqb "v") l).

(** [new RegExp(source, flags)]; an empty source reads [(?:)]. The syntax
    of [source] is not modelled: the sources of the theorems are those of
    regular expressions that exist, which the constructor accepts with the
    same flags. *)
Definition new_RegExp (source flags : string) : M dec value :=
  if valid_flags flags
  then new (Object (KRegExp (if String.eqb source "" then "(?:)" else source) flags)
                   "RegExp" false [])
  else throw (SyntaxError "Invalid regular expression flags").

(** [Symbol(description)]: the address reserved for it is its identity. *)
Definition new_Symbol (description : string) : M dec value :=
  h ← gets dec_heap;
  let '(h', id) := alloc h (Object KObject "Symbol" true []) in
  _ ← set_heap h';
  mret (VSym id (Some description)).

(** The first statement of [revive]: on the root call, which comes last, the
    root is known and the deferred references are restored. *)
Definition restore_refs (key : string) (v : value) : M dec unit :=
  if String.eqb key "" then
    _ ← set_root v;
    rs ← gets refs;
    _ ← mapM restore rs;
    mret tt
  else mret tt.

(** The rest of [revive]: the dispatch on the key and on the tag. *)
Definition revive_value (this : value) (key : string) (v : value) : M dec value :=
  if String.eqb key MARKER then mret v
  else
    h ← gets dec_heap;
    match v with
    | VRef a =>
        if isObject h v && truthy (Get h v MARKER) then
          let name := Get h v MARKER in
          _ ← (if negb (strict_eq name (VStr "Object")) then rename a name
               else mret tt);
          _ ← remove a MARKER;
          mret v
        else mret v
    | VStr s =>
        if Str.startsWith s "_function_" then
          match match_ function_re s with
          | Some [_; Some name; Some source] =>
              new (Object (KRevived name source) "Function" false [])
          | _ => throw (TypeError "object null is not iterable")
          end
        else if Str.startsWith s "_regexp_" then
          match match_ regexp_re s with
          | Some [_; Some flags; Some source] => new_RegExp source flags
          | _ => throw (TypeError "object null is not iterable")
          end
        else if Str.startsWith s "_date_" then
          new (Object (KDate (Date.parse (Str.replace "_date_" "" s))) "Date" false [])
        else if Str.startsWith s "_duplicate_" then
          rs ← gets refs;
          _ ← set_refs (rs ++ [Ref key this (Str.replace "_duplicate_" "" s)]);
          mret VNull
        else if Str.startsWith s "_symbol_" then
          new_Symbol (Str.replace "_symbol_" "" s)
        else if String.eqb s "_undefined_" then mret VUndef
        else if String.eqb s "_-Infinity_" then mret (VNum neg_infinity)
        else if String.eqb s "_Infinity_" then mret (VNum infinity)
        else if String.eqb s "_NaN_" then mret (VNum nan)
        else mret v
    | _ => mret v
    end.

Definition revive (this : value) (key : string) (v : value) : M dec value :=
  _ ← restore_refs key v;
  revive_value this key v.

(** ** [JSON.parse] with a reviver function *)

(** The value that a JSON text denotes, built in the heap; of two members
    with one key the later one stays. *)
Fixpoint build (j : json) (h : heap) : heap * value :=
  match j with
  | JNull => (h, VNull)
  | JBool b => (h, VBool b)
  | JNum f => (h, VNum f)
  | JStr s => (h, VStr s)
  | JArr l =>
      let '(h, vs) :=
        (fix elements (l : list json) (h : heap) : heap * list value :=
           match l with
           | [] => (h, [])
           | j :: l' =>
               let '(h, v) := build j h in
               let '(h, vs) := elements l' h in (h, v :: vs)
           end) l h in
      let '(h, a) :=
        alloc h (Object (KArray (length vs)) "Array" false
                   (imap (fun i v => (Str.of_nat i, v)) vs)) in
      (h, VRef a)
  | JObj l =>
      let '(h, ps) :=
        (fix members (l : list (string * json)) (h : heap)
             : heap * list (string * value) :=
           match l with
           | [] => (h, [])
           | (k, j) :: l' =>
               let '(h, v) := build j h in
               let '(h, ps) := members l' h in (h, (k, v) :: ps)
           end) l h in
      let '(h, a) :=
        alloc h (Object KObject "Object" false
                   (fold_left (fun ps p => Props.set p.1 p.2 ps) ps [])) in
      (h, VRef a)
  end.

(** [CreateDataProperty] and [[[Delete]]] as [JSON.parse] calls them: a
    refusal is not an error. *)
Definition put_element (a : addr) (k : string) (v : value) : M dec unit :=
  h ← gets dec_heap;
  match h !! a with
  | Some o =>
      if frozen o then mret tt
      else match v with
           | VUndef => set_heap (<[a := set_props (Props.delete k (props o)) o]> h)
           | _ => set_heap (<[a := write k v o]> h)
           end
  | None => mret tt
  end.

(** The loop of [InternalizeJSONProperty] over the members of the value
    [val], with [recur] for the calls on the members. *)
Definition internalize_members (recur : value -> string -> M dec value)
    (val : value) : M dec unit :=
  h ← gets dec_heap;
  match val with
  | VRef a =>
      match h !! a with
      | Some o =>
          let ks := match okind o with
                    | KArray len => Str.of_nat <$> seq 0 len
                    | _ => (props o).*1
                    end in
          _ ← mapM (fun k =>
                 newElement ← recur val k;
                 put_element a k newElement) ks;
          mret tt
      | None => mret tt
      end
  | _ => mret tt
  end.

(** [InternalizeJSONProperty] of ECMAScript: the members first, then the
    reviver on the value itself. *)
Definition internalize (recur : value -> string -> M dec value)
    (holder : value) (name : string) : M dec value :=
  h ← gets dec_heap;
  let val := Get h holder name in
  _ ← internalize_members recur val;
  revive holder name val.

(** [fuel] bounds the nesting of the calls. *)
Fixpoint InternalizeJSONProperty (fuel : nat) (holder : value) (name : string)
    : M dec value :=
  match fuel with
  | O => throw OutOfFuel
  | S fuel => internalize (InternalizeJSONProperty fuel) holder name
  end.

Fixpoint height (j : json) : nat :=
  match j with
  | JArr l => S (foldr (fun j n => height j `max` n) 0 l)
  | JObj l => S (foldr (fun m n => height m.2 `max` n) 0 l)
  | _ => 0
  end.

(** [JSON.parse(text, revive)] on the syntax tree of a well formed text. *)
Definition JSON_parse (h : heap) (text : json) : heap * result value :=
  let '(h, unfiltered) := build text h in
  let '(h, wrapper) := alloc h (wrapper_of unfiltered) in
  let '(st, r) :=
    InternalizeJSONProperty (S (height text)) (VRef wrapper) "" (Dec h [] VUndef) in
  (dec_heap st, r).

(** [parse(data)] *)
Definition parse (h : heap) (data : json) : heap * result value :=
  JSON_parse h data.

(** ** The call of a revived function *)

Section Call.

(** [safeEval] of the package safe-eval on the text of a function
    expression: the function that the text denotes, from the list of its
    arguments to its result, or [None] when the evaluation throws. *)
Variable safeEval : string -> option (list value -> value).

(** The wrapper that [revive] returns for a function tag,
    [(...args) => { const f = safeEval(`(${source})`); f(...args); }]:
    the source is evaluated at each call, the function is applied to the
    arguments, and the body ends without a [return]. *)
Definition call_revived (source : string) (args : list value) : result value :=
  match safeEval ("(" +:+ source +:+ ")") with
  | Some f => let _ := f args in Ok VUndef
  | None => Throw (SyntaxError "safeEval")
  end.

(** [fn(...args)] for a revived function. *)
Definition call (h : heap) (fn : value) (args : list value) : result value :=
  match kind_of h fn with
  | Some (KRevived _ source) => call_revived source args
  | _ => Throw (TypeError "not a revived function")
  end.

End Call.

(** ** Definitions that the statements use *)

Module Spec.

(** Every character of [s] is in the class [p]. *)
Fixpoint all (p : ascii -> bool) (s : string) : bool :=
  match s with
  | String c s' => p c && all p s'
  | "" => true
  end.

Fixpoint last (s : string) : option ascii :=
  match s with
  | String c "" => Some c
  | String _ s' => last s'
  | "" => None
  end.

(** The check as the specification words it: the trimmed text starts with
    an opening bracket, an opening brace or a quote, and ends with a closing
    bracket, a closing brace or a quote. *)
Definition looksLikeJSON (text : string) : bool :=
  let t := Str.trim text in
  match t with
  | String c _ =>
      Str.one_of (String Str.DQ "[{") c
      && match last t with
         | Some d => Str.one_of (String Str.DQ "]}") d
         | None => false
         end
  | "" => false
  end.

End Spec.

Module Norm.

(** The scanner as a recursion over the text still to read: [p2] and [p1]
    are the two characters read last, the head of the text is [code[i]], and
    the result is what the scan adds to [newCode]. *)
Fixpoint scan (st : scanner) (p2 p1 : option ascii) (s : string) : string :=
  match s with
  | "" => ""
  | String c s' =>
      let st' := switch_mode st p2 p1 c (Str.at_ s' 0) in
      if negb (inBlockComment st') && negb (inLineComment st')
      then String c (scan st' p1 (Some c) s')
      else scan st' p1 (Some c) s'
  end.

(** No slash of [s] is followed by a slash or a star. *)
Fixpoint no_opener (s : string) : bool :=
  match s with
  | String c s' =>
      negb (Ascii.eqb c "/" && (Str.is_chr (Str.at_ s' 0) "*" || Str.is_chr (Str.at_ s' 0) "/"))
      && no_opener s'
  | "" => true
  end.

Definition not_LF (c : ascii) : bool := negb (Ascii.eqb c Str.LF).

End Norm.

(** ** Predicates on the states of the decoder *)




(** ** The cases of the encoder *)

(** The values that the encoder does not tag by their type: a boolean,
    [null], and a reference to an object that is no regular expression and
    no function. *)
Definition walkable (h : heap) (v : value) : bool :=
  match v with
  | VNull | VBool _ => true
  | VRef a =>
      match h !! a with
      | Some o => match okind o with
                  | KObject | KArray _ | KDate _ => true
                  | _ => false
                  end
      | None => true
      end
  | _ => false
  end.

(** The result of [replace] under a key other than the root's, for a value
    that is no string, no number, no symbol, not [undefined] and no regular
    expression or function: a boolean, [null] or a container. *)
Definition walk (depth : Z) (key : string) (v : value) (h : heap)
    (path : list nat) (t : tracker) (stk : list value) (ks : list string)
    : enc * result value :=
  if (depth <=? Z.of_nat (length stk))%Z then
    (Enc h (Some (Tracker (objects t) stk ks)) path,
     Ok (VStr match kind_of h v with
              | Some (KArray len) => "[Array(" +:+ Str.of_nat len +:+ ")]"
              | _ => "[Object]"
              end))
  else
    match List.find (fun o => strict_eq o.2 v) (objects t) with
    | None =>
        (Enc (attach_name h v)
             (Some (Tracker (objects t ++ [(Str.join "." (ks ++ [key]), v)])
                            (v :: stk) (ks ++ [key])))
             path, Ok v)
    | Some found =>
        (Enc h (Some (Tracker (objects t) stk ks)) path,
         Ok (VStr ("_duplicate_" +:+ found.1)))
    end.


(** ** The walks of [get] that the model follows

    [Get] reads own properties. The walk of [baseGet] along a path is that
    of the engine when every step reads an own property, or ends the walk on
    a key that the object neither has nor inherits: an ordinary object made
    by [Object] inherits the names of [Object.prototype] and no other, an
    array has no index but its own. A step into a primitive value, into a
    function, a date or a regular expression, or into an instance of a
    class is outside the model. *)

(** The names that every ordinary object inherits from [Object.prototype]. *)
Definition object_prototype_names : list string :=
  ["constructor"; "__defineGetter__"; "__defineSetter__"; "hasOwnProperty";
   "__lookupGetter__"; "__lookupSetter__"; "isPrototypeOf";
   "propertyIsEnumerable"; "toString"; "valueOf"; "__proto__";
   "toLocaleString"].

Definition inherited (k : string) : bool :=
  bool_decide (k ∈ object_prototype_names).

Fixpoint own_walk (h : heap) (v : value) (path : list string) : bool :=
  match path with
  | [] => true
  | k :: rest =>
      match v with
      | VUndef | VNull => true
      | VRef a =>
          match h !! a with
          | Some o =>
              match Props.lookup k (props o) with
              | Some x => own_walk h x rest
              | None =>
                  match okind o with
                  | KObject => String.eqb (cname o) "Object" && negb (inherited k)
                  | KArray _ => bool_decide (is_Some (to_index k))
                  | _ => false
                  end
              end
          | None => false
          end
      | _ => false
      end
  end.

(** The paths on which [get] of the model is [get] of lodash: a path
    without brackets, which lodash cuts at its dots as [castPath] does, and
    whose walk is within the model. *)
Definition get_modelled (h : heap) (object : value) (path : string) : bool :=
  Spec.all (Str.none_of "[]") path && own_walk h object (castPath h object path).

(** The value that the root call assigns to the key [k] of a root object
    whose only member is a duplicate marker with the path [p]; the root is
    the object that [parse] allocates first in the heap [h]. *)
Definition resolved (h : heap) (k p : string) : value :=
  let b := length h in
  if String.eqb p "root" then VRef b
  else get (h ++ [Object KObject "Object" false [(k, VNull)]; wrapper_of (VRef b)])
         (VRef b) (Str.replace "root." "" p).
(** ** The footprint of the encoder *)

(** The objects to which [replace] attaches a name: objects that can be
    written to, are no arrays and no functions, and whose constructor has a
    name, other than [Object]. *)
Definition named_instance (h : heap) (o : object) : bool :=
  negb (frozen o) && negb (is_array (okind o)) && negb (is_callable (okind o))
  && truthy (constructor_name h o)
  && negb (strict_eq (constructor_name h o) (VStr "Object")).

(** [o'] is [o], or [o] with the name of its constructor, as the heap [h]
    has it, attached under the marker key; the latter only for the objects
    of [named_instance]. *)
Definition marked (h : heap) (o o' : object) : Prop :=
  o' = o
  ∨ (named_instance h o = true
     ∧ o' = set_props (Props.set MARKER (constructor_name h o) (props o)) o).

(** [h'] has the objects of [h] and no other, each at its address, as it
    was or with the name of its constructor attached. *)
Definition frame (h h' : heap) : Prop :=
  length h' = length h
  ∧ ∀ a o, h !! a = Some o → ∃ o', h' !! a = Some o' ∧ marked h o o'.

(** The entries of [objects] after the first, which is the root. *)
Definition objs (st : enc) : list (string * value) :=
  match enc_vars st with Some t => tail (objects t) | None => [] end.

(** The value [v], if it is one of the objects of [h0] to which [replace]
    attaches a name, has the name in [h]. *)
Definition attached (h0 h : heap) (v : value) : Prop :=
  ∀ a o, v = VRef a → h0 !! a = Some o → named_instance h0 o = true →
    ∃ o', h !! a = Some o'
      ∧ Props.lookup MARKER (props o') = Some (constructor_name h0 o).

(** The invariant of the traversal: the heap is in the frame of [h0], and
    every value recorded after the root has its name attached. *)
Definition Inv (h0 : heap) (st : enc) : Prop :=
  frame h0 (enc_heap st) ∧ ∀ e, e ∈ objs st → attached h0 (enc_heap st) e.2.

Definition keeps (h0 : heap) {A} (m : M enc A) : Prop :=
  ∀ st, Inv h0 st → Inv h0 (m st).1.

(** The state in which a run of [stringify] ends, or stops with an
    exception. *)
Definition final_state (h : heap) (data : value) (maxDepth : option Z) : enc :=
  let '(h1, wrapper) := alloc h (wrapper_of data) in
  (SerializeJSONProperty (S (length h1)) (depth_option maxDepth)
     (VRef wrapper) "" (Enc h1 None [])).1.

(** The values that the run has recorded in [objects] after the root: those
    that [replace] met for the first time, above the depth limit, on the
    lines on which it attaches the name. *)
Definition visited (h : heap) (data : value) (maxDepth : option Z) : list value :=
  (objs (final_state h data maxDepth)).*2.

(** The heaps on which [call_toJSON] is all there is to [toJSON]: no object
    has a property [toJSON] of its own that holds a function. What a method
    of the caller does when the serialization calls it is the caller's. *)
Definition no_own_toJSON (h : heap) : bool :=
  forallb (fun o => match Props.lookup "toJSON" (props o) with
                    | Some v => negb (default false (is_callable <$> kind_of h v))
                    | None => true
                    end) h.

(** A computation of the encoder that keeps the heap in its frame. *)
Definition framed {A} (m : M enc A) : Prop :=
  ∀ st, frame (enc_heap st) (enc_heap (m st).1).

(** ** Candidates of a match *)

(** [r] matches at position [i] of a text, from [s] to [t] at position [j]. *)
Definition accepts (r : regex) (i : nat) (s : string) (j : nat) (t : string) : Prop :=
  ∃ c, (c, j, t) ∈ run r i s.

(** ** The text of a date *)

(** The text [YYYY-MM-DDTHH:mm:ss.sssZ] of the seven fields. *)
Definition iso (y m d hh mm ss ms : Z) : string :=
  Date.pad 4 y +:+ "-" +:+ Date.pad 2 m +:+ "-" +:+ Date.pad 2 d +:+ "T"
  +:+ Date.pad 2 hh +:+ ":" +:+ Date.pad 2 mm +:+ ":" +:+ Date.pad 2 ss
  +:+ "." +:+ Date.pad 3 ms +:+ "Z".

(** The time values whose year has four digits, 0000 to 9999. *)
Definition four_digit_year (t : Z) : Prop :=
  (0 <= (Date.civil (t / Date.msPerDay)).1.1 <= 9999)%Z.

(** The time values of a [Date] that is valid: at most 8.64e15
    milliseconds from the epoch. *)
Definition time_value (t : Z) : Prop := (Z.abs t <= 8640000000000000)%Z.

(** ** The extended values *)

(** The extended values of the claim, with what the run time guarantees of
    them: the flags of a regular expression are valid, its source is not
    empty and has no line terminator; the year of a date has four digits; a
    symbol has a description, and its identity is one of the heap. A
    regular expression and a date have no enumerable property of their own
    (none that would stand for [source], [flags] or [toJSON]). *)
Inductive extended (h : heap) : value -> Prop :=
| ext_regexp a o source flags :
    h !! a = Some o -> okind o = KRegExp source flags -> props o = [] ->
    valid_flags flags = true -> source <> "" ->
    Spec.all Str.is_dot source = true ->
    extended h (VRef a)
| ext_date a o t :
    h !! a = Some o -> okind o = KDate (Some t) -> props o = [] ->
    four_digit_year t ->
    extended h (VRef a)
| ext_symbol id description :
    (id < length h)%nat -> extended h (VSym id (Some description))
| ext_undefined : extended h VUndef
| ext_nan : extended h (VNum nan)
| ext_infinity : extended h (VNum infinity)
| ext_neg_infinity : extended h (VNum neg_infinity).

(** [y] in the heap [h'] is observed as [x] in the heap [h] is: a new
    regular expression with the same source and flags, a new date with the
    same time value, a new symbol with the same description, or the same
    sentinel. What is new is at no address of [h]; the new symbol is
    another one than [x]. *)
Inductive same_behaviour (h : heap) : value -> heap -> value -> Prop :=
| same_regexp a o source flags h' g o' :
    h !! a = Some o -> okind o = KRegExp source flags ->
    h' !! g = Some o' -> okind o' = KRegExp source flags ->
    (length h <= g)%nat ->
    same_behaviour h (VRef a) h' (VRef g)
| same_date a o t h' g o' :
    h !! a = Some o -> okind o = KDate (Some t) ->
    h' !! g = Some o' -> okind o' = KDate (Some t) ->
    (length h <= g)%nat ->
    same_behaviour h (VRef a) h' (VRef g)
| same_symbol id description h' id' :
    (length h <= id')%nat -> strict_eq (VSym id' (Some description))
                               (VSym id (Some description)) = false ->
    same_behaviour h (VSym id (Some description)) h' (VSym id' (Some description))
| same_undefined h' : same_behaviour h VUndef h' VUndef
| same_number f h' :
    PrimFloat.is_finite f = false -> same_behaviour h (VNum f) h' (VNum f).

(** The properties of the root object [{ k: v }] after the reviver has
    returned [v] for the member: [undefined] deletes the key. *)
Definition member (k : string) (v : value) : list (string * value) :=
  match v with
  | VUndef => []
  | _ => [(k, v)]
  end.

(** The tagged string that the encoder writes for an extended value. *)
Definition tag_of (h : heap) (x : value) : string :=
  match x with
  | VRef a =>
      match okind <$> h !! a with
      | Some (KRegExp source flags) => "_regexp_" +:+ flags +:+ "|" +:+ source
      | Some (KDate (Some t)) => "_date_" +:+ Date.toISOString t
      | _ => ""
      end
  | VSym _ d => "_symbol_" +:+ default "" d
  | VUndef => "_undefined_"
  | VNum f =>
      if PrimFloat.is_nan f then "_NaN_"
      else if PrimFloat.eqb f infinity then "_Infinity_"
      else "_-Infinity_"
  | _ => ""
  end.

(** ** Plain values *)

(** The prefixes and the literals that the decoder takes for tags. *)
Definition tag_prefixes : list string :=
  ["_function_"; "_regexp_"; "_date_"; "_duplicate_"; "_symbol_"].

Definition tag_literals : list string :=
  ["_undefined_"; "_-Infinity_"; "_Infinity_"; "_NaN_"].

(** A string that neither side of the codec takes for a date or a tag. *)
Definition plain_string (s : string) : bool :=
  negb (test dateFormat s)
  && forallb (fun p => negb (Str.startsWith s p)) tag_prefixes
  && forallb (fun l => negb (String.eqb s l)) tag_literals.

(** A key that is one segment of a path in dot notation, and that neither
    callback treats apart: not empty, not the marker key, and free of dots
    and brackets. *)
Definition plain_key (k : string) : bool :=
  negb (String.eqb k "") && negb (String.eqb k MARKER)
  && Spec.all (Str.none_of ".[]") k.

(** The key of a member of a plain object: a plain key that is none of the
    names that an object inherits (as [constructor] is, which [replace]
    reads on the object) and no array index (the engine lists the index
    keys of an object first, whatever the order in which they were
    written). *)
Definition member_key (k : string) : bool :=
  plain_key k && negb (inherited k) && negb (bool_decide (is_Some (to_index k))).

(** The literals of plain values: finite numbers, plain strings, booleans,
    [null], arrays, and objects with distinct member keys. *)
Fixpoint plain (j : json) : bool :=
  match j with
  | JNull | JBool _ => true
  | JNum f => PrimFloat.is_finite f
  | JStr s => plain_string s
  | JArr l => forallb plain l
  | JObj l =>
      forallb (fun m => member_key m.1 && plain m.2) l
      && bool_decide (NoDup l.*1)
  end.

(** The literals whose objects have distinct keys. *)
Fixpoint distinct (j : json) : bool :=
  match j with
  | JArr l => forallb distinct l
  | JObj l => forallb (fun m => distinct m.2) l && bool_decide (NoDup l.*1)
  | _ => true
  end.

(** The members of a container with their keys; an array has its indices. *)
Definition members (j : json) : list (string * json) :=
  match j with
  | JArr l => imap (fun i e => (Str.of_nat i, e)) l
  | JObj l => l
  | _ => []
  end.

Definition is_container (j : json) : bool :=
  match j with JArr _ | JObj _ => true | _ => false end.

(** [j] can be met with [room] places left on the stack of the encoder:
    numbers and strings always, a boolean, [null] or a container when there
    is a place, which a container takes for its members. *)
Fixpoint fits (room : nat) (j : json) : bool :=
  match j with
  | JNum _ | JStr _ => true
  | JNull | JBool _ => (0 <? room)%nat
  | JArr l => (0 <? room)%nat && forallb (fits (room - 1)) l
  | JObj l => (0 <? room)%nat && forallb (fun m => fits (room - 1) m.2) l
  end.

(** The nesting that the depth [depth] of the encoder lets pass: the root
    is not counted, its members start with an empty stack. *)
Definition within (depth : Z) (j : json) : bool :=
  forallb (fun m => fits (Z.to_nat depth) m.2) (members j).

(** ** Structural equality *)

(** The object that stands for a container literal, given its properties. *)
Definition cell (j : json) (ps : list (string * value)) : object :=
  match j with
  | JArr l => Object (KArray (length l)) "Array" false ps
  | _ => Object KObject "Object" false ps
  end.

(** [v] has the structure of the literal [j]: the same primitive value
    (numbers as [===] compares them), or an array of the same length or an
    ordinary object whose properties are, key by key and in order, the
    members of [j]. *)
#[warnings="-register-all"]
Inductive shape (h : heap) : value -> json -> Prop :=
| shape_null : shape h VNull JNull
| shape_bool b : shape h (VBool b) (JBool b)
| shape_num f g : PrimFloat.eqb f g = true -> shape h (VNum f) (JNum g)
| shape_str s : shape h (VStr s) (JStr s)
| shape_node a o j :
    is_container j = true -> h !! a = Some o -> okind o = okind (cell j []) ->
    Forall2 (fun p m => p.1 = m.1 /\ shape h p.2 m.2) (props o) (members j) ->
    shape h (VRef a) j.


(** ** The layout of a literal in the heap *)

Definition leaf_value (j : json) : value :=
  match j with
  | JNull => VNull
  | JBool b => VBool b
  | JNum f => VNum f
  | JStr s => VStr s
  | _ => VUndef
  end.

(** The values that the tracker of the encoder can find again. *)
Definition is_prim (v : value) : bool :=
  match v with VNull | VBool _ => true | _ => false end.

Definition json_of (v : value) : json :=
  match v with VBool b => JBool b | _ => JNull end.

(** Members laid out one after the other from address [lo] to [hi]. *)
Inductive chain (P : nat -> nat -> string -> value -> json -> Prop)
    : nat -> nat -> list (string * value) -> list (string * json) -> Prop :=
| chain_nil lo : chain P lo lo [] []
| chain_cons lo mid hi k v e ps ms :
    P lo mid k v e -> chain P mid hi ps ms ->
    chain P lo hi ((k, v) :: ps) ((k, e) :: ms).

(** The value [v] that the slot [k] of [holder] holds has the structure of
    the literal [e], each container in a cell of its own: the cells of the
    members fill the addresses from [lo] on, the cell of the container comes
    last, and [hi] is the address after it. [Q] tells what each slot
    holds. *)
#[warnings="-register-all"]
Inductive laid (Q : value -> string -> json -> value -> Prop) (h : heap)
    : nat -> nat -> value -> string -> value -> json -> Prop :=
| laid_leaf lo holder k v e :
    is_container e = false -> Q holder k e v -> laid Q h lo lo holder k v e
| laid_node lo a holder k ps e :
    is_container e = true -> Q holder k e (VRef a) ->
    h !! a = Some (cell e ps) -> NoDup ps.*1 ->
    chain (fun lo hi k v e => laid Q h lo hi (VRef a) k v e) lo a ps (members e) ->
    laid Q h lo (S a) holder k (VRef a) e.

(** A slot holds the value of its leaf. *)
Definition literal (holder : value) (k : string) (e : json) (v : value) : Prop :=
  is_container e = false -> v = leaf_value e.

(** The path of a duplicate marker. *)
Definition marker_path (e : json) : option string :=
  match e with
  | JStr s =>
      if Str.startsWith s "_duplicate_"
      then Some (Str.replace "_duplicate_" "" s) else None
  | _ => None
  end.

(** The slots of a decoded text while its markers are restored: [all] are
    the deferred references, [done] those restored already, [objs] the
    entries of the tracker of the encoder. A reference is deferred for the
    slots of markers only; the slot of a marker restored holds the value
    found for its path, every other slot holds the value of its leaf. *)
Definition slot (all done : list ref) (objs : list (string * value))
    (holder : value) (k : string) (e : json) (v : value) : Prop :=
  (forall p, Ref k holder p ∈ all -> marker_path e = Some p)
  /\ match marker_path e with
     | Some p =>
         Ref k holder p ∈ all
         /\ (Ref k holder p ∈ done ->
             forall x, (p, x) ∈ objs -> is_prim x = true -> v = x)
     | None => is_container e = false -> v = leaf_value e
     end.

(** A value that is no reference into the addresses from [lo] to [hi], and
    one that is no reference out of them. *)
Definition outside (lo hi : nat) (v : value) : Prop :=
  match v with VRef a => ~ (lo <= a < hi)%nat | _ => True end.

Definition inside (lo hi : nat) (v : value) : Prop :=
  match v with VRef a => (lo <= a < hi)%nat | _ => True end.

(** ** The text that the encoder writes *)

(** [e] is the literal [j] as the encoder writes it, given the entries
    [objs] of its tracker: a number as printed, a string as it is, a boolean
    or [null] as it is or as the marker of an entry that holds it, a
    container member by member. *)
#[warnings="-register-all"]
Inductive coded (objs : list (string * value)) : json -> json -> Prop :=
| coded_num f : coded objs (JNum f) (JNum (printed f))
| coded_str s : coded objs (JStr s) (JStr s)
| coded_first j : is_prim (leaf_value j) = true -> coded objs j j
| coded_dup j p :
    is_prim (leaf_value j) = true -> (p, leaf_value j) ∈ objs ->
    coded objs j (JStr ("_duplicate_" +:+ p))
| coded_node j e :
    is_container j = true -> is_container e = true ->
    okind (cell j []) = okind (cell e []) ->
    Forall2 (fun m m' => m.1 = m'.1 /\ coded objs m.2 m'.2) (members j) (members e) ->
    coded objs j e.

Fixpoint assoc {A} (k : string) (l : list (string * A)) : option A :=
  match l with
  | [] => None
  | (k', x) :: l' => if String.eqb k' k then Some x else assoc k l'
  end.

(** The part of a text at a path of keys. *)
Fixpoint at_path (e : json) (q : list string) : option json :=
  match q with
  | [] => Some e
  | k :: q' =>
      match assoc k (members e) with
      | Some e' => at_path e' q'
      | None => None
      end
  end.

(** The part at a path that starts in one of the members [kes]. *)
Definition at_members (kes : list (string * json)) (q : list string) : option json :=
  match q with
  | [] => None
  | k :: q' =>
      match assoc k kes with
      | Some e' => at_path e' q'
      | None => None
      end
  end.

(** Each boolean and [null] among the entries [new] is recorded with the
    path, under the keys [ks], at which [kes] has it. *)
Definition positional (ks : list string) (kes : list (string * json))
    (new : list (string * value)) : Prop :=
  forall p x, (p, x) ∈ new -> is_prim x = true ->
    exists q, p = Str.join "." (ks ++ q) /\ Forall (fun k => plain_key k = true) q
              /\ at_members kes q = Some (json_of x).

(** ** The encoder on one member *)

(** What the encoder does on the member [k] of [holder], which holds the
    value [v] laid out as the plain literal [j] from [lo] to [hi]: with
    enough fuel, room on the stack, and a tracker that has met no object of
    the layout, it leaves the heap as it is, writes the text [e] of [j],
    adds the entries [new] to the tracker, and leaves on its stack and on
    its keys what the next call drops. *)
Definition encodes (h : heap) (depth : Z) (lo hi : nat) (holder : value)
    (k : string) (v : value) (j : json) : Prop :=
  forall fuel objs stk0 ks0 stk ks path b,
    plain j = true -> plain_key k = true ->
    holder = VRef b -> (hi <= b)%nat ->
    Get h holder k = v ->
    unwind holder stk0 ks0 = (stk, ks) ->
    fits (Z.to_nat depth - length stk) j = true ->
    Forall (fun o => outside lo hi o.2) objs ->
    Forall (fun a => (hi <= a)%nat) path ->
    (height j < fuel)%nat ->
    exists e new junk jk,
      SerializeJSONProperty fuel depth holder k
        (Enc h (Some (Tracker objs stk0 ks0)) path)
      = (Enc h (Some (Tracker (objs ++ new) (junk ++ stk) (ks ++ jk))) path,
         Ok (Some e))
      /\ length junk = length jk
      /\ Forall (inside lo hi) junk
      /\ Forall (fun o => inside lo hi o.2) new
      /\ (forall more, coded (objs ++ new ++ more) j e)
      /\ positional ks [(k, e)] new.

(** ** The decoder on one member *)

(** A key that neither callback treats apart. *)
Definition decode_key (k : string) : bool :=
  negb (String.eqb k "") && negb (String.eqb k MARKER).

(** A string that the decoder leaves as it is, or a duplicate marker. *)
Definition decodable_string (s : string) : bool :=
  plain_string s || Str.startsWith s "_duplicate_".

(** The texts whose only tags are duplicate markers. *)
Fixpoint decodable (e : json) : bool :=
  match e with
  | JNull | JBool _ => true
  | JNum f => PrimFloat.is_finite f
  | JStr s => decodable_string s
  | JArr l => forallb decodable l
  | JObj l =>
      forallb (fun m => decode_key m.1 && decodable m.2) l
      && bool_decide (NoDup l.*1)
  end.

(** The deferred reference [r] is for a slot of a container laid out
    between [lo] and [hi]. *)
Definition located (h : heap) (lo hi : nat) (r : ref) : Prop :=
  exists a e ps,
    container r = VRef a /\ (lo <= a < hi)%nat /\ h !! a = Some (cell e ps)
    /\ target r ∈ ps.*1 /\ target r ∈ (members e).*1.

(** What [JSON.parse] does with the reviver on the member [k] of [holder],
    which holds the value [v] that [build] laid out for the text [e] from
    [lo] to [hi]: the cells of the layout apart, the heap stays as it is;
    the markers of the text become deferred references [new] and leave
    [null] in their slots; every other slot keeps its value. *)
Definition decodes (objs : list (string * value)) (h : heap) (lo hi : nat)
    (holder : value) (k : string) (v : value) (e : json) : Prop :=
  forall fuel hc refs0 root0,
    decodable e = true -> decode_key k = true -> outside lo hi holder ->
    (forall a, (lo <= a < hi)%nat -> hc !! a = h !! a) ->
    Get hc holder k = v ->
    (height e < fuel)%nat ->
    exists h' new v',
      InternalizeJSONProperty fuel holder k (Dec hc refs0 root0)
      = (Dec h' (refs0 ++ new) root0, Ok v')
      /\ (forall a, ~ (lo <= a < hi)%nat -> h' !! a = hc !! a)
      /\ laid (slot new [] objs) h' lo hi holder k v' e
      /\ v' <> VUndef
      /\ Forall (fun r => (container r = holder /\ target r = k)
                          \/ located h' lo hi r) new.

(** ** Texts around a comment *)

Module Comment.

(** A character that leaves the scanner in no mode: no quote, no slash. *)
Definition quiet (c : ascii) : bool := Str.none_of (String Str.DQ "'`/") c.


(** The modes of the scanner inside a line comment and inside a block
    comment. *)
Definition in_line : scanner := Scanner None false true false.

End Comment.

(** ** Function tags *)

Definition not_CR (c : ascii) : bool := negb (Ascii.eqb c Str.CR).

(** The source that the encoder writes for a function whose [toString()]
    is [text]. *)
Definition written_source (text : string) : string :=
  if test native_re (cleanCode text) then "() => {}" else cleanCode text.

(** ** The depth limit *)



(** ** The variables of the replacer *)

(** [keys] is one longer than [stack]: the path of the value on top of the
    stack. *)
Definition tracker_ok (t : tracker) : Prop :=
  length (keys t) = S (length (stack t)).

(** * Properties *)

(** ** Lists of candidates *)

Lemma nonempty_elem {A} (l : list A) : l ≠ [] ↔ ∃ x, x ∈ l.
Proof.
  destruct l as [|x l]; split; try done.
  - intros [x Hx]. by apply elem_of_nil in Hx.
  - intros _. exists x. by left.
Qed.

Lemma bind_nonempty {A B} (f : A → list B) (l : list A) :
  l ≫= f ≠ [] ↔ ∃ x, x ∈ l ∧ f x ≠ [].
Proof.
  rewrite nonempty_elem. split.
  - intros [y Hy]. apply list_elem_of_bind in Hy as (x & Hy & Hx).
    exists x. split; [done|]. apply nonempty_elem. eauto.
  - intros (x & Hx & Hf). apply nonempty_elem in Hf as [y Hy].
    exists y. apply list_elem_of_bind. eauto.
Qed.

(** ** Strings *)

Lemma append_nil_r s : s +:+ "" = s.
Proof. induction s; simpl; congruence. Qed.

Lemma append_assoc (s t u : string) : (s +:+ t) +:+ u = s +:+ (t +:+ u).
Proof. induction s; simpl; congruence. Qed.

Lemma length_append (s t : string) :
  String.length (s +:+ t) = String.length s + String.length t.
Proof. induction s; simpl; congruence. Qed.

(** ** The matcher *)

Lemma elem_of_star p i s c j t :
  (c, j, t) ∈ star p i s ↔
  c = [] ∧ ∃ pre, s = pre +:+ t ∧ Spec.all p pre = true ∧ j = i + String.length pre.
Proof.
  revert i. induction s as [|a s IH]; intros i; simpl.
  - rewrite list_elem_of_singleton. split.
    + intros [= -> -> ->]. split; [done|]. exists "". simpl. auto with lia.
    + intros (-> & pre & Hs & _ & ->). destruct pre; [|done].
      simpl in Hs. subst t. simpl. do 2 f_equal. lia.
  - assert (Hnil : (c, j, t) ∈ [(([] : list (option string)), i, String a s)] ↔
       c = [] ∧ ∃ pre, String a s = pre +:+ t ∧ pre = "" ∧ j = i + String.length pre).
    { rewrite list_elem_of_singleton. split.
      - intros [= -> -> ->]. split; [done|]. exists "". simpl. auto with lia.
      - intros (-> & pre & Hs & -> & ->). simpl in *. subst. do 2 f_equal. lia. }
    destruct (p a) eqn:Hp.
    + rewrite elem_of_app, IH, Hnil. split.
      * intros [(-> & pre & -> & Hall & ->) | (-> & pre & Hs & -> & ->)].
        -- split; [done|]. exists (String a pre). simpl. rewrite Hp, Hall.
           auto with lia.
        -- split; [done|]. exists "". simpl in *. auto with lia.
      * intros (-> & pre & Hs & Hall & ->). destruct pre as [|b pre]; simpl in *.
        -- right. split; [done|]. exists "". simpl. auto with lia.
        -- injection Hs as <- ->. apply andb_true_iff in Hall as [_ Hall].
           left. split; [done|]. exists pre. auto with lia.
    + rewrite Hnil. split.
      * intros (-> & pre & Hs & -> & ->). split; [done|]. exists "". auto.
      * intros (-> & pre & Hs & Hall & ->). split; [done|].
        destruct pre as [|b pre]; simpl in *; [exists ""; auto|].
        injection Hs as <- ->. rewrite Hp in Hall. done.
Qed.

Lemma run_seq_nonempty r1 r2 i s :
  run (Seq r1 r2) i s ≠ [] ↔
  ∃ c1 i1 s1, (c1, i1, s1) ∈ run r1 i s ∧ run r2 i1 s1 ≠ [].
Proof.
  simpl. rewrite bind_nonempty. split.
  - intros ([[c1 i1] s1] & Hin & Hne). exists c1, i1, s1. split; [done|].
    apply bind_nonempty in Hne as (x & Hx & _). apply nonempty_elem. eauto.
  - intros (c1 & i1 & s1 & Hin & Hne). exists (c1, i1, s1). split; [done|].
    apply bind_nonempty. apply nonempty_elem in Hne as [[[c2 i2] s2] Hx].
    exists (c2, i2, s2). split; [done|]. done.
Qed.

Lemma run_chr_seq_nonempty p r i s :
  run (Seq (Chr p) r) i s ≠ [] ↔
  ∃ c s', s = String c s' ∧ p c = true ∧ run r (S i) s' ≠ [].
Proof.
  rewrite run_seq_nonempty. simpl. split.
  - intros (c1 & i1 & s1 & Hin & Hne). destruct s as [|c s']; [by apply elem_of_nil in Hin|].
    destruct (p c) eqn:Hp; [|by apply elem_of_nil in Hin].
    apply list_elem_of_singleton in Hin as [= -> -> ->]. eauto.
  - intros (c & s' & -> & Hp & Hne). rewrite Hp. exists [], (S i), s'.
    split; [by apply list_elem_of_singleton|done].
Qed.

Lemma search_bol r i s : i ≠ 0 → search (Seq Bol r) i s = None.
Proof.
  revert i. induction s as [|a s IH]; intros i Hi; simpl;
    destruct (Nat.eqb_spec i 0); try done; simpl.
  apply IH. lia.
Qed.

Lemma match_bol_none r s : match_ (Seq Bol r) s = None ↔ run r 0 s = [].
Proof.
  unfold match_. destruct s as [|a s]; simpl.
  - destruct (run r 0 "") as [|[[c j] t] l]; simpl; split; done.
  - destruct (run r 0 (String a s)) as [|[[c j] t] l] eqn:Hr; simpl.
    + rewrite search_bol by lia. done.
    + split; done.
Qed.

(** ** The source normalizer *)

Section Scanner.

Implicit Types (st : scanner) (s code : string) (c : ascii).

Ltac unfold_setters :=
  unfold set_inQuoteChar, set_inBlockComment, set_inLineComment,
    set_inRegexLiteral in *; simpl in *.

Lemma at_append_length pre c s : Str.at_ (pre +:+ String c s) (String.length pre) = Some c.
Proof. unfold Str.at_. induction pre; simpl; done. Qed.

Lemma at_append_ge pre s k :
  Str.at_ (pre +:+ s) (String.length pre + k) = Str.at_ s k.
Proof. unfold Str.at_. induction pre; simpl; done. Qed.

Lemma snoc_append pre c s : Str.snoc pre c +:+ s = pre +:+ String c s.
Proof. unfold Str.snoc. by rewrite append_assoc. Qed.

Lemma length_snoc pre c : String.length (Str.snoc pre c) = S (String.length pre).
Proof. unfold Str.snoc. rewrite length_append. simpl. lia. Qed.

(** The loop over the indices and the recursion over the text agree. *)
Lemma fold_scan_at rest : ∀ pre st out,
  let code := pre +:+ rest in
  let i := String.length pre in
  (fold_left (scan_at code) (seq i (String.length rest)) (st, out)).2
  = out +:+ Norm.scan st (Str.before code i 2) (Str.before code i 1) rest.
Proof.
  induction rest as [|c rest IH]; intros pre st out; simpl.
  { by rewrite append_nil_r. }
  assert (Hb1 : Str.before (pre +:+ String c rest) (S (String.length pre)) 1 = Some c).
  { unfold Str.before. simpl. rewrite Nat.sub_0_r. apply at_append_length. }
  assert (Hb2 : Str.before (pre +:+ String c rest) (S (String.length pre)) 2
                = Str.before (pre +:+ String c rest) (String.length pre) 1).
  { unfold Str.before. destruct (String.length pre) as [|n] eqn:Hn; simpl; [done|].
    by rewrite Nat.sub_0_r. }
  assert (Hn : Str.at_ (pre +:+ String c rest) (String.length pre + 1) = Str.at_ rest 0).
  { by rewrite at_append_ge. }
  rewrite at_append_length, Hn.
  set (st' := switch_mode st _ _ c _).
  assert (Hrest : ∀ out',
    (fold_left (scan_at (pre +:+ String c rest))
       (seq (S (String.length pre)) (String.length rest)) (st', out')).2
    = out' +:+ Norm.scan st' (Str.before (pre +:+ String c rest) (String.length pre) 1)
                 (Some c) rest).
  { intros out'. specialize (IH (Str.snoc pre c) st' out'). simpl in IH.
    rewrite snoc_append, length_snoc in IH. by rewrite IH, Hb1, Hb2. }
  destruct (negb (inBlockComment st') && negb (inLineComment st')) eqn:Hk.
  - rewrite Hrest. unfold Str.snoc. by rewrite append_assoc.
  - apply Hrest.
Qed.

Lemma removeCodeComments_scan code :
  removeCodeComments code = Norm.scan scanner_start None None code.
Proof.
  unfold removeCodeComments. pose proof (fold_scan_at code "" scanner_start "") as H.
  simpl in H. rewrite H. done.
Qed.

End Scanner.

Section Normalizer.

Implicit Types (st : scanner) (s t code : string) (c : ascii).

Ltac unfold_setters :=
  unfold set_inQuoteChar, set_inBlockComment, set_inLineComment,
    set_inRegexLiteral in *; simpl in *.

(** Outside a comment, a character that opens none leaves the scanner
    outside a comment. *)
Lemma switch_mode_stays_out st p2 p1 c n :
  inBlockComment st = false → inLineComment st = false →
  ((c =? "/")%char && (Str.is_chr n "*" || Str.is_chr n "/")) = false →
  inBlockComment (switch_mode st p2 p1 c n) = false
  ∧ inLineComment (switch_mode st p2 p1 c n) = false.
Proof.
  destruct st as [q b l r]. simpl. intros -> -> Hc.
  unfold switch_mode, no_mode; simpl.
  destruct ((c =? "/")%char), (Str.is_chr n "*"), (Str.is_chr n "/"); simpl in *;
    try discriminate;
    destruct q as [q|], r; simpl; unfold_setters;
    repeat (case_match; simpl in *; try done).
Qed.

Lemma scan_no_opener s : ∀ st p2 p1,
  inBlockComment st = false → inLineComment st = false →
  Norm.no_opener s = true → Norm.scan st p2 p1 s = s.
Proof.
  induction s as [|c s IH]; intros st p2 p1 Hb Hl Hs; simpl in *; [done|].
  apply andb_true_iff in Hs as [Hc Hs]. apply negb_true_iff in Hc.
  destruct (switch_mode_stays_out st p2 p1 c (Str.at_ s 0) Hb Hl Hc) as [Hb' Hl'].
  rewrite Hb', Hl'. simpl. f_equal. by apply IH.
Qed.

Lemma scan_length s : ∀ st p2 p1,
  (String.length (Norm.scan st p2 p1 s) ≤ String.length s)%nat.
Proof.
  induction s as [|c s IH]; intros st p2 p1; simpl; [done|].
  case_match; simpl; [apply le_n_S, IH|]. etrans; [apply IH|lia].
Qed.

Lemma scan_full s : ∀ st p2 p1,
  String.length (Norm.scan st p2 p1 s) = String.length s → Norm.scan st p2 p1 s = s.
Proof.
  induction s as [|c s IH]; intros st p2 p1; simpl; [done|].
  case_match; simpl.
  - intros [= Hlen]. f_equal. by apply IH.
  - intros Hlen.
    pose proof (scan_length s (switch_mode st p2 p1 c (Str.at_ s 0)) p1 (Some c)).
    lia.
Qed.

(** *** The removal of the line breaks with their indentation *)

Lemma run_indent_LF i s :
  ∃ j t l, run indent_re i (String Str.LF s) = ([], j, t) :: l ∧ i < j.
Proof.
  unfold indent_re. cbn [run]. rewrite Ascii.eqb_refl, bind_singleton.
  destruct (star Str.is_space (S i) s) as [|[[c j] t] l] eqn:Hs.
  { exfalso. destruct s as [|a s]; simpl in Hs; [done|].
    destruct (Str.is_space a); [|done]. by destruct (star Str.is_space (S (S i)) s). }
  assert (Hin : (c, j, t) ∈ star Str.is_space (S i) s) by (rewrite Hs; left).
  apply elem_of_star in Hin as (-> & pre & _ & _ & ->).
  rewrite bind_cons. simpl. eexists _, _, _. split; [done|]. lia.
Qed.

Lemma run_indent_other i c s : c ≠ Str.LF → run indent_re i (String c s) = [].
Proof.
  intros Hc. unfold indent_re. cbn [run].
  destruct (Ascii.eqb_spec Str.LF c); [congruence|]. done.
Qed.

Lemma remove_all_no_LF t : ∀ k i,
  Spec.all Norm.not_LF (remove_all indent_re k i t) = true.
Proof.
  induction t as [|c t IH]; intros k i; [done|].
  cbn [remove_all]. destruct k as [|k]; [|apply IH].
  destruct (decide (c = Str.LF)) as [->|Hc].
  - destruct (run_indent_LF i t) as (j & t' & l & -> & Hj).
    destruct (Nat.ltb_spec i j); [|lia]. apply IH.
  - rewrite run_indent_other by done. simpl. rewrite IH, andb_true_r.
    unfold Norm.not_LF. by destruct (Ascii.eqb_spec c Str.LF).
Qed.

Lemma remove_all_id t : ∀ i,
  Spec.all Norm.not_LF t = true → remove_all indent_re 0 i t = t.
Proof.
  induction t as [|c t IH]; intros i Ht; [done|].
  simpl in Ht. apply andb_true_iff in Ht as [Hc Ht].
  cbn [remove_all]. rewrite run_indent_other.
  - f_equal. by apply IH.
  - intros ->. done.
Qed.

Lemma remove_all_length r t : ∀ k i,
  (String.length (remove_all r k i t) ≤ String.length t)%nat.
Proof.
  induction t as [|c t IH]; intros k i; [done|].
  cbn [remove_all]. destruct k as [|k]; [|etrans; [apply IH|simpl; lia]].
  repeat case_match; simpl; try (apply le_n_S, IH).
  etrans; [apply IH|lia].
Qed.

(** *** [trim] *)

Lemma trimStart_length s : (String.length (Str.trimStart s) ≤ String.length s)%nat.
Proof. induction s as [|c s IH]; simpl; [done|]. case_match; simpl; lia. Qed.

Lemma trimEnd_length s : (String.length (Str.trimEnd s) ≤ String.length s)%nat.
Proof. induction s as [|c s IH]; simpl; [done|]. case_match; simpl; lia. Qed.

Lemma trimStart_full s :
  String.length (Str.trimStart s) = String.length s → Str.trimStart s = s.
Proof.
  destruct s as [|c s]; simpl; [done|]. case_match; [|done].
  pose proof (trimStart_length s). lia.
Qed.

Lemma trimEnd_full s :
  String.length (Str.trimEnd s) = String.length s → Str.trimEnd s = s.
Proof.
  induction s as [|c s IH]; simpl; [done|]. case_match; simpl; [done|].
  intros [= Hlen]. f_equal. by apply IH.
Qed.

Lemma trimStart_all p s : Spec.all p s = true → Spec.all p (Str.trimStart s) = true.
Proof.
  induction s as [|c s IH]; simpl; [done|]. intros [Hc Hs]%andb_true_iff.
  case_match; [by apply IH|]. simpl. by rewrite Hc, Hs.
Qed.

Lemma trimEnd_all p s : Spec.all p s = true → Spec.all p (Str.trimEnd s) = true.
Proof.
  induction s as [|c s IH]; simpl; [done|]. intros [Hc Hs]%andb_true_iff.
  case_match; [done|]. simpl. by rewrite Hc, IH.
Qed.

Lemma trimEnd_idemp s : Str.trimEnd (Str.trimEnd s) = Str.trimEnd s.
Proof.
  induction s as [|c s IH]; simpl; [done|].
  destruct (Str.is_space c && (Str.trimEnd s =? "")%string) eqn:Hc; simpl; [done|].
  by rewrite IH, Hc.
Qed.

Lemma trimStart_trimEnd s :
  Str.trimStart s = s → Str.trimStart (Str.trimEnd s) = Str.trimEnd s.
Proof.
  destruct s as [|c s]; simpl; [done|].
  destruct (Str.is_space c) eqn:Hc.
  - intros H. pose proof (trimStart_length s) as Hl. rewrite H in Hl. simpl in Hl. lia.
  - intros _. simpl. by rewrite Hc.
Qed.

Lemma trimStart_idemp s : Str.trimStart (Str.trimStart s) = Str.trimStart s.
Proof.
  induction s as [|c s IH]; simpl; [done|].
  destruct (Str.is_space c) eqn:Hc; [done|]. simpl. by rewrite Hc.
Qed.

Lemma trim_idemp s : Str.trim (Str.trim s) = Str.trim s.
Proof.
  unfold Str.trim. rewrite trimStart_trimEnd by apply trimStart_idemp.
  apply trimEnd_idemp.
Qed.

Lemma trim_length s : (String.length (Str.trim s) ≤ String.length s)%nat.
Proof.
  unfold Str.trim. etrans; [apply trimEnd_length|apply trimStart_length].
Qed.

Lemma trim_full s : String.length (Str.trim s) = String.length s → Str.trim s = s.
Proof.
  unfold Str.trim. intros H.
  pose proof (trimEnd_length (Str.trimStart s)). pose proof (trimStart_length s).
  assert (Hs : Str.trimStart s = s) by (apply trimStart_full; lia).
  rewrite Hs in *. by apply trimEnd_full.
Qed.

(** The normalized text has no line break and no blank at either end: the
    two last steps of [cleanCode] leave it as it is. *)
Lemma cleanCode_settled code :
  Str.trim (remove_all indent_re 0 0 (cleanCode code)) = cleanCode code.
Proof.
  unfold cleanCode at 1 2. rewrite remove_all_id.
  - apply trim_idemp.
  - unfold Str.trim. apply trimEnd_all, trimStart_all, remove_all_no_LF.
Qed.

Lemma cleanCode_length code :
  (String.length (cleanCode code) ≤ String.length code)%nat.
Proof.
  unfold cleanCode. etrans; [apply trim_length|]. etrans; [apply remove_all_length|].
  rewrite removeCodeComments_scan. apply scan_length.
Qed.

Lemma cleanCode_idempotent_iff code :
  cleanCode (cleanCode code) = cleanCode code
  ↔ removeCodeComments (cleanCode code) = cleanCode code.
Proof.
  split.
  - intros H. rewrite removeCodeComments_scan. apply scan_full.
    apply (f_equal String.length) in H.
    pose proof (scan_length (cleanCode code) scanner_start None None) as H1.
    unfold cleanCode at 1 in H. rewrite removeCodeComments_scan in H.
    pose proof (trim_length (remove_all indent_re 0 0
      (Norm.scan scanner_start None None (cleanCode code)))) as H2.
    pose proof (remove_all_length indent_re
      (Norm.scan scanner_start None None (cleanCode code)) 0 0) as H3.
    lia.
  - intros H. unfold cleanCode at 1. rewrite H. apply cleanCode_settled.
Qed.

End Normalizer.

(** C6, as the specification states it, fails: a slash, a line break and a
    slash normalize to two slashes, which the next pass reads as a line
    comment and drops. *)
Lemma cleanCode_not_idempotent_counterexample :
  let s := String "/" (String Str.LF "/") in
  cleanCode s = "//" ∧ cleanCode (cleanCode s) = "" ∧ cleanCode (cleanCode s) ≠ cleanCode s.
Proof. vm_compute. split_and!; [reflexivity..|discriminate]. Qed.

(** C6, amended: normalizing a normalized text changes nothing exactly
    when the comment scanner drops no character of the normalized text, and
    so whenever no slash of the normalized text is followed by a slash or a
    star. *)
Theorem cleanCode_idempotent code :
  (cleanCode (cleanCode code) = cleanCode code
   ↔ removeCodeComments (cleanCode code) = cleanCode code)
  ∧ (Norm.no_opener (cleanCode code) = true →
     cleanCode (cleanCode code) = cleanCode code).
Proof.
  split; [apply cleanCode_idempotent_iff|].
  intros H. apply cleanCode_idempotent_iff.
  rewrite removeCodeComments_scan. by apply scan_no_opener.
Qed.

Lemma cleanCode_idempotent_witness :
  let code := "function f(a) { return a + 1; // add one" in
  Norm.no_opener (cleanCode code) = true
  ∧ cleanCode (cleanCode code) = cleanCode code.
Proof.
  intros code. split; [vm_compute; reflexivity|].
  apply (cleanCode_idempotent code). vm_compute. reflexivity.
Defined.

(** ** [isJSON] *)

Lemma run_eol_nonempty i s : run Eol i s ≠ [] ↔ s = "".
Proof. destruct s; simpl; split; done. Qed.

(** What the pattern of [isJSON] accepts: a first character of its first
    class, a last character of its second class, and no line terminator in
    between. *)
Lemma isJSON_accepts text :
  is_Some (isJSON text) ↔
  ∃ c1 mid c2, text = String c1 (mid +:+ String c2 "")
    ∧ Str.one_of (String Str.DQ "[{}") c1 = true
    ∧ Spec.all Str.is_dot mid = true
    ∧ Str.one_of (String Str.DQ "]}") c2 = true.
Proof.
  rewrite <- not_eq_None_Some. unfold isJSON, isJSON_re.
  rewrite match_bol_none, run_chr_seq_nonempty. split.
  - intros (c1 & s' & -> & Hc1 & Hne).
    apply run_seq_nonempty in Hne as (c & j & t & Hstar & Hne).
    apply elem_of_star in Hstar as (-> & mid & -> & Hmid & ->).
    apply run_chr_seq_nonempty in Hne as (c2 & t' & -> & Hc2 & Hne).
    apply run_eol_nonempty in Hne as ->. eauto 10.
  - intros (c1 & mid & c2 & -> & Hc1 & Hmid & Hc2).
    exists c1, (mid +:+ String c2 ""). split_and!; [done..|].
    apply run_seq_nonempty. exists [], (1 + String.length mid), (String c2 "").
    split.
    + apply elem_of_star. split; [done|]. exists mid. done.
    + apply run_chr_seq_nonempty. exists c2, "". split_and!; [done..|].
      by apply run_eol_nonempty.
Qed.

(** C7, as the specification states it, fails: [isJSON] does not trim its
    input, so a text with a blank before the brace is refused although its
    trimmed form starts with a brace and ends with one. *)
Lemma isJSON_untrimmed_counterexample :
  Spec.looksLikeJSON " {}" = true ∧ isJSON " {}" = None.
Proof. split; vm_compute; reflexivity. Qed.

(** C7, amended: for a text that does not start with a closing brace,
    [isJSON] is truthy exactly when the text itself (not trimmed) has two
    characters or more, starts with an opening bracket, an opening brace or a
    quote, ends with a closing bracket, a closing brace or a quote, and has
    no line terminator between the two. *)
Theorem isJSON_iff text :
  Str.at_ text 0 ≠ Some "}"%char →
  is_Some (isJSON text) ↔
  ∃ c1 mid c2, text = String c1 (mid +:+ String c2 "")
    ∧ Str.one_of (String Str.DQ "[{") c1 = true
    ∧ Spec.all Str.is_dot mid = true
    ∧ Str.one_of (String Str.DQ "]}") c2 = true.
Proof.
  intros Hfirst. rewrite isJSON_accepts.
  assert (Hcls : ∀ c, c ≠ "}"%char →
    Str.one_of (String Str.DQ "[{}") c = Str.one_of (String Str.DQ "[{") c).
  { intros c Hc. unfold Str.one_of. simpl.
    destruct (Ascii.eqb_spec c "}"); [done|]. by rewrite !orb_false_r. }
  split; intros (c1 & mid & c2 & -> & Hc1 & Hmid & Hc2);
    exists c1, mid, c2; split_and!; try done.
  - rewrite <- Hcls; [done|]. intros ->. by apply Hfirst.
  - rewrite Hcls; [done|]. intros ->. by apply Hfirst.
Qed.

Lemma isJSON_iff_witness :
  is_Some (isJSON "[1]") ↔
  ∃ c1 mid c2, "[1]" = String c1 (mid +:+ String c2 "")
    ∧ Str.one_of (String Str.DQ "[{") c1 = true
    ∧ Spec.all Str.is_dot mid = true
    ∧ Str.one_of (String Str.DQ "]}") c2 = true.
Proof. apply (isJSON_iff "[1]"). vm_compute. discriminate. Defined.

(** ** Fresh objects at the end of the heap *)

Section Fresh.

Implicit Types (h l : heap) (o w : object).

Lemma lookup_fresh h o l : (h ++ o :: l) !! length h = Some o.
Proof. by rewrite list_lookup_middle. Qed.

Lemma lookup_fresh_S h o w l : (h ++ o :: w :: l) !! S (length h) = Some w.
Proof.
  replace (h ++ o :: w :: l) with ((h ++ [o]) ++ w :: l) by by rewrite <- app_assoc.
  rewrite list_lookup_middle; [done|]. rewrite length_app. simpl. lia.
Qed.

Lemma insert_fresh h o o' l : <[length h := o']> (h ++ o :: l) = h ++ o' :: l.
Proof. rewrite insert_app_r_alt by lia. by rewrite Nat.sub_diag. Qed.

End Fresh.

(** ** The restoration of the deferred references *)

Section Restore.

Implicit Types (h : heap) (st : dec) (r : ref) (v : value).







End Restore.





(** ** The root call of the encoder *)

Section Root.

Implicit Types (h : heap) (v : value) (o : object).

Lemma lookup_wrapper h o : (h ++ [o]) !! length h = Some o.
Proof. by rewrite list_lookup_middle. Qed.

Lemma Get_wrapper h v : Get (h ++ [wrapper_of v]) (VRef (length h)) "" = v.
Proof. unfold Get. by rewrite lookup_wrapper. Qed.

Lemma replace_root depth this v (st : enc) :
  replace depth this "" v st
  = (Enc (enc_heap st) (Some (Tracker [("root", v)] [] ["root"])) (enc_path st), Ok v).
Proof. done. Qed.

Lemma kind_of_app h o' a o :
  h !! a = Some o → kind_of (h ++ [o']) (VRef a) = Some (okind o).
Proof. intros H. unfold kind_of. by rewrite (lookup_app_l_Some _ _ _ _ H). Qed.




End Root.



(** ** The equations of [replace] *)

Section Replace.

Implicit Types (h : heap) (v this : value) (t : tracker) (st : enc).

Lemma replace_walk depth this key v st t :
  key ≠ "" → enc_vars st = Some t → walkable (enc_heap st) v = true →
  replace depth this key v st
  = walk depth key v (enc_heap st) (enc_path st) t
      (unwind this (stack t) (keys t)).1 (unwind this (stack t) (keys t)).2.
Proof.
  intros Hk Ht Hw. apply String.eqb_neq in Hk.
  unfold replace, walk. rewrite Hk. unfold mbind, M_bind, gets. rewrite Ht.
  destruct (unwind this (stack t) (keys t)) as [stk ks]. cbn [fst snd].
  unfold put_vars, modify. cbn [enc_heap enc_vars enc_path].
  destruct st as [h vars path]. cbn [enc_heap enc_vars enc_path] in *.
  destruct v as [| |b| | | |a]; try done; cbn [kind_of].
  - destruct (depth <=? _)%Z; [reflexivity|]. destruct (find _ _); reflexivity.
  - destruct (depth <=? _)%Z; [reflexivity|]. destruct (find _ _); reflexivity.
  - cbn [walkable] in Hw. destruct (h !! a) as [o|] eqn:Ho; cbn [fmap option_fmap option_map].
    + destruct (okind o) eqn:Hkind; try done;
        (destruct (depth <=? _)%Z; [reflexivity|]; destruct (find _ _); reflexivity).
    + destruct (depth <=? _)%Z; [reflexivity|]. destruct (find _ _); reflexivity.
Qed.

Lemma finite_not_infinite f :
  PrimFloat.is_finite f = true →
  PrimFloat.is_nan f = false ∧ PrimFloat.eqb f infinity = false
  ∧ PrimFloat.eqb f neg_infinity = false.
Proof.
  unfold PrimFloat.is_finite, PrimFloat.is_infinity.
  intros [Hnan Hinf]%negb_true_iff%orb_false_iff. split; [done|].
  rewrite !FloatAxioms.eqb_spec in *. rewrite FloatAxioms.abs_spec in Hinf.
  change (Prim2SF infinity) with (SpecFloat.S754_infinity false) in *.
  change (Prim2SF neg_infinity) with (SpecFloat.S754_infinity true).
  destruct (Prim2SF f) as [s|s| |s m e]; try destruct s; try done.
Qed.

(** A string that does not look like a date, and a finite number, pass. *)
Lemma replace_string depth this key s st t :
  key ≠ "" → enc_vars st = Some t → test dateFormat s = false →
  replace depth this key (VStr s) st
  = (Enc (enc_heap st)
         (Some (Tracker (objects t) (unwind this (stack t) (keys t)).1
                        (unwind this (stack t) (keys t)).2))
         (enc_path st), Ok (VStr s)).
Proof.
  intros Hk Ht Hd. apply String.eqb_neq in Hk.
  unfold replace. rewrite Hk. unfold mbind, M_bind, gets. rewrite Ht.
  destruct (unwind this (stack t) (keys t)) as [stk ks]. cbn. by rewrite Hd.
Qed.

Lemma replace_number depth this key f st t :
  key ≠ "" → enc_vars st = Some t → PrimFloat.is_finite f = true →
  replace depth this key (VNum f) st
  = (Enc (enc_heap st)
         (Some (Tracker (objects t) (unwind this (stack t) (keys t)).1
                        (unwind this (stack t) (keys t)).2))
         (enc_path st), Ok (VNum f)).
Proof.
  intros Hk Ht Hf. apply String.eqb_neq in Hk.
  unfold replace. rewrite Hk. unfold mbind, M_bind, gets. rewrite Ht.
  destruct (unwind this (stack t) (keys t)) as [stk ks]. cbn.
  destruct (finite_not_infinite f Hf) as (-> & -> & ->). done.
Qed.

End Replace.

(** ** The equations of the serializer *)

Section Serialize.

Context {S : Type}.

Lemma bind_ok {A B} (m : M S A) (f : A → M S B) st st1 a :
  m st = (st1, Ok a) → (m ≫= f) st = f a st1.
Proof. unfold mbind, M_bind. by intros ->. Qed.

Lemma bind_throw {A B} (m : M S A) (f : A → M S B) st st1 e :
  m st = (st1, Throw e) → (m ≫= f) st = (st1, Throw e).
Proof. unfold mbind, M_bind. by intros ->. Qed.

End Serialize.

Section SerializeValue.

Implicit Types (h : heap) (v : value) (st : enc) (o : object).

Lemma serialize_run recur depth holder key st st1 v :
  replace depth holder key
    (call_toJSON (enc_heap st) (Get (enc_heap st) holder key)) st = (st1, Ok v) →
  serialize recur depth holder key st = serialize_value recur v st1.
Proof.
  intros H. unfold serialize. unfold mbind at 1, M_bind at 1, gets at 1.
  by rewrite (bind_ok _ _ _ _ _ H).
Qed.

Lemma serialize_value_object recur a o st :
  enc_heap st !! a = Some o → is_callable (okind o) = false →
  is_array (okind o) = false → a ∉ enc_path st →
  serialize_value recur (VRef a) st
  = match mapM (fun k => e ← recur (VRef a) k; mret (k, e)) (props o).*1
            (Enc (enc_heap st) (enc_vars st) (a :: enc_path st)) with
    | (st2, Ok l) =>
        (Enc (enc_heap st2) (enc_vars st2) (tail (enc_path st2)),
         Ok (Some (JObj (members_of l))))
    | (st2, Throw e) => (st2, Throw e)
    end.
Proof.
  intros Ho Hc Ha Hp. unfold serialize_value.
  unfold mbind at 1, M_bind at 1, gets at 1. rewrite Ho, Hc.
  unfold mbind at 1, M_bind at 1, enter.
  unfold mbind at 1, M_bind at 1, gets at 1.
  rewrite bool_decide_eq_false_2 by done.
  unfold put_path, modify.
  destruct (okind o) eqn:Hk; try done;
    unfold mbind at 1, M_bind at 1; unfold mbind at 1, M_bind at 1;
    (destruct (mapM _ _ _) as [st2 [l|e]]; [|done]);
    reflexivity.
Qed.

Lemma serialize_value_array recur a o len st :
  enc_heap st !! a = Some o → okind o = KArray len → a ∉ enc_path st →
  serialize_value recur (VRef a) st
  = match mapM (fun i => e ← recur (VRef a) (Str.of_nat i); mret (default JNull e))
            (seq 0 len) (Enc (enc_heap st) (enc_vars st) (a :: enc_path st)) with
    | (st2, Ok l) =>
        (Enc (enc_heap st2) (enc_vars st2) (tail (enc_path st2)),
         Ok (Some (JArr l)))
    | (st2, Throw e) => (st2, Throw e)
    end.
Proof.
  intros Ho Hk Hp. unfold serialize_value.
  unfold mbind at 1, M_bind at 1, gets at 1. rewrite Ho, Hk. cbn [is_callable].
  unfold mbind at 1, M_bind at 1, enter.
  unfold mbind at 1, M_bind at 1, gets at 1.
  rewrite bool_decide_eq_false_2 by done.
  unfold put_path, modify.
  unfold mbind at 1, M_bind at 1; unfold mbind at 1, M_bind at 1.
  destruct (mapM _ _ _) as [st2 [l|e]]; [|done]. reflexivity.
Qed.

End SerializeValue.
(** ** The attachment of the constructor name *)

Section Attach.

Implicit Types (h : heap) (o : object).

Lemma constructor_name_inherited h o :
  Props.lookup "constructor" (props o) = None → constructor_name h o = VStr (cname o).
Proof. unfold constructor_name. by intros ->. Qed.

Lemma attach_name_unnamed h a o :
  h !! a = Some o →
  truthy (constructor_name h o)
  && negb (strict_eq (constructor_name h o) (VStr "Object")) = false →
  attach_name h (VRef a) = h.
Proof.
  intros Ha H. unfold attach_name. rewrite Ha. cbv zeta.
  by rewrite <- andb_assoc, H, andb_false_r.
Qed.

Lemma attach_name_Object h a ps :
  h !! a = Some (Object KObject "Object" false ps) →
  Props.lookup "constructor" ps = None → attach_name h (VRef a) = h.
Proof.
  intros Ha Hc. apply (attach_name_unnamed _ _ _ Ha).
  by rewrite constructor_name_inherited.
Qed.

End Attach.

(** ** A duplicate marker as the only member of the root *)

Section SingleMarker.

Implicit Types (h : heap) (k p : string).

Lemma prefix_nil s : String.prefix "" s = true.
Proof. by destruct s. Qed.

#[local] Arguments get : simpl never.

Ltac eval_dec k :=
  repeat first
    [ progress cbn
    | progress (unfold mbind, M_bind, mret, M_ret, gets, modify, set_heap,
        set_refs, set_root, put_element, assign, restore, revive,
        restore_refs, revive_value, Get, Set_, write, isObject, internalize, internalize_members)
    | rewrite lookup_fresh | rewrite lookup_fresh_S | rewrite insert_fresh
    | rewrite String.eqb_refl | rewrite prefix_nil
    | match goal with
      | H : String.eqb _ _ = _ |- _ => rewrite H
      end ].

Lemma prefix_refl_append s t : String.prefix s (s +:+ t) = true.
Proof.
  induction s as [|c s IH]; simpl; [by destruct t|].
  destruct (ascii_dec c c); [done|congruence].
Qed.

Lemma parse_single_marker h k p :
  k ≠ "" → k ≠ MARKER →
  parse h (JObj [(k, JStr ("_duplicate_" +:+ p))])
  = (h ++ [Object KObject "Object" false [(k, resolved h k p)];
           wrapper_of (VRef (length h))],
     Ok (VRef (length h))).
Proof.
  intros Hk Hm.
  apply String.eqb_neq in Hk as Hk'. apply String.eqb_neq in Hm as Hm'.
  unfold parse, JSON_parse. cbn [build fold_left Props.set fst snd alloc].
  rewrite length_app. cbn [length height foldr]. rewrite Nat.add_1_r.
  rewrite <- app_assoc. cbn [app].
  unfold resolved.
  destruct (String.eqb p "root") eqn:Hp; eval_dec k; reflexivity.
Qed.

End SingleMarker.

(** C2: for [a = {}; a.self = a], wherever [a] lives in the heap,
    [stringify(a)] yields the text of an object whose member [self] is the
    marker of the root, and [parse] of that text yields a new object [b]
    whose property [self] is [b] itself: a reference to the decoded root, no
    copy and no placeholder. *)
Theorem cycle_preserved h a :
  h !! a = Some (Object KObject "Object" false [("self", VRef a)]) →
  ∃ h1 j h2 b,
    stringify h (VRef a) None = (h1, Ok (Some j))
    ∧ parse h1 j = (h2, Ok (VRef b))
    ∧ Get h2 (VRef b) "self" = VRef b
    ∧ h !! b = None.
Proof.
  intros Ha.
  assert (Hs : stringify h (VRef a) None
    = (h ++ [wrapper_of (VRef a)], Ok (Some (JObj [("self", JStr "_duplicate_root")])))).
  { unfold stringify, JSON_stringify, alloc, depth_option.
    rewrite length_app. cbn [length]. rewrite Nat.add_1_r.
    pose proof (lookup_app_l_Some _ [wrapper_of (VRef a)] _ _ Ha) as Ha'.
    assert (Hw : walkable (h ++ [wrapper_of (VRef a)]) (VRef a) = true).
    { cbn. by rewrite Ha'. }
    set (h1 := h ++ [wrapper_of (VRef a)]) in *.
    (* the member [self] *)
    assert (Hself : ∀ n path,
      SerializeJSONProperty (S n) 10 (VRef a) "self"
        (Enc h1 (Some (Tracker [("root", VRef a)] [] ["root"])) path)
      = (Enc h1 (Some (Tracker [("root", VRef a)] [] ["root"])) path,
         Ok (Some (JStr "_duplicate_root")))).
    { intros n path. cbn [SerializeJSONProperty].
      erewrite serialize_run; last first.
      { unfold Get, call_toJSON, kind_of. cbn [enc_heap]. rewrite !Ha'.
        cbn [props Props.lookup String.eqb Ascii.eqb Bool.eqb fmap option_fmap
             option_map okind]. rewrite !Ha'.
        cbn [fmap option_fmap option_map okind].
        rewrite (replace_walk _ _ _ _ _ (Tracker [("root", VRef a)] [] ["root"]));
          [|done|done|exact Hw].
        unfold walk. cbn. by rewrite Nat.eqb_refl. }
      reflexivity. }
    cbn [SerializeJSONProperty].
    erewrite serialize_run; last first.
    { cbn [enc_heap]. unfold h1. rewrite Get_wrapper. fold h1.
      unfold call_toJSON, kind_of. rewrite Ha'.
      cbn [fmap option_fmap option_map okind]. apply replace_root. }
    erewrite serialize_value_object; [|exact Ha'|done|done|apply not_elem_of_nil].
    cbn [props fmap list_fmap fst enc_heap enc_vars enc_path mapM].
    erewrite bind_ok; last first.
    { erewrite bind_ok; [reflexivity|apply Hself]. }
    reflexivity. }
  eexists _, _, _, (length (h ++ [wrapper_of (VRef a)])).
  split; [exact Hs|]. split.
  { apply (parse_single_marker _ "self" "root"); done. }
  split.
  - unfold Get. rewrite lookup_fresh. cbn. unfold resolved. reflexivity.
  - apply lookup_ge_None. rewrite length_app. simpl. lia.
Qed.

Lemma cycle_preserved_witness :
  ∃ h1 j h2 b,
    stringify [Object KObject "Object" false [("self", VRef 0)]] (VRef 0) None
      = (h1, Ok (Some j))
    ∧ parse h1 j = (h2, Ok (VRef b))
    ∧ Get h2 (VRef b) "self" = VRef b
    ∧ [Object KObject "Object" false [("self", VRef 0)]] !! b = None.
Proof.
  apply (cycle_preserved [Object KObject "Object" false [("self", VRef 0)]] 0).
  reflexivity.
Defined.
(** ** A duplicate marker whose path does not resolve *)

Lemma restore_unresolved (r : ref) (st : dec) a o :
  container r = VRef a → dec_heap st !! a = Some o → frozen o = false →
  replacement r ≠ "root" →
  get (dec_heap st) (root st) (Str.replace "root." "" (replacement r)) = VUndef →
  restore r st
  = (Dec (<[a := write (target r) VUndef o]> (dec_heap st)) (refs st) (root st), Ok tt).
Proof.
  intros Hc Ho Hf Hr%String.eqb_neq Hg.
  unfold restore, mbind, M_bind, gets. cbn. rewrite Hr, Hg, Hc.
  unfold assign, mbind, M_bind, gets, Set_. by rewrite Ho, Hf.
Qed.

(** C3, as the specification states it, fails: for a marker whose path
    names a key that the root does not have, [parse] raises nothing; it
    returns the root with [undefined] under the key of the marker. *)
Lemma parse_unresolved_counterexample :
  parse [] (JObj [("a", JStr "_duplicate_root.b")])
  = ([Object KObject "Object" false [("a", VUndef)]; wrapper_of (VRef 0)],
     Ok (VRef 0)).
Proof. vm_compute. reflexivity. Qed.

(** C3, amended: a duplicate marker whose path (another one than [root])
    does not resolve in the finished root raises no error. The path is one
    that [get] walks within the model ([get_modelled]): it has no bracket,
    and the walk ends on a key that the object reached neither has nor
    inherits (a path such as [root.toString], which finds a method of
    [Object.prototype], does resolve, and is none of these). The
    restoration of such a deferred reference, whose target is a key that
    its container has, assigns the [undefined] of the
    failed lookup to the target key of its container, over the placeholder
    [null]; and [parse] of an object whose only member is such a marker
    completes normally, with [undefined] under the key of the marker. *)
Theorem parse_unresolved_duplicate :
  (∀ (r : ref) (st : dec) a o,
     container r = VRef a → dec_heap st !! a = Some o → frozen o = false →
     is_Some (Props.lookup (target r) (props o)) →
     replacement r ≠ "root" →
     get_modelled (dec_heap st) (root st) (Str.replace "root." "" (replacement r))
     = true →
     get (dec_heap st) (root st) (Str.replace "root." "" (replacement r)) = VUndef →
     restore r st
     = (Dec (<[a := write (target r) VUndef o]> (dec_heap st)) (refs st) (root st),
        Ok tt))
  ∧ (∀ (h : heap) (k p : string),
       k ≠ "" → k ≠ MARKER → p ≠ "root" →
       get_modelled (h ++ [Object KObject "Object" false [(k, VNull)];
                           wrapper_of (VRef (length h))])
         (VRef (length h)) (Str.replace "root." "" p) = true →
       get (h ++ [Object KObject "Object" false [(k, VNull)];
                  wrapper_of (VRef (length h))])
         (VRef (length h)) (Str.replace "root." "" p) = VUndef →
       parse h (JObj [(k, JStr ("_duplicate_" +:+ p))])
       = (h ++ [Object KObject "Object" false [(k, VUndef)];
                wrapper_of (VRef (length h))],
          Ok (VRef (length h)))).
Proof.
  split; [intros r st a o Hc Ho Hf _ Hr _; by apply restore_unresolved|].
  intros h k p Hk Hm Hp%String.eqb_neq _ Hg.
  rewrite parse_single_marker by done. unfold resolved. by rewrite Hp, Hg.
Qed.

Lemma parse_unresolved_duplicate_witness :
  parse [] (JObj [("a", JStr ("_duplicate_" +:+ "root.b"))])
  = ([] ++ [Object KObject "Object" false [("a", VUndef)];
            wrapper_of (VRef (length ([] : heap)))],
     Ok (VRef (length ([] : heap)))).
Proof.
  apply (proj2 parse_unresolved_duplicate [] "a" "root.b").
  - vm_compute. discriminate.
  - vm_compute. discriminate.
  - vm_compute. discriminate.
  - vm_compute. reflexivity.
  - vm_compute. reflexivity.
Defined.

(** ** The call of a revived function *)

(** C5 fails on the code, by a slip of the code: the wrapper that [revive]
    builds applies the evaluated function to the arguments and drops the
    result. For the object [{ f: function id(x) { return x } }], [stringify]
    then [parse] yield an object whose [f] is a revived function with the
    name and the normalized source of the original; whatever function the
    sandbox evaluates that source to, the call of the revived function
    returns [undefined], where the identity function returns its argument. *)
Theorem revived_function_returns_undefined :
  let src := "function id(x) { return x }" in
  let h := [Object (KFunction "id" src) "Function" false [];
            Object KObject "Object" false [("f", VRef 0)]] in
  ∃ h1 j h2 b g,
    stringify h (VRef 1) None = (h1, Ok (Some j))
    ∧ parse h1 j = (h2, Ok (VRef b))
    ∧ Get h2 (VRef b) "f" = VRef g
    ∧ kind_of h2 (VRef g) = Some (KRevived "id" src)
    ∧ (∀ safeEval f args,
         safeEval ("(" +:+ src +:+ ")") = Some f →
         call safeEval h2 (VRef g) args = Ok VUndef)
    ∧ (let identity := fun args : list value => default VUndef (head args) in
       call (fun _ => Some identity) h2 (VRef g) [VNum 1] = Ok VUndef
       ∧ identity [VNum 1] = VNum 1).
Proof.
  intros src h.
  exists (h ++ [wrapper_of (VRef 1)]),
    (JObj [("f", JStr ("_function_id|" +:+ src))]),
    (h ++ [wrapper_of (VRef 1); Object KObject "Object" false [("f", VRef 5)];
           wrapper_of (VRef 3); Object (KRevived "id" src) "Function" false []]),
    3, 5.
  split; [vm_compute; reflexivity|]. split; [vm_compute; reflexivity|].
  split; [reflexivity|]. split; [reflexivity|]. split.
  - intros safeEval f args Hf. unfold call. cbn [kind_of].
    change ((h ++ [wrapper_of (VRef 1); Object KObject "Object" false [("f", VRef 5)];
           wrapper_of (VRef 3); Object (KRevived "id" src) "Function" false []]) !! 5)
      with (Some (Object (KRevived "id" src) "Function" false [])).
    cbn [fmap option_fmap option_map okind]. unfold call_revived.
    rewrite Hf. reflexivity.
  - split; reflexivity.
Qed.
(** ** The footprint of the encoder on the heap of the caller *)

Section Frame.

Implicit Types (h : heap) (o : object) (v : value) (st : enc).

Lemma props_set_idemp k v ps : Props.set k v (Props.set k v ps) = Props.set k v ps.
Proof.
  induction ps as [|[k' v'] ps IH]; simpl.
  - by rewrite String.eqb_refl.
  - destruct (String.eqb k' k) eqn:Hk; simpl; rewrite Hk; [done|]. by rewrite IH.
Qed.

Lemma props_set_lookup_ne k k' v ps :
  k' ≠ k → Props.lookup k' (Props.set k v ps) = Props.lookup k' ps.
Proof.
  intros Hne. induction ps as [|[k0 v0] ps IH]; simpl.
  - destruct (String.eqb_spec k k'); [congruence|done].
  - destruct (String.eqb_spec k0 k) as [->|]; simpl.
    + destruct (String.eqb_spec k k'); [congruence|done].
    + destruct (String.eqb k0 k'); [done|apply IH].
Qed.

Lemma props_set_lookup k v ps : Props.lookup k (Props.set k v ps) = Some v.
Proof.
  induction ps as [|[k0 v0] ps IH]; simpl.
  - by rewrite String.eqb_refl.
  - destruct (String.eqb_spec k0 k) as [->|Hne]; simpl.
    + by rewrite String.eqb_refl.
    + destruct (String.eqb_spec k0 k); [congruence|apply IH].
Qed.

Lemma props_set_keys k v ps :
  (Props.set k v ps).*1 = ps.*1 ∨ (Props.set k v ps).*1 = ps.*1 ++ [k].
Proof.
  induction ps as [|[k0 v0] ps IH]; cbn [Props.set]; [by right|].
  destruct (String.eqb k0 k); rewrite !fmap_cons; [by left|].
  destruct IH as [IH|IH]; rewrite IH; auto.
Qed.

(** *** What the attachment keeps *)

Lemma marked_same h o o' :
  marked h o o' →
  okind o' = okind o ∧ cname o' = cname o ∧ frozen o' = frozen o
  ∧ ∀ k, k ≠ MARKER → Props.lookup k (props o') = Props.lookup k (props o).
Proof.
  intros [->|[_ ->]]; [done|]. cbn. split_and!; try done.
  intros k Hk. by apply props_set_lookup_ne.
Qed.

Lemma Get_frame h h' v k : frame h h' → k ≠ MARKER → Get h' v k = Get h v k.
Proof.
  intros [Hlen Hfr] Hk. destruct v as [| | | | | |a]; try done. unfold Get.
  destruct (h !! a) as [o|] eqn:Ho.
  - destruct (Hfr a o Ho) as (o' & -> & Hm).
    destruct (marked_same _ _ _ Hm) as (-> & _ & _ & Hps). by rewrite Hps.
  - apply lookup_ge_None in Ho. rewrite <- Hlen in Ho.
    apply lookup_ge_None in Ho. by rewrite Ho.
Qed.

Lemma constructor_name_frame h h' o o' :
  frame h h' → marked h o o' → constructor_name h' o' = constructor_name h o.
Proof.
  intros Hfr Hm. destruct (marked_same _ _ _ Hm) as (_ & Hc & _ & Hps).
  unfold constructor_name. rewrite Hps, Hc by done.
  destruct (Props.lookup "constructor" (props o)) as [c|]; [|done].
  destruct (truthy c); [|done]. by apply Get_frame.
Qed.

Lemma named_instance_frame h h' o o' :
  frame h h' → marked h o o' → named_instance h' o' = named_instance h o.
Proof.
  intros Hfr Hm. unfold named_instance.
  rewrite (constructor_name_frame _ _ _ _ Hfr Hm).
  by destruct (marked_same _ _ _ Hm) as (-> & _ & -> & _).
Qed.

Lemma marked_refl h o : marked h o o.
Proof. by left. Qed.

Lemma marked_trans h1 h2 o1 o2 o3 :
  frame h1 h2 → marked h1 o1 o2 → marked h2 o2 o3 → marked h1 o1 o3.
Proof.
  intros Hfr H12 H23.
  pose proof (constructor_name_frame _ _ _ _ Hfr H12) as Hn.
  pose proof (named_instance_frame _ _ _ _ Hfr H12) as Hi.
  destruct H23 as [->|[H3 ->]]; [done|]. rewrite Hn. rewrite Hi in H3.
  destruct H12 as [->|[_ ->]]; right; split; try done.
  cbn. by rewrite props_set_idemp.
Qed.

Lemma frame_refl h : frame h h.
Proof. split; [done|]. intros a o Ho. exists o. split; [done|apply marked_refl]. Qed.

Lemma frame_trans h1 h2 h3 : frame h1 h2 → frame h2 h3 → frame h1 h3.
Proof.
  intros H12 H23. split; [destruct H12, H23; congruence|]. intros a o Ho.
  destruct (proj2 H12 a o Ho) as (o2 & Ho2 & Hm2).
  destruct (proj2 H23 a o2 Ho2) as (o3 & Ho3 & Hm3). exists o3. split; [done|].
  by eapply marked_trans.
Qed.

Lemma write_marker v o :
  write MARKER v o = set_props (Props.set MARKER v (props o)) o.
Proof. unfold write. by destruct (okind o). Qed.

Lemma frame_attach_name h v : frame h (attach_name h v).
Proof.
  unfold attach_name. destruct v as [| | | | | |a]; try apply frame_refl.
  destruct (h !! a) as [o|] eqn:Ho; [|apply frame_refl]. cbv zeta.
  destruct (isObject h (VRef a) && truthy (constructor_name h o)
            && negb (strict_eq (constructor_name h o) (VStr "Object")))
    eqn:Hcond; [|apply frame_refl].
  apply andb_true_iff in Hcond as [[Hobj Hn]%andb_true_iff Hn'].
  unfold isObject in Hobj. rewrite Ho in Hobj.
  unfold Set_. rewrite Ho. destruct (frozen o) eqn:Hf; [apply frame_refl|].
  split; [apply length_insert|].
  intros a' o' Ho'. destruct (decide (a = a')) as [<-|Hne].
  - rewrite list_lookup_insert_eq by (by eapply lookup_lt_Some).
    eexists. split; [done|]. assert (o' = o) as -> by congruence.
    right. rewrite write_marker. split; [|done].
    unfold named_instance. rewrite Hf, Hn, Hn'.
    apply andb_true_iff in Hobj as [-> ->]. done.
  - rewrite list_lookup_insert_ne by done. exists o'. split; [done|apply marked_refl].
Qed.

(** *** The state after a call of [replace] *)

Lemma elem_of_tail_snoc {A} (l : list A) x y : y ∈ tail (l ++ [x]) → y ∈ tail l ∨ y = x.
Proof.
  destruct l as [|z l]; cbn; [by intros ?%elem_of_nil|].
  intros [?|Hy%list_elem_of_singleton]%elem_of_app; auto.
Qed.

(** A call of [replace] leaves the heap as it is and [objects] as it is or
    at the root alone, or it attaches the name to its value and records the
    value. *)
Lemma replace_state depth this key v st :
  (enc_heap (replace depth this key v st).1 = enc_heap st
   ∧ ∀ e, e ∈ objs (replace depth this key v st).1 → e ∈ objs st)
  ∨ (enc_heap (replace depth this key v st).1 = attach_name (enc_heap st) v
     ∧ ∀ e, e ∈ objs (replace depth this key v st).1 → e ∈ objs st ∨ e.2 = v).
Proof.
  unfold replace.
  destruct (String.eqb key "").
  { left. split; [done|]. by intros e ?%elem_of_nil. }
  unfold mbind, M_bind, gets. destruct (enc_vars st) as [t|] eqn:Ht.
  2: { left. by split. }
  destruct (unwind this (stack t) (keys t)) as [stk ks]. cbn.
  set (st1 := Enc _ _ _).
  set (P := λ s : enc,
    (enc_heap s = enc_heap st ∧ ∀ e, e ∈ objs s → e ∈ objs st)
    ∨ (enc_heap s = attach_name (enc_heap st) v
       ∧ ∀ e, e ∈ objs s → e ∈ objs st ∨ e.2 = v)).
  assert (H1 : P st1).
  { left. split; [done|]. unfold objs. by rewrite Ht. }
  assert (Hwalk : P
    ((if (depth <=? Z.of_nat (length stk))%Z
       then match kind_of (enc_heap st) v with
            | Some (KArray len) => mret (VStr ("[Array(" +:+ Str.of_nat len +:+ ")]"))
            | _ => mret (VStr "[Object]")
            end
       else match find (λ e, strict_eq e.2 v) (objects t) with
            | Some found => mret (VStr ("_duplicate_" +:+ found.1))
            | None =>
                put_heap (attach_name (enc_heap st) v)
                ≫= λ _, put_vars (Tracker (objects t ++ [(Str.join "." (ks ++ [key]), v)])
                                     (v :: stk) (ks ++ [key]))
                ≫= λ _, mret v
            end) st1).1).
  { destruct (depth <=? _)%Z.
    - destruct (kind_of _ _) as [[]|]; exact H1.
    - destruct (find _ _); [exact H1|]. right. split; [done|].
      unfold objs. cbn. rewrite Ht. intros e [?| ->]%elem_of_tail_snoc; auto. }
  match goal with |- (enc_heap ?s = _ ∧ _) ∨ _ => change (P s) end.
  destruct (kind_of (enc_heap st) v) as [[]|] eqn:Hk;
    destruct v; try exact H1; try exact Hwalk;
    repeat case_match; try exact H1.
Qed.

Lemma framed_replace depth this key v : framed (replace depth this key v).
Proof.
  intros st. destruct (replace_state depth this key v st) as [[-> _]|[-> _]];
    [apply frame_refl|apply frame_attach_name].
Qed.

(** *** The computations of the encoder are framed *)

Lemma framed_ret {A} (x : A) : framed (mret x).
Proof. intros st. apply frame_refl. Qed.

Lemma framed_throw {A} e : framed (throw e : M enc A).
Proof. intros st. apply frame_refl. Qed.

Lemma framed_gets {A} (f : enc → A) : framed (gets f).
Proof. intros st. apply frame_refl. Qed.

Lemma framed_bind {A B} (m : M enc A) (f : A → M enc B) :
  framed m → (∀ x, framed (f x)) → framed (m ≫= f).
Proof.
  intros Hm Hf st. unfold mbind, M_bind. specialize (Hm st).
  destruct (m st) as [st1 [x|e]]; simpl in *; [|done].
  eapply frame_trans; [done|apply Hf].
Qed.

Lemma framed_mapM {A B} (f : A → M enc B) l :
  (∀ x, framed (f x)) → framed (mapM f l).
Proof.
  intros Hf. induction l as [|x l IH]; simpl; [apply framed_ret|].
  apply framed_bind; [done|]. intros y. apply framed_bind; [done|].
  intros ys. apply framed_ret.
Qed.

Lemma framed_put_path p : framed (put_path p).
Proof. intros st. apply frame_refl. Qed.

Lemma framed_enter a : framed (enter a).
Proof.
  unfold enter. apply framed_bind; [apply framed_gets|]. intros p.
  case_bool_decide; [apply framed_throw|apply framed_put_path].
Qed.

Lemma framed_leave : framed leave.
Proof.
  unfold leave. apply framed_bind; [apply framed_gets|]. intros p.
  apply framed_put_path.
Qed.

Lemma framed_serialize_value recur v :
  (∀ holder key, framed (recur holder key)) → framed (serialize_value recur v).
Proof.
  intros Hrec. unfold serialize_value. apply framed_bind; [apply framed_gets|].
  intros h. destruct v as [| | | | | |a]; try apply framed_ret.
  destruct (h !! a) as [o|]; [|apply framed_ret].
  destruct (is_callable (okind o)); [apply framed_ret|].
  apply framed_bind; [apply framed_enter|]. intros _.
  apply framed_bind.
  - destruct (okind o);
      (apply framed_bind; [|intros; apply framed_ret]);
      apply framed_mapM; intros x;
      (apply framed_bind; [apply Hrec|intros; apply framed_ret]).
  - intros j. apply framed_bind; [apply framed_leave|intros; apply framed_ret].
Qed.

Lemma framed_SerializeJSONProperty fuel depth : ∀ holder key,
  framed (SerializeJSONProperty fuel depth holder key).
Proof.
  induction fuel as [|fuel IH]; intros holder key; [apply framed_throw|].
  cbn [SerializeJSONProperty]. unfold serialize.
  apply framed_bind; [apply framed_gets|]. intros h.
  apply framed_bind; [apply framed_replace|]. intros v.
  by apply framed_serialize_value.
Qed.

(** A frame keeps every key that an object has. *)
Lemma marked_keeps_keys h o o' k :
  marked h o o' → is_Some (Props.lookup k (props o)) →
  is_Some (Props.lookup k (props o')).
Proof.
  intros [->|[_ ->]] Hk; [done|]. cbn.
  destruct (decide (k = MARKER)) as [->|Hne].
  - rewrite props_set_lookup. by eexists.
  - by rewrite props_set_lookup_ne.
Qed.

(** *** The invariant of the traversal *)

Lemma attached_frame h0 h h' v :
  frame h0 h → frame h h' → attached h0 h v → attached h0 h' v.
Proof.
  intros H0 Hfr Hat a o -> Ho Hi. destruct (Hat a o eq_refl Ho Hi) as (o1 & Ho1 & Hl).
  destruct (proj2 Hfr a o1 Ho1) as (o2 & Ho2 & Hm). exists o2. split; [done|].
  destruct (proj2 H0 a o Ho) as (o1' & Ho1' & Hm1).
  assert (o1' = o1) as -> by congruence.
  destruct Hm as [->|[_ ->]]; [done|]. cbn.
  rewrite (constructor_name_frame _ _ _ _ H0 Hm1). apply props_set_lookup.
Qed.

Lemma attached_attach_name h0 h v : frame h0 h → attached h0 (attach_name h v) v.
Proof.
  intros H0 a o -> Ho Hi. destruct (proj2 H0 a o Ho) as (o1 & Ho1 & Hm).
  pose proof (constructor_name_frame _ _ _ _ H0 Hm) as Hn.
  pose proof (named_instance_frame _ _ _ _ H0 Hm) as Hi1. rewrite Hi in Hi1.
  unfold named_instance in Hi1.
  apply andb_true_iff in Hi1 as [[[[Hf Ha]%andb_true_iff Hc]%andb_true_iff Ht]%andb_true_iff Hn'].
  unfold attach_name, isObject, Set_. rewrite Ho1. cbv zeta.
  rewrite Ha, Hc, Ht, Hn'. cbn [andb]. apply negb_true_iff in Hf. rewrite Hf.
  rewrite list_lookup_insert_eq by (by eapply lookup_lt_Some).
  eexists. split; [done|]. rewrite write_marker. cbn. rewrite Hn.
  apply props_set_lookup.
Qed.

Lemma Inv_step h0 st st' :
  Inv h0 st → frame (enc_heap st) (enc_heap st') →
  (∀ e, e ∈ objs st' → e ∈ objs st ∨ attached h0 (enc_heap st') e.2) →
  Inv h0 st'.
Proof.
  intros [H0 Hat] Hfr Hobjs. split; [by eapply frame_trans|].
  intros e [He|He]%Hobjs; [|done]. eapply attached_frame; eauto.
Qed.

Lemma Inv_same h0 st st' :
  enc_heap st' = enc_heap st → enc_vars st' = enc_vars st → Inv h0 st → Inv h0 st'.
Proof. unfold Inv, objs. by intros -> ->. Qed.

Lemma keeps_ret h0 {A} (x : A) : keeps h0 (mret x).
Proof. by intros st. Qed.

Lemma keeps_throw h0 {A} e : keeps h0 (throw e : M enc A).
Proof. by intros st. Qed.

Lemma keeps_gets h0 {A} (f : enc → A) : keeps h0 (gets f).
Proof. by intros st. Qed.

Lemma keeps_bind h0 {A B} (m : M enc A) (f : A → M enc B) :
  keeps h0 m → (∀ x, keeps h0 (f x)) → keeps h0 (m ≫= f).
Proof.
  intros Hm Hf st Hst. unfold mbind, M_bind. specialize (Hm st Hst).
  destruct (m st) as [st1 [x|e]]; simpl in *; [|done]. by apply Hf.
Qed.

Lemma keeps_mapM h0 {A B} (f : A → M enc B) l :
  (∀ x, keeps h0 (f x)) → keeps h0 (mapM f l).
Proof.
  intros Hf. induction l as [|x l IH]; simpl; [apply keeps_ret|].
  apply keeps_bind; [done|]. intros y. apply keeps_bind; [done|].
  intros ys. apply keeps_ret.
Qed.

Lemma keeps_put_path h0 p : keeps h0 (put_path p).
Proof. intros st. by apply Inv_same. Qed.

Lemma keeps_enter h0 a : keeps h0 (enter a).
Proof.
  unfold enter. apply keeps_bind; [apply keeps_gets|]. intros p.
  case_bool_decide; [apply keeps_throw|apply keeps_put_path].
Qed.

Lemma keeps_leave h0 : keeps h0 leave.
Proof.
  unfold leave. apply keeps_bind; [apply keeps_gets|]. intros p.
  apply keeps_put_path.
Qed.

Lemma keeps_replace h0 depth this key v : keeps h0 (replace depth this key v).
Proof.
  intros st Hst. eapply Inv_step; [done|apply framed_replace|].
  intros e He. destruct (replace_state depth this key v st) as [[_ H]|[Hh H]].
  - left. by apply H.
  - destruct (H e He) as [?|Hv]; [by left|]. right. rewrite Hh, Hv.
    apply attached_attach_name, Hst.
Qed.

Lemma keeps_serialize_value h0 recur v :
  (∀ holder key, keeps h0 (recur holder key)) → keeps h0 (serialize_value recur v).
Proof.
  intros Hrec. unfold serialize_value. apply keeps_bind; [apply keeps_gets|].
  intros h. destruct v as [| | | | | |a]; try apply keeps_ret.
  destruct (h !! a) as [o|]; [|apply keeps_ret].
  destruct (is_callable (okind o)); [apply keeps_ret|].
  apply keeps_bind; [apply keeps_enter|]. intros _.
  apply keeps_bind.
  - destruct (okind o);
      (apply keeps_bind; [|intros; apply keeps_ret]);
      apply keeps_mapM; intros x;
      (apply keeps_bind; [apply Hrec|intros; apply keeps_ret]).
  - intros j. apply keeps_bind; [apply keeps_leave|intros; apply keeps_ret].
Qed.

Lemma keeps_SerializeJSONProperty h0 fuel depth : ∀ holder key,
  keeps h0 (SerializeJSONProperty fuel depth holder key).
Proof.
  induction fuel as [|fuel IH]; intros holder key; [apply keeps_throw|].
  cbn [SerializeJSONProperty]. unfold serialize.
  apply keeps_bind; [apply keeps_gets|]. intros h.
  apply keeps_bind; [apply keeps_replace|]. intros v.
  by apply keeps_serialize_value.
Qed.

(** *** The run of [stringify] *)

Lemma stringify_final_state h data maxDepth :
  (stringify h data maxDepth).1 = enc_heap (final_state h data maxDepth).
Proof.
  unfold stringify, JSON_stringify, final_state.
  destruct (alloc h (wrapper_of data)) as [h1 w].
  by destruct (SerializeJSONProperty _ _ _ _ _).
Qed.

Lemma Inv_final_state h data maxDepth :
  Inv (h ++ [wrapper_of data]) (final_state h data maxDepth).
Proof.
  unfold final_state, alloc. apply keeps_SerializeJSONProperty.
  split; [apply frame_refl|]. by intros e ?%elem_of_nil.
Qed.

(** The wrapper of [JSON.stringify] has no name to give. *)
Lemma constructor_name_wrapper h data o :
  constructor_name (h ++ [wrapper_of data]) o = constructor_name h o.
Proof.
  unfold constructor_name.
  destruct (Props.lookup "constructor" (props o)) as [c|]; [|done].
  destruct (truthy c); [|done]. destruct c as [| | | | | |a]; try done.
  unfold Get. destruct (lt_eq_lt_dec a (length h)) as [[Hlt| ->]|Hgt].
  - by rewrite lookup_app_l.
  - rewrite lookup_wrapper. rewrite (proj2 (lookup_ge_None h (length h))) by lia. done.
  - rewrite !(proj2 (lookup_ge_None _ _)); [done|lia|]. rewrite length_app. cbn. lia.
Qed.

Lemma named_instance_wrapper h data o :
  named_instance (h ++ [wrapper_of data]) o = named_instance h o.
Proof. unfold named_instance. by rewrite constructor_name_wrapper. Qed.

End Frame.

(** C8: on a heap in which no object has a method [toJSON] of its own,
    [stringify] leaves every object of the caller at its address, with its
    kind, its constructor and its properties as they were, except that it
    may have attached the name of the constructor under the key
    [_constructor-name_]; this only on an object that can be written to, is
    no array and no function, and whose constructor has a name other than
    [Object]. And it removes nothing that it attached: every such object
    that the run has recorded in [objects] after the root, on the lines on
    which [replace] attaches the name, has the name under the marker key in
    the heap that [stringify] leaves; so also when [stringify] throws. No
    step of the traversal removes a key: whatever the state in which
    [SerializeJSONProperty] is called on a member, every object has after
    the call the keys that it had before. *)
Theorem stringify_frame (h : heap) (data : value) (maxDepth : option Z) :
  no_own_toJSON h = true →
  (∀ a o, h !! a = Some o →
      ∃ o', (stringify h data maxDepth).1 !! a = Some o'
        ∧ okind o' = okind o ∧ cname o' = cname o ∧ frozen o' = frozen o
        ∧ ((props o').*1 = (props o).*1 ∨ (props o').*1 = (props o).*1 ++ [MARKER])
        ∧ (∀ k, k ≠ MARKER → Props.lookup k (props o') = Props.lookup k (props o))
        ∧ (Props.lookup MARKER (props o') = Props.lookup MARKER (props o)
           ∨ Props.lookup MARKER (props o') = Some (constructor_name h o)
             ∧ named_instance h o = true))
  ∧ (∀ a o, VRef a ∈ visited h data maxDepth → h !! a = Some o →
      named_instance h o = true →
      ∃ o', (stringify h data maxDepth).1 !! a = Some o'
        ∧ Props.lookup MARKER (props o') = Some (constructor_name h o))
  ∧ (∀ fuel depth holder key st a o,
      no_own_toJSON (enc_heap st) = true → enc_heap st !! a = Some o →
      ∃ o', enc_heap (SerializeJSONProperty fuel depth holder key st).1 !! a = Some o'
        ∧ ∀ k, is_Some (Props.lookup k (props o)) → is_Some (Props.lookup k (props o'))).
Proof.
  intros _. rewrite stringify_final_state.
  destruct (Inv_final_state h data maxDepth) as [[_ Hframe] Hat]. split_and!.
  - intros a o Ho.
    destruct (Hframe a o (lookup_app_l_Some _ _ _ _ Ho)) as (o' & Ho' & Hm).
    exists o'. split; [done|].
    destruct (marked_same _ _ _ Hm) as (Hk & Hc & Hf & Hps). split_and!; try done.
    + destruct Hm as [->|[_ ->]]; [by left|]. apply props_set_keys.
    + destruct Hm as [->|[Hi ->]]; [by left|]. right.
      rewrite named_instance_wrapper in Hi. rewrite constructor_name_wrapper.
      split; [apply props_set_lookup|done].
  - intros a o Hin Ho Hi. unfold visited in Hin.
    apply list_elem_of_fmap in Hin as (e & He & Hin).
    rewrite <- (constructor_name_wrapper h data).
    apply (Hat e Hin a o); [done|by apply lookup_app_l_Some|].
    by rewrite named_instance_wrapper.
  - intros fuel depth holder key st a o _ Ho.
    destruct (proj2 (framed_SerializeJSONProperty fuel depth holder key st) a o Ho)
      as (o' & Ho' & Hm).
    exists o'. split; [done|]. intros k. by apply (marked_keeps_keys _ _ _ _ Hm).
Qed.

Lemma stringify_frame_witness :
  let h := [Object KObject "Foo" false [("x", VNum 1)];
            Object KObject "Object" false [("p", VRef 0)]] in
  ∃ o', (stringify h (VRef 1) None).1 !! 0 = Some o'
    ∧ Props.lookup MARKER (props o') = Some (VStr "Foo").
Proof.
  intros h. destruct (stringify_frame h (VRef 1) None) as (_ & H & _); [reflexivity|].
  apply (H 0 (Object KObject "Foo" false [("x", VNum 1)])).
  - vm_compute. left.
  - reflexivity.
  - reflexivity.
Defined.

(** The marker is attached, and stays: an instance of a class [Foo] under
    the key [p] of the root has it after [stringify] returns. *)
Example stringify_attaches_marker :
  let h := [Object KObject "Foo" false [("x", VNum 1)];
            Object KObject "Object" false [("p", VRef 0)]] in
  (stringify h (VRef 1) None).1 !! 0
  = Some (Object KObject "Foo" false [("x", VNum 1); (MARKER, VStr "Foo")]).
Proof. vm_compute. reflexivity. Qed.

(** ** Dates *)

Section Calendar.

Local Open Scope Z_scope.

Lemma doe_facts doe :
  0 <= doe < 146097 →
  let yoe := (doe - doe / 1460 + doe / 36524 - doe / 146096) / 365 in
  let doy := doe - (365 * yoe + yoe / 4 - yoe / 100) in
  0 <= yoe <= 399 ∧ 0 <= doy <= 365.
Proof.
  intros H yoe doy. subst doy yoe.
  Z.to_euclidean_division_equations; lia.
Qed.

Lemma civil_ranges day :
  let '(y, m, d) := Date.civil day in 1 <= m <= 12 ∧ 1 <= d <= 31.
Proof.
  unfold Date.civil.
  set (z := day + 719468). set (era := z / 146097). set (doe := z - era * 146097).
  assert (Hdoe : 0 <= doe < 146097).
  { subst doe era. Z.to_euclidean_division_equations; lia. }
  destruct (doe_facts doe Hdoe) as [Hyoe Hdoy]. cbv zeta in Hyoe, Hdoy.
  set (yoe := (doe - doe / 1460 + doe / 36524 - doe / 146096) / 365) in *.
  set (doy := doe - (365 * yoe + yoe / 4 - yoe / 100)) in *.
  set (mp := (5 * doy + 2) / 153).
  assert (Hmp : 0 <= mp <= 11).
  { subst mp. Z.to_euclidean_division_equations; lia. }
  destruct (Z.ltb_spec mp 10); split; try lia;
    subst mp; Z.to_euclidean_division_equations; lia.
Qed.

Lemma day_number_civil day :
  let '(y, m, d) := Date.civil day in Date.day_number y m d = day.
Proof.
  unfold Date.civil.
  set (z := day + 719468). set (era := z / 146097). set (doe := z - era * 146097).
  assert (Hdoe : 0 <= doe < 146097).
  { subst doe era. Z.to_euclidean_division_equations; lia. }
  destruct (doe_facts doe Hdoe) as [Hyoe Hdoy]. cbv zeta in Hyoe, Hdoy.
  set (yoe := (doe - doe / 1460 + doe / 36524 - doe / 146096) / 365) in *.
  set (doy := doe - (365 * yoe + yoe / 4 - yoe / 100)) in *.
  set (mp := (5 * doy + 2) / 153).
  assert (Hmp : 0 <= mp <= 11).
  { subst mp. Z.to_euclidean_division_equations; lia. }
  set (m := if mp <? 10 then mp + 3 else mp - 9).
  assert (Hm : (if 2 <? m then m - 3 else m + 9) = mp).
  { subst m. destruct (Z.ltb_spec mp 10).
    - destruct (Z.ltb_spec 2 (mp + 3)); lia.
    - destruct (Z.ltb_spec 2 (mp - 9)); lia. }
  unfold Date.day_number. rewrite Hm.
  replace (yoe + era * 400 + (if m <=? 2 then 1 else 0) - (if m <=? 2 then 1 else 0))
    with (yoe + era * 400) by lia.
  assert (Hera : (yoe + era * 400) / 400 = era).
  { Z.to_euclidean_division_equations; lia. }
  rewrite Hera. replace (yoe + era * 400 - era * 400) with yoe by lia.
  subst doy doe z. lia.
Qed.

End Calendar.

(** ** Candidates of a match *)

Section Accepts.

Implicit Types (r : regex) (s t : string) (i j : nat).

Lemma accepts_seq r1 r2 i s i1 s1 i2 s2 :
  accepts r1 i s i1 s1 → accepts r2 i1 s1 i2 s2 → accepts (Seq r1 r2) i s i2 s2.
Proof.
  intros [c1 H1] [c2 H2]. exists (c1 ++ c2). cbn [run].
  apply list_elem_of_bind. exists (c1, i1, s1). split; [|done].
  apply list_elem_of_bind. exists (c2, i2, s2). split; [|done].
  by apply list_elem_of_singleton.
Qed.

Lemma accepts_rep p s1 : ∀ i s2,
  Spec.all p s1 = true →
  accepts (Rep (String.length s1) p) i (s1 +:+ s2) (i + String.length s1) s2.
Proof.
  induction s1 as [|c s1 IH]; intros i s2 Hall; simpl in *.
  - exists []. rewrite Nat.add_0_r. by apply list_elem_of_singleton.
  - apply andb_true_iff in Hall as [Hc Hall]. destruct (IH (S i) s2 Hall) as [c' Hc'].
    exists c'. cbn [run rep] in *. rewrite Hc.
    by replace (i + S (String.length s1))%nat with (S i + String.length s1)%nat by lia.
Qed.

Lemma drop_length_append l s : Str.drop (String.length l) (l +:+ s) = s.
Proof. induction l; simpl; done. Qed.

Lemma accepts_lit l i s :
  accepts (Lit l) i (l +:+ s) (i + String.length l) s.
Proof.
  exists []. cbn [run]. rewrite prefix_refl_append, drop_length_append.
  by apply list_elem_of_singleton.
Qed.

Lemma accepts_opt r i s j t : accepts r i s j t → accepts (Opt r) i s j t.
Proof. intros [c H]. exists c. cbn [run]. apply elem_of_app. by left. Qed.

Lemma accepts_group r i s j t : accepts r i s j t → accepts (Group r) i s j t.
Proof.
  intros [c H]. eexists. cbn [run]. apply list_elem_of_bind.
  exists (c, j, t). split; [|done]. by apply list_elem_of_singleton.
Qed.

Lemma accepts_eol i : accepts Eol i "" i "".
Proof. exists []. by apply list_elem_of_singleton. Qed.

Lemma test_bol r s j t : accepts r 0 s j t → test (Seq Bol r) s = true.
Proof.
  intros [c H]. unfold test.
  destruct (match_ (Seq Bol r) s) eqn:Hm; [done|].
  apply match_bol_none in Hm. rewrite Hm in H. by apply elem_of_nil in H.
Qed.

End Accepts.

Section IsoText.

Local Open Scope Z_scope.

Lemma digit_cases n : 0 <= n <= 9 →
  n = 0 ∨ n = 1 ∨ n = 2 ∨ n = 3 ∨ n = 4 ∨ n = 5 ∨ n = 6 ∨ n = 7 ∨ n = 8 ∨ n = 9.
Proof. lia. Qed.

Lemma is_digit_digit n : 0 <= n <= 9 → Str.is_digit (Date.digit n) = true.
Proof.
  intros H. destruct (digit_cases n H) as [->|[->|[->|[->|[->|[->|[->|[->|[->| ->]]]]]]]]];
    reflexivity.
Qed.

Lemma digit_value n : 0 <= n <= 9 → Z.of_nat (nat_of_ascii (Date.digit n)) - 48 = n.
Proof.
  intros H. destruct (digit_cases n H) as [->|[->|[->|[->|[->|[->|[->|[->|[->| ->]]]]]]]]];
    reflexivity.
Qed.

Lemma mod10_range n : 0 <= n mod 10 <= 9.
Proof. pose proof (Z.mod_pos_bound n 10). lia. Qed.

Lemma all_append p s t : Spec.all p (s +:+ t) = Spec.all p s && Spec.all p t.
Proof. induction s as [|c s IH]; simpl; [done|]. by rewrite IH, andb_assoc. Qed.

Lemma pad_digits w : ∀ n, Spec.all Str.is_digit (Date.pad w n) = true.
Proof.
  induction w as [|w IH]; intros n; simpl; [done|].
  rewrite all_append, IH. cbn [Spec.all andb].
  by rewrite is_digit_digit by apply mod10_range.
Qed.

Lemma pad_length w : ∀ n, String.length (Date.pad w n) = w.
Proof.
  induction w as [|w IH]; intros n; simpl; [done|].
  rewrite length_append, IH. simpl. lia.
Qed.

Lemma accepts_pad w n i s :
  accepts (Rep w Str.is_digit) i (Date.pad w n +:+ s) (i + w) s.
Proof.
  pose proof (accepts_rep Str.is_digit (Date.pad w n) i s (pad_digits w n)) as H.
  by rewrite pad_length in H.
Qed.

(** The text of a date in the format of [toISOString] has the shape that
    [dateFormat] tests, and its fields read back. *)
Lemma iso_text y m d hh mm ss ms :
  0 <= y <= 9999 → 0 <= m <= 99 → 0 <= d <= 99 → 0 <= hh <= 99 →
  0 <= mm <= 99 → 0 <= ss <= 99 → 0 <= ms <= 999 →
  let s := iso y m d hh mm ss ms in
  test dateFormat s = true
  ∧ String.length s = 24%nat
  ∧ Date.number (Str.take 4 s) = y
  ∧ Date.number (Str.take 2 (Str.drop 5 s)) = m
  ∧ Date.number (Str.take 2 (Str.drop 8 s)) = d
  ∧ Date.number (Str.take 2 (Str.drop 11 s)) = hh
  ∧ Date.number (Str.take 2 (Str.drop 14 s)) = mm
  ∧ Date.number (Str.take 2 (Str.drop 17 s)) = ss
  ∧ Date.number (Str.take 3 (Str.drop 20 s)) = ms.
Proof.
  intros Hy Hm Hd Hhh Hmm Hss Hms s. subst s. split.
  { unfold iso, dateFormat. eapply test_bol.
    repeat first
      [ eapply accepts_seq; [apply accepts_pad|]
      | eapply accepts_seq; [apply (accepts_lit "-")|]
      | eapply accepts_seq; [apply (accepts_lit "T")|]
      | eapply accepts_seq; [apply (accepts_lit ":")|] ].
    eapply accepts_seq.
    - apply accepts_opt, accepts_group.
      eapply accepts_seq; [apply (accepts_lit ".")|apply accepts_pad].
    - eapply accepts_seq; [apply (accepts_lit "Z" _ "")|apply accepts_eol]. }
  unfold iso. cbn [Date.pad String.append].
  split; [reflexivity|].
  unfold Date.number. cbn [Str.take Str.drop list_ascii_of_string fold_left].
  rewrite !digit_value by apply mod10_range.
  split_and!; Z.to_euclidean_division_equations; lia.
Qed.

End IsoText.

Section IsoRoundTrip.

Local Open Scope Z_scope.

Lemma toISOString_iso t :
  four_digit_year t →
  let '(y, m, d) := Date.civil (t / Date.msPerDay) in
  let r := t mod Date.msPerDay in
  Date.toISOString t
  = iso y m d (r / 3600000) (r / 60000 mod 60) (r / 1000 mod 60) (r mod 1000).
Proof.
  unfold four_digit_year, Date.toISOString, iso.
  destruct (Date.civil (t / Date.msPerDay)) as [[y m] d]. cbn [fst]. intros Hy.
  unfold Date.year_text.
  destruct (Z.leb_spec 0 y); [|lia]. destruct (Z.leb_spec y 9999); [|lia]. done.
Qed.

(** A date whose year has four digits is written in the shape that
    [dateFormat] tests, and [new Date] of the text has the same time value. *)
Lemma toISOString_parse t :
  four_digit_year t →
  test dateFormat (Date.toISOString t) = true
  ∧ Date.parse (Date.toISOString t) = Some t.
Proof.
  intros Ht. pose proof (toISOString_iso t Ht) as Hiso.
  pose proof (civil_ranges (t / Date.msPerDay)) as Hrange.
  pose proof (day_number_civil (t / Date.msPerDay)) as Hday.
  unfold four_digit_year in Ht.
  destruct (Date.civil (t / Date.msPerDay)) as [[y m] d] eqn:Hcivil.
  cbn [fst] in Ht. cbv zeta in Hiso. destruct Hrange as [Hm Hd].
  set (r := t mod Date.msPerDay) in *.
  assert (Hr : 0 <= r < 86400000) by (apply Z.mod_pos_bound; done).
  assert (Hhh : 0 <= r / 3600000 <= 23) by (Z.to_euclidean_division_equations; lia).
  assert (Hmm : 0 <= r / 60000 mod 60 <= 59) by (Z.to_euclidean_division_equations; lia).
  assert (Hss : 0 <= r / 1000 mod 60 <= 59) by (Z.to_euclidean_division_equations; lia).
  assert (Hms : 0 <= r mod 1000 <= 999) by (Z.to_euclidean_division_equations; lia).
  destruct (iso_text y m d (r / 3600000) (r / 60000 mod 60) (r / 1000 mod 60)
              (r mod 1000)) as (Htest & Hlen & Fy & Fm & Fd & Fhh & Fmm & Fss & Fms);
    try lia.
  rewrite Hiso. split; [done|].
  unfold Date.parse. rewrite Htest, Hlen, Fy, Fm, Fd, Fhh, Fmm, Fss, Fms.
  rewrite Hday. cbn [Nat.eqb].
  destruct (Z.leb_spec 1 m); [|lia]. destruct (Z.leb_spec m 12); [|lia].
  destruct (Z.leb_spec 1 d); [|lia]. destruct (Z.leb_spec d 31); [|lia].
  destruct (Z.leb_spec (r / 3600000) 23); [|lia].
  destruct (Z.leb_spec (r / 60000 mod 60) 59); [|lia].
  destruct (Z.leb_spec (r / 1000 mod 60) 59); [|lia].
  cbn [andb orb]. f_equal. subst r. unfold Date.msPerDay in *.
  Z.to_euclidean_division_equations; lia.
Qed.

Lemma test_dateFormat_nondigit c s :
  Str.is_digit c = false → test dateFormat (String c s) = false.
Proof.
  intros Hc. unfold test. destruct (match_ dateFormat _) eqn:E; [|done]. exfalso.
  assert (Hne : match_ dateFormat (String c s) ≠ None) by (by rewrite E).
  apply Hne. apply match_bol_none. cbn [run rep]. by rewrite Hc.
Qed.

(** A date whose year has more than four digits, or is negative, is written
    with a sign in front. *)
Lemma toISOString_signed t :
  ¬ four_digit_year t →
  ∃ c rest, Date.toISOString t = String c rest ∧ (c = "+" ∨ c = "-")%char.
Proof.
  unfold four_digit_year, Date.toISOString.
  destruct (Date.civil (t / Date.msPerDay)) as [[y m] d]. cbn [fst]. intros Hy.
  unfold Date.year_text.
  destruct (Z.leb_spec 0 y); destruct (Z.leb_spec y 9999); try lia; cbn [andb];
    destruct (Z.ltb_spec y 0); try lia.
  - eexists "+"%char, _. split; [reflexivity|by left].
  - eexists "-"%char, _. split; [reflexivity|by right].
Qed.

End IsoRoundTrip.

(** ** A root object with one member *)

Section Single.

Implicit Types (h : heap) (k s : string) (x v : value).

(** [stringify] of [{ k: x }] when the replacer returns a string for [x]. *)
Lemma stringify_single_string h a k x s :
  h !! a = Some (Object KObject "Object" false [(k, x)]) → k ≠ "" →
  (∀ st, enc_heap st = h ++ [wrapper_of (VRef a)] → is_Some (enc_vars st) →
     ∃ vars, replace 10 (VRef a) k (call_toJSON (enc_heap st) x) st
             = (Enc (enc_heap st) vars (enc_path st), Ok (VStr s))) →
  stringify h (VRef a) None
  = (h ++ [wrapper_of (VRef a)], Ok (Some (JObj [(k, JStr s)]))).
Proof.
  intros Ha Hk Hrep.
  unfold stringify, JSON_stringify, alloc, depth_option.
  rewrite length_app. cbn [length]. rewrite Nat.add_1_r.
  pose proof (lookup_app_l_Some _ [wrapper_of (VRef a)] _ _ Ha) as Ha'.
  set (h1 := h ++ [wrapper_of (VRef a)]) in *.
  cbn [SerializeJSONProperty].
  erewrite serialize_run; last first.
  { cbn [enc_heap]. unfold h1. rewrite Get_wrapper. fold h1.
    unfold call_toJSON, kind_of. rewrite Ha'.
    cbn [fmap option_fmap option_map okind]. apply replace_root. }
  erewrite serialize_value_object; [|exact Ha'|done|done|apply not_elem_of_nil].
  cbn [props fmap list_fmap fst enc_heap enc_vars enc_path mapM].
  set (st1 := Enc h1 _ [a]).
  destruct (Hrep st1) as [vars Hvars]; [done|by eexists|].
  erewrite bind_ok; last first.
  { erewrite bind_ok; [reflexivity|].
    cbn [SerializeJSONProperty]. erewrite serialize_run; last first.
    { replace (Get (enc_heap st1) (VRef a) k) with x; [exact Hvars|].
      unfold Get, st1. cbn [enc_heap]. rewrite Ha'. cbn [props Props.lookup].
      by rewrite String.eqb_refl. }
    reflexivity. }
  reflexivity.
Qed.

End Single.

Section SingleParse.

Implicit Types (h : heap) (k s : string) (x v : value).

#[local] Arguments get : simpl never.
#[local] Arguments revive_value : simpl never.

Lemma lookup_marker_member k v :
  k ≠ MARKER → Props.lookup MARKER (member k v) = None.
Proof.
  intros Hk%String.eqb_neq. destruct v; cbn [member Props.lookup]; by rewrite ?Hk.
Qed.

Lemma put_member h k x v l rs rt :
  put_element (length h) k v
    (Dec (h ++ Object KObject "Object" false [(k, x)] :: l) rs rt)
  = (Dec (h ++ Object KObject "Object" false (member k v) :: l) rs rt, Ok tt).
Proof.
  unfold put_element, mbind, M_bind, gets. cbn [dec_heap].
  rewrite lookup_fresh. cbn [frozen].
  destruct v; unfold set_heap, modify; cbn [dec_heap refs root];
    rewrite insert_fresh; unfold write;
    cbn [okind props set_props Props.set Props.delete cname frozen member];
    by rewrite String.eqb_refl.
Qed.

(** [parse] of the text of [{ k: s }] when the reviver returns [v] for the
    string [s] and allocates the objects [extra]. *)
Lemma parse_single_string h k s v extra :
  k ≠ "" → k ≠ MARKER →
  revive_value (VRef (length h)) k (VStr s)
    (Dec (h ++ [Object KObject "Object" false [(k, VStr s)];
                wrapper_of (VRef (length h))]) [] VUndef)
  = (Dec ((h ++ [Object KObject "Object" false [(k, VStr s)];
                 wrapper_of (VRef (length h))]) ++ extra) [] VUndef, Ok v) →
  parse h (JObj [(k, JStr s)])
  = (h ++ [Object KObject "Object" false (member k v);
           wrapper_of (VRef (length h))] ++ extra,
     Ok (VRef (length h))).
Proof.
  intros Hk Hm Hrev.
  apply String.eqb_neq in Hk as Hk'.
  unfold parse, JSON_parse. cbn [build fold_left Props.set fst snd alloc].
  rewrite length_app. cbn [length height foldr]. rewrite Nat.add_1_r.
  rewrite <- app_assoc. cbn [app].
  rewrite <- app_assoc in Hrev. cbn [app] in Hrev.
  cbn [InternalizeJSONProperty Nat.max].
  assert (Hroot : ∀ hf,
    hf = h ++ Object KObject "Object" false (member k v)
           :: wrapper_of (VRef (length h)) :: extra →
    revive (VRef (S (length h))) "" (VRef (length h)) (Dec hf [] VUndef)
    = (Dec hf [] (VRef (length h)), Ok (VRef (length h)))).
  { intros hf ->. unfold revive, restore_refs. cbn [String.eqb].
    unfold mbind, M_bind, set_root, modify, gets, mret, M_ret. cbn [refs mapM dec_heap].
    unfold mret, M_ret. unfold revive_value. cbn [String.eqb MARKER Ascii.eqb Bool.eqb].
    unfold mbind, M_bind, gets. cbn [dec_heap]. unfold isObject, Get.
    rewrite lookup_fresh. cbn [okind props is_array is_callable negb andb].
    by rewrite lookup_marker_member. }
  set (o := Object KObject "Object" false [(k, VStr s)]) in *.
  set (w := wrapper_of (VRef (length h))) in *.
  assert (HGetW : Get (h ++ [o; w]) (VRef (S (length h))) "" = VRef (length h)).
  { unfold Get. by rewrite lookup_fresh_S. }
  assert (HGetK : Get (h ++ [o; w]) (VRef (length h)) k = VStr s).
  { unfold Get. rewrite lookup_fresh. cbn. by rewrite String.eqb_refl. }
  unfold internalize at 1. unfold mbind at 1, M_bind at 1, gets at 1. cbn [dec_heap].
  rewrite !HGetW.
  erewrite bind_ok; last first.
  { unfold internalize_members. unfold mbind at 1, M_bind at 1, gets at 1. cbn [dec_heap].
    rewrite lookup_fresh. cbn [o okind props fmap list_fmap fst mapM].
    erewrite bind_ok; [reflexivity|].
    erewrite bind_ok; last first.
    { erewrite bind_ok; last first.
      { unfold internalize. unfold mbind at 1, M_bind at 1, gets at 1. cbn [dec_heap].
        rewrite !HGetK.
        erewrite bind_ok; [|reflexivity].
        unfold revive, restore_refs. rewrite Hk'.
        erewrite bind_ok; [|reflexivity]. exact Hrev. }
      apply put_member. }
    reflexivity. }
  cbv beta. rewrite Hroot by done. reflexivity.
Qed.


End SingleParse.

(** ** The first candidate of a match *)

Section Head.

Implicit Types (r : regex) (s t : string) (i j : nat).

Lemma head_bind {A B} (f : A → list B) x l y :
  head (f x) = Some y → head ((x :: l) ≫= f) = Some y.
Proof. rewrite bind_cons. destruct (f x); [done|]. by intros [= ->]. Qed.

Lemma head_run_seq r1 r2 i s c1 i1 s1 c2 i2 s2 :
  head (run r1 i s) = Some (c1, i1, s1) → head (run r2 i1 s1) = Some (c2, i2, s2) →
  head (run (Seq r1 r2) i s) = Some (c1 ++ c2, i2, s2).
Proof.
  intros H1 H2. cbn [run]. destruct (run r1 i s) as [|x l]; [done|].
  injection H1 as ->. apply head_bind.
  destruct (run r2 i1 s1) as [|y l']; [done|]. injection H2 as ->.
  by apply head_bind.
Qed.

Lemma head_run_lit l i s :
  head (run (Lit l) i (l +:+ s)) = Some ([], i + String.length l, s).
Proof. cbn [run]. by rewrite prefix_refl_append, drop_length_append. Qed.

Lemma head_star p s1 : ∀ i s2,
  Spec.all p s1 = true →
  match s2 with String c _ => p c = false | "" => True end →
  head (star p i (s1 +:+ s2)) = Some ([], i + String.length s1, s2).
Proof.
  induction s1 as [|c s1 IH]; intros i s2 Hall Hs2; simpl in *.
  - rewrite Nat.add_0_r. destruct s2 as [|c s2]; simpl; [done|]. by rewrite Hs2.
  - apply andb_true_iff in Hall as [Hc Hall]. rewrite Hc.
    specialize (IH (S i) s2 Hall Hs2).
    destruct (star p (S i) (s1 +:+ s2)) as [|y l]; [done|]. simpl in *.
    injection IH as ->. do 3 f_equal. lia.
Qed.

Lemma head_run_group r i s c j t :
  head (run r i s) = Some (c, j, t) →
  head (run (Group r) i s) = Some (Some (Str.take (j - i) s) :: c, j, t).
Proof.
  intros H. cbn [run]. destruct (run r i s) as [|x l]; [done|].
  injection H as ->. by apply head_bind.
Qed.

Lemma match_head r s c j t :
  head (run r 0 s) = Some (c, j, t) → match_ r s = Some (Some (Str.take j s) :: c).
Proof.
  intros H. unfold match_.
  assert (Hs : search r 0 s = Some (0, s, (c, j, t))).
  { destruct s; simpl; destruct (run r 0 _); simplify_eq/=; done. }
  rewrite Hs. by rewrite Nat.sub_0_r.
Qed.

Lemma take_length_append s t : Str.take (String.length s) (s +:+ t) = s.
Proof. induction s; simpl; [by destruct t|congruence]. Qed.

Lemma take_length s : Str.take (String.length s) s = s.
Proof. induction s; simpl; congruence. Qed.

(** The match of a tag with two fields: a kind, a first field without a
    bar and a second field without a line terminator. *)
Lemma match_two_fields tag a b :
  Spec.all (Str.none_of "|") a = true → Spec.all Str.is_dot b = true →
  match_ (Seq (Lit tag) (Seq (Group (Star (Str.none_of "|")))
            (Seq (Lit "|") (Group (Star Str.is_dot)))))
    (tag +:+ a +:+ "|" +:+ b)
  = Some [Some (tag +:+ a +:+ "|" +:+ b); Some a; Some b].
Proof.
  intros Ha Hb.
  set (n := String.length tag). set (m := String.length a).
  assert (H : head (run (Seq (Lit tag) (Seq (Group (Star (Str.none_of "|")))
                      (Seq (Lit "|") (Group (Star Str.is_dot))))) 0
                      (tag +:+ a +:+ "|" +:+ b))
              = Some ([Some a; Some b], n + m + 1 + String.length b, "")).
  { eapply (head_run_seq _ _ _ _ [] _ _ [Some a; Some b]); [apply head_run_lit|].
    eapply (head_run_seq _ _ _ _ [Some a] _ _ [Some b]).
    { pose proof (head_run_group (Star (Str.none_of "|")) (0 + n) (a +:+ "|" +:+ b) []
        (0 + n + m) ("|" +:+ b)) as Hg.
      replace (0 + n + m - (0 + n)) with m in Hg by lia.
      unfold m in Hg at 2. rewrite take_length_append in Hg. apply Hg.
      cbn [run]. by apply head_star. }
    eapply (head_run_seq _ _ _ _ [] _ _ [Some b]); [apply (head_run_lit "|")|].
    pose proof (head_run_group (Star Str.is_dot) (0 + n + m + 1) b []
      (0 + n + m + 1 + String.length b) "") as Hg.
    replace (0 + n + m + 1 + String.length b - (0 + n + m + 1)) with (String.length b)
      in Hg by lia.
    rewrite take_length in Hg. apply Hg. cbn [run].
    pose proof (head_star Str.is_dot b (0 + n + m + 1) "" Hb I) as Hstar.
    by rewrite append_nil_r in Hstar. }
  rewrite (match_head _ _ _ _ _ H). do 3 f_equal.
  replace (n + m + 1 + String.length b) with (String.length (tag +:+ a +:+ "|" +:+ b)).
  - apply take_length.
  - rewrite !length_append. simpl. lia.
Qed.

End Head.

(** ** The extended values under a key of the root *)

Section Extended.

Implicit Types (h : heap) (k s : string) (x v : value).

#[local] Arguments revive_value : simpl never.

Lemma valid_flags_no_bar flags :
  valid_flags flags = true → Spec.all (Str.none_of "|") flags = true.
Proof.
  unfold valid_flags. intros [[H _]%andb_true_iff _]%andb_true_iff.
  induction flags as [|c flags IH]; simpl in *; [done|].
  apply andb_true_iff in H as [Hc H]. rewrite IH by done. rewrite andb_true_r.
  unfold Str.none_of, Str.one_of in *. simpl in *.
  destruct (Ascii.eqb_spec c "|") as [->|]; [done|done].
Qed.

Lemma slice_middle a d c :
  slice (String.length a) (String.length c) (a +:+ d +:+ c) = d.
Proof.
  unfold slice. rewrite drop_length_append, !length_append.
  replace (String.length a + (String.length d + String.length c)
           - String.length c - String.length a) with (String.length d) by lia.
  apply take_length_append.
Qed.

Lemma slice_symbol d : slice 7 1 (Symbol_toString (Some d)) = d.
Proof. apply (slice_middle "Symbol(" d ")"). Qed.

Lemma replace_unfold p r s :
  Str.replace p r s
  = if String.prefix p s then r +:+ Str.drop (String.length p) s
    else match s with
         | String c s' => String c (Str.replace p r s')
         | "" => ""
         end.
Proof. by destruct s. Qed.

Lemma replace_prefix p s : Str.replace p "" (p +:+ s) = s.
Proof. by rewrite replace_unfold, prefix_refl_append, drop_length_append. Qed.

(** What the replacer returns for an extended value under a key. *)
Lemma replace_extended depth this k x h st t :
  k ≠ "" → enc_vars st = Some t → extended h x →
  (∀ a o, h !! a = Some o → enc_heap st !! a = Some o) →
  ∃ s, replace depth this k (call_toJSON (enc_heap st) x) st
       = (Enc (enc_heap st)
              (Some (Tracker (objects t) (unwind this (stack t) (keys t)).1
                             (unwind this (stack t) (keys t)).2))
              (enc_path st), Ok (VStr s))
     ∧ tag_of h x = s.
Proof.
  intros Hk%String.eqb_neq Ht Hx Hext.
  unfold replace. rewrite Hk. unfold mbind, M_bind, gets. rewrite Ht.
  destruct (unwind this (stack t) (keys t)) as [stk ks]. cbn [fst snd].
  unfold put_vars, modify. cbn [enc_heap enc_vars enc_path].
  destruct Hx as [a o source flags Ha Hkind _ Hflags Hsrc Hdot|a o tv Ha Hkind _ Hyear
                 |id d _| | | |]; unfold call_toJSON, tag_of; cbn [kind_of].
  - rewrite (Hext _ _ Ha), Ha. cbn [fmap option_fmap option_map]. rewrite Hkind.
    cbn [kind_of]. rewrite (Hext _ _ Ha). cbn [fmap option_fmap option_map].
    rewrite Hkind. eauto.
  - rewrite (Hext _ _ Ha), Ha. cbn [fmap option_fmap option_map]. rewrite Hkind.
    cbn [Date.toJSON kind_of].
    destruct (toISOString_parse tv Hyear) as [-> _]. eauto.
  - rewrite slice_symbol. eauto.
  - eauto.
  - eauto.
  - eauto.
  - eauto.
Qed.

(** What the reviver returns for the tag of an extended value. *)
Lemma revive_extended h x k hh this :
  k ≠ MARKER → extended h x → (length h ≤ length hh)%nat →
  ∃ v extra,
    revive_value this k (VStr (tag_of h x)) (Dec hh [] VUndef)
    = (Dec (hh ++ extra) [] VUndef, Ok v)
    ∧ ∀ hf, length hf = length hh → same_behaviour h x (hf ++ extra) v.
Proof.
  intros Hk%String.eqb_neq Hx Hhh. unfold revive_value. rewrite Hk.
  unfold mbind at 1, M_bind at 1, gets at 1.
  destruct Hx as [a o source flags Ha Hkind _ Hflags Hsrc Hdot|a o tv Ha Hkind _ Hyear
                 |id d Hid| | | |]; unfold tag_of; cbn [kind_of].
  - rewrite Ha. cbn [fmap option_fmap option_map]. rewrite Hkind.
    change (Str.startsWith ("_regexp_" +:+ flags +:+ "|" +:+ source) "_function_")
      with false.
    assert (Hst : Str.startsWith ("_regexp_" +:+ flags +:+ "|" +:+ source) "_regexp_"
                  = true) by apply prefix_refl_append.
    rewrite Hst. unfold regexp_re.
    rewrite match_two_fields by auto using valid_flags_no_bar.
    unfold new_RegExp. rewrite Hflags.
    apply String.eqb_neq in Hsrc. rewrite Hsrc.
    eexists _, [_]. split; [reflexivity|]. intros hf Hlen.
    apply (same_regexp h a o source flags _ _
             (Object (KRegExp source flags) "RegExp" false [])); first [done|by (cbn [dec_heap]; rewrite <- Hlen; apply lookup_fresh)|lia].
  - rewrite Ha. cbn [fmap option_fmap option_map]. rewrite Hkind.
    change (Str.startsWith ("_date_" +:+ Date.toISOString tv) "_function_") with false.
    change (Str.startsWith ("_date_" +:+ Date.toISOString tv) "_regexp_") with false.
    assert (Hst : Str.startsWith ("_date_" +:+ Date.toISOString tv) "_date_" = true)
      by apply prefix_refl_append.
    rewrite Hst.
    rewrite replace_prefix.
    destruct (toISOString_parse tv Hyear) as [_ ->].
    eexists _, [_]. split; [reflexivity|]. intros hf Hlen.
    apply (same_date h a o tv _ _ (Object (KDate (Some tv)) "Date" false []));
      first [done|by (cbn [dec_heap]; rewrite <- Hlen; apply lookup_fresh)|lia].
  - change (default "" (Some d)) with d.
    change (Str.startsWith ("_symbol_" +:+ d) "_function_") with false.
    change (Str.startsWith ("_symbol_" +:+ d) "_regexp_") with false.
    change (Str.startsWith ("_symbol_" +:+ d) "_date_") with false.
    change (Str.startsWith ("_symbol_" +:+ d) "_duplicate_") with false.
    assert (Hst : Str.startsWith ("_symbol_" +:+ d) "_symbol_" = true)
      by apply prefix_refl_append.
    rewrite Hst, replace_prefix.
    eexists _, [_]. split; [reflexivity|]. intros hf Hlen. cbn [dec_heap].
    constructor; [lia|]. cbn [strict_eq]. apply Nat.eqb_neq. lia.
  - exists VUndef, []. rewrite app_nil_r. split; [reflexivity|]. intros. constructor.
  - exists (VNum nan), []. rewrite app_nil_r. split; [reflexivity|]. intros.
    by constructor.
  - exists (VNum infinity), []. rewrite app_nil_r. split; [reflexivity|]. intros.
    by constructor.
  - exists (VNum neg_infinity), []. rewrite app_nil_r. split; [reflexivity|]. intros.
    by constructor.
Qed.

(** The reviver leaves a string with a sign in front as it is. *)
Lemma revive_value_signed this k c rest (st : dec) :
  k ≠ MARKER → (c = "+" ∨ c = "-")%char →
  revive_value this k (VStr (String c rest)) st = (st, Ok (VStr (String c rest))).
Proof.
  intros Hk%String.eqb_neq [-> | ->]; unfold revive_value; rewrite Hk; reflexivity.
Qed.

End Extended.

(** C4, as the specification states it, fails. At the top level no value
    is tagged: [stringify(NaN)] is the text [null], which [parse] reads as
    [null]. Under a key, a date whose year has more than four digits is
    written by [toJSON] in a form that the date pattern of the encoder does
    not match: it comes back as a string. *)
Lemma extended_value_counterexample :
  (∃ h1, stringify [] (VNum nan) None = (h1, Ok (Some JNull))
         ∧ (parse h1 JNull).2 = Ok VNull)
  ∧ (let h := [Object (KDate (Some 253402300800000%Z)) "Date" false [];
               Object KObject "Object" false [("d", VRef 0)]] in
     ∃ h1 j h2 b,
       stringify h (VRef 1) None = (h1, Ok (Some j))
       ∧ parse h1 j = (h2, Ok (VRef b))
       ∧ Get h2 (VRef b) "d" = VStr "+010000-01-01T00:00:00.000Z").
Proof.
  split.
  - exists [wrapper_of (VNum nan)]. split; vm_compute; reflexivity.
  - intros h.
    exists (h ++ [wrapper_of (VRef 1)]),
      (JObj [("d", JStr "+010000-01-01T00:00:00.000Z")]),
      (h ++ [wrapper_of (VRef 1);
             Object KObject "Object" false [("d", VStr "+010000-01-01T00:00:00.000Z")];
             wrapper_of (VRef 3)]), 3.
    split_and!; vm_compute; reflexivity.
Qed.

(** C4, amended. Let [x] be under a key [k] of a plain root object, [k]
    other than the empty key, [_constructor-name_] and the names that the
    object inherits. For an extended value [x] (a regular expression, a
    date whose year has four digits, a symbol with a description,
    [undefined], [NaN], [Infinity], [-Infinity]), with the default options,
    [parse(stringify({ k: x }))] is an object whose [k] is observed as [x]
    is: a new regular expression with the same source and flags, a new date
    with the same time value, a new symbol, another one than [x], with the
    same description, the same sentinel; for [undefined] the object has no
    key, for the other values it has the key [k] and no other. For a date
    [x] whose year is outside 0000 to 9999 the [k] of the result is a
    string, the text of [toISOString]. And on the root call, under the
    empty key, [replace] returns any [x] as it is: at the top level no
    value is tagged. *)
Theorem extended_roundtrip (h : heap) (a : nat) (k : string) (x : value) :
  h !! a = Some (Object KObject "Object" false [(k, x)]) →
  k ≠ "" → k ≠ MARKER → inherited k = false →
  (extended h x →
   ∃ h1 j h2 b,
     stringify h (VRef a) None = (h1, Ok (Some j))
     ∧ parse h1 j = (h2, Ok (VRef b))
     ∧ same_behaviour h x h2 (Get h2 (VRef b) k)
     ∧ own_keys h2 b = match x with VUndef => [] | _ => [k] end)
  ∧ (∀ d o t,
       x = VRef d → h !! d = Some o → okind o = KDate (Some t) → props o = [] →
       time_value t → ¬ four_digit_year t →
       ∃ h1 j h2 b,
         stringify h (VRef a) None = (h1, Ok (Some j))
         ∧ parse h1 j = (h2, Ok (VRef b))
         ∧ Get h2 (VRef b) k = VStr (Date.toISOString t))
  ∧ (∀ depth this st, (replace depth this "" x st).2 = Ok x).
Proof.
  intros Ha Hk Hm _.
  set (h1 := h ++ [wrapper_of (VRef a)]).
  split_and!.
  - intros Hx.
    destruct (revive_extended h x k
      (h1 ++ [Object KObject "Object" false [(k, VStr (tag_of h x))];
              wrapper_of (VRef (length h1))]) (VRef (length h1)) Hm Hx)
      as (v & extra & Hrev & Hsame).
    { unfold h1. rewrite !length_app. lia. }
    exists h1, (JObj [(k, JStr (tag_of h x))]). eexists _, (length h1).
    assert (Hv : same_behaviour h x
      (h1 ++ [Object KObject "Object" false (member k v);
              wrapper_of (VRef (length h1))] ++ extra) v).
    { rewrite app_assoc. apply Hsame. by rewrite !length_app. }
    split_and!.
    + apply (stringify_single_string h a k x); [done..|].
      intros st Hst [t Ht].
      destruct (replace_extended 10 (VRef a) k x h st t Hk Ht Hx) as (s & Hs & <-).
      { intros a' o' Ho'. rewrite Hst. by apply lookup_app_l_Some. }
      eauto.
    + by apply parse_single_string.
    + assert (HGet : Get (h1 ++ [Object KObject "Object" false (member k v);
                                 wrapper_of (VRef (length h1))] ++ extra)
                       (VRef (length h1)) k = v).
      { unfold Get. cbn [app]. rewrite lookup_fresh. cbn [props].
        destruct v; cbn [member Props.lookup]; by rewrite ?String.eqb_refl. }
      by rewrite HGet.
    + unfold own_keys. cbn [app]. rewrite lookup_fresh. cbn [props].
      destruct Hv; reflexivity.
  - intros d o t -> Hd Hkind _ _ Hyear.
    destruct (toISOString_signed t Hyear) as (c & rest & Hiso & Hc).
    assert (Hdig : Str.is_digit c = false) by (by destruct Hc as [-> | ->]).
    exists h1, (JObj [(k, JStr (Date.toISOString t))]).
    exists (h1 ++ [Object KObject "Object" false (member k (VStr (Date.toISOString t)));
                   wrapper_of (VRef (length h1))] ++ []), (length h1).
    split_and!.
    + apply (stringify_single_string h a k (VRef d)); [done..|].
      intros st Hst [tr Ht]. unfold call_toJSON, kind_of. rewrite Hst.
      rewrite (lookup_app_l_Some _ _ _ _ Hd). cbn [fmap option_fmap option_map].
      rewrite Hkind. cbn [Date.toJSON]. rewrite <- Hst.
      rewrite (replace_string _ _ _ _ _ tr); [by eexists|done|done|].
      rewrite Hiso. by apply test_dateFormat_nondigit.
    + apply parse_single_string; [done..|]. rewrite app_nil_r, Hiso.
      by apply revive_value_signed.
    + unfold Get. cbn [app]. rewrite lookup_fresh. cbn [props member Props.lookup].
      by rewrite String.eqb_refl.
  - intros depth this st. by rewrite replace_root.
Qed.

Lemma extended_roundtrip_witness :
  let h := [Object (KRegExp "a+b" "gi") "RegExp" false [];
            Object KObject "Object" false [("r", VRef 0)]] in
  ∃ h1 j h2 b,
    stringify h (VRef 1) None = (h1, Ok (Some j))
    ∧ parse h1 j = (h2, Ok (VRef b))
    ∧ same_behaviour h (VRef 0) h2 (Get h2 (VRef b) "r")
    ∧ own_keys h2 b = ["r"].
Proof.
  intros h.
  refine (proj1 (extended_roundtrip h 1 "r" (VRef 0) _ _ _ _) _).
  - reflexivity.
  - vm_compute. discriminate.
  - vm_compute. discriminate.
  - vm_compute. reflexivity.
  - eapply (ext_regexp h 0 _ "a+b" "gi"); [reflexivity..| |reflexivity].
    vm_compute. discriminate.
Defined.
(** ** Decimal keys *)

Section Keys.

Implicit Types (k : string) (n i : nat).

Lemma to_uint_not_nil n : Nat.to_uint n ≠ Decimal.Nil.
Proof.
  intros H. pose proof (Unsigned.of_to n) as Hn. rewrite H in Hn.
  simpl in Hn. subst n. discriminate H.
Qed.

Lemma of_nat_inj n m : Str.of_nat n = Str.of_nat m → n = m.
Proof.
  unfold Str.of_nat. intros H.
  apply (f_equal NilZero.uint_of_string) in H.
  rewrite !NilZero.usu in H by apply to_uint_not_nil.
  injection H as H. apply (f_equal Nat.of_uint) in H.
  by rewrite !Unsigned.of_to in H.
Qed.

Lemma to_index_Some k i : to_index k = Some i → k = Str.of_nat i.
Proof.
  unfold to_index. destruct (NilEmpty.uint_of_string k) as [u|]; [|done].
  cbv zeta. destruct (String.eqb_spec (Str.of_nat (Nat.of_uint u)) k); [|done].
  by intros [= <-].
Qed.

Lemma digits_of_uint d :
  Spec.all Str.is_digit (NilEmpty.string_of_uint d) = true.
Proof. induction d; simpl; try done. Qed.

Lemma of_nat_digits n : Spec.all Str.is_digit (Str.of_nat n) = true.
Proof.
  unfold Str.of_nat, NilZero.string_of_uint.
  destruct (Nat.to_uint n) eqn:E; try apply digits_of_uint. done.
Qed.

Lemma of_nat_not_empty n : Str.of_nat n ≠ "".
Proof.
  unfold Str.of_nat, NilZero.string_of_uint.
  destruct (Nat.to_uint n) eqn:E; simpl; try done.
Qed.

Lemma all_impl (p q : ascii → bool) s :
  (∀ c, p c = true → q c = true) → Spec.all p s = true → Spec.all q s = true.
Proof.
  intros Hpq. induction s as [|c s IH]; simpl; [done|].
  intros [Hc Hs]%andb_true_iff. rewrite (Hpq _ Hc). auto.
Qed.

Lemma digit_no_dot c : Str.is_digit c = true → Str.none_of ".[]" c = true.
Proof.
  unfold Str.none_of, Str.one_of. cbn [list_ascii_of_string existsb].
  intros H. rewrite !orb_false_r.
  destruct (Ascii.eqb_spec c ".") as [->|]; [vm_compute in H; done|].
  destruct (Ascii.eqb_spec c "[") as [->|]; [vm_compute in H; done|].
  destruct (Ascii.eqb_spec c "]") as [->|]; [vm_compute in H; done|]. done.
Qed.

Lemma plain_key_of_nat n : plain_key (Str.of_nat n) = true.
Proof.
  unfold plain_key. pose proof (of_nat_digits n) as Hd.
  pose proof (of_nat_not_empty n) as Hne.
  rewrite (all_impl _ _ _ digit_no_dot Hd), andb_true_r.
  apply andb_true_iff. split; apply negb_true_iff, String.eqb_neq; [done|].
  intros H. rewrite H in Hd. vm_compute in Hd. done.
Qed.

End Keys.

(** ** Members *)

Section Members.

Implicit Types (j e : json) (k : string).

Lemma members_leaf j : is_container j = false → members j = [].
Proof. by destruct j. Qed.

Lemma imap_keys {A} (l : list A) n :
  (imap (fun i x => (Str.of_nat (n + i), x)) l).*1 = Str.of_nat <$> seq n (length l).
Proof.
  revert n. induction l as [|x l IH]; intros n; [done|].
  rewrite imap_cons. cbn [fmap list_fmap length seq fst]. rewrite Nat.add_0_r. f_equal.
  rewrite <- IH. f_equal. apply imap_ext. intros i y _. cbn. f_equal. f_equal. lia.
Qed.

Lemma imap_keys_0 {A} (l : list A) :
  (imap (fun i x => (Str.of_nat i, x)) l).*1 = Str.of_nat <$> seq 0 (length l).
Proof. apply (imap_keys l 0). Qed.


Lemma NoDup_indices n len : NoDup (Str.of_nat <$> seq n len).
Proof.
  apply NoDup_fmap_2; [|apply NoDup_seq]. intros x y. apply of_nat_inj.
Qed.

Lemma assoc_Some {A} k (l : list (string * A)) x :
  assoc k l = Some x → (k, x) ∈ l.
Proof.
  induction l as [|[k' y] l IH]; simpl; [done|].
  destruct (String.eqb_spec k' k) as [->|].
  - intros [= ->]. by left.
  - intros H. right. auto.
Qed.

Lemma assoc_elem {A} k (l : list (string * A)) x :
  NoDup l.*1 → (k, x) ∈ l → assoc k l = Some x.
Proof.
  induction l as [|[k' y] l IH]; simpl; intros Hnd Hin.
  - by apply elem_of_nil in Hin.
  - apply NoDup_cons in Hnd as [Hk Hnd].
    apply elem_of_cons in Hin as [[= <- <-]|Hin]; [by rewrite String.eqb_refl|].
    destruct (String.eqb_spec k' k) as [->|]; [|auto].
    exfalso. apply Hk. apply list_elem_of_fmap. by exists (k, x).
Qed.

Lemma assoc_None {A} k (l : list (string * A)) :
  k ∉ l.*1 → assoc k l = None.
Proof.
  induction l as [|[k' y] l IH]; simpl; [done|]. intros Hk.
  apply not_elem_of_cons in Hk as [Hne Hk].
  destruct (String.eqb_spec k' k); [done|auto].
Qed.

Lemma lookup_props k ps v :
  NoDup ps.*1 → (k, v) ∈ ps → Props.lookup k ps = Some v.
Proof.
  induction ps as [|[k' y] l IH]; simpl; intros Hnd Hin.
  - by apply elem_of_nil in Hin.
  - apply NoDup_cons in Hnd as [Hk Hnd].
    apply elem_of_cons in Hin as [[= <- <-]|Hin]; [by rewrite String.eqb_refl|].
    destruct (String.eqb_spec k' k) as [->|]; [|auto].
    exfalso. apply Hk. apply list_elem_of_fmap. by exists (k, v).
Qed.

Lemma lookup_props_None k ps : k ∉ ps.*1 → Props.lookup k ps = None.
Proof.
  induction ps as [|[k' y] l IH]; simpl; [done|]. intros Hk.
  apply not_elem_of_cons in Hk as [Hne Hk].
  destruct (String.eqb_spec k' k); [done|auto].
Qed.

Lemma props_set_middle k v v' pre post :
  k ∉ pre.*1 → Props.set k v' (pre ++ (k, v) :: post) = pre ++ (k, v') :: post.
Proof.
  induction pre as [|[k' y] l IH]; simpl; intros Hk.
  - by rewrite String.eqb_refl.
  - apply not_elem_of_cons in Hk as [Hne Hk].
    destruct (String.eqb_spec k' k); [done|]. by rewrite IH.
Qed.

Lemma member_key_plain k : member_key k = true → plain_key k = true.
Proof. unfold member_key. by intros [[H _]%andb_true_iff _]%andb_true_iff. Qed.

Lemma member_key_own k : member_key k = true → k ≠ "constructor".
Proof.
  unfold member_key, inherited.
  intros [[_ H%negb_true_iff]%andb_true_iff _]%andb_true_iff ->.
  by vm_compute in H.
Qed.

(** No member of a plain container is under the key [constructor]. *)
Lemma plain_no_constructor j : plain j = true → "constructor" ∉ (members j).*1.
Proof.
  destruct j as [| | | |l|l]; cbn [members plain]; try by (intros _ ?%elem_of_nil).
  - intros _. rewrite imap_keys_0.
    intros (i & Hi & _)%list_elem_of_fmap.
    pose proof (of_nat_digits i) as Hd. rewrite <- Hi in Hd. by vm_compute in Hd.
  - intros [H _]%andb_true_iff (m & Hm & Hin)%list_elem_of_fmap.
    rewrite forallb_forall in H. apply list_elem_of_In, H in Hin.
    apply andb_true_iff in Hin as [Hk%member_key_own _]. done.
Qed.

(** The members of a plain container are plain, under distinct plain
    keys. *)
Lemma plain_members j :
  plain j = true →
  Forall (fun m => plain_key m.1 = true ∧ plain m.2 = true) (members j)
  ∧ NoDup (members j).*1.
Proof.
  destruct j as [| | | |l|l]; cbn [members plain]; try by (intros _; split; constructor).
  - intros H. split.
    + apply Forall_forall. intros [k e] (i & y & [= -> ->] & Hy)%elem_of_lookup_imap.
      split; [apply plain_key_of_nat|].
      rewrite forallb_forall in H. apply H. apply list_elem_of_In.
      by eapply list_elem_of_lookup_2.
    + rewrite imap_keys_0. apply NoDup_indices.
  - intros [H Hnd]%andb_true_iff. apply bool_decide_eq_true in Hnd. split; [|done].
    apply Forall_forall. intros m Hm. rewrite forallb_forall in H.
    apply list_elem_of_In, H in Hm. apply andb_true_iff in Hm as [Hk%member_key_plain ?].
    done.
Qed.

Lemma fits_members room j :
  is_container j = true → fits room j = true →
  (0 < room)%nat ∧ Forall (fun m => fits (room - 1) m.2 = true) (members j).
Proof.
  destruct j as [| | | |l|l]; try done; intros _; cbn [fits members];
    intros [Hr H]%andb_true_iff; apply Nat.ltb_lt in Hr; (split; [done|]);
    rewrite forallb_forall in H; apply Forall_forall.
  - intros [k e] (i & y & [= -> ->] & Hy)%elem_of_lookup_imap.
    apply H, list_elem_of_In. by eapply list_elem_of_lookup_2.
  - intros m Hm. by apply H, list_elem_of_In.
Qed.

Lemma height_members j m :
  m ∈ members j → (height m.2 < height j)%nat.
Proof.
  destruct j as [| | | |l|l]; cbn [members height]; try by intros ?%elem_of_nil.
  - intros (i & y & -> & Hy)%elem_of_lookup_imap. cbn [snd].
    apply list_elem_of_lookup_2 in Hy. clear i.
    induction l as [|x l IH]; [by apply elem_of_nil in Hy|].
    cbn [foldr]. apply elem_of_cons in Hy as [->|Hy]; [lia|].
    specialize (IH Hy). lia.
  - intros Hm. induction l as [|x l IH]; [by apply elem_of_nil in Hm|].
    cbn [foldr]. apply elem_of_cons in Hm as [->|Hm]; [lia|].
    specialize (IH Hm). lia.
Qed.

End Members.
(** ** Layouts *)

Section Layout.

Implicit Types (h : heap) (j e : json) (k : string) (v holder : value)
  (ps : list (string * value)) (ms : list (string * json)).

Lemma chain_keys P lo hi ps ms : chain P lo hi ps ms → ps.*1 = ms.*1.
Proof. induction 1; cbn; congruence. Qed.

Lemma chain_le P lo hi ps ms :
  (∀ l m k v e, P l m k v e → (l ≤ m)%nat) → chain P lo hi ps ms → (lo ≤ hi)%nat.
Proof. intros HP. induction 1 as [|lo mid hi k v e ps ms H _ IH]; [done|]. apply HP in H. lia. Qed.

Lemma chain_impl P P' lo hi ps ms :
  (∀ l m k v e, P l m k v e → (l ≤ m)%nat) →
  chain P lo hi ps ms →
  (∀ l m k v e, (lo ≤ l)%nat → (m ≤ hi)%nat → (k, v) ∈ ps → P l m k v e → P' l m k v e) →
  chain P' lo hi ps ms.
Proof.
  intros HP. induction 1 as [|lo mid hi k v e ps ms H Hc IH]; intros Himp;
    [constructor|]. apply (chain_cons _ lo mid hi).
  - apply Himp; [lia| |by left|done]. eapply chain_le in Hc; [lia|done].
  - apply IH. intros l m k' v' e' Hl Hm Hin. apply Himp; [|done|by right].
    apply HP in H. lia.
Qed.

Lemma chain_elem P lo hi ps ms k e :
  (∀ l m k v e, P l m k v e → (l ≤ m)%nat) →
  chain P lo hi ps ms → (k, e) ∈ ms →
  ∃ v l m, (k, v) ∈ ps ∧ (lo ≤ l)%nat ∧ (m ≤ hi)%nat ∧ P l m k v e.
Proof.
  intros HP. induction 1 as [|lo mid hi k' v' e' ps ms H Hc IH]; intros Hin.
  - by apply elem_of_nil in Hin.
  - pose proof (chain_le _ _ _ _ _ HP Hc). pose proof (HP _ _ _ _ _ H).
    apply elem_of_cons in Hin as [[= -> ->]|Hin].
    + exists v', lo, mid. split_and!; [by left|lia|lia|done].
    + destruct (IH Hin) as (v & l & m & Hv & Hl & Hm & Hp).
      exists v, l, m. split_and!; [by right|lia|lia|done].
Qed.

(** The induction principle of [laid], with the hypothesis for the
    members. *)
Lemma laid_ind' Q h (P : nat → nat → value → string → value → json → Prop) :
  (∀ lo holder k v e, is_container e = false → Q holder k e v → P lo lo holder k v e) →
  (∀ lo a holder k ps e,
     is_container e = true → Q holder k e (VRef a) →
     h !! a = Some (cell e ps) → NoDup ps.*1 →
     chain (fun lo hi k v e => laid Q h lo hi (VRef a) k v e ∧ P lo hi (VRef a) k v e)
       lo a ps (members e) →
     P lo (S a) holder k (VRef a) e) →
  ∀ lo hi holder k v e, laid Q h lo hi holder k v e → P lo hi holder k v e.
Proof.
  intros Hleaf Hnode. fix IH 7.
  intros lo hi holder k v e [lo' holder' k' v' e' He HQ|lo' a holder' k' ps e' He HQ Ha Hnd Hc].
  - by apply Hleaf.
  - apply (Hnode lo' a holder' k' ps e' He HQ Ha Hnd).
    exact ((fix IHc l m ps' ms
              (c : chain (fun lo hi k v e => laid Q h lo hi (VRef a) k v e) l m ps' ms)
              {struct c} :
              chain (fun lo hi k v e =>
                       laid Q h lo hi (VRef a) k v e ∧ P lo hi (VRef a) k v e) l m ps' ms :=
              match c with
              | chain_nil _ l' => chain_nil _ l'
              | chain_cons _ l1 l2 l3 k1 v1 e1 ps1 ms1 H1 c1 =>
                  chain_cons _ l1 l2 l3 k1 v1 e1 ps1 ms1
                    (conj H1 (IH _ _ _ _ _ _ H1)) (IHc _ _ _ _ c1)
              end) lo' a ps (members e') Hc).
Qed.

Lemma laid_height Q h lo hi holder k v e :
  laid Q h lo hi holder k v e → (height e + lo ≤ hi)%nat.
Proof.
  induction 1 as [lo holder k v e He _|lo a holder k ps e He _ _ _ Hc] using laid_ind'.
  - destruct e; try done; simpl; lia.
  - assert (Hm : ∀ m, m ∈ members e → (height m.2 + lo ≤ a)%nat).
    { revert Hc. generalize (members e). intros ms Hc.
      induction Hc as [|lo mid hi k' v' e' ps ms [_ H] Hc IH]; intros m Hm.
      - by apply elem_of_nil in Hm.
      - assert (mid ≤ hi)%nat.
        { eapply chain_le; [|done]. intros ????? [_ ?]. lia. }
        apply elem_of_cons in Hm as [->|Hm]; [simpl; lia|].
        specialize (IH _ Hm). lia. }
    assert (lo ≤ a)%nat as Hlo.
    { eapply chain_le; [|done]. intros ????? [_ ?]. lia. }
    clear Hc. destruct e as [| | | |l|l]; try done; cbn [height members] in *.
    + assert (foldr (λ j n, height j `max` n) 0 l + lo ≤ a)%nat as Hf;
        [|exact (le_n_S _ _ Hf)].
      assert (Hl : ∀ x, x ∈ l → (height x + lo ≤ a)%nat).
      { intros x (i & Hi)%list_elem_of_lookup.
        apply (Hm (Str.of_nat i, x)), elem_of_lookup_imap. eauto. }
      clear Hm He. induction l as [|x l IH]; cbn [foldr]; [lia|].
      pose proof (Hl x ltac:(by left)).
      assert (∀ x, x ∈ l → (height x + lo ≤ a)%nat) as Hl' by (intros; apply Hl; by right).
      specialize (IH Hl'). lia.
    + assert (foldr (λ m n, height m.2 `max` n) 0 l + lo ≤ a)%nat as Hf;
        [|exact (le_n_S _ _ Hf)].
      clear He. induction l as [|x l IH]; cbn [foldr]; [lia|].
      pose proof (Hm x ltac:(by left)).
      assert (∀ x, x ∈ l → (height x.2 + lo ≤ a)%nat) as Hl' by (intros; apply Hm; by right).
      specialize (IH Hl'). lia.
Qed.

Lemma laid_le Q h lo hi holder k v e :
  laid Q h lo hi holder k v e → (lo ≤ hi)%nat.
Proof. intros H%laid_height. lia. Qed.

Lemma laid_bound Q h lo hi holder k v e :
  laid Q h lo hi holder k v e → is_container e = true → (hi ≤ length h)%nat.
Proof.
  destruct 1 as [lo holder k v e He _|lo a holder k ps e He _ Ha _ _]; [congruence|].
  intros _. apply lookup_lt_Some in Ha. lia.
Qed.

(** A layout depends on the cells of its addresses and on what its slots
    hold only. *)
Lemma laid_mono Q Q' h h' lo hi holder k v e :
  laid Q h lo hi holder k v e →
  (∀ a, (lo ≤ a < hi)%nat → h' !! a = h !! a) →
  (∀ e v, Q holder k e v → Q' holder k e v) →
  (∀ a k e v, (lo ≤ a < hi)%nat → Q (VRef a) k e v → Q' (VRef a) k e v) →
  laid Q' h' lo hi holder k v e.
Proof.
  induction 1 as [lo holder k v e He HQ|lo a holder k ps e He HQ Ha Hnd Hc] using laid_ind';
    intros Hh Htop Hin.
  - constructor; auto.
  - assert (lo ≤ a)%nat as Hlo.
    { eapply chain_le; [|done]. intros ????? [?%laid_le _]. done. }
    apply laid_node with (ps := ps); auto.
    + rewrite Hh by lia. done.
    + eapply chain_impl; [|done|].
      * intros ????? [?%laid_le _]. done.
      * intros l m k' v' e' Hl Hm _ [_ IH]. apply IH.
        -- intros b Hb. apply Hh. lia.
        -- intros e'' v''. apply Hin. lia.
        -- intros b k'' e'' v'' Hb. apply Hin. lia.
Qed.

Lemma laid_frame Q h h' lo hi holder k v e :
  laid Q h lo hi holder k v e →
  (∀ a, (lo ≤ a < hi)%nat → h' !! a = h !! a) →
  laid Q h' lo hi holder k v e.
Proof. intros H Hh. eapply laid_mono; eauto. Qed.

Lemma laid_app Q h ext lo hi holder k v e :
  laid Q h lo hi holder k v e → (hi ≤ length h)%nat →
  laid Q (h ++ ext) lo hi holder k v e.
Proof.
  intros H Hhi. eapply laid_frame; [done|]. intros a Ha.
  apply lookup_app_l. lia.
Qed.

(** The slot of a literal does not depend on its holder. *)
Lemma laid_literal_holder h lo hi holder holder' k k' v e :
  laid literal h lo hi holder k v e → laid literal h lo hi holder' k' v e.
Proof.
  destruct 1 as [lo holder k v e He HQ|lo a holder k ps e He HQ Ha Hnd Hc].
  - by constructor.
  - by apply laid_node with (ps := ps).
Qed.

End Layout.
(** ** The layout that [build] makes *)

Section Build.

Implicit Types (h : heap) (j e : json) (k : string) (v holder : value)
  (ps : list (string * value)) (ms : list (string * json)).

Lemma json_ind' (P : json → Prop) :
  P JNull → (∀ b, P (JBool b)) → (∀ f, P (JNum f)) → (∀ s, P (JStr s)) →
  (∀ l, Forall P l → P (JArr l)) →
  (∀ l, Forall (fun m => P m.2) l → P (JObj l)) →
  ∀ j, P j.
Proof.
  intros Hnull Hbool Hnum Hstr Harr Hobj. fix IH 1.
  intros [|b|f|s|l|l]; [exact Hnull|exact (Hbool b)|exact (Hnum f)|exact (Hstr s)|..].
  - apply Harr.
    exact ((fix go (l : list json) : Forall P l :=
              match l with
              | [] => Forall_nil_2 P
              | x :: l' => Forall_cons_2 P x l' (IH x) (go l')
              end) l).
  - apply Hobj.
    exact ((fix go (l : list (string * json)) : Forall (fun m => P m.2) l :=
              match l with
              | [] => Forall_nil_2 _
              | x :: l' => Forall_cons_2 _ x l' (IH x.2) (go l')
              end) l).
Qed.

Lemma props_set_new k v ps : k ∉ ps.*1 → Props.set k v ps = ps ++ [(k, v)].
Proof.
  induction ps as [|[k' y] l IH]; simpl; [done|]. intros Hk.
  apply not_elem_of_cons in Hk as [Hne Hk].
  destruct (String.eqb_spec k' k); [done|]. by rewrite IH.
Qed.

Lemma fold_set_distinct ps : ∀ acc,
  NoDup (acc ++ ps).*1 →
  fold_left (fun acc p => Props.set p.1 p.2 acc) ps acc = acc ++ ps.
Proof.
  induction ps as [|[k v] ps IH]; intros acc Hnd; cbn [fold_left].
  - by rewrite app_nil_r.
  - rewrite props_set_new.
    + rewrite IH; rewrite <- app_assoc; done.
    + rewrite fmap_app in Hnd. apply NoDup_app in Hnd as (_ & Hd & _).
      intros Hk. apply (Hd _ Hk). by left.
Qed.

Lemma build_laid j : ∀ h holder k,
  distinct j = true →
  ∃ ext v, build j h = (h ++ ext, v)
           ∧ laid literal (h ++ ext) (length h) (length (h ++ ext)) holder k v j.
Proof.
  induction j as [|b|f|s|l IH|l IH] using json_ind'; intros h holder k Hp.
  - exists [], VNull. rewrite app_nil_r. split; [done|]. by constructor.
  - exists [], (VBool b). rewrite app_nil_r. split; [done|]. by constructor.
  - exists [], (VNum f). rewrite app_nil_r. split; [done|]. by constructor.
  - exists [], (VStr s). rewrite app_nil_r. split; [done|]. by constructor.
  - cbn [build distinct] in *.
    assert (Hel : ∀ n h,
      ∃ ext vs,
        (fix elements (l : list json) (h : heap) : heap * list value :=
           match l with
           | [] => (h, [])
           | j :: l' =>
               let '(h, v) := build j h in
               let '(h, vs) := elements l' h in (h, v :: vs)
           end) l h = (h ++ ext, vs)
        ∧ length vs = length l
        ∧ chain (fun lo hi k v e => laid literal (h ++ ext) lo hi holder k v e)
            (length h) (length (h ++ ext))
            (imap (fun i v => (Str.of_nat (n + i), v)) vs)
            (imap (fun i e => (Str.of_nat (n + i), e)) l)).
    { clear h. induction IH as [|x l Hx _ IHl]; intros n h.
      - exists [], []. rewrite app_nil_r. split_and!; [done..|]. constructor.
      - cbn [forallb] in Hp. apply andb_true_iff in Hp as [Hpx Hpl].
        destruct (Hx h holder (Str.of_nat (n + 0)) Hpx) as (ext1 & v & Hb1 & Hv).
        destruct (IHl Hpl (S n) (h ++ ext1)) as (ext2 & vs & Hb2 & Hlen & Hc).
        exists (ext1 ++ ext2), (v :: vs). rewrite <- app_assoc in *.
        split_and!; [by rewrite Hb1, Hb2|cbn; congruence|].
        rewrite !imap_cons.
        apply (chain_cons _ _ (length (h ++ ext1))).
        + cbn beta. rewrite app_assoc. apply laid_app; [done|lia].
        + erewrite (imap_ext _ _ vs), (imap_ext _ _ l); [exact Hc|..];
            intros i y _; cbn; do 2 f_equal; lia. }
    destruct (Hel 0 h) as (ext & vs & -> & Hlen & Hc). unfold alloc.
    exists (ext ++ [Object (KArray (length vs)) "Array" false
                     (imap (fun i v => (Str.of_nat i, v)) vs)]), (VRef (length (h ++ ext))).
    rewrite <- app_assoc. split; [done|].
    replace (length (h ++ ext ++ _)) with (S (length (h ++ ext)))
      by (rewrite !length_app; cbn; lia).
    apply laid_node with (ps := imap (fun i v => (Str.of_nat i, v)) vs); cbn [is_container cell].
    + done.
    + done.
    + rewrite app_assoc, lookup_fresh. by rewrite Hlen.
    + rewrite imap_keys_0. apply NoDup_indices.
    + cbn [members]. eapply chain_impl; [|exact Hc|].
      * intros ????? ?%laid_le. done.
      * intros lo hi k' v' e' _ Hhi _ H. cbn beta.
        rewrite app_assoc. apply laid_app; [|done].
        cbn beta in H. eapply laid_literal_holder, H.
  - cbn [build distinct] in *. apply andb_true_iff in Hp as [Hp Hnd].
    apply bool_decide_eq_true in Hnd.
    assert (Hel : ∀ h,
      ∃ ext ps,
        (fix members (l : list (string * json)) (h : heap)
             : heap * list (string * value) :=
           match l with
           | [] => (h, [])
           | (k, j) :: l' =>
               let '(h, v) := build j h in
               let '(h, ps) := members l' h in (h, (k, v) :: ps)
           end) l h = (h ++ ext, ps)
        ∧ chain (fun lo hi k v e => laid literal (h ++ ext) lo hi holder k v e)
            (length h) (length (h ++ ext)) ps l).
    { clear h Hnd. induction IH as [|[k1 x] l Hx _ IHl]; intros h.
      - exists [], []. rewrite app_nil_r. split; [done|]. constructor.
      - cbn [forallb fst snd] in Hp, Hx.
        apply andb_true_iff in Hp as [Hpx Hpl].
        destruct (Hx h holder k1 Hpx) as (ext1 & v & Hb1 & Hv).
        destruct (IHl Hpl (h ++ ext1)) as (ext2 & ps & Hb2 & Hc).
        exists (ext1 ++ ext2), ((k1, v) :: ps). rewrite <- app_assoc in *.
        split; [by rewrite Hb1, Hb2|].
        apply (chain_cons _ _ (length (h ++ ext1))); [|done].
        cbn beta. rewrite app_assoc. apply laid_app; [done|lia]. }
    destruct (Hel h) as (ext & ps & -> & Hc). unfold alloc.
    pose proof (chain_keys _ _ _ _ _ Hc) as Hkeys.
    rewrite (fold_set_distinct ps []) by (cbn [app]; by rewrite Hkeys).
    cbn [app].
    exists (ext ++ [Object KObject "Object" false ps]), (VRef (length (h ++ ext))).
    rewrite <- app_assoc. split; [done|].
    replace (length (h ++ ext ++ _)) with (S (length (h ++ ext)))
      by (rewrite !length_app; cbn; lia).
    apply laid_node with (ps := ps); cbn [is_container cell].
    + done.
    + done.
    + by rewrite app_assoc, lookup_fresh.
    + by rewrite Hkeys.
    + cbn [members]. eapply chain_impl; [|exact Hc|].
      * intros ????? ?%laid_le. done.
      * intros lo hi k' v' e' _ Hhi _ H. cbn beta.
        rewrite app_assoc. apply laid_app; [|done].
        cbn beta in H. eapply laid_literal_holder, H.
Qed.

Lemma plain_distinct j : plain j = true → distinct j = true.
Proof.
  induction j as [|b|f|s|l IH|l IH] using json_ind'; try done; cbn [plain distinct].
  - intros H. apply forallb_forall. intros x Hx.
    rewrite forallb_forall in H. rewrite Forall_forall in IH.
    apply IH; [by apply list_elem_of_In|by apply H].
  - intros [H Hnd]%andb_true_iff. apply andb_true_iff. split; [|done].
    apply forallb_forall. intros x Hx.
    rewrite forallb_forall in H. rewrite Forall_forall in IH.
    apply IH; [by apply list_elem_of_In|].
    specialize (H x Hx). by apply andb_true_iff in H as [_ H].
Qed.

End Build.
(** ** From layouts to structures *)

Section Shape.

Implicit Types (h : heap) (j e : json) (k : string) (v holder : value)
  (ps : list (string * value)) (ms : list (string * json)).

Lemma eqb_finite f : PrimFloat.is_finite f = true → PrimFloat.eqb f f = true.
Proof.
  intros (Hnan & _)%finite_not_infinite. unfold PrimFloat.is_nan in Hnan.
  by apply negb_false_iff in Hnan.
Qed.


Lemma okind_cell e ps : okind (cell e ps) = okind (cell e []).
Proof. by destruct e. Qed.

Lemma props_cell e ps : props (cell e ps) = ps.
Proof. by destruct e. Qed.

Lemma frozen_cell e ps : frozen (cell e ps) = false.
Proof. by destruct e. Qed.

(** A layout whose leaves have the structure of the literals that [R]
    relates to them has the structure of the literal that [R] relates to
    it. *)
Lemma laid_shape (R : json → json → Prop) Q h :
  (∀ j e, R j e → is_container e = true →
     is_container j = true ∧ okind (cell j []) = okind (cell e [])
     ∧ Forall2 (fun m m' => m.1 = m'.1 ∧ R m.2 m'.2) (members j) (members e)) →
  (∀ holder k e v j,
     Q holder k e v → is_container e = false → R j e → plain j = true → shape h v j) →
  ∀ lo hi holder k v e, laid Q h lo hi holder k v e →
  ∀ j, R j e → plain j = true → shape h v j.
Proof.
  intros HR Hleaf.
  induction 1 as [lo holder k v e He HQ|lo a holder k ps e He HQ Ha Hnd Hc] using laid_ind';
    intros j Hj Hp.
  - by eapply Hleaf.
  - destruct (HR _ _ Hj He) as (Hcj & Hkind & Hms).
    apply shape_node with (o := cell e ps); [done|done|by rewrite okind_cell|].
    rewrite props_cell.
    apply plain_members in Hp as [Hp _].
    revert Hms Hp. generalize (members j). clear -Hc.
    induction Hc as [|lo mid hi k v e' ps ms [_ IH] _ IHc]; intros mj Hms Hp.
    + apply Forall2_nil_inv_r in Hms as ->. constructor.
    + apply Forall2_cons_inv_r in Hms as ([kj x] & mj' & [Hk Hx] & Hms & ->).
      apply Forall_cons in Hp as [[_ Hpx] Hp]. cbn [fst snd] in *. subst kj.
      constructor; [split; [done|]; by apply IH|by apply IHc].
Qed.


End Shape.
(** ** The encoder on plain values *)

Section Encoder.

Implicit Types (h : heap) (j e : json) (k : string) (v holder this : value)
  (ps : list (string * value)) (ms : list (string * json)).

Lemma unwind_junk this junk : ∀ jk stk ks,
  length junk = length jk →
  Forall (fun x => strict_eq this x = false) junk →
  (stk = [] ∨ ∃ rest, stk = this :: rest) →
  (∀ a, this = VRef a → True) →
  strict_eq this this = true →
  unwind this (junk ++ stk) (ks ++ jk) = (stk, ks).
Proof.
  induction junk as [|x junk IH]; intros jk stk ks Hlen Hj Hstk _ Hrefl.
  - destruct jk; [|done]. rewrite app_nil_r. cbn [app].
    destruct Hstk as [->|[rest ->]]; [done|]. cbn [unwind]. by rewrite Hrefl.
  - apply Forall_cons in Hj as [Hx Hj]. cbn [app unwind]. rewrite Hx.
    destruct (decide (jk = [])) as [->|Hne]; [done|].
    rewrite removelast_app by done. apply IH; try done.
    rewrite removelast_firstn_len, length_take. cbn [length] in Hlen. lia.
Qed.

Lemma strict_eq_prim x v : is_prim v = true → strict_eq x v = true → x = v.
Proof.
  destruct v as [| |b| | | |]; try done; destruct x as [| |b'| | | |]; try done.
  simpl. intros _ H. apply Bool.eqb_prop in H. by subst.
Qed.

Lemma inside_strict_eq lo hi b x :
  inside lo hi x → (hi ≤ b)%nat → strict_eq (VRef b) x = false.
Proof.
  destruct x; try done. simpl. intros H Hb. apply Nat.eqb_neq. lia.
Qed.

Lemma find_outside lo a objs :
  (lo ≤ a)%nat → Forall (fun o => outside lo (S a) o.2) objs →
  find (fun o : string * value => strict_eq o.2 (VRef a)) objs = None.
Proof.
  intros Hlo. induction 1 as [|[p x] objs Hx _ IH]; [done|].
  cbn [find snd] in *. destruct (strict_eq x (VRef a)) eqn:E; [|done].
  destruct x; try done. simpl in E. apply Nat.eqb_eq in E. subst.
  simpl in Hx. lia.
Qed.

Lemma outside_weaken lo hi lo' hi' x :
  outside lo hi x → (lo ≤ lo')%nat → (hi' ≤ hi)%nat → outside lo' hi' x.
Proof. destruct x; try done. simpl. lia. Qed.

Lemma inside_weaken lo hi lo' hi' x :
  inside lo hi x → (lo' ≤ lo)%nat → (hi ≤ hi')%nat → inside lo' hi' x.
Proof. destruct x; try done. simpl. lia. Qed.

Lemma inside_outside lo hi lo' hi' x :
  inside lo hi x → (hi ≤ lo' ∨ hi' ≤ lo)%nat → outside lo' hi' x.
Proof. destruct x; try done. simpl. lia. Qed.

Lemma Get_cell h a e ps k v :
  h !! a = Some (cell e ps) → NoDup ps.*1 → (k, v) ∈ ps → Get h (VRef a) k = v.
Proof.
  intros Ha Hnd Hin. unfold Get. rewrite Ha, props_cell.
  by rewrite (lookup_props _ _ _ Hnd Hin).
Qed.

Lemma attach_cell h a e ps :
  h !! a = Some (cell e ps) → "constructor" ∉ ps.*1 → attach_name h (VRef a) = h.
Proof.
  intros Ha Hc%lookup_props_None. unfold attach_name, isObject. rewrite Ha. cbv zeta.
  unfold constructor_name. rewrite props_cell, Hc.
  destruct e; reflexivity.
Qed.

Lemma walkable_cell h a e ps : h !! a = Some (cell e ps) → walkable h (VRef a) = true.
Proof. intros Ha. unfold walkable. rewrite Ha. by destruct e. Qed.

Lemma call_toJSON_cell h a e ps :
  h !! a = Some (cell e ps) → call_toJSON h (VRef a) = VRef a.
Proof. intros Ha. unfold call_toJSON, kind_of. rewrite Ha. by destruct e. Qed.

Lemma depth_check depth n j :
  fits (Z.to_nat depth - n) j = true → is_prim (leaf_value j) = true ∨ is_container j = true →
  (depth <=? Z.of_nat n)%Z = false.
Proof.
  intros Hf Hj. apply Z.leb_gt.
  assert (0 < Z.to_nat depth - n)%nat; [|lia].
  destruct j; simpl in *; try (destruct Hj; done);
    try (apply andb_true_iff in Hf as [Hf _]); by apply Nat.ltb_lt in Hf.
Qed.

Lemma mapM_cons {S A B} (f : A → M S B) x l :
  mapM f (x :: l) = (y ← f x; ys ← mapM f l; mret (y :: ys)).
Proof. done. Qed.

Lemma mapM_fmap {S A B C} (f : B → M S C) (g : A → B) l :
  mapM f (g <$> l) = mapM (fun x => f (g x)) l.
Proof.
  induction l as [|x l IH]; [done|]. cbn [fmap list_fmap].
  change (list_fmap A B g l) with (g <$> l). rewrite !mapM_cons, IH. done.
Qed.

Lemma at_members_head k e kes q x :
  at_members [(k, e)] q = Some x → at_members ((k, e) :: kes) q = Some x.
Proof.
  destruct q as [|k' q]; [done|]. cbn [at_members assoc].
  by destruct (String.eqb k k').
Qed.

Lemma at_members_tail k e kes q x :
  k ∉ kes.*1 → at_members kes q = Some x → at_members ((k, e) :: kes) q = Some x.
Proof.
  intros Hk. destruct q as [|k' q]; [done|]. cbn [at_members assoc].
  destruct (assoc k' kes) as [e'|] eqn:E; [|done].
  apply assoc_Some in E. destruct (String.eqb_spec k k') as [->|]; [|done].
  exfalso. apply Hk. apply list_elem_of_fmap. by exists (k', e').
Qed.

Lemma at_members_path e q x :
  q ≠ [] → at_members (members e) q = Some x → at_path e q = Some x.
Proof. destruct q; done. Qed.

Lemma fst_zip_same {A B} (l : list A) (k : list B) :
  length l = length k → (zip l k).*1 = l.
Proof. intros H. apply fst_zip. lia. Qed.

(** The loop of the serializer over the members of the container at [a]. *)
Lemma encode_members {B} h depth a fuel (g : string → option json → B) lo0 mid top ps ms :
  chain (fun lo hi k v j =>
           laid literal h lo hi (VRef a) k v j ∧ encodes h depth lo hi (VRef a) k v j)
    mid top ps ms →
  ∀ objs junk0 jk0 stk ks path,
    (lo0 ≤ mid)%nat → (top ≤ a)%nat →
    Forall (fun m => plain_key m.1 = true ∧ plain m.2 = true) ms → NoDup ms.*1 →
    (∀ k v, (k, v) ∈ ps → Get h (VRef a) k = v) →
    (stk = [] ∨ ∃ rest, stk = VRef a :: rest) →
    length junk0 = length jk0 → Forall (inside lo0 mid) junk0 →
    Forall (fun m => fits (Z.to_nat depth - length stk) m.2 = true) ms →
    Forall (fun o => outside mid top o.2) objs →
    Forall (fun x => (a ≤ x)%nat) path →
    Forall (fun m => (height m.2 < fuel)%nat) ms →
    ∃ es new junk jk,
      mapM (fun k => e ← SerializeJSONProperty fuel depth (VRef a) k; mret (g k e)) ms.*1
        (Enc h (Some (Tracker objs (junk0 ++ stk) (ks ++ jk0))) path)
      = (Enc h (Some (Tracker (objs ++ new) (junk ++ stk) (ks ++ jk))) path,
         Ok (zip_with g ms.*1 (Some <$> es)))
      ∧ length es = length ms
      ∧ length junk = length jk ∧ Forall (inside lo0 top) junk
      ∧ Forall (fun o => inside mid top o.2) new
      ∧ (∀ more, Forall2 (fun m e => coded (objs ++ new ++ more) m.2 e) ms es)
      ∧ positional ks (zip ms.*1 es) new.
Proof.
  induction 1 as [lo|lo mid hi k v e ps ms [Hlaid Henc] Hc IH];
    intros objs junk0 jk0 stk ks path Hlo0 Htop Hpl Hnd Hget Hstk Hlen Hjunk Hfits Hobjs
      Hpath Hfuel.
  - exists [], [], junk0, jk0. rewrite app_nil_r. split_and!; try done.
    intros p x Hin. by apply elem_of_nil in Hin.
  - assert (lo ≤ mid)%nat as Hlm by (by apply laid_le in Hlaid).
    assert (mid ≤ hi)%nat as Hmh.
    { eapply chain_le; [|done]. intros ????? [?%laid_le _]. done. }
    apply Forall_cons in Hpl as [[Hpk Hpe] Hpl]. cbn [fst snd] in Hpk, Hpe.
    cbn [fmap list_fmap fst] in Hnd. apply NoDup_cons in Hnd as [Hk Hnd].
    apply Forall_cons in Hfits as [Hfit Hfits]. apply Forall_cons in Hfuel as [Hfu Hfuel].
    cbn [snd] in Hfit, Hfu.
    destruct (Henc fuel objs (junk0 ++ stk) (ks ++ jk0) stk ks path a)
      as (e1 & new1 & junk1 & jk1 & Hrun1 & Hlen1 & Hjunk1 & Hnew1 & Hcoded1 & Hpos1);
      try done.
    { lia. }
    { apply Hget. by left. }
    { apply unwind_junk; try done.
      - eapply Forall_impl; [done|]. intros x Hx. cbn beta in Hx |- *. eapply inside_strict_eq; [exact Hx|lia].
      - simpl. apply Nat.eqb_refl. }
    { eapply Forall_impl; [done|]. intros o Ho. cbn beta in Ho |- *. eapply outside_weaken; [exact Ho|lia..]. }
    { eapply Forall_impl; [done|]. intros x Hx. simpl in Hx. lia. }
    destruct (IH (objs ++ new1) junk1 jk1 stk ks path)
      as (es & new2 & junk2 & jk2 & Hrun2 & Hlen2 & Hlenj2 & Hjunk2 & Hnew2 & Hcoded2 & Hpos2);
      try done.
    { lia. }
    { intros k' v' Hin. apply Hget. by right. }
    { eapply Forall_impl; [done|]. intros x Hx. cbn beta in Hx |- *. eapply inside_weaken; [exact Hx|lia..]. }
    { apply Forall_app. split.
      - eapply Forall_impl; [done|]. intros o Ho. cbn beta in Ho |- *. eapply outside_weaken; [exact Ho|lia..].
      - eapply Forall_impl; [done|]. intros o Ho. cbn beta in Ho |- *. eapply inside_outside; [exact Ho|lia]. }
    exists (e1 :: es), (new1 ++ new2), junk2, jk2. split_and!.
    + cbn [fmap list_fmap fst]. change (list_fmap _ _ fst ms) with (ms.*1).
      rewrite mapM_cons.
      erewrite bind_ok; last first.
      { erewrite bind_ok; [|exact Hrun1]. reflexivity. }
      erewrite bind_ok; [|exact Hrun2]. rewrite <- app_assoc. reflexivity.
    + cbn [length]. congruence.
    + done.
    + done.
    + apply Forall_app. split.
      * eapply Forall_impl; [done|]. intros o Ho. cbn beta in Ho |- *. eapply inside_weaken; [exact Ho|lia..].
      * eapply Forall_impl; [done|]. intros o Ho. cbn beta in Ho |- *. eapply inside_weaken; [exact Ho|lia..].
    + intros more. constructor.
      * rewrite <- app_assoc. apply Hcoded1.
      * specialize (Hcoded2 more). rewrite <- !app_assoc in *. done.
    + intros p x [Hin|Hin]%elem_of_app Hx.
      * destruct (Hpos1 p x Hin Hx) as (q & -> & Hq & Hat).
        exists q. split_and!; [done..|].
        cbn [fmap list_fmap fst zip zip_with]. by apply at_members_head.
      * destruct (Hpos2 p x Hin Hx) as (q & -> & Hq & Hat).
        exists q. split_and!; [done..|].
        cbn [fmap list_fmap fst zip zip_with]. apply at_members_tail; [|done].
        change (list_fmap _ _ fst ms) with (ms.*1).
        rewrite fst_zip_same; [done|]. rewrite length_fmap. done.
Qed.

End Encoder.
Section EncoderMember.

Implicit Types (h : heap) (j e : json) (k : string) (v holder this : value)
  (ps : list (string * value)) (ms : list (string * json)).

Lemma serialize_value_leaf recur v st :
  (∀ a, v ≠ VRef a) →
  serialize_value recur v st
  = (st, Ok match v with
            | VNull => Some JNull
            | VBool b => Some (JBool b)
            | VStr s => Some (JStr s)
            | VNum f => Some (if PrimFloat.is_finite f then JNum (printed f) else JNull)
            | _ => None
            end).
Proof. intros Hv. destruct v; try done. by destruct (Hv a). Qed.

Lemma call_toJSON_leaf h v : (∀ a, v ≠ VRef a) → call_toJSON h v = v.
Proof. intros Hv. destruct v; try done. by destruct (Hv a). Qed.

Lemma replace_prim depth b k x objs stk0 ks0 stk ks h path :
  k ≠ "" → is_prim x = true → unwind (VRef b) stk0 ks0 = (stk, ks) →
  (depth <=? Z.of_nat (length stk))%Z = false →
  replace depth (VRef b) k x (Enc h (Some (Tracker objs stk0 ks0)) path)
  = match find (fun o : string * value => strict_eq o.2 x) objs with
    | Some found =>
        (Enc h (Some (Tracker objs stk ks)) path, Ok (VStr ("_duplicate_" +:+ found.1)))
    | None =>
        (Enc h (Some (Tracker (objs ++ [(Str.join "." (ks ++ [k]), x)]) (x :: stk)
                        (ks ++ [k]))) path, Ok x)
    end.
Proof.
  intros Hk Hx Hun Hd.
  rewrite replace_walk with (t := Tracker objs stk0 ks0); [|done|done|by destruct x].
  cbn [stack keys objects enc_heap enc_path]. rewrite Hun. cbn [fst snd].
  unfold walk. rewrite Hd. destruct (find _ _); [done|]. by destruct x.
Qed.

Lemma plain_string_date s : plain_string s = true → test dateFormat s = false.
Proof.
  unfold plain_string. intros [[H _]%andb_true_iff _]%andb_true_iff.
  by apply negb_true_iff in H.
Qed.

Lemma zip_with_default keys (es : list json) :
  length keys = length es →
  zip_with (fun (_ : string) (o : option json) => default JNull o) keys (Some <$> es) = es.
Proof.
  revert es. induction keys as [|k keys IH]; intros [|e es]; try done.
  cbn. intros [= H]. f_equal. by apply IH.
Qed.

Lemma members_of_zip keys (es : list json) :
  members_of (zip_with (fun (k : string) (o : option json) => (k, o)) keys (Some <$> es))
  = zip keys es.
Proof.
  revert es. induction keys as [|k keys IH]; intros [|e es]; try done.
  unfold members_of in *. cbn. f_equal. apply IH.
Qed.

Lemma imap_zip (es : list json) n :
  imap (fun i e => (Str.of_nat (n + i), e)) es
  = zip (Str.of_nat <$> seq n (length es)) es.
Proof.
  revert n. induction es as [|e es IH]; intros n; [done|].
  rewrite imap_cons. cbn [length seq fmap list_fmap zip zip_with].
  rewrite Nat.add_0_r. f_equal. rewrite <- IH. apply imap_ext.
  intros i y _. cbn. do 2 f_equal. lia.
Qed.

Lemma members_arr es :
  members (JArr es) = zip (Str.of_nat <$> seq 0 (length es)) es.
Proof. apply (imap_zip es 0). Qed.

Lemma Forall2_coded_members objs ms keys es :
  keys = ms.*1 →
  Forall2 (fun m e => coded objs m.2 e) ms es →
  Forall2 (fun m m' => m.1 = m'.1 ∧ coded objs m.2 m'.2) ms (zip keys es).
Proof.
  intros ->. induction 1 as [|[k x] e ms es H _ IH]; [constructor|].
  cbn. constructor; [done|apply IH].
Qed.

Lemma join_snoc ks k q :
  Str.join "." ((ks ++ [k]) ++ q) = Str.join "." (ks ++ k :: q).
Proof. by rewrite <- app_assoc. Qed.

(** What the encoder leaves after the members of a container. *)
Lemma encodes_node_finish objs p a new junk jk ks k lo j e es :
  plain_key k = true → (lo ≤ a)%nat →
  is_container j = true → is_container e = true →
  okind (cell j []) = okind (cell e []) →
  members e = zip (members j).*1 es → length es = length (members j) →
  length junk = length jk → Forall (inside lo a) junk →
  Forall (fun o => inside lo a o.2) new →
  (∀ more, Forall2 (fun m e => coded ((objs ++ [(p, VRef a)]) ++ new ++ more) m.2 e)
             (members j) es) →
  positional (ks ++ [k]) (zip (members j).*1 es) new →
  length (junk ++ [VRef a]) = length (k :: jk)
  ∧ Forall (inside lo (S a)) (junk ++ [VRef a])
  ∧ Forall (fun o => inside lo (S a) o.2) ((p, VRef a) :: new)
  ∧ (∀ more, coded (objs ++ ((p, VRef a) :: new) ++ more) j e)
  ∧ positional ks [(k, e)] ((p, VRef a) :: new).
Proof.
  intros Hk Hlo Hj He Hkind Hmem Hlen Hlenj Hjunk Hnew Hcoded Hpos. split_and!.
  - rewrite length_app. cbn. lia.
  - apply Forall_app. split; [|repeat constructor; simpl; lia].
    eapply Forall_impl; [exact Hjunk|]. intros x Hx. cbn beta in Hx |- *.
    eapply inside_weaken; [exact Hx|lia..].
  - constructor; [simpl; lia|].
    eapply Forall_impl; [exact Hnew|]. intros o Ho. cbn beta in Ho |- *.
    eapply inside_weaken; [exact Ho|lia..].
  - intros more. apply coded_node; [done..|]. rewrite Hmem.
    apply Forall2_coded_members; [done|].
    specialize (Hcoded more). rewrite <- app_assoc in Hcoded. exact Hcoded.
  - intros p' x [[= -> ->]|Hin]%elem_of_cons Hx; [done|].
    destruct (Hpos p' x Hin Hx) as (q & -> & Hq & Hat).
    exists (k :: q). split_and!; [by rewrite join_snoc|by constructor|].
    cbn [at_members assoc]. rewrite String.eqb_refl.
    apply at_members_path; [by destruct q|]. by rewrite Hmem.
Qed.

(** The encoder on a member that is laid out as a plain literal. *)
Lemma encodes_laid h depth lo hi holder k v j :
  laid literal h lo hi holder k v j → encodes h depth lo hi holder k v j.
Proof.
  induction 1 as [lo holder k v j Hj HQ|lo a holder k ps j Hj HQ Ha Hnd Hc] using laid_ind';
    intros fuel objs stk0 ks0 stk ks path b Hp Hk -> Hb Hget Hun Hfits Hobjs Hpath Hfuel;
    (destruct fuel as [|fuel]; [lia|]); cbn [SerializeJSONProperty].
  - specialize (HQ Hj). subst v.
    assert (Hkne : k ≠ "").
    { intros ->. done. }
    destruct (is_prim (leaf_value j)) eqn:Hprim.
    { (* a boolean or null *)
      assert (Hrep := replace_prim depth b k (leaf_value j) objs stk0 ks0 stk ks h path
                        Hkne Hprim Hun (depth_check _ _ j Hfits (or_introl Hprim))).
      assert (Hv : ∀ a, leaf_value j ≠ VRef a) by (by destruct j).
      assert (Hjson : json_of (leaf_value j) = j) by (by destruct j).
      assert (Hser : ∀ recur st, serialize_value recur (leaf_value j) st = (st, Ok (Some j))).
      { intros recur st. rewrite serialize_value_leaf by done. by destruct j. }
      destruct (find _ objs) as [found|] eqn:Hfind.
      - erewrite serialize_run; last first.
        { cbn [enc_heap]. rewrite Hget, call_toJSON_leaf by done. exact Hrep. }
        rewrite serialize_value_leaf by done.
        apply find_some in Hfind as [Hin Heq].
        apply strict_eq_prim in Heq; [|done].
        exists (JStr ("_duplicate_" +:+ found.1)), [], [], [].
        rewrite !app_nil_r. split_and!; try done.
        + intros more. apply coded_dup; [done|]. cbn [app].
          apply elem_of_app. left. apply list_elem_of_In.
          destruct found as [p x]. cbn in *. by subst.
        + intros p x Hx. by apply elem_of_nil in Hx.
      - erewrite serialize_run; last first.
        { cbn [enc_heap]. rewrite Hget, call_toJSON_leaf by done. exact Hrep. }
        rewrite Hser.
        exists j, [(Str.join "." (ks ++ [k]), leaf_value j)], [leaf_value j], [k].
        split_and!; try done.
        + repeat constructor. by destruct j.
        + repeat constructor. by destruct j.
        + intros more. by apply coded_first.
        + intros p x [= -> ->]%list_elem_of_singleton _. exists [k].
          split_and!; [done|by repeat constructor|].
          cbn. by rewrite String.eqb_refl, Hjson. }
    destruct j as [|b'|f|s|l|l]; try done; cbn [leaf_value] in *.
    + (* number *)
      cbn [plain] in Hp.
      erewrite serialize_run; last first.
      { cbn [enc_heap]. rewrite Hget. unfold call_toJSON. cbn [kind_of].
        rewrite replace_number with (t := Tracker objs stk0 ks0); [|done..].
        cbn [stack keys objects enc_heap enc_path]. rewrite Hun. reflexivity. }
      rewrite serialize_value_leaf by done. rewrite Hp.
      exists (JNum (printed f)), [], [], []. rewrite !app_nil_r.
      split_and!; try done.
      * intros more. constructor.
      * intros p x Hx. by apply elem_of_nil in Hx.
    + (* string *)
      cbn [plain] in Hp.
      erewrite serialize_run; last first.
      { cbn [enc_heap]. rewrite Hget. unfold call_toJSON. cbn [kind_of].
        rewrite replace_string with (t := Tracker objs stk0 ks0);
          [|done|done|by apply plain_string_date].
        cbn [stack keys objects enc_heap enc_path]. rewrite Hun. reflexivity. }
      rewrite serialize_value_leaf by done.
      exists (JStr s), [], [], []. rewrite !app_nil_r.
      split_and!; try done.
      * intros more. constructor.
      * intros p x Hx. by apply elem_of_nil in Hx.
  - assert (Hkne : k ≠ "").
    { intros ->. done. }
    assert (lo ≤ a)%nat as Hlo.
    { eapply chain_le; [|done]. intros ????? [?%laid_le _]. done. }
    destruct (fits_members _ _ Hj Hfits) as [Hroom Hfm].
    destruct (plain_members _ Hp) as [Hpm Hndm].
    pose proof (chain_keys _ _ _ _ _ Hc) as Hkeys.
    erewrite serialize_run; last first.
    { cbn [enc_heap]. rewrite Hget, (call_toJSON_cell _ _ _ _ Ha).
      rewrite replace_walk with (t := Tracker objs stk0 ks0);
        [|done|done|by eapply walkable_cell].
      cbn [stack keys objects enc_heap enc_path]. rewrite Hun. cbn [fst snd].
      unfold walk. rewrite (depth_check _ _ j) by (auto).
      cbn [objects]. rewrite (find_outside lo) by done. rewrite (attach_cell _ _ _ _ Ha)
        by (rewrite Hkeys; by apply plain_no_constructor).
      reflexivity. }
    set (p := Str.join "." (ks ++ [k])).
    assert (Hmem : ∀ (B : Type) (g : string → option json → B),
      ∃ es new junk jk,
        mapM (fun k => e ← SerializeJSONProperty fuel depth (VRef a) k; mret (g k e))
          (members j).*1
          (Enc h (Some (Tracker (objs ++ [(p, VRef a)]) (VRef a :: stk) (ks ++ [k])))
             (a :: path))
        = (Enc h (Some (Tracker ((objs ++ [(p, VRef a)]) ++ new) (junk ++ VRef a :: stk)
                          ((ks ++ [k]) ++ jk))) (a :: path),
           Ok (zip_with g (members j).*1 (Some <$> es)))
        ∧ length es = length (members j)
        ∧ length junk = length jk ∧ Forall (inside lo a) junk
        ∧ Forall (fun o => inside lo a o.2) new
        ∧ (∀ more, Forall2 (fun m e => coded ((objs ++ [(p, VRef a)]) ++ new ++ more) m.2 e)
                     (members j) es)
        ∧ positional (ks ++ [k]) (zip (members j).*1 es) new).
    { intros B g.
      destruct (encode_members h depth a fuel g lo lo a ps (members j) Hc
                  (objs ++ [(p, VRef a)]) [] [] (VRef a :: stk) (ks ++ [k]) (a :: path))
        as (es & new & junk & jk & Hrun & Hrest); try done.
      - intros k' v' Hin. by eapply Get_cell.
      - right. eauto.
      - eapply Forall_impl; [exact Hfm|]. intros m Hm. cbn beta in Hm |- *.
        cbn [length]. by replace (Z.to_nat depth - S (length stk))%nat
          with (Z.to_nat depth - length stk - 1)%nat by lia.
      - apply Forall_app. split.
        + eapply Forall_impl; [exact Hobjs|]. intros o Ho. cbn beta in Ho |- *.
          eapply outside_weaken; [exact Ho|lia..].
        + repeat constructor. simpl. lia.
      - constructor; [lia|]. eapply Forall_impl; [exact Hpath|].
        intros x Hx. simpl in Hx. lia.
      - apply Forall_forall. intros m Hm. apply height_members in Hm. lia.
      - rewrite app_nil_r in Hrun. cbn [app] in Hrun.
        exists es, new, junk, jk. split; [exact Hrun|exact Hrest]. }
    assert (Hpath' : a ∉ path).
    { intros Hin. rewrite Forall_forall in Hpath. apply Hpath in Hin. lia. }
    destruct j as [| | | |l|l]; try done.
    + (* an array *)
      destruct (Hmem _ (fun _ o => default JNull o))
        as (es & new & junk & jk & Hrun & Hlen & Hlenj & Hjunk & Hnew & Hcoded & Hpos).
      assert (Hlen' : length es = length l).
      { rewrite Hlen. cbn [members]. by rewrite length_imap. }
      exists (JArr es), ((p, VRef a) :: new), (junk ++ [VRef a]), (k :: jk). split.
      * rewrite serialize_value_array with (o := cell (JArr l) ps) (len := length l);
          [|exact Ha|reflexivity|exact Hpath'].
        cbn [enc_heap enc_vars enc_path]. cbn [members] in Hrun.
        rewrite imap_keys_0, mapM_fmap in Hrun. rewrite Hrun.
        cbn [enc_heap enc_vars enc_path tail].
        rewrite zip_with_default by (by rewrite length_fmap, length_seq).
        rewrite <- !app_assoc. reflexivity.
      * apply encodes_node_finish with (es := es); try done.
        -- cbn [cell okind]. by rewrite Hlen'.
        -- rewrite members_arr. cbn [members]. by rewrite imap_keys_0, Hlen'.
    + (* an object *)
      destruct (Hmem _ (fun k o => (k, o)))
        as (es & new & junk & jk & Hrun & Hlen & Hlenj & Hjunk & Hnew & Hcoded & Hpos).
      exists (JObj (zip l.*1 es)), ((p, VRef a) :: new), (junk ++ [VRef a]), (k :: jk). split.
      * rewrite serialize_value_object with (o := cell (JObj l) ps);
          [|exact Ha|reflexivity|reflexivity|exact Hpath'].
        cbn [enc_heap enc_vars enc_path cell props]. cbn [members] in Hrun, Hkeys.
        rewrite Hkeys, Hrun.
        cbn [enc_heap enc_vars enc_path tail].
        rewrite members_of_zip.
        rewrite <- !app_assoc. reflexivity.
      * apply encodes_node_finish with (es := es); try done.
Qed.

End EncoderMember.
Section EncoderRoot.

Implicit Types (h : heap) (j e : json) (k : string) (v holder this : value)
  (ps : list (string * value)) (ms : list (string * json)).

Lemma within_members depth j :
  within depth j = true →
  Forall (fun m => fits (Z.to_nat depth - 0) m.2 = true) (members j).
Proof.
  unfold within. rewrite forallb_forall. intros H. apply Forall_forall.
  intros m Hm. rewrite Nat.sub_0_r. by apply H, list_elem_of_In.
Qed.

Lemma coded_members objs j e es :
  is_container j = true → is_container e = true →
  okind (cell j []) = okind (cell e []) →
  members e = zip (members j).*1 es →
  Forall2 (fun m e => coded objs m.2 e) (members j) es →
  coded objs j e.
Proof.
  intros Hj He Hkind Hmem Hco. apply coded_node; [done..|]. rewrite Hmem.
  by apply Forall2_coded_members.
Qed.

(** [JSON.stringify] with the replacer on a value laid out as a plain
    literal: the heap gets the wrapper only, and the text is the literal as
    the encoder writes it, each marker with the path of the text at which
    the boolean or [null] that it stands for is written. *)
Lemma encode_root h depth lo hi holder k v j :
  laid literal h lo hi holder k v j → plain j = true → within depth j = true →
  ∃ e new,
    JSON_stringify depth h v = (h ++ [wrapper_of v], Ok (Some e))
    ∧ (∀ more, coded (("root", v) :: new ++ more) j e)
    ∧ positional ["root"] (members e) new
    ∧ marker_path e = None.
Proof.
  intros Hlaid Hp Hw. unfold JSON_stringify, alloc.
  set (h1 := h ++ [wrapper_of v]). cbn [SerializeJSONProperty].
  destruct Hlaid as [lo holder k v j Hj HQ|lo a holder k ps j Hj HQ Ha Hnd Hc].
  - specialize (HQ Hj). subst v.
    assert (Hv : ∀ a, leaf_value j ≠ VRef a) by (by destruct j).
    erewrite serialize_run; last first.
    { cbn [enc_heap]. unfold h1. rewrite Get_wrapper, call_toJSON_leaf by done.
      apply replace_root. }
    rewrite serialize_value_leaf by done. cbn [enc_heap].
    destruct j as [|b|f|s|l|l]; try done; cbn [leaf_value plain] in *.
    + exists JNull, []. split_and!; try done.
      * intros more. by apply coded_first.
      * intros p x Hx. by apply elem_of_nil in Hx.
    + exists (JBool b), []. split_and!; try done.
      * intros more. by apply coded_first.
      * intros p x Hx. by apply elem_of_nil in Hx.
    + rewrite Hp. exists (JNum (printed f)), []. split_and!; try done.
      * intros more. constructor.
      * intros p x Hx. by apply elem_of_nil in Hx.
    + exists (JStr s), []. split_and!; try done.
      * intros more. constructor.
      * intros p x Hx. by apply elem_of_nil in Hx.
      * unfold plain_string in Hp. cbn [marker_path forallb tag_prefixes] in *.
        apply andb_true_iff in Hp as [[_ Ht]%andb_true_iff _].
        repeat (apply andb_true_iff in Ht as [? Ht]).
        by destruct (Str.startsWith s "_duplicate_").
  - assert (lo ≤ a)%nat as Hlo.
    { eapply chain_le; [|done]. intros ????? ?%laid_le. done. }
    assert (Ha1 : h1 !! a = Some (cell j ps)) by (by apply lookup_app_l_Some).
    assert (Hlen1 : (a < length h)%nat) by (by eapply lookup_lt_Some).
    destruct (plain_members _ Hp) as [Hpm Hndm].
    pose proof (chain_keys _ _ _ _ _ Hc) as Hkeys.
    erewrite serialize_run; last first.
    { cbn [enc_heap]. unfold h1 at 1 2. rewrite Get_wrapper.
      fold h1. rewrite (call_toJSON_cell _ _ _ _ Ha1). apply replace_root. }
    cbn [enc_heap enc_path].
    assert (Hc1 : chain (fun lo hi k v j =>
                           laid literal h1 lo hi (VRef a) k v j
                           ∧ encodes h1 depth lo hi (VRef a) k v j) lo a ps (members j)).
    { eapply chain_impl; [|exact Hc|].
      - intros ????? ?%laid_le. done.
      - intros l m k' v' e' _ Hm _ H. cbn beta in H |- *.
        assert (laid literal h1 l m (VRef a) k' v' e').
        { apply laid_app; [done|lia]. }
        split; [done|]. by apply encodes_laid. }
    assert (Hheight : Forall (fun m => (height m.2 < length h1)%nat) (members j)).
    { apply Forall_forall. intros m Hm. apply height_members in Hm.
      pose proof (laid_height _ _ _ _ holder k _ _
                    (laid_node literal h lo a holder k ps j Hj HQ Ha Hnd Hc)).
      unfold h1. rewrite length_app. cbn [length]. lia. }
    assert (Hmem : ∀ (B : Type) (g : string → option json → B),
      ∃ es new junk jk,
        mapM (fun k => e ← SerializeJSONProperty (length h1) depth (VRef a) k;
                       mret (g k e))
          (members j).*1
          (Enc h1 (Some (Tracker [("root", VRef a)] [] ["root"])) [a])
        = (Enc h1 (Some (Tracker ([("root", VRef a)] ++ new) (junk ++ [])
                           (["root"] ++ jk))) [a],
           Ok (zip_with g (members j).*1 (Some <$> es)))
        ∧ length es = length (members j)
        ∧ (∀ more, Forall2 (fun m e => coded (([] ++ [("root", VRef a)]) ++ new ++ more) m.2 e)
                     (members j) es)
        ∧ positional ["root"] (zip (members j).*1 es) new).
    { intros B g.
      destruct (encode_members h1 depth a (length h1) g lo lo a ps (members j) Hc1
                  [("root", VRef a)] [] [] [] ["root"] [a])
        as (es & new & junk & jk & Hrun & Hlen & _ & _ & _ & Hcoded & Hpos); try done.
      - intros k' v' Hin. by eapply Get_cell.
      - by left.
      - by apply within_members.
      - repeat constructor. simpl. lia.
      - by repeat constructor.
      - exists es, new, junk, jk. split_and!; done. }
    assert (Hpath' : a ∉ ([] : list nat)) by apply not_elem_of_nil.
    destruct j as [| | | |l|l]; try done.
    + destruct (Hmem _ (fun _ o => default JNull o))
        as (es & new & junk & jk & Hrun & Hlen & Hcoded & Hpos).
      assert (Hlen' : length es = length l).
      { rewrite Hlen. cbn [members]. by rewrite length_imap. }
      exists (JArr es), new. split_and!.
      * rewrite serialize_value_array with (o := cell (JArr l) ps) (len := length l);
          [|exact Ha1|reflexivity|exact Hpath'].
        cbn [enc_heap enc_vars enc_path]. cbn [members] in Hrun.
        rewrite imap_keys_0, mapM_fmap in Hrun. rewrite Hrun.
        cbn [enc_heap enc_vars enc_path tail].
        rewrite zip_with_default by (by rewrite length_fmap, length_seq). done.
      * intros more. apply coded_members with (es := es); try done.
        -- cbn [cell okind]. by rewrite Hlen'.
        -- rewrite members_arr. cbn [members]. by rewrite imap_keys_0, Hlen'.
        -- apply (Hcoded more).
      * rewrite members_arr, Hlen'. cbn [members] in Hpos. by rewrite imap_keys_0 in Hpos.
      * done.
    + destruct (Hmem _ (fun k o => (k, o)))
        as (es & new & junk & jk & Hrun & Hlen & Hcoded & Hpos).
      exists (JObj (zip l.*1 es)), new. split_and!.
      * rewrite serialize_value_object with (o := cell (JObj l) ps);
          [|exact Ha1|reflexivity|reflexivity|exact Hpath'].
        cbn [enc_heap enc_vars enc_path cell props]. cbn [members] in Hrun, Hkeys.
        rewrite Hkeys, Hrun.
        cbn [enc_heap enc_vars enc_path tail].
        rewrite members_of_zip. done.
      * intros more. apply coded_members with (es := es); try done. apply (Hcoded more).
      * done.
      * done.
Qed.

End EncoderRoot.
(** ** The decoder on texts with duplicate markers *)

Section Decoder.

Implicit Types (h : heap) (j e : json) (k : string) (v holder this : value)
  (ps : list (string * value)) (ms : list (string * json)) (r : ref).

Lemma decode_key_spec k : decode_key k = true ↔ k ≠ "" ∧ k ≠ MARKER.
Proof.
  unfold decode_key. rewrite andb_true_iff, !negb_true_iff.
  split; intros [H1 H2]; split; by apply String.eqb_neq.
Qed.

Lemma plain_key_decode k : plain_key k = true → decode_key k = true.
Proof. unfold plain_key, decode_key. by intros [H _]%andb_true_iff. Qed.

Lemma decodable_members e :
  decodable e = true →
  Forall (fun m => decode_key m.1 = true ∧ decodable m.2 = true) (members e)
  ∧ NoDup (members e).*1.
Proof.
  destruct e as [| | | |l|l]; cbn [members decodable]; try by (intros _; split; constructor).
  - intros H. split.
    + apply Forall_forall. intros [k e] (i & y & [= -> ->] & Hy)%elem_of_lookup_imap.
      split; [apply plain_key_decode, plain_key_of_nat|].
      rewrite forallb_forall in H. apply H. apply list_elem_of_In.
      by eapply list_elem_of_lookup_2.
    + rewrite imap_keys_0. apply NoDup_indices.
  - intros [H Hnd]%andb_true_iff. apply bool_decide_eq_true in Hnd. split; [|done].
    apply Forall_forall. intros m Hm. rewrite forallb_forall in H.
    apply list_elem_of_In, H in Hm. by apply andb_true_iff in Hm.
Qed.

(** A write to a slot that a container has keeps its kind. *)
Lemma write_cell e k y ps :
  k ∈ (members e).*1 → write k y (cell e ps) = cell e (Props.set k y ps).
Proof.
  destruct e as [| | | |l|l]; cbn [members fmap list_fmap];
    try by intros ?%elem_of_nil.
  - change (list_fmap _ _ fst ?x) with (x.*1).
    rewrite imap_keys_0. intros (i & -> & Hi)%list_elem_of_fmap.
    apply elem_of_seq in Hi. unfold write, cell. cbn [okind props].
    destruct (to_index (Str.of_nat i)) as [i'|] eqn:E; [|done].
    apply to_index_Some, of_nat_inj in E. subst i'.
    destruct (Nat.leb_spec (length l) i); [lia|done].
  - done.
Qed.

Lemma put_element_cell h a e ps k y refs0 root0 :
  h !! a = Some (cell e ps) → k ∈ (members e).*1 → y ≠ VUndef →
  put_element a k y (Dec h refs0 root0)
  = (Dec (<[a := cell e (Props.set k y ps)]> h) refs0 root0, Ok tt).
Proof.
  intros Ha Hk Hy. unfold put_element, mbind, M_bind, gets. cbn [dec_heap].
  rewrite Ha, frozen_cell, write_cell by done. by destruct y.
Qed.

Lemma slot_extend_r all extra objs holder k e v :
  slot all [] objs holder k e v → (∀ p, Ref k holder p ∉ extra) →
  slot (all ++ extra) [] objs holder k e v.
Proof.
  intros [H1 H2] Hex. split.
  - intros p [Hin|Hin]%elem_of_app; [auto|]. by destruct (Hex p).
  - destruct (marker_path e) as [p|]; [|done]. destruct H2 as [H2 _]. split.
    + apply elem_of_app. by left.
    + by intros ?%elem_of_nil.
Qed.

Lemma slot_extend_l all extra objs holder k e v :
  slot all [] objs holder k e v → (∀ p, Ref k holder p ∉ extra) →
  slot (extra ++ all) [] objs holder k e v.
Proof.
  intros [H1 H2] Hex. split.
  - intros p [Hin|Hin]%elem_of_app; [|auto]. by destruct (Hex p).
  - destruct (marker_path e) as [p|]; [|done]. destruct H2 as [H2 _]. split.
    + apply elem_of_app. by right.
    + by intros ?%elem_of_nil.
Qed.

Lemma located_weaken h h' lo hi lo' hi' r :
  located h lo hi r → (lo' ≤ lo)%nat → (hi ≤ hi')%nat →
  (∀ a, (lo ≤ a < hi)%nat → h' !! a = h !! a) →
  located h' lo' hi' r.
Proof.
  intros (a & e & ps & Hc & Ha & Hh & Ht & Hm) Hlo Hhi Hfr.
  exists a, e, ps. split_and!; [done|lia|lia|by rewrite Hfr|done|done].
Qed.

Lemma located_container h lo hi r a :
  located h lo hi r → container r = VRef a → (lo ≤ a < hi)%nat.
Proof. intros (a' & e & ps & Hc & Ha & _) Hr. congruence. Qed.

(** The loop of [InternalizeJSONProperty] over the members of the
    container at [a]. *)
Lemma decode_members objs h a fuel ep mid top ps ms :
  chain (fun lo hi k v e =>
           laid literal h lo hi (VRef a) k v e ∧ decodes objs h lo hi (VRef a) k v e)
    mid top ps ms →
  ∀ hc refs0 root0 pre,
    (top ≤ a)%nat →
    Forall (fun m => decode_key m.1 = true ∧ decodable m.2 = true) ms →
    NoDup (pre ++ ps).*1 →
    hc !! a = Some (cell ep (pre ++ ps)) →
    (∀ k, k ∈ ps.*1 → k ∈ (members ep).*1) →
    (∀ b, (mid ≤ b < top)%nat → hc !! b = h !! b) →
    Forall (fun m => (height m.2 < fuel)%nat) ms →
    ∃ h' new ps' us,
      mapM (fun k => newElement ← InternalizeJSONProperty fuel (VRef a) k;
                     put_element a k newElement) ms.*1 (Dec hc refs0 root0)
      = (Dec h' (refs0 ++ new) root0, Ok us)
      ∧ (∀ b, ¬ (mid ≤ b < top)%nat → b ≠ a → h' !! b = hc !! b)
      ∧ h' !! a = Some (cell ep (pre ++ ps'))
      ∧ ps'.*1 = ps.*1
      ∧ chain (fun lo hi k v e => laid (slot new [] objs) h' lo hi (VRef a) k v e)
          mid top ps' ms
      ∧ Forall (fun r => located h' mid top r
                         ∨ (container r = VRef a ∧ target r ∈ ms.*1)) new.
Proof.
  induction 1 as [lo|lo mid hi k v e ps ms [Hlaid Hdec] Hc IH];
    intros hc refs0 root0 pre Htop Hms Hnd Ha Hkeys Hfr Hfuel.
  - exists hc, [], [], []. rewrite app_nil_r. split_and!; try done. constructor.
  - assert (lo ≤ mid)%nat as Hlm by (by apply laid_le in Hlaid).
    assert (mid ≤ hi)%nat as Hmh.
    { eapply chain_le; [|done]. intros ????? [?%laid_le _]. done. }
    apply Forall_cons in Hms as [[Hdk Hde] Hms]. cbn [fst snd] in Hdk, Hde.
    apply Forall_cons in Hfuel as [Hfu Hfuel]. cbn [snd] in Hfu.
    pose proof (chain_keys _ _ _ _ _ Hc) as Hkeys1.
    assert (Hk_pre : (k ∉ pre.*1) ∧ (k ∉ ps.*1) ∧ NoDup (pre.*1 ++ ps.*1)).
    { rewrite fmap_app in Hnd. cbn [fmap list_fmap fst] in Hnd.
      apply NoDup_app in Hnd as (Hn1 & Hn2 & Hn3).
      apply NoDup_cons in Hn3 as [Hn3 Hn4]. split_and!.
      - intros Hin. apply (Hn2 _ Hin). by left.
      - done.
      - apply NoDup_app. split_and!; [done| |done].
        intros x Hx Hx'. apply (Hn2 _ Hx). by right. }
    destruct Hk_pre as (Hkpre & Hkps & Hnd').
    destruct (Hdec fuel hc refs0 root0) as (h1 & new1 & v1 & Hrun1 & Hfr1 & Hlaid1 & Hv1 & Hrefs1);
      try done.
    { simpl. lia. }
    { intros b Hb. apply Hfr. lia. }
    { eapply Get_cell; [exact Ha|done|]. apply elem_of_app. right. by left. }
    assert (Ha1 : h1 !! a = Some (cell ep (pre ++ (k, v) :: ps))).
    { rewrite Hfr1 by lia. done. }
    assert (Hkm : k ∈ (members ep).*1).
    { apply Hkeys. by left. }
    set (h2 := <[a := cell ep (pre ++ (k, v1) :: ps)]> h1).
    assert (Ha2 : h2 !! a = Some (cell ep ((pre ++ [(k, v1)]) ++ ps))).
    { unfold h2. rewrite <- app_assoc.
      apply list_lookup_insert_eq. by eapply lookup_lt_Some. }
    destruct (IH h2 (refs0 ++ new1) root0 (pre ++ [(k, v1)]))
      as (h' & new2 & ps' & us & Hrun2 & Hfr2 & Ha' & Hkeys' & Hc' & Hrefs2); try done.
    { rewrite <- app_assoc, fmap_app. cbn [app fmap list_fmap fst].
      rewrite fmap_app in Hnd. done. }
    { intros k' Hk'. apply Hkeys. by right. }
    { intros b Hb. unfold h2. rewrite list_lookup_insert_ne by lia.
      rewrite Hfr1 by lia. apply Hfr. lia. }
    assert (Hsame : ∀ b, (lo ≤ b < mid)%nat → h' !! b = h1 !! b).
    { intros b Hb. rewrite Hfr2 by lia. unfold h2.
      by rewrite list_lookup_insert_ne by lia. }
    exists h', (new1 ++ new2), ((k, v1) :: ps'), (tt :: us). split_and!.
    + cbn [fmap list_fmap fst]. change (list_fmap _ _ fst ms) with (ms.*1).
      rewrite mapM_cons.
      erewrite bind_ok; last first.
      { erewrite bind_ok; [|exact Hrun1].
        rewrite (put_element_cell _ _ _ _ _ _ _ _ Ha1 Hkm Hv1).
        rewrite props_set_middle by done. reflexivity. }
      erewrite bind_ok; [|exact Hrun2]. rewrite <- app_assoc. reflexivity.
    + intros b Hb Hba. rewrite Hfr2 by lia. unfold h2.
      rewrite list_lookup_insert_ne by lia. apply Hfr1. lia.
    + rewrite Ha'. by rewrite <- app_assoc.
    + cbn [fmap list_fmap fst]. by f_equal.
    + apply (chain_cons _ lo mid hi).
      * eapply laid_mono; [exact Hlaid1|exact Hsame|..].
        -- intros e' v'. intros Hs. apply slot_extend_r; [done|].
           intros p Hin. rewrite Forall_forall in Hrefs2.
           destruct (Hrefs2 _ Hin) as [Hl|[_ Ht]].
           ++ apply (located_container _ _ _ _ a) in Hl; [lia|done].
           ++ cbn [target] in Ht. rewrite <- Hkeys1 in Ht. done.
        -- intros b k' e' v' Hb Hs. apply slot_extend_r; [done|].
           intros p Hin. rewrite Forall_forall in Hrefs2.
           destruct (Hrefs2 _ Hin) as [Hl|[Hcon _]].
           ++ apply (located_container _ _ _ _ b) in Hl; [lia|done].
           ++ cbn [container] in Hcon. injection Hcon as ->. lia.
      * eapply chain_impl; [|exact Hc'|].
        -- intros ????? ?%laid_le. done.
        -- intros l m k' v' e' Hl Hm Hin H. cbn beta in H |- *.
           assert (Hk' : k' ≠ k).
           { intros ->. apply Hkps. rewrite <- Hkeys'.
             apply list_elem_of_fmap. by exists (k, v'). }
           eapply laid_mono; [exact H|done|..].
           ++ intros e'' v''. intros Hs. apply slot_extend_l; [done|].
              intros p Hin'. rewrite Forall_forall in Hrefs1.
              destruct (Hrefs1 _ Hin') as [[_ Ht]|Hloc].
              ** cbn [target] in Ht. done.
              ** apply (located_container _ _ _ _ a) in Hloc; [lia|done].
           ++ intros b k'' e'' v'' Hb Hs. apply slot_extend_l; [done|].
              intros p Hin'. rewrite Forall_forall in Hrefs1.
              destruct (Hrefs1 _ Hin') as [[Hcon _]|Hloc].
              ** cbn [container] in Hcon. injection Hcon as ->. lia.
              ** apply (located_container _ _ _ _ b) in Hloc; [lia|done].
    + apply Forall_app. split.
      * eapply Forall_impl; [exact Hrefs1|]. intros r Hr. cbn beta in Hr |- *.
        destruct Hr as [[Hcon Ht]|Hloc].
        -- right. split; [done|]. rewrite Ht. by left.
        -- left. eapply located_weaken; [exact Hloc|lia|lia|]. exact Hsame.
      * eapply Forall_impl; [exact Hrefs2|]. intros r Hr. cbn beta in Hr |- *.
        destruct Hr as [Hloc|[Hcon Ht]].
        -- left. eapply located_weaken; [exact Hloc|lia|lia|done].
        -- right. split; [done|]. by right.
Qed.

End Decoder.
Section DecoderMember.

Implicit Types (h : heap) (j e : json) (k : string) (v holder this : value)
  (ps : list (string * value)) (ms : list (string * json)) (r : ref).

Lemma prefix_split p s : String.prefix p s = true → ∃ t, s = p +:+ t.
Proof.
  revert s. induction p as [|c p IH]; intros s; simpl.
  - exists s. done.
  - destruct s as [|d s]; [done|]. simpl.
    destruct (ascii_dec c d) as [->|]; [|intros [=]].
    intros [t ->]%IH. by exists t.
Qed.

Lemma revive_member this k v (st : dec) :
  k ≠ "" → revive this k v st = revive_value this k v st.
Proof.
  intros Hk%String.eqb_neq. unfold revive, restore_refs. rewrite Hk.
  unfold mbind, M_bind, mret, M_ret. by destruct (revive_value this k v st).
Qed.

(** The reviver on a duplicate marker. *)
Lemma revive_value_marker this k s h refs0 root0 :
  k ≠ MARKER → Str.startsWith s "_duplicate_" = true →
  revive_value this k (VStr s) (Dec h refs0 root0)
  = (Dec h (refs0 ++ [Ref k this (Str.replace "_duplicate_" "" s)]) root0, Ok VNull).
Proof.
  intros Hk%String.eqb_neq Hs. unfold revive_value. rewrite Hk.
  destruct (prefix_split _ _ Hs) as [t ->].
  unfold mbind at 1, M_bind at 1, gets at 1.
  change (Str.startsWith ("_duplicate_" +:+ t) "_function_") with false.
  change (Str.startsWith ("_duplicate_" +:+ t) "_regexp_") with false.
  change (Str.startsWith ("_duplicate_" +:+ t) "_date_") with false.
  cbv iota. rewrite Hs. reflexivity.
Qed.

(** The reviver on a value that carries no tag. *)
Lemma revive_value_plain this k e (st : dec) :
  k ≠ MARKER → is_container e = false → decodable e = true → marker_path e = None →
  revive_value this k (leaf_value e) st = (st, Ok (leaf_value e)).
Proof.
  intros Hk%String.eqb_neq He Hd Hm. unfold revive_value. rewrite Hk.
  destruct e as [| | |s| |]; try done. cbn [leaf_value decodable marker_path] in *.
  unfold decodable_string in Hd.
  destruct (Str.startsWith s "_duplicate_") eqn:Hdup; [done|].
  rewrite orb_false_r in Hd. unfold plain_string in Hd.
  cbn [forallb tag_prefixes tag_literals] in Hd.
  repeat match goal with
         | H : _ && _ = true |- _ => apply andb_true_iff in H as [? ?]
         end.
  repeat match goal with
         | H : negb _ = true |- _ => apply negb_true_iff in H
         end.
  unfold mbind, M_bind, gets.
  repeat match goal with
         | H : Str.startsWith s _ = false |- _ => rewrite H; clear H
         | H : String.eqb s _ = false |- _ => rewrite H; clear H
         end.
  reflexivity.
Qed.

(** The reviver on a container that carries no constructor name. *)
Lemma revive_value_cell this k a e ps h refs0 root0 :
  k ≠ MARKER → h !! a = Some (cell e ps) → MARKER ∉ ps.*1 →
  revive_value this k (VRef a) (Dec h refs0 root0) = (Dec h refs0 root0, Ok (VRef a)).
Proof.
  intros Hk%String.eqb_neq Ha Hm. unfold revive_value. rewrite Hk.
  unfold mbind, M_bind, gets. cbn [dec_heap].
  unfold isObject, Get. rewrite Ha, props_cell, lookup_props_None by done.
  destruct e; cbn; reflexivity.
Qed.

Lemma internalize_members_cell recur a e ps h refs0 root0 :
  h !! a = Some (cell e ps) → ps.*1 = (members e).*1 → is_container e = true →
  internalize_members recur (VRef a) (Dec h refs0 root0)
  = match mapM (fun k => newElement ← recur (VRef a) k; put_element a k newElement)
            (members e).*1 (Dec h refs0 root0) with
    | (st, Ok _) => (st, Ok tt)
    | (st, Throw err) => (st, Throw err)
    end.
Proof.
  intros Ha Hkeys He. unfold internalize_members.
  unfold mbind at 1, M_bind at 1, gets at 1. cbn [dec_heap]. rewrite Ha.
  assert (Hks : match okind (cell e ps) with
                | KArray len => Str.of_nat <$> seq 0 len
                | _ => (props (cell e ps)).*1
                end = (members e).*1).
  { destruct e as [| | | |l|l]; try done; cbn [cell okind props members].
    by rewrite imap_keys_0. }
  rewrite Hks. unfold mbind, M_bind.
  destruct (mapM _ _ _) as [st [us|err]]; reflexivity.
Qed.

Lemma internalize_leaf recur holder k v (st : dec) :
  (∀ a, v ≠ VRef a) → Get (dec_heap st) holder k = v →
  internalize recur holder k st = revive holder k v st.
Proof.
  intros Hv Hget. unfold internalize.
  unfold mbind at 1, M_bind at 1, gets at 1. rewrite Hget.
  unfold internalize_members.
  unfold mbind at 1, M_bind at 1. unfold mbind at 1, M_bind at 1, gets at 1.
  destruct v; try done. by destruct (Hv a).
Qed.

Lemma marker_path_container e : is_container e = true → marker_path e = None.
Proof. by destruct e. Qed.

Lemma decodes_laid objs h lo hi holder k v e :
  laid literal h lo hi holder k v e → decodes objs h lo hi holder k v e.
Proof.
  induction 1 as [lo holder k v e He HQ|lo a holder k ps e He HQ Ha Hnd Hc] using laid_ind';
    intros fuel hc refs0 root0 Hd [Hk Hkm]%decode_key_spec Hout Hfr Hget Hfuel;
    (destruct fuel as [|fuel]; [lia|]); cbn [InternalizeJSONProperty].
  - specialize (HQ He). subst v.
    assert (Hv : ∀ a, leaf_value e ≠ VRef a) by (by destruct e).
    rewrite (internalize_leaf _ holder k (leaf_value e) (Dec hc refs0 root0) Hv Hget),
      revive_member by done.
    destruct (marker_path e) as [p|] eqn:Hmp.
    + destruct e as [| | |s| |]; try done. cbn [marker_path leaf_value] in *.
      destruct (Str.startsWith s "_duplicate_") eqn:Hs; [|done].
      injection Hmp as Hp.
      rewrite revive_value_marker by done. rewrite Hp.
      exists hc, [Ref k holder p], VNull. split_and!; try done.
      * constructor; [done|]. split.
        -- intros p' [= ->]%list_elem_of_singleton. cbn [marker_path]. by rewrite Hs, Hp.
        -- cbn [marker_path]. rewrite Hs, Hp. split; [by left|by intros ?%elem_of_nil].
      * by repeat constructor.
    + rewrite revive_value_plain by done.
      exists hc, [], (leaf_value e). rewrite app_nil_r. split_and!; try done.
      * constructor; [done|]. split.
        -- by intros p ?%elem_of_nil.
        -- by rewrite Hmp.
      * by destruct e.
  - assert (lo ≤ a)%nat as Hlo.
    { eapply chain_le; [|done]. intros ????? [?%laid_le _]. done. }
    destruct (decodable_members _ Hd) as [Hdm Hndm].
    pose proof (chain_keys _ _ _ _ _ Hc) as Hkeys.
    assert (Hac : hc !! a = Some (cell e ps)) by (rewrite Hfr by lia; done).
    destruct (decode_members objs h a fuel e lo a ps (members e) Hc hc refs0 root0 [])
      as (h' & new & ps' & us & Hrun & Hfr' & Ha' & Hkeys' & Hc' & Hrefs); try done.
    { intros k' Hk'. by rewrite <- Hkeys. }
    { intros b Hb. apply Hfr. lia. }
    { apply Forall_forall. intros m Hm. apply height_members in Hm. lia. }
    cbn [app] in Ha'.
    assert (Hmk : MARKER ∉ ps'.*1).
    { rewrite Hkeys', Hkeys. intros (m & Hm1 & Hm2)%list_elem_of_fmap.
      rewrite Forall_forall in Hdm. destruct (Hdm _ Hm2) as [Hdk _].
      apply decode_key_spec in Hdk as [_ Hdk]. by rewrite <- Hm1 in Hdk. }
    exists h', new, (VRef a). split_and!.
    + unfold internalize. unfold mbind at 1, M_bind at 1, gets at 1.
      cbn [dec_heap]. rewrite Hget.
      erewrite bind_ok; last first.
      { rewrite internalize_members_cell with (e := e) (ps := ps); [|done..].
        rewrite Hrun. reflexivity. }
      rewrite revive_member by done.
      by apply revive_value_cell with (e := e) (ps := ps').
    + intros b Hb. apply Hfr'; lia.
    + apply laid_node with (ps := ps'); try done.
      * split; [|by rewrite marker_path_container].
        intros p Hin. exfalso. rewrite Forall_forall in Hrefs.
        destruct (Hrefs _ Hin) as [Hl|[Hcon _]].
        -- destruct holder as [| | | | | |b]; try by destruct Hl as (?&?&?&?&_).
           apply (located_container _ _ _ _ b) in Hl; [|done]. simpl in Hout. lia.
        -- cbn [container] in Hcon. subst holder. simpl in Hout. lia.
      * by rewrite Hkeys', Hkeys.
    + done.
    + eapply Forall_impl; [exact Hrefs|]. intros r Hr. cbn beta in Hr |- *. right.
      destruct Hr as [Hl|[Hcon Ht]].
      * eapply located_weaken; [exact Hl|lia|lia|done].
      * exists a, e, ps'. split_and!; try done; try lia.
        by rewrite Hkeys', Hkeys.
Qed.

End DecoderMember.
(** ** Paths in dot notation *)

Section Paths.

Implicit Types (h : heap) (k s t : string) (q : list string) (c : ascii).

Lemma none_of_dot c : Str.none_of ".[]" c = true → Ascii.eqb c "." = false.
Proof.
  unfold Str.none_of, Str.one_of. cbn [list_ascii_of_string existsb].
  intros H%negb_true_iff. by apply orb_false_iff in H as [H _].
Qed.

Lemma split_plain k :
  Spec.all (Str.none_of ".[]") k = true → Str.split "." k = [k].
Proof.
  induction k as [|c k IH]; [done|]. cbn [Spec.all Str.split].
  intros [Hc Hk]%andb_true_iff. rewrite (none_of_dot _ Hc), IH by done. done.
Qed.

Lemma split_append k t :
  Spec.all (Str.none_of ".[]") k = true →
  Str.split "." (k +:+ String "." t) = k :: Str.split "." t.
Proof.
  induction k as [|c k IH]; cbn [Spec.all String.append Str.split].
  - done.
  - intros [Hc Hk]%andb_true_iff. rewrite (none_of_dot _ Hc), IH by done. done.
Qed.

Lemma join_cons k q :
  q ≠ [] → Str.join "." (k :: q) = k +:+ String "." (Str.join "." q).
Proof. destruct q; [done|]. intros _. reflexivity. Qed.

Lemma split_join q :
  q ≠ [] → Forall (fun k => Spec.all (Str.none_of ".[]") k = true) q →
  Str.split "." (Str.join "." q) = q.
Proof.
  induction q as [|k q IH]; [done|]. intros _ [Hk Hq]%Forall_cons.
  destruct (decide (q = [])) as [->|Hne].
  - by apply split_plain.
  - rewrite join_cons, split_append, IH by done. done.
Qed.

Lemma all_dot_false p k t : p "."%char = false → Spec.all p (k +:+ String "." t) = false.
Proof.
  intros Hp. induction k as [|c k IH]; cbn [String.append Spec.all].
  - by rewrite Hp.
  - rewrite IH. apply andb_false_r.
Qed.

Lemma search_found r pre : ∀ i s,
  run r (i + String.length pre) s ≠ [] → search r i (pre +:+ s) ≠ None.
Proof.
  induction pre as [|c pre IH]; intros i s Hr; cbn [String.append String.length] in *.
  - rewrite Nat.add_0_r in Hr. destruct s; cbn [search];
      destruct (run r i _); done.
  - cbn [search]. destruct (run r i _); [|done].
    apply IH. by replace (S i + String.length pre) with (i + S (String.length pre)) by lia.
Qed.

(** A path of two segments or more is no key of its own for lodash. *)
Lemma test_plain_dotted k t : test plain_re (k +:+ String "." t) = false.
Proof.
  unfold test. destruct (match_ plain_re _) eqn:E; [|done]. exfalso.
  assert (Hne : match_ plain_re (k +:+ String "." t) ≠ None) by (by rewrite E).
  apply Hne. apply match_bol_none.
  destruct (run _ 0 _) eqn:Hrun; [done|]. exfalso.
  assert (Hr : run (Seq (Star Str.is_word) Eol) 0 (k +:+ String "." t) ≠ []) by (by rewrite Hrun).
  apply run_seq_nonempty in Hr as (c1 & i1 & s1 & Hin & Heol).
  apply elem_of_star in Hin as (_ & pre & Hs & Hall & _).
  destruct s1; [|done]. rewrite append_nil_r in Hs. subst pre.
  by rewrite all_dot_false in Hall.
Qed.

Lemma test_deep_dotted k t : test deep_re (k +:+ String "." t) = true.
Proof.
  unfold test, match_.
  destruct (search deep_re 0 (k +:+ String "." t)) as [[[i u] [[caps j] rest]]|] eqn:E; [done|].
  exfalso. revert E. apply search_found.
  unfold deep_re. cbn [run]. change (String "." t) with ("." +:+ t).
  rewrite prefix_refl_append. rewrite bind_singleton. done.
Qed.

Lemma castPath_join h root q :
  q ≠ [] → Forall (fun k => plain_key k = true) q →
  has_property h root (Str.join "." q) = false ∨ length q = 1 →
  castPath h root (Str.join "." q) = q.
Proof.
  intros Hq Hp Hprop. unfold castPath.
  assert (Hdots : Forall (fun k => Spec.all (Str.none_of ".[]") k = true) q).
  { eapply Forall_impl; [exact Hp|]. intros k Hk. unfold plain_key in Hk.
    by apply andb_true_iff in Hk as [_ Hk]. }
  destruct q as [|k [|k' q]]; [done| |].
  - apply Forall_cons in Hdots as [Hk _]. cbn [Str.join String.concat].
    destruct (isKey _ _ _); [done|]. by apply split_plain.
  - destruct Hprop as [Hprop|Hlen]; [|done].
    rewrite join_cons in * by done. unfold isKey.
    rewrite test_plain_dotted, test_deep_dotted, Hprop. cbn [orb negb].
    rewrite <- join_cons by done. by apply split_join.
Qed.

Lemma join_root q :
  q ≠ [] → Str.join "." ("root" :: q) = "root." +:+ Str.join "." q.
Proof. intros Hq. by rewrite join_cons. Qed.

Lemma join_root_not_root q : q ≠ [] → String.eqb (Str.join "." ("root" :: q)) "root" = false.
Proof. intros Hq. by rewrite join_root. Qed.

End Paths.
(** ** The restoration of the deferred references *)

Section Restoration.

Implicit Types (h : heap) (j e : json) (k : string) (v holder this : value)
  (ps : list (string * value)) (ms : list (string * json)) (r : ref)
  (q : list string).

Lemma props_set_keys_in k y ps : k ∈ ps.*1 → (Props.set k y ps).*1 = ps.*1.
Proof.
  induction ps as [|[k' v'] ps IH]; cbn [Props.set fmap list_fmap fst].
  - by intros ?%elem_of_nil.
  - intros Hin. destruct (String.eqb_spec k' k) as [->|Hne]; [done|].
    cbn [fmap list_fmap fst]. f_equal. apply IH.
    apply elem_of_cons in Hin as [->|Hin]; done.
Qed.

Lemma cell_eq e e' ps ps' :
  cell e ps = cell e' ps' → ps = ps' ∧ ∀ qs, cell e qs = cell e' qs.
Proof.
  intros H. split.
  - apply (f_equal props) in H. by rewrite !props_cell in H.
  - intros qs. destruct e, e'; cbn in *; congruence.
Qed.

Lemma slot_done all don objs holder k e v r :
  slot all don objs holder k e v →
  (target r = k → container r = holder → False) →
  slot all (don ++ [r]) objs holder k e v.
Proof.
  intros [H1 H2] Hr. split; [done|].
  destruct (marker_path e) as [p|]; [|done]. destruct H2 as [H2 H3].
  split; [done|]. intros [Hin|Hin%list_elem_of_singleton]%elem_of_app; [auto|].
  subst r. by destruct Hr.
Qed.

Lemma chain_other (P P' : nat → nat → string → value → json → Prop) k lo hi ps ms :
  chain P lo hi ps ms → k ∉ ps.*1 →
  (∀ l m k' v e, k' ≠ k → P l m k' v e → P' l m k' v e) →
  chain P' lo hi ps ms.
Proof.
  intros Hc. induction Hc as [|lo mid hi k' v e ps ms HP Hc IH]; intros Hk Hother.
  - constructor.
  - cbn [fmap list_fmap fst] in Hk. apply not_elem_of_cons in Hk as [Hne Hk].
    apply (chain_cons _ lo mid hi); [by apply Hother|by apply IH].
Qed.

(** The chain of the members after the slot [k] has got the value [y]. *)
Lemma chain_set (P P' : nat → nat → string → value → json → Prop) k y lo hi ps ms :
  chain P lo hi ps ms → NoDup ps.*1 → k ∈ ps.*1 →
  (∀ l m k' v e, k' ≠ k → P l m k' v e → P' l m k' v e) →
  (∀ l m v e, P l m k v e → P' l m k y e) →
  chain P' lo hi (Props.set k y ps) ms.
Proof.
  intros Hc. induction Hc as [|lo mid hi k' v e ps ms HP Hc IH];
    intros Hnd Hin Hother Hthis.
  - by apply elem_of_nil in Hin.
  - cbn [fmap list_fmap fst] in Hnd, Hin. apply NoDup_cons in Hnd as [Hk' Hnd].
    cbn [Props.set]. destruct (String.eqb_spec k' k) as [->|Hne].
    + apply (chain_cons _ lo mid hi); [exact (Hthis _ _ _ _ HP)|].
      by eapply chain_other.
    + apply (chain_cons _ lo mid hi); [by apply Hother|].
      apply IH; try done. apply elem_of_cons in Hin as [->|Hin]; done.
Qed.

(** The layout after the slot of a deferred reference has got its value. *)
Lemma laid_patch all don objs h a k y p ea qs :
  Ref k (VRef a) p ∈ all →
  (∀ x, (p, x) ∈ objs → is_prim x = true → y = x) →
  h !! a = Some (cell ea qs) → k ∈ qs.*1 →
  ∀ lo hi holder k0 v e,
    laid (slot all don objs) h lo hi holder k0 v e →
    (holder = VRef a → k0 ≠ k) →
    laid (slot all (don ++ [Ref k (VRef a) p]) objs)
      (<[a := cell ea (Props.set k y qs)]> h) lo hi holder k0 v e.
Proof.
  intros Hr Hy Ha Hk lo hi holder k0 v e Hlaid.
  induction Hlaid as [lo holder k0 v e He HQ|lo b holder k0 ps e He HQ Hb Hnd Hc]
    using laid_ind'; intros Htop.
  - constructor; [done|]. apply slot_done; [done|].
    cbn [target container]. intros -> <-. by apply Htop.
  - assert (Hslot : slot all (don ++ [Ref k (VRef a) p]) objs holder k0 e (VRef b)).
    { apply slot_done; [done|]. cbn [target container]. intros -> <-. by apply Htop. }
    destruct (decide (b = a)) as [->|Hba].
    + rewrite Ha in Hb. injection Hb as Hb. apply cell_eq in Hb as [-> Hcell].
      apply laid_node with (ps := Props.set k y ps); try done.
      * rewrite <- Hcell. apply list_lookup_insert_eq. by eapply lookup_lt_Some.
      * by rewrite props_set_keys_in.
      * eapply chain_set; [exact Hc|done|done|..].
        -- intros l m k' v' e' Hne [_ IH]. by apply IH.
        -- intros l m v' e' [Hl _].
           assert (Hmp : marker_path e' = Some p).
           { destruct Hl as [? ? ? ? ? ? [H1 _]|? ? ? ? ? ? ? [H1 _]]; by apply H1. }
           destruct Hl as [lo' holder' k' v'' e'' He' [H1 H2]|lo' b' holder' k' ps' e'' He' _].
           ++ constructor; [done|]. split; [done|]. rewrite Hmp in *.
              destruct H2 as [H2 _]. split; [done|]. intros _. exact Hy.
           ++ by rewrite marker_path_container in Hmp.
    + apply laid_node with (ps := ps); try done.
      * by rewrite list_lookup_insert_ne.
      * eapply chain_impl; [|exact Hc|].
        -- intros ????? [?%laid_le _]. done.
        -- intros l m k' v' e' _ _ _ [_ IH]. apply IH. congruence.
Qed.

Lemma located_insert h lo hi r a ea qs k y :
  located h lo hi r → h !! a = Some (cell ea qs) → k ∈ qs.*1 →
  located (<[a := cell ea (Props.set k y qs)]> h) lo hi r.
Proof.
  intros (b & e & ps & Hc & Hb & Hh & Ht & Hm) Ha Hk.
  destruct (decide (b = a)) as [->|Hne].
  - rewrite Ha in Hh. injection Hh as Hh. apply cell_eq in Hh as [<- Hcell].
    exists a, e, (Props.set k y qs). split_and!; try done; try lia.
    + rewrite Hcell. apply list_lookup_insert_eq. by eapply lookup_lt_Some.
    + by rewrite props_set_keys_in.
  - exists b, e, ps. split_and!; try done; try lia. by rewrite list_lookup_insert_ne.
Qed.

(** The walk of [get] along the path of an entry of the tracker. *)
Lemma laid_walk all don objs h lo hi holder k v e :
  laid (slot all don objs) h lo hi holder k v e →
  ∀ q x, at_path e q = Some (json_of x) → is_prim x = true → baseGet h v q = x.
Proof.
  induction 1 as [lo holder k v e He HQ|lo a holder k ps e He HQ Ha Hnd Hc] using laid_ind';
    intros q x Hat Hx.
  - destruct q as [|k1 q].
    + injection Hat as ->. destruct HQ as [_ HQ].
      assert (Hmp : marker_path (json_of x) = None) by (by destruct x).
      rewrite Hmp in HQ. rewrite (HQ He). by destruct x.
    + cbn [at_path] in Hat. by rewrite members_leaf in Hat.
  - destruct q as [|k1 q].
    + injection Hat as ->. by destruct x.
    + cbn [at_path] in Hat. destruct (assoc k1 (members e)) as [e1|] eqn:E; [|done].
      apply assoc_Some in E.
      destruct (chain_elem _ _ _ _ _ _ _ (fun l m k v e H => laid_le _ _ _ _ _ _ _ _ (proj1 H))
                  Hc E) as (v1 & l & m & Hin & _ & _ & [_ IH]).
      cbn [baseGet nullish]. rewrite (Get_cell _ _ _ _ _ _ Ha Hnd Hin). by apply IH.
Qed.

Lemma has_property_dotted h a e ps k t :
  h !! a = Some (cell e ps) →
  Forall (fun k => plain_key k = true) ps.*1 →
  has_property h (VRef a) (k +:+ String "." t) = false.
Proof.
  intros Ha Hps. unfold has_property. rewrite Ha, props_cell.
  apply orb_false_iff. split.
  - apply bool_decide_eq_false. intros [v Hv].
    assert (Hin : (k +:+ String "." t) ∈ ps.*1).
    { clear -Hv. induction ps as [|[k' v'] ps IH]; [done|]. cbn in *.
      destruct (String.eqb_spec k' (k +:+ String "." t)) as [->|]; [by left|].
      right. by apply IH. }
    rewrite Forall_forall in Hps. apply Hps in Hin. unfold plain_key in Hin.
    apply andb_true_iff in Hin as [_ Hin]. by rewrite all_dot_false in Hin.
  - apply andb_false_iff. right. apply String.eqb_neq. intros H.
    assert (Hd : Spec.all (Str.none_of ".[]") (k +:+ String "." t) = true)
      by (by rewrite H).
    by rewrite all_dot_false in Hd.
Qed.

(** [get] with the path of an entry of the tracker. *)
Lemma get_entry h a e ps q :
  h !! a = Some (cell e ps) → Forall (fun k => plain_key k = true) ps.*1 →
  q ≠ [] → Forall (fun k => plain_key k = true) q →
  get h (VRef a) (Str.replace "root." "" (Str.join "." ("root" :: q)))
  = baseGet h (VRef a) q.
Proof.
  intros Ha Hps Hq Hp. rewrite join_root, replace_prefix by done.
  unfold get. cbn [nullish]. rewrite castPath_join; try done.
  destruct q as [|k [|k' q]]; [done|by right|left].
  rewrite join_cons by done. by eapply has_property_dotted.
Qed.

Lemma restore_step h refs0 u k a p ea qs :
  h !! a = Some (cell ea qs) → k ∈ (members ea).*1 →
  restore (Ref k (VRef a) p) (Dec h refs0 (VRef u))
  = (Dec (<[a := cell ea (Props.set k
                            (if String.eqb p "root" then VRef u
                             else get h (VRef u) (Str.replace "root." "" p)) qs)]> h)
       refs0 (VRef u), Ok tt).
Proof.
  intros Ha Hk. unfold restore, mbind, M_bind, gets.
  cbn [dec_heap root replacement container target].
  destruct (String.eqb p "root");
    unfold assign, mbind, M_bind, gets, Set_; cbn [dec_heap];
    rewrite Ha, frozen_cell, write_cell by done; reflexivity.
Qed.

(** The loop of the root call over the deferred references. *)
Lemma restore_all objs all lo u e w :
  (∀ p x, (p, x) ∈ objs → is_prim x = true →
     ∃ q, q ≠ [] ∧ p = Str.join "." ("root" :: q)
          ∧ Forall (fun k => plain_key k = true) q ∧ at_path e q = Some (json_of x)) →
  Forall (fun k => plain_key k = true) (members e).*1 →
  is_container e = true → (u < w)%nat →
  ∀ rs don h,
    all = don ++ rs →
    laid (slot all don objs) h lo (S u) (VRef w) "" (VRef u) e →
    Forall (located h lo (S u)) rs →
    ∃ h' us,
      mapM restore rs (Dec h all (VRef u)) = (Dec h' all (VRef u), Ok us)
      ∧ laid (slot all all objs) h' lo (S u) (VRef w) "" (VRef u) e
      ∧ (∀ b, ¬ (lo ≤ b < S u)%nat → h' !! b = h !! b).
Proof.
  intros Hobjs Hkeys He Hw. induction rs as [|r rs IH]; intros don h Hall Hlaid Hloc.
  - rewrite app_nil_r in Hall. subst don. by exists h, [].
  - apply Forall_cons in Hloc as [Hr Hloc].
    destruct Hr as (a & ea & qs & Hcon & Hrange & Ha & Ht & Hm).
    destruct r as [k c p]. cbn [container target] in *. subst c.
    assert (Hroot : ∃ ps, h !! u = Some (cell e ps) ∧ ps.*1 = (members e).*1).
    { inversion Hlaid as [|? ? ? ? ps ? ? ? Hu ? Hc]; subst; [congruence|].
      exists ps. split; [done|]. by eapply chain_keys. }
    destruct Hroot as (psu & Hu & Hpsu).
    set (y := if String.eqb p "root" then VRef u
              else get h (VRef u) (Str.replace "root." "" p)).
    assert (Hy : ∀ x, (p, x) ∈ objs → is_prim x = true → y = x).
    { intros x Hin Hx. destruct (Hobjs p x Hin Hx) as (q & Hq & -> & Hpq & Hat).
      unfold y. rewrite join_root_not_root by done.
      rewrite (get_entry h u e psu) by (try done; by rewrite Hpsu).
      by eapply laid_walk. }
    set (h1 := <[a := cell ea (Props.set k y qs)]> h).
    assert (Hin : Ref k (VRef a) p ∈ all).
    { rewrite Hall. apply elem_of_app. right. by left. }
    destruct (IH (don ++ [Ref k (VRef a) p]) h1) as (h' & us & Hrun & Hlaid' & Hfr).
    { by rewrite <- app_assoc. }
    { apply laid_patch with (y := y); try done. intros [= ->]. lia. }
    { eapply Forall_impl; [exact Hloc|]. intros r' Hr'. by apply located_insert. }
    exists h', (tt :: us). split_and!; [|done|].
    + rewrite mapM_cons. erewrite bind_ok; last first.
      { apply restore_step; done. }
      erewrite bind_ok; [|exact Hrun]. reflexivity.
    + intros b Hb. rewrite Hfr by done. unfold h1.
      apply list_lookup_insert_ne. lia.
Qed.

End Restoration.
(** ** The round trip of plain values *)

Section RoundTrip.

Implicit Types (h : heap) (j e : json) (k : string) (v holder this : value)
  (ps : list (string * value)) (ms : list (string * json)) (r : ref)
  (q : list string).






Lemma plain_string_not_marker s : plain_string s = true → marker_path (JStr s) = None.
Proof.
  unfold plain_string. cbn [marker_path forallb tag_prefixes].
  intros [[_ Ht]%andb_true_iff _]%andb_true_iff.
  repeat (apply andb_true_iff in Ht as [? Ht]).
  by destruct (Str.startsWith s "_duplicate_").
Qed.


Lemma decodable_distinct e : decodable e = true → distinct e = true.
Proof.
  induction e as [|b|f|s|l IH|l IH] using json_ind'; try done; cbn [decodable distinct].
  - intros H. apply forallb_forall. intros x Hx.
    rewrite forallb_forall in H. rewrite Forall_forall in IH.
    apply IH; [by apply list_elem_of_In|by apply H].
  - intros [H Hnd]%andb_true_iff. apply andb_true_iff. split; [|done].
    apply forallb_forall. intros x Hx.
    rewrite forallb_forall in H. rewrite Forall_forall in IH.
    apply IH; [by apply list_elem_of_In|].
    specialize (H x Hx). by apply andb_true_iff in H as [_ H].
Qed.


End RoundTrip.
Section Parse.

Implicit Types (h : heap) (j e : json) (k : string) (v holder this : value)
  (ps : list (string * value)) (ms : list (string * json)) (r : ref)
  (q : list string).

Lemma laid_inv Q h lo hi holder k v e :
  laid Q h lo hi holder k v e →
  (is_container e = false ∧ lo = hi ∧ Q holder k e v)
  ∨ (∃ a ps, is_container e = true ∧ v = VRef a ∧ hi = S a ∧ Q holder k e (VRef a)
             ∧ h !! a = Some (cell e ps) ∧ NoDup ps.*1
             ∧ chain (fun lo hi k v e => laid Q h lo hi (VRef a) k v e) lo a ps (members e)).
Proof.
  destruct 1 as [lo holder k v e He HQ|lo a holder k ps e He HQ Ha Hnd Hc].
  - by left.
  - right. exists a, ps. done.
Qed.

Lemma revive_root w v (st : dec) :
  revive (VRef w) "" v st
  = match mapM restore (refs st) (Dec (dec_heap st) (refs st) v) with
    | (st', Ok _) => revive_value (VRef w) "" v st'
    | (st', Throw err) => (st', Throw err)
    end.
Proof.
  unfold revive, restore_refs. cbn [String.eqb].
  unfold mbind, M_bind, set_root, modify, gets, mret, M_ret. cbn [refs dec_heap].
  destruct (mapM restore _ _) as [st' [us|err]]; reflexivity.
Qed.

(** [parse] on a text that the encoder wrote for a plain literal: every
    marker is restored with the value that the tracker recorded for its
    path. *)
Lemma decode_root objs h e :
  decodable e = true → marker_path e = None →
  (is_container e = true → ∀ p x, (p, x) ∈ objs → is_prim x = true →
     ∃ q, q ≠ [] ∧ p = Str.join "." ("root" :: q)
          ∧ Forall (fun k => plain_key k = true) q ∧ at_path e q = Some (json_of x)) →
  Forall (fun k => plain_key k = true) (members e).*1 →
  ∃ h2 v2 all lo hi w,
    parse h e = (h2, Ok v2)
    ∧ laid (slot all all objs) h2 lo hi (VRef w) "" v2 e.
Proof.
  intros Hd Hmp Hobjs Hkeys. unfold parse, JSON_parse.
  destruct (build_laid e h VUndef "" (decodable_distinct _ Hd)) as (ext & u & Hb & Hlaid).
  rewrite Hb. unfold alloc.
  set (hb := h ++ ext) in *. set (w := length hb). set (hw := hb ++ [wrapper_of u]).
  cbn [InternalizeJSONProperty]. unfold internalize.
  unfold mbind at 1, M_bind at 1, gets at 1. cbn [dec_heap].
  assert (Hget : Get hw (VRef w) "" = u) by apply Get_wrapper.
  rewrite !Hget. clear Hget.
  destruct (laid_inv _ _ _ _ _ _ _ _ Hlaid)
    as [(He & Hlh & HQ)|(a & ps & He & -> & Hhi & HQ & Ha & Hnd & Hc)].
  - specialize (HQ He). subst u. set (lo := length h) in *.
    assert (Hv : ∀ a, leaf_value e ≠ VRef a) by (by destruct e).
    assert (Hmem : ∀ recur st, internalize_members recur (leaf_value e) st = (st, Ok tt)).
    { intros recur st. unfold internalize_members, mbind, M_bind, gets.
      destruct (leaf_value e) eqn:E; try done. by destruct (Hv a). }
    erewrite bind_ok; [|apply Hmem].
    rewrite revive_root. cbn [refs dec_heap mapM]. unfold mret, M_ret. cbv iota beta.
    rewrite revive_value_plain by done.
    exists hw, (leaf_value e), [], lo, lo, w. split; [done|].
    constructor; [done|]. split; [by intros p ?%elem_of_nil|]. by rewrite Hmp.
  - set (lo := length h) in *.
    assert (lo ≤ a)%nat as Hlo.
    { eapply chain_le; [|done]. intros ????? ?%laid_le. done. }
    assert (Ha1 : hw !! a = Some (cell e ps)) by (by apply lookup_app_l_Some).
    assert (Haw : (a < w)%nat) by (by eapply lookup_lt_Some).
    destruct (decodable_members _ Hd) as [Hdm Hndm].
    pose proof (chain_keys _ _ _ _ _ Hc) as Hpsk.
    assert (Hc1 : chain (fun lo hi k v e =>
                           laid literal hw lo hi (VRef a) k v e
                           ∧ decodes objs hw lo hi (VRef a) k v e) lo a ps (members e)).
    { eapply chain_impl; [|exact Hc|].
      - intros ????? ?%laid_le. done.
      - intros l m k' v' e' _ Hm _ H. cbn beta in H |- *.
        assert (laid literal hw l m (VRef a) k' v' e').
        { apply laid_app; [done|]. unfold w in Haw. lia. }
        split; [done|]. by apply decodes_laid. }
    destruct (decode_members objs hw a (height e) e lo a ps (members e) Hc1 hw [] VUndef [])
      as (h' & new & ps' & us & Hrun & Hfr' & Ha' & Hkeys' & Hc' & Hrefs); try done.
    { intros k' Hk'. by rewrite <- Hpsk. }
    { apply Forall_forall. intros m Hm. by apply height_members in Hm. }
    cbn [app] in Ha', Hrun.
    erewrite bind_ok; last first.
    { rewrite internalize_members_cell with (e := e) (ps := ps); [|done..].
      rewrite Hrun. reflexivity. }
    rewrite revive_root. cbn [refs dec_heap].
    assert (Hloc : Forall (located h' lo (S a)) new).
    { eapply Forall_impl; [exact Hrefs|]. intros r Hr. cbn beta in Hr |- *.
      destruct Hr as [Hl|[Hcon Ht]].
      - eapply located_weaken; [exact Hl|lia|lia|done].
      - exists a, e, ps'. split_and!; try done; try lia.
        by rewrite Hkeys', Hpsk. }
    assert (Hlaid' : laid (slot new [] objs) h' lo (S a) (VRef w) "" (VRef a) e).
    { apply laid_node with (ps := ps'); try done.
      - split; [|by rewrite marker_path_container].
        intros p Hin. exfalso. rewrite Forall_forall in Hloc.
        apply Hloc in Hin. apply (located_container _ _ _ _ w) in Hin; [lia|done].
      - by rewrite Hkeys'. }
    destruct (restore_all objs new lo a e w (Hobjs He) Hkeys He Haw new [] h')
      as (h2 & us' & Hrun2 & Hlaid2 & Hfr2); try done.
    rewrite Hrun2.
    assert (Hroot : ∃ ps2, h2 !! a = Some (cell e ps2) ∧ ps2.*1 = (members e).*1).
    { inversion Hlaid2 as [|? ? ? ? ps2 ? ? ? Hu ? Hc2]; subst; [congruence|].
      exists ps2. split; [done|]. by eapply chain_keys. }
    destruct Hroot as (ps2 & Ha2 & Hps2).
    rewrite revive_value_cell with (e := e) (ps := ps2); [|done|done|].
    + exists h2, (VRef a), new, lo, (S a), w. done.
    + rewrite Hps2. intros (m & Hm1 & Hm2)%list_elem_of_fmap.
      rewrite Forall_forall in Hdm. destruct (Hdm _ Hm2) as [Hdk _].
      apply decode_key_spec in Hdk as [_ Hdk]. by rewrite <- Hm1 in Hdk.
Qed.

End Parse.

(** X1: [stringify] of a plain value within the depth allocates the
    wrapper object only and returns the text of the value: numbers as
    printed, strings as they are, each boolean and [null] as itself or as a
    duplicate marker, and the path of every entry that the tracker made for
    a boolean or [null] leads, from the root of the text, to the place where
    that value is written. The value is the tree that the literal [j]
    denotes, each array and object in a cell of its own; the keys of its
    objects are distinct, not empty, not [_constructor-name_], free of dots
    and brackets, no array indices and none of the names that an object
    inherits, as [constructor] is. *)
Theorem stringify_plain (h0 : heap) (j : json) (maxDepth : option Z) :
  plain j = true → within (depth_option maxDepth) j = true →
  ∃ e new,
    stringify (build j h0).1 (build j h0).2 maxDepth
    = ((build j h0).1 ++ [wrapper_of (build j h0).2], Ok (Some e))
    ∧ coded (("root", (build j h0).2) :: new) j e
    ∧ positional ["root"] (members e) new.
Proof.
  intros Hp Hw.
  destruct (build_laid j h0 VUndef "" (plain_distinct _ Hp)) as (ext & v & Hb & Hlaid).
  rewrite Hb. cbn [fst snd].
  destruct (encode_root _ (depth_option maxDepth) _ _ _ _ _ _ Hlaid Hp Hw)
    as (e & new & Hs & Hc & Hpos & _).
  exists e, new. split_and!; [done| |done].
  specialize (Hc []). by rewrite app_nil_r in Hc.
Qed.

Lemma stringify_plain_witness :
  let j := JObj [("a", JArr [JBool true; JNum 1; JBool true]); ("b", JNull)] in
  ∃ e new,
    stringify (build j []).1 (build j []).2 None
    = ((build j []).1 ++ [wrapper_of (build j []).2], Ok (Some e))
    ∧ coded (("root", (build j []).2) :: new) j e
    ∧ positional ["root"] (members e) new.
Proof.
  intros j. apply (stringify_plain [] j None); vm_compute; reflexivity.
Defined.






(** ** Strings that the codec takes for tags *)

Section Member.

Implicit Types (h : heap) (k s : string) (x v : value).

#[local] Arguments get : simpl never.
#[local] Arguments revive_value : simpl never.

(** [parse] of the text of [{ k: s }] when the reviver throws on the string
    [s]. *)
Lemma parse_single_throw h k s e hh :
  k ≠ "" →
  revive_value (VRef (length h)) k (VStr s)
    (Dec (h ++ [Object KObject "Object" false [(k, VStr s)];
                wrapper_of (VRef (length h))]) [] VUndef)
  = (Dec hh [] VUndef, Throw e) →
  parse h (JObj [(k, JStr s)]) = (hh, Throw e).
Proof.
  intros Hk Hrev.
  apply String.eqb_neq in Hk as Hk'.
  unfold parse, JSON_parse. cbn [build fold_left Props.set fst snd alloc].
  rewrite length_app. cbn [length height foldr]. rewrite Nat.add_1_r.
  rewrite <- app_assoc. cbn [app].
  cbn [InternalizeJSONProperty Nat.max].
  set (o := Object KObject "Object" false [(k, VStr s)]) in *.
  set (w := wrapper_of (VRef (length h))) in *.
  assert (HGetW : Get (h ++ [o; w]) (VRef (S (length h))) "" = VRef (length h)).
  { unfold Get. by rewrite lookup_fresh_S. }
  assert (HGetK : Get (h ++ [o; w]) (VRef (length h)) k = VStr s).
  { unfold Get. rewrite lookup_fresh. cbn. by rewrite String.eqb_refl. }
  match goal with
  | |- context [internalize ?r ?x ?y ?z] =>
      assert (Hrun : internalize r x y z = (Dec hh [] VUndef, Throw e))
  end; [|by rewrite Hrun].
  unfold internalize at 1. unfold mbind at 1, M_bind at 1, gets at 1. cbn [dec_heap].
  rewrite !HGetW.
  erewrite bind_throw; [reflexivity|].
  unfold internalize_members. unfold mbind at 1, M_bind at 1, gets at 1. cbn [dec_heap].
  rewrite lookup_fresh. cbn [o okind props fmap list_fmap fst mapM].
  erewrite bind_throw; [reflexivity|].
  erewrite bind_throw; [reflexivity|].
  erewrite bind_throw; [reflexivity|].
  unfold internalize. unfold mbind at 1, M_bind at 1, gets at 1. cbn [dec_heap].
  rewrite !HGetK.
  erewrite bind_ok; [|reflexivity].
  unfold revive, restore_refs. rewrite Hk'.
  erewrite bind_ok; [|reflexivity]. exact Hrev.
Qed.


End Member.


(** ** Tags without a bar *)

Section NoBar.

Implicit Types (h : heap) (k s t tag : string) (i j : nat).

#[local] Arguments revive_value : simpl never.

Lemma all_drop p n : ∀ s, Spec.all p s = true → Spec.all p (Str.drop n s) = true.
Proof.
  induction n as [|n IH]; intros [|c s]; simpl; try done.
  intros [_ Hs]%andb_true_iff. by apply IH.
Qed.

Lemma elem_of_run_lit l i s c j t :
  (c, j, t) ∈ run (Lit l) i s → t = Str.drop (String.length l) s.
Proof.
  cbn [run]. destruct (String.prefix l s); [|by intros ?%elem_of_nil].
  by intros [= _ _ ->]%list_elem_of_singleton.
Qed.

Lemma elem_of_run_group_star p i s c j t :
  (c, j, t) ∈ run (Group (Star p)) i s → ∃ pre, s = pre +:+ t.
Proof.
  cbn [run]. intros ([[c' j'] t'] & Hin & Hstar)%list_elem_of_bind.
  apply list_elem_of_singleton in Hin as [= _ _ ->].
  apply elem_of_star in Hstar as (_ & pre & -> & _). by exists pre.
Qed.

(** A text without a bar has no match for a tag with two fields. *)
Lemma run_two_fields_no_bar tag i s :
  Spec.all (Str.none_of "|") s = true →
  run (Seq (Lit tag) (Seq (Group (Star (Str.none_of "|")))
         (Seq (Lit "|") (Group (Star Str.is_dot))))) i s = [].
Proof.
  intros Hs.
  destruct (run _ i s) as [|x l] eqn:E; [done|]. exfalso.
  match type of E with ?r = _ => assert (Hne : r ≠ []) by (by rewrite E) end.
  apply run_seq_nonempty in Hne as (c1 & i1 & s1 & H1 & Hne).
  apply elem_of_run_lit in H1 as ->.
  apply run_seq_nonempty in Hne as (c2 & i2 & s2 & H2 & Hne).
  apply elem_of_run_group_star in H2 as [pre Hpre].
  apply run_seq_nonempty in Hne as (c3 & i3 & s3 & H3 & _).
  cbn [run] in H3. destruct (String.prefix "|" s2) eqn:Hbar; [|by apply elem_of_nil in H3].
  apply prefix_split in Hbar as [u ->].
  apply (all_drop _ (String.length tag)) in Hs. rewrite Hpre, all_append in Hs.
  by apply andb_true_iff in Hs as [_ Hs].
Qed.

Lemma search_two_fields_no_bar tag s : ∀ i,
  Spec.all (Str.none_of "|") s = true →
  search (Seq (Lit tag) (Seq (Group (Star (Str.none_of "|")))
            (Seq (Lit "|") (Group (Star Str.is_dot))))) i s = None.
Proof.
  induction s as [|c s IH]; intros i Hs; cbn [search];
    rewrite run_two_fields_no_bar by done; [done|].
  apply IH. simpl in Hs. by apply andb_true_iff in Hs as [_ Hs].
Qed.

Lemma match_two_fields_no_bar tag s :
  Spec.all (Str.none_of "|") s = true →
  match_ (Seq (Lit tag) (Seq (Group (Star (Str.none_of "|")))
            (Seq (Lit "|") (Group (Star Str.is_dot))))) s = None.
Proof. intros Hs. unfold match_. by rewrite search_two_fields_no_bar. Qed.

(** A text that starts with an underscore is not in the format of dates. *)
Lemma test_dateFormat_underscore s : test dateFormat (String "_" s) = false.
Proof.
  unfold test. destruct (match_ dateFormat _) eqn:E; [|done]. exfalso.
  assert (Hne : match_ dateFormat (String "_" s) ≠ None) by (by rewrite E).
  apply Hne. by apply match_bol_none.
Qed.

End NoBar.

(** X6: a string that starts with [_function_] or with [_regexp_] and has
    no bar is written by [stringify] as it is, and makes [parse] throw: the
    pattern of the tag has no match, and [revive] destructures the [null]
    that [match] returns. *)
Theorem tag_without_bar_throws (h : heap) (a : nat) (k s : string) :
  h !! a = Some (Object KObject "Object" false [(k, VStr s)]) →
  k ≠ "" → k ≠ MARKER →
  Str.startsWith s "_function_" = true ∨ Str.startsWith s "_regexp_" = true →
  Spec.all (Str.none_of "|") s = true →
  ∃ h1 h2 msg,
    stringify h (VRef a) None = (h1, Ok (Some (JObj [(k, JStr s)])))
    ∧ parse h1 (JObj [(k, JStr s)]) = (h2, Throw (TypeError msg)).
Proof.
  intros Ha Hk Hm Htag Hbar.
  assert (Hdate : test dateFormat s = false).
  { destruct Htag as [[t ->]%prefix_split|[t ->]%prefix_split];
      apply test_dateFormat_underscore. }
  set (h1 := h ++ [wrapper_of (VRef a)]).
  exists h1. do 2 eexists. split.
  - apply (stringify_single_string h a k (VStr s)); [done..|].
    intros st Hst [t Ht]. eexists.
    change (call_toJSON (enc_heap st) (VStr s)) with (VStr s).
    by apply replace_string.
  - apply parse_single_throw; [done|].
    apply String.eqb_neq in Hm.
    unfold revive_value. rewrite Hm.
    unfold mbind at 1, M_bind at 1, gets at 1.
    destruct Htag as [Hf|Hr].
    + rewrite Hf. unfold function_re. rewrite match_two_fields_no_bar by done.
      reflexivity.
    + destruct (Str.startsWith s "_function_").
      * unfold function_re. rewrite match_two_fields_no_bar by done. reflexivity.
      * rewrite Hr. unfold regexp_re. rewrite match_two_fields_no_bar by done.
        reflexivity.
Qed.

Lemma tag_without_bar_throws_witness :
  let h := [Object KObject "Object" false [("note", VStr "_function_ is a prefix")]] in
  ∃ h1 h2 msg,
    stringify h (VRef 0) None
      = (h1, Ok (Some (JObj [("note", JStr "_function_ is a prefix")])))
    ∧ parse h1 (JObj [("note", JStr "_function_ is a prefix")])
      = (h2, Throw (TypeError msg)).
Proof.
  intros h. apply (tag_without_bar_throws h 0 "note" "_function_ is a prefix").
  - reflexivity.
  - vm_compute. discriminate.
  - vm_compute. discriminate.
  - left. vm_compute. reflexivity.
  - vm_compute. reflexivity.
Defined.
(** ** What the normalizer keeps and what it drops *)

Section Deletes.

Implicit Types (st : scanner) (s t code : string) (c : ascii).

Lemma scan_sublist s : ∀ st p2 p1,
  list_ascii_of_string (Norm.scan st p2 p1 s) `sublist_of` list_ascii_of_string s.
Proof.
  induction s as [|c s IH]; intros st p2 p1; simpl; [done|].
  case_match; simpl; [apply sublist_skip|apply sublist_cons]; apply IH.
Qed.

Lemma remove_all_sublist r t : ∀ k i,
  list_ascii_of_string (remove_all r k i t) `sublist_of` list_ascii_of_string t.
Proof.
  induction t as [|c t IH]; intros k i; [done|].
  change (list_ascii_of_string (String c t)) with (c :: list_ascii_of_string t).
  cbn [remove_all]. destruct k as [|k]; [|apply sublist_cons, IH].
  repeat case_match;
    try change (list_ascii_of_string (String c ?u)) with (c :: list_ascii_of_string u);
    first [apply sublist_skip, IH|apply sublist_cons, IH].
Qed.

Lemma trimStart_sublist s :
  list_ascii_of_string (Str.trimStart s) `sublist_of` list_ascii_of_string s.
Proof.
  induction s as [|c s IH]; simpl; [done|].
  case_match; [by apply sublist_cons|done].
Qed.

Lemma trimEnd_sublist s :
  list_ascii_of_string (Str.trimEnd s) `sublist_of` list_ascii_of_string s.
Proof.
  induction s as [|c s IH]; simpl; [done|].
  case_match; simpl; [apply sublist_nil_l|by apply sublist_skip].
Qed.

Lemma cleanCode_sublist code :
  list_ascii_of_string (cleanCode code) `sublist_of` list_ascii_of_string code.
Proof.
  unfold cleanCode, Str.trim.
  etrans; [apply trimEnd_sublist|]. etrans; [apply trimStart_sublist|].
  etrans; [apply remove_all_sublist|].
  rewrite removeCodeComments_scan. apply scan_sublist.
Qed.

Lemma all_sublist p s t :
  list_ascii_of_string s `sublist_of` list_ascii_of_string t →
  Spec.all p t = true → Spec.all p s = true.
Proof.
  revert s. induction t as [|c t IH]; intros s Hsub; simpl in *.
  - apply sublist_nil_r in Hsub. by destruct s.
  - intros [Hc Ht]%andb_true_iff. destruct s as [|d s]; [done|]. simpl in *.
    apply sublist_cons_r in Hsub as [Hsub|(l & [= -> Hl] & Hsub)].
    + by apply (IH (String d s)).
    + rewrite Hc. rewrite <- Hl in Hsub. by apply IH.
Qed.

Lemma cleanCode_all p code :
  Spec.all p code = true → Spec.all p (cleanCode code) = true.
Proof. apply all_sublist, cleanCode_sublist. Qed.

Lemma cleanCode_no_LF code : Spec.all Norm.not_LF (cleanCode code) = true.
Proof.
  unfold cleanCode, Str.trim. apply trimEnd_all, trimStart_all, remove_all_no_LF.
Qed.

End Deletes.

(** X14: the normalizer only deletes. The text that [removeCodeComments]
    returns, and so the text that [cleanCode] returns, is the input with some
    of its characters left out: no character is added, changed or moved. *)
Theorem normalizer_only_deletes (code : string) :
  list_ascii_of_string (removeCodeComments code) `sublist_of` list_ascii_of_string code
  ∧ list_ascii_of_string (cleanCode code) `sublist_of` list_ascii_of_string code.
Proof.
  split; [|apply cleanCode_sublist].
  rewrite removeCodeComments_scan. apply scan_sublist.
Qed.

(** X15: the text that [cleanCode] returns is one line without white space
    around it: it has no line feed, and trimming it changes nothing. *)
Theorem cleanCode_one_line (code : string) :
  Spec.all Norm.not_LF (cleanCode code) = true
  ∧ Str.trimStart (cleanCode code) = cleanCode code
  ∧ Str.trimEnd (cleanCode code) = cleanCode code.
Proof.
  split; [apply cleanCode_no_LF|]. unfold cleanCode, Str.trim. split.
  - apply trimStart_trimEnd, trimStart_idemp.
  - apply trimEnd_idemp.
Qed.

(** X16: a text in which no slash is followed by a slash or a star has no
    comment, and [removeCodeComments] returns it as it is. *)
Theorem removeCodeComments_no_comment (code : string) :
  Norm.no_opener code = true → removeCodeComments code = code.
Proof.
  intros H. rewrite removeCodeComments_scan. by apply scan_no_opener.
Qed.

Lemma removeCodeComments_no_comment_witness :
  removeCodeComments "const half = n => n / 2; const re = /a*b/;"
  = "const half = n => n / 2; const re = /a*b/;".
Proof.
  apply (removeCodeComments_no_comment "const half = n => n / 2; const re = /a*b/;").
  vm_compute. reflexivity.
Defined.
(** ** Comments *)

Section Comments.

Import Comment.

Implicit Types (st : scanner) (s a b c rest : string).

(** Of the character before the last one the scanner only asks whether it
    is a star. *)
Lemma scan_p2 s st p2 p2' p1 :
  Str.is_chr p2 "*" = Str.is_chr p2' "*" →
  Norm.scan st p2 p1 s = Norm.scan st p2' p1 s.
Proof.
  destruct s as [|d s]; [done|]. intros H. cbn [Norm.scan].
  assert (switch_mode st p2 p1 d (Str.at_ s 0) = switch_mode st p2' p1 d (Str.at_ s 0))
    as ->; [|done].
  unfold switch_mode. by rewrite H.
Qed.

(** In no mode the scanner does not look back. *)
Lemma scan_fresh s p2 p1 p2' p1' :
  Str.is_chr p1 "*" = Str.is_chr p1' "*" →
  Norm.scan scanner_start p2 p1 s = Norm.scan scanner_start p2' p1' s.
Proof.
  destruct s as [|d s]; [done|]. intros H. cbn [Norm.scan].
  assert (switch_mode scanner_start p2 p1 d (Str.at_ s 0)
          = switch_mode scanner_start p2' p1' d (Str.at_ s 0)) as ->; [done|].
  by rewrite (scan_p2 s _ p1 p1').
Qed.

Lemma switch_mode_quiet p2 p1 d n :
  quiet d = true → switch_mode scanner_start p2 p1 d n = scanner_start.
Proof.
  unfold quiet, Str.none_of, Str.one_of. cbn [list_ascii_of_string existsb].
  intros H%negb_true_iff.
  repeat (apply orb_false_iff in H as [? H]).
  unfold switch_mode. change (no_mode scanner_start) with true. cbv iota.
  by repeat match goal with H : Ascii.eqb _ _ = false |- _ => rewrite H; clear H end.
Qed.

Lemma last_cons d s : ∃ e, Spec.last (String d s) = Some e.
Proof.
  revert d. induction s as [|c s IH]; intros d; [by exists d|].
  destruct (IH c) as [e He]. exists e. by rewrite <- He.
Qed.

(** Over quiet text the scanner stays in no mode and keeps the text. *)
Lemma scan_quiet a : ∀ p2 p1 rest,
  Spec.all quiet a = true →
  ∃ p2', Norm.scan scanner_start p2 p1 (a +:+ rest)
         = a +:+ Norm.scan scanner_start p2'
                   (match Spec.last a with Some d => Some d | None => p1 end) rest.
Proof.
  induction a as [|d a IH]; intros p2 p1 rest Ha; [by exists p2|].
  simpl in Ha. apply andb_true_iff in Ha as [Hd Ha].
  cbn [String.append Norm.scan]. rewrite switch_mode_quiet by done.
  cbn [scanner_start inBlockComment inLineComment negb andb].
  destruct (IH p1 (Some d) rest Ha) as [p2' ->]. exists p2'.
  assert (Hl : match Spec.last (String d a) with Some x => Some x | None => p1 end
               = match Spec.last a with Some x => Some x | None => Some d end).
  { destruct a as [|e a]; [done|]. destruct (last_cons e a) as [x Hx].
    change (Spec.last (String d (String e a))) with (Spec.last (String e a)).
    by rewrite Hx. }
  by rewrite Hl.
Qed.

Lemma switch_mode_in_line p2 p1 d n :
  switch_mode in_line p2 p1 d n
  = if Ascii.eqb d Str.LF then scanner_start else in_line.
Proof. unfold switch_mode. cbn. by destruct (Ascii.eqb d Str.LF). Qed.

(** Inside a line comment the scanner drops the text up to the line feed,
    which it keeps. *)
Lemma scan_in_line c : ∀ p2 p1,
  Spec.all Norm.not_LF c = true →
  Norm.scan in_line p2 p1 c = ""
  ∧ ∀ b, ∃ q2, Norm.scan in_line p2 p1 (c +:+ String Str.LF b)
               = String Str.LF (Norm.scan scanner_start q2 (Some Str.LF) b).
Proof.
  induction c as [|d c IH]; intros p2 p1 Hc.
  - split; [done|]. intros b. exists p1.
    cbn [String.append Norm.scan]. by rewrite switch_mode_in_line.
  - simpl in Hc. apply andb_true_iff in Hc as [Hd Hc].
    unfold Norm.not_LF in Hd. apply negb_true_iff in Hd.
    destruct (IH p1 (Some d) Hc) as [IH1 IH2].
    split; [|intros b]; cbn [String.append Norm.scan];
      rewrite !switch_mode_in_line, Hd;
      cbn [in_line inBlockComment inLineComment negb andb]; auto.
Qed.



Lemma scan_line_opener p2 p1 rest :
  Norm.scan scanner_start p2 p1 (String "/" (String "/" rest))
  = Norm.scan in_line p1 (Some "/"%char) (String "/" rest).
Proof. reflexivity. Qed.


End Comments.

(** X17: a line comment is dropped up to its line feed. After text without
    a quote and without a slash, [removeCodeComments] drops two slashes and
    what follows them on the line, keeps the line feed, and goes on with the
    rest as with a text of its own; a line comment that the end of the text
    closes is dropped as well. *)
Theorem line_comment_removed (a c b : string) :
  Spec.all Comment.quiet a = true → Spec.all Norm.not_LF c = true →
  removeCodeComments (a +:+ "//" +:+ c +:+ String Str.LF b)
  = a +:+ String Str.LF (removeCodeComments b)
  ∧ removeCodeComments (a +:+ "//" +:+ c) = a.
Proof.
  intros Ha Hc. rewrite !removeCodeComments_scan.
  assert (Hc' : Spec.all Norm.not_LF (String "/" c) = true) by done.
  split.
  - destruct (scan_quiet a None None ("//" +:+ c +:+ String Str.LF b) Ha) as [p2 ->].
    f_equal.
    change ("//" +:+ c +:+ String Str.LF b)
      with (String "/" (String "/" (c +:+ String Str.LF b))).
    rewrite scan_line_opener.
    destruct (scan_in_line (String "/" c) (match Spec.last a with
                                          | Some d => Some d | None => None end)
                (Some "/"%char) Hc') as [_ H].
    destruct (H b) as [q2 Hq2]. cbn [String.append] in Hq2. rewrite Hq2.
    f_equal. by apply scan_fresh.
  - destruct (scan_quiet a None None ("//" +:+ c) Ha) as [p2 ->].
    change ("//" +:+ c) with (String "/" (String "/" c)).
    rewrite scan_line_opener.
    rewrite (proj1 (scan_in_line (String "/" c) _ _ Hc')). apply append_nil_r.
Qed.

Lemma line_comment_removed_witness :
  removeCodeComments ("x = 1; " +:+ "//" +:+ " one" +:+ String Str.LF "y = 2; // two")
  = "x = 1; " +:+ String Str.LF (removeCodeComments "y = 2; // two")
  ∧ removeCodeComments ("x = 1; " +:+ "//" +:+ " one") = "x = 1; ".
Proof.
  apply (line_comment_removed "x = 1; " " one" "y = 2; // two");
    vm_compute; reflexivity.
Defined.


(** ** Functions under a key of the root *)

Section Functions.

Implicit Types (h : heap) (k s name text : string) (x v : value).

#[local] Arguments revive_value : simpl never.

Lemma all_is_dot s :
  Spec.all Norm.not_LF s = true → Spec.all not_CR s = true →
  Spec.all Str.is_dot s = true.
Proof.
  induction s as [|c s IH]; simpl; [done|].
  intros [H1 Hs1]%andb_true_iff [H2 Hs2]%andb_true_iff.
  rewrite IH by done. unfold Str.is_dot, Norm.not_LF, not_CR in *.
  by rewrite H1, H2.
Qed.

Lemma written_source_is_dot text :
  Spec.all not_CR text = true → Spec.all Str.is_dot (written_source text) = true.
Proof.
  intros Ht. unfold written_source. case_match; [done|].
  apply all_is_dot; [apply cleanCode_no_LF|by apply cleanCode_all].
Qed.

(** What the replacer returns for a function under a key. *)
Lemma replace_function depth this k f name text st t :
  k ≠ "" → enc_vars st = Some t →
  kind_of (enc_heap st) (VRef f) = Some (KFunction name text)
  ∨ kind_of (enc_heap st) (VRef f) = Some (KRevived name text) →
  replace depth this k (VRef f) st
  = (Enc (enc_heap st)
         (Some (Tracker (objects t) (unwind this (stack t) (keys t)).1
                        (unwind this (stack t) (keys t)).2))
         (enc_path st),
     Ok (VStr ("_function_" +:+ name +:+ "|" +:+ written_source text))).
Proof.
  intros Hk%String.eqb_neq Ht Hf.
  unfold replace. rewrite Hk. unfold mbind, M_bind, gets. rewrite Ht.
  destruct (unwind this (stack t) (keys t)) as [stk ks]. cbn [fst snd].
  unfold put_vars, modify. cbn [enc_heap enc_vars enc_path].
  unfold written_source.
  destruct Hf as [-> | ->]; by destruct (test native_re (cleanCode text)).
Qed.

End Functions.

(** X7: a function under a key comes back as a function with the same
    name and the normalized source. For a root object whose one member [k]
    (not the empty key, not [_constructor-name_], and not [toJSON], which
    [JSON.stringify] would call) holds a function without enumerable
    properties of its own, with a name without a bar and a source without a
    carriage return, [stringify]
    with the default options then [parse] yield an object whose [k] is a
    revived function that has the name of the original and, as its source,
    the source of the original as [cleanCode] normalizes it, or [() => {}]
    when that reads [[native code]] or [WEBPACK_IMPORTED_MODULE]. *)
Theorem function_roundtrip (h : heap) (a f : nat) (k name text : string) (o : object) :
  h !! a = Some (Object KObject "Object" false [(k, VRef f)]) →
  h !! f = Some o →
  okind o = KFunction name text ∨ okind o = KRevived name text → props o = [] →
  k ≠ "" → k ≠ MARKER → k ≠ "toJSON" →
  Spec.all (Str.none_of "|") name = true → Spec.all not_CR text = true →
  ∃ h1 j h2 b g,
    stringify h (VRef a) None = (h1, Ok (Some j))
    ∧ parse h1 j = (h2, Ok (VRef b))
    ∧ Get h2 (VRef b) k = VRef g
    ∧ h2 !! g = Some (Object (KRevived name (written_source text)) "Function" false []).
Proof.
  intros Ha Hf Hkind _ Hk Hm _ Hname Htext.
  set (h1 := h ++ [wrapper_of (VRef a)]).
  set (s := "_function_" +:+ name +:+ "|" +:+ written_source text).
  set (fn := Object (KRevived name (written_source text)) "Function" false []).
  exists h1, (JObj [(k, JStr s)]),
    (h1 ++ [Object KObject "Object" false (member k (VRef (S (S (length h1)))));
            wrapper_of (VRef (length h1))] ++ [fn]),
    (length h1), (S (S (length h1))).
  split_and!.
  - apply (stringify_single_string h a k (VRef f)); [done..|].
    intros st Hst [t Ht]. eexists.
    assert (Hk' : kind_of (enc_heap st) (VRef f) = Some (okind o)).
    { rewrite Hst. by apply kind_of_app. }
    assert (Hj : call_toJSON (enc_heap st) (VRef f) = VRef f).
    { unfold call_toJSON. rewrite Hk'. by destruct Hkind as [-> | ->]. }
    rewrite Hj. apply replace_function; [done..|].
    rewrite Hk'. destruct Hkind as [-> | ->]; auto.
  - apply parse_single_string; [done..|].
    apply String.eqb_neq in Hm.
    unfold revive_value. rewrite Hm.
    unfold mbind at 1, M_bind at 1, gets at 1.
    assert (Hst : Str.startsWith s "_function_" = true) by apply prefix_refl_append.
    rewrite Hst. unfold function_re, s.
    rewrite match_two_fields by auto using written_source_is_dot.
    unfold new, mbind, M_bind, gets, alloc, set_heap, modify, mret, M_ret.
    cbn [dec_heap refs root]. rewrite !length_app. cbn [length].
    by rewrite Nat.add_comm.
  - unfold Get. cbn [app]. rewrite lookup_fresh. cbn [props member Props.lookup].
    by rewrite String.eqb_refl.
  - rewrite app_assoc. apply list_lookup_middle.
    rewrite length_app. cbn [length]. lia.
Qed.

Lemma function_roundtrip_witness :
  let text := "function add(a, b) {" +:+ String Str.LF "  return a + b; // sum"
              +:+ String Str.LF "}" in
  let h := [Object (KFunction "add" text) "Function" false [];
            Object KObject "Object" false [("op", VRef 0)]] in
  ∃ h1 j h2 b g,
    stringify h (VRef 1) None = (h1, Ok (Some j))
    ∧ parse h1 j = (h2, Ok (VRef b))
    ∧ Get h2 (VRef b) "op" = VRef g
    ∧ h2 !! g = Some (Object (KRevived "add" (written_source text)) "Function" false []).
Proof.
  intros text h.
  apply (function_roundtrip h 1 0 "op" "add" text
           (Object (KFunction "add" text) "Function" false [])).
  - reflexivity.
  - reflexivity.
  - left. reflexivity.
  - reflexivity.
  - vm_compute. discriminate.
  - vm_compute. discriminate.
  - vm_compute. discriminate.
  - vm_compute. reflexivity.
  - vm_compute. reflexivity.
Defined.
(** ** A carriage return in the source of a function *)

Section Cut.

Implicit Types (h : heap) (k s name text tag a l r : string).

(** The match of a tag with two fields when a line terminator follows the
    second field: the match stops before it. *)
Lemma match_two_fields_cut tag a l r :
  Spec.all (Str.none_of "|") a = true → Spec.all Str.is_dot l = true →
  match r with String c _ => Str.is_dot c = false | "" => True end →
  match_ (Seq (Lit tag) (Seq (Group (Star (Str.none_of "|")))
            (Seq (Lit "|") (Group (Star Str.is_dot)))))
    (tag +:+ a +:+ "|" +:+ l +:+ r)
  = Some [Some (tag +:+ a +:+ "|" +:+ l); Some a; Some l].
Proof.
  intros Ha Hl Hr.
  set (n := String.length tag). set (m := String.length a).
  assert (H : head (run (Seq (Lit tag) (Seq (Group (Star (Str.none_of "|")))
                      (Seq (Lit "|") (Group (Star Str.is_dot))))) 0
                      (tag +:+ a +:+ "|" +:+ l +:+ r))
              = Some ([Some a; Some l], n + m + 1 + String.length l, r)).
  { eapply (head_run_seq _ _ _ _ [] _ _ [Some a; Some l]); [apply head_run_lit|].
    eapply (head_run_seq _ _ _ _ [Some a] _ _ [Some l]).
    { pose proof (head_run_group (Star (Str.none_of "|")) (0 + n) (a +:+ "|" +:+ l +:+ r) []
        (0 + n + m) ("|" +:+ l +:+ r)) as Hg.
      replace (0 + n + m - (0 + n)) with m in Hg by lia.
      unfold m in Hg at 2. rewrite take_length_append in Hg. apply Hg.
      cbn [run]. by apply head_star. }
    eapply (head_run_seq _ _ _ _ [] _ _ [Some l]); [apply (head_run_lit "|")|].
    pose proof (head_run_group (Star Str.is_dot) (0 + n + m + 1) (l +:+ r) []
      (0 + n + m + 1 + String.length l) r) as Hg.
    replace (0 + n + m + 1 + String.length l - (0 + n + m + 1)) with (String.length l)
      in Hg by lia.
    rewrite take_length_append in Hg. apply Hg. cbn [run].
    by apply head_star. }
  rewrite (match_head _ _ _ _ _ H). do 3 f_equal.
  replace (n + m + 1 + String.length l) with (String.length (tag +:+ a +:+ "|" +:+ l)).
  - rewrite <- !append_assoc. apply take_length_append.
  - rewrite !length_append. simpl. lia.
Qed.

End Cut.

(** X8: a carriage return cuts the source of a revived function. When
    the source that the encoder writes for a function under a key (as in
    X7: not the empty key, not [_constructor-name_], not [toJSON]; a
    function without enumerable properties of its own) has a carriage
    return, as the source of a function written with Windows line
    ends has, the pattern of [revive] stops before it: the revived function
    has, as its source, only the text before the first carriage return. *)
Theorem function_source_cut (h : heap) (a f : nat) (k name text l r : string)
    (o : object) :
  h !! a = Some (Object KObject "Object" false [(k, VRef f)]) →
  h !! f = Some o →
  okind o = KFunction name text ∨ okind o = KRevived name text → props o = [] →
  k ≠ "" → k ≠ MARKER → k ≠ "toJSON" →
  Spec.all (Str.none_of "|") name = true →
  written_source text = l +:+ String Str.CR r → Spec.all Str.is_dot l = true →
  ∃ h1 j h2 b g,
    stringify h (VRef a) None = (h1, Ok (Some j))
    ∧ parse h1 j = (h2, Ok (VRef b))
    ∧ Get h2 (VRef b) k = VRef g
    ∧ h2 !! g = Some (Object (KRevived name l) "Function" false []).
Proof.
  intros Ha Hf Hkind _ Hk Hm _ Hname Htext Hl.
  set (h1 := h ++ [wrapper_of (VRef a)]).
  set (s := "_function_" +:+ name +:+ "|" +:+ written_source text).
  set (fn := Object (KRevived name l) "Function" false []).
  exists h1, (JObj [(k, JStr s)]),
    (h1 ++ [Object KObject "Object" false (member k (VRef (S (S (length h1)))));
            wrapper_of (VRef (length h1))] ++ [fn]),
    (length h1), (S (S (length h1))).
  split_and!.
  - apply (stringify_single_string h a k (VRef f)); [done..|].
    intros st Hst [t Ht]. eexists.
    assert (Hk' : kind_of (enc_heap st) (VRef f) = Some (okind o)).
    { rewrite Hst. by apply kind_of_app. }
    assert (Hj : call_toJSON (enc_heap st) (VRef f) = VRef f).
    { unfold call_toJSON. rewrite Hk'. by destruct Hkind as [-> | ->]. }
    rewrite Hj. apply replace_function; [done..|].
    rewrite Hk'. destruct Hkind as [-> | ->]; auto.
  - apply parse_single_string; [done..|].
    apply String.eqb_neq in Hm.
    unfold revive_value. rewrite Hm.
    unfold mbind at 1, M_bind at 1, gets at 1.
    assert (Hst : Str.startsWith s "_function_" = true) by apply prefix_refl_append.
    rewrite Hst. unfold function_re, s. rewrite Htext.
    rewrite match_two_fields_cut by done.
    unfold new, mbind, M_bind, gets, alloc, set_heap, modify, mret, M_ret.
    cbn [dec_heap refs root]. rewrite !length_app. cbn [length].
    by rewrite Nat.add_comm.
  - unfold Get. cbn [app]. rewrite lookup_fresh. cbn [props member Props.lookup].
    by rewrite String.eqb_refl.
  - rewrite app_assoc. apply list_lookup_middle.
    rewrite length_app. cbn [length]. lia.
Qed.

Lemma function_source_cut_witness :
  let text := "function one() {" +:+ String Str.CR (String Str.LF "  return 1;")
              +:+ String Str.CR (String Str.LF "}") in
  let h := [Object (KFunction "one" text) "Function" false [];
            Object KObject "Object" false [("f", VRef 0)]] in
  ∃ h1 j h2 b g,
    stringify h (VRef 1) None = (h1, Ok (Some j))
    ∧ parse h1 j = (h2, Ok (VRef b))
    ∧ Get h2 (VRef b) "f" = VRef g
    ∧ h2 !! g = Some (Object (KRevived "one" "function one() {") "Function" false []).
Proof.
  intros text h.
  apply (function_source_cut h 1 0 "f" "one" text "function one() {"
           ("return 1;" +:+ String Str.CR "}")
           (Object (KFunction "one" text) "Function" false [])).
  - reflexivity.
  - reflexivity.
  - left. reflexivity.
  - reflexivity.
  - vm_compute. discriminate.
  - vm_compute. discriminate.
  - vm_compute. discriminate.
  - vm_compute. reflexivity.
  - vm_compute. reflexivity.
  - vm_compute. reflexivity.
Defined.
(** ** Constructor names *)

Section Named.

Implicit Types (h l : heap) (k n : string) (o w z : object).

#[local] Arguments get : simpl never.
#[local] Arguments is_identifier : simpl never.

Lemma lookup_fresh_SS h o w z l : (h ++ o :: w :: z :: l) !! S (S (length h)) = Some z.
Proof.
  rewrite lookup_app_r by lia.
  by replace (S (S (length h)) - length h) with 2 by lia.
Qed.

Lemma insert_fresh_S h o w w' l :
  <[S (length h) := w']> (h ++ o :: w :: l) = h ++ o :: w' :: l.
Proof.
  rewrite insert_app_r_alt by lia.
  by replace (S (length h) - length h) with 1 by lia.
Qed.

Ltac eval_named :=
  repeat first
    [ progress cbn
    | progress (unfold mbind, M_bind, mret, M_ret, gets, modify, set_heap,
        set_refs, set_root, put_element, revive, rename, remove,
        restore_refs, revive_value, Get, write, isObject, internalize,
        internalize_members)
    | rewrite lookup_fresh | rewrite lookup_fresh_S | rewrite insert_fresh
    | rewrite insert_fresh_S | rewrite lookup_fresh_SS
    | rewrite String.eqb_refl
    | match goal with
      | H : String.eqb _ _ = _ |- _ => rewrite H
      | H : is_identifier _ = _ |- _ => rewrite H
      end ].

(** [parse] of the text of [{ k: { '_constructor-name_': n } }]. *)
Lemma parse_named h k n :
  k ≠ "" → k ≠ MARKER → n ≠ "" → n ≠ "Object" →
  parse h (JObj [(k, JObj [(MARKER, JStr n)])])
  = if is_identifier n
    then (h ++ [Object KObject n false [];
                Object KObject "Object" false [(k, VRef (length h))];
                wrapper_of (VRef (S (length h)))],
          Ok (VRef (S (length h))))
    else (h ++ [Object KObject "Object" false [(MARKER, VStr n)];
                Object KObject "Object" false [(k, VRef (length h))];
                wrapper_of (VRef (S (length h)))],
          Throw (SyntaxError "Unexpected token")).
Proof.
  intros Hk%String.eqb_neq Hm%String.eqb_neq Hn%String.eqb_neq Ho%String.eqb_neq.
  unfold parse, JSON_parse. cbn [build fold_left Props.set fst snd alloc].
  rewrite !length_app. cbn [length height foldr]. rewrite !Nat.add_1_r.
  rewrite <- !app_assoc. cbn [app].
  destruct (is_identifier n) eqn:Hid; eval_named; reflexivity.
Qed.

End Named.

Section NamedEncode.

Implicit Types (h l : heap) (k n : string) (o w z : object).

Lemma identifier_not_date n : is_identifier n = true → test dateFormat n = false.
Proof.
  destruct n as [|c s]; [done|]. cbn [is_identifier].
  intros [[[_ Hc]%andb_true_iff _]%andb_true_iff _]%andb_true_iff.
  apply test_dateFormat_nondigit. by apply negb_true_iff.
Qed.

(** [stringify] of a root object whose one member is an object without
    properties of its own that has the constructor name [n]. *)
Lemma stringify_named h a b k n :
  h !! a = Some (Object KObject "Object" false [(k, VRef b)]) →
  h !! b = Some (Object KObject n false []) →
  k ≠ "" → n ≠ "" → n ≠ "Object" → test dateFormat n = false →
  stringify h (VRef a) None
  = (<[b := Object KObject n false [(MARKER, VStr n)]]> h ++ [wrapper_of (VRef a)],
     Ok (Some (JObj [(k, JObj [(MARKER, JStr n)])]))).
Proof.
  intros Ha Hb Hk Hn Ho Hdate.
  assert (Hab : a ≠ b) by (intros ->; congruence).
  assert (Hab' : Nat.eqb a b = false) by (by apply Nat.eqb_neq).
  pose proof (lookup_lt_Some _ _ _ Ha) as Hla.
  pose proof (lookup_lt_Some _ _ _ Hb) as Hlb.
  unfold stringify, JSON_stringify, alloc, depth_option.
  rewrite length_app. cbn [length]. rewrite Nat.add_1_r.
  remember (S (S (length h))) as gas eqn:Hfuel.
  destruct gas as [|[|[|gas]]]; [lia..|]. clear Hfuel.
  pose proof (lookup_app_l_Some _ [wrapper_of (VRef a)] _ _ Ha) as Ha'.
  pose proof (lookup_app_l_Some _ [wrapper_of (VRef a)] _ _ Hb) as Hb'.
  set (h1 := h ++ [wrapper_of (VRef a)]) in *.
  set (ob := Object KObject n false [(MARKER, VStr n)]).
  set (h2 := <[b := ob]> h1).
  assert (Hh2 : <[b := ob]> h ++ [wrapper_of (VRef a)] = h2).
  { unfold h2, h1. rewrite insert_app_l; [done|lia]. }
  assert (Ha2 : h2 !! a = Some (Object KObject "Object" false [(k, VRef b)])).
  { unfold h2. by rewrite list_lookup_insert_ne. }
  assert (Hb2 : h2 !! b = Some ob).
  { unfold h2. apply list_lookup_insert_eq. unfold h1. rewrite length_app. lia. }
  assert (Hattach : attach_name h1 (VRef b) = h2).
  { unfold attach_name, isObject, Set_, constructor_name. rewrite Hb'.
    cbn [okind cname frozen is_array is_callable negb andb props Props.lookup
         truthy strict_eq].
    apply String.eqb_neq in Hn, Ho. rewrite Hn, Ho. reflexivity. }
  set (t0 := Tracker [("root", VRef a)] [] ["root"]).
  set (t1 := Tracker [("root", VRef a); (Str.join "." ["root"; k], VRef b)]
               [VRef b] ["root"; k]).
  (* the member of the instance *)
  assert (Hmarker : ∀ fuel path,
    SerializeJSONProperty (S fuel) 10 (VRef b) MARKER (Enc h2 (Some t1) path)
    = (Enc h2 (Some t1) path, Ok (Some (JStr n)))).
  { intros fuel path. cbn [SerializeJSONProperty].
    erewrite serialize_run; last first.
    { unfold Get, call_toJSON, kind_of. cbn [enc_heap]. rewrite Hb2.
      cbn [ob props Props.lookup okind]. rewrite String.eqb_refl.
      rewrite (replace_string _ _ _ _ _ t1); [|done|done|done].
      cbn [t1 stack keys unwind strict_eq]. rewrite Nat.eqb_refl. reflexivity. }
    reflexivity. }
  (* the member of the root *)
  assert (Hmember : ∀ fuel,
    SerializeJSONProperty (S (S fuel)) 10 (VRef a) k (Enc h1 (Some t0) [a])
    = (Enc h2 (Some t1) [a], Ok (Some (JObj [(MARKER, JStr n)])))).
  { intros fuel. cbn [SerializeJSONProperty].
    erewrite serialize_run; last first.
    { unfold Get, call_toJSON, kind_of. cbn [enc_heap]. rewrite Ha'.
      cbn [props Props.lookup]. rewrite String.eqb_refl. rewrite Hb'.
      cbn [fmap option_fmap option_map okind].
      rewrite (replace_walk _ _ _ _ _ t0); [|done|done|].
      - unfold walk. cbn [t0 stack keys objects unwind fst snd length].
        cbn [Z.leb Z.of_nat Z.compare List.find strict_eq snd].
        rewrite Hab'. cbn [enc_heap enc_path app]. rewrite Hattach. reflexivity.
      - cbn [walkable enc_heap]. by rewrite Hb'. }
    erewrite serialize_value_object;
      [|exact Hb2|done|done|cbn [enc_path]; by intros ->%list_elem_of_singleton].
    cbn [ob props fmap list_fmap fst enc_heap enc_vars enc_path mapM].
    erewrite bind_ok; last first.
    { erewrite bind_ok; [reflexivity|apply Hmarker]. }
    reflexivity. }
  cbn [SerializeJSONProperty].
  erewrite serialize_run; last first.
  { cbn [enc_heap]. unfold h1. rewrite Get_wrapper. fold h1.
    unfold call_toJSON, kind_of. rewrite Ha'.
    cbn [fmap option_fmap option_map okind]. apply replace_root. }
  erewrite serialize_value_object; [|exact Ha'|done|done|apply not_elem_of_nil].
  cbn [props fmap list_fmap fst enc_heap enc_vars enc_path mapM].
  erewrite bind_ok; last first.
  { erewrite bind_ok; [reflexivity|apply Hmember]. }
  cbn [enc_heap]. by rewrite Hh2.
Qed.

End NamedEncode.



(** X10: a constructor whose name is a reserved word makes [parse] throw.
    For a root object whose one member [k] holds an object without
    properties of its own whose constructor has a reserved word for its name
    (as the class of [export default class {}] has), [stringify] with the
    default options succeeds, and [parse] of its text throws a syntax
    error: [revive] builds the source of a function of that name. *)
Theorem reserved_constructor_name_throws (h : heap) (a b : nat) (k n : string) :
  h !! a = Some (Object KObject "Object" false [(k, VRef b)]) →
  h !! b = Some (Object KObject n false []) →
  k ≠ "" → k ≠ MARKER → n ∈ reserved →
  ∃ h1 h2 msg,
    stringify h (VRef a) None
      = (h1, Ok (Some (JObj [(k, JObj [(MARKER, JStr n)])])))
    ∧ parse h1 (JObj [(k, JObj [(MARKER, JStr n)])]) = (h2, Throw (SyntaxError msg)).
Proof.
  intros Ha Hb Hk Hm Hres.
  assert (Hall : forallb (λ n, negb (String.eqb n "") && negb (String.eqb n "Object")
                               && negb (test dateFormat n) && negb (is_identifier n))
                   reserved = true) by (vm_compute; reflexivity).
  rewrite forallb_forall in Hall.
  apply list_elem_of_In, Hall in Hres.
  repeat (apply andb_true_iff in Hres as [Hres ?]).
  repeat match goal with H : negb _ = true |- _ => apply negb_true_iff in H end.
  assert (Hn : n ≠ "") by (by apply String.eqb_neq).
  assert (Ho : n ≠ "Object") by (by apply String.eqb_neq).
  do 3 eexists. split.
  - by apply stringify_named.
  - rewrite parse_named by done.
    match goal with H : is_identifier n = false |- _ => rewrite H end. reflexivity.
Qed.

Lemma reserved_constructor_name_throws_witness :
  let h := [Object KObject "Object" false [("view", VRef 1)];
            Object KObject "default" false []] in
  ∃ h1 h2 msg,
    stringify h (VRef 0) None
      = (h1, Ok (Some (JObj [("view", JObj [(MARKER, JStr "default")])])))
    ∧ parse h1 (JObj [("view", JObj [(MARKER, JStr "default")])])
      = (h2, Throw (SyntaxError msg)).
Proof.
  intros h. apply (reserved_constructor_name_throws h 0 1 "view" "default").
  - reflexivity.
  - reflexivity.
  - vm_compute. discriminate.
  - vm_compute. discriminate.
  - apply (bool_decide_eq_true_1 _). vm_compute. reflexivity.
Defined.
(** ** The empty key below the root *)

Section EmptyKey.

Implicit Types (h : heap) (k : string) (o : object).

(** [SerializeJSONObject] on an object that is being serialized. *)
Lemma serialize_value_cycle recur a o (st : enc) :
  enc_heap st !! a = Some o → is_callable (okind o) = false → a ∈ enc_path st →
  serialize_value recur (VRef a) st
  = (st, Throw (TypeError "Converting circular structure to JSON")).
Proof.
  intros Ha Hc Hin. unfold serialize_value.
  unfold mbind at 1, M_bind at 1, gets at 1. rewrite Ha, Hc.
  erewrite bind_throw; [reflexivity|].
  unfold enter, mbind, M_bind, gets. by rewrite bool_decide_true.
Qed.

End EmptyKey.

(** X11: a cycle through the empty key is not encoded. For an object
    whose one member, under the empty key, is the object itself, [stringify]
    throws the error of [JSON.stringify] for circular structures: on the
    empty key [replace] takes the call for the root call and returns the
    value as it is. The heap is left as it was, the wrapper object of
    [JSON.stringify] apart. *)
Theorem empty_key_cycle_throws (h : heap) (a : nat) (name : string) (fr : bool)
    (maxDepth : option Z) :
  h !! a = Some (Object KObject name fr [("", VRef a)]) →
  stringify h (VRef a) maxDepth
  = (h ++ [wrapper_of (VRef a)],
     Throw (TypeError "Converting circular structure to JSON")).
Proof.
  intros Ha.
  pose proof (lookup_lt_Some _ _ _ Ha) as Hla.
  unfold stringify, JSON_stringify, alloc.
  rewrite length_app. cbn [length]. rewrite Nat.add_1_r.
  remember (S (S (length h))) as gas eqn:Hgas.
  destruct gas as [|[|gas]]; [lia..|]. clear Hgas.
  pose proof (lookup_app_l_Some _ [wrapper_of (VRef a)] _ _ Ha) as Ha'.
  set (h1 := h ++ [wrapper_of (VRef a)]) in *.
  set (t0 := Tracker [("root", VRef a)] [] ["root"]).
  assert (Hkind : call_toJSON h1 (VRef a) = VRef a).
  { unfold call_toJSON, kind_of. by rewrite Ha'. }
  assert (Hself : SerializeJSONProperty (S gas) (depth_option maxDepth) (VRef a) ""
                    (Enc h1 (Some t0) [a])
                  = (Enc h1 (Some t0) [a],
                     Throw (TypeError "Converting circular structure to JSON"))).
  { cbn [SerializeJSONProperty].
    erewrite serialize_run; last first.
    { cbn [enc_heap].
      replace (Get h1 (VRef a) "") with (VRef a)
        by (unfold Get; by rewrite Ha').
      rewrite Hkind. apply replace_root. }
    cbn [enc_heap enc_path].
    eapply serialize_value_cycle; [exact Ha'|done|].
    cbn [enc_path]. by apply list_elem_of_singleton. }
  change (SerializeJSONProperty (S (S gas)))
    with (fun d => serialize (SerializeJSONProperty (S gas) d) d).
  cbv beta.
  erewrite serialize_run; last first.
  { cbn [enc_heap]. unfold h1. rewrite Get_wrapper. fold h1.
    rewrite Hkind. apply replace_root. }
  erewrite serialize_value_object; [|exact Ha'|done|done|apply not_elem_of_nil].
  cbn [props fmap list_fmap fst enc_heap enc_vars enc_path].
  fold t0.
  assert (Hm : mapM (fun k => e ← SerializeJSONProperty (S gas) (depth_option maxDepth)
                                   (VRef a) k; mret (k, e)) [""]
                 (Enc h1 (Some t0) [a])
               = (Enc h1 (Some t0) [a],
                  Throw (TypeError "Converting circular structure to JSON"))).
  { cbn [mapM]. erewrite bind_throw; [reflexivity|].
    erewrite bind_throw; [reflexivity|]. exact Hself. }
  by rewrite Hm.
Qed.

Lemma empty_key_cycle_throws_witness :
  stringify [Object KObject "Object" false [("", VRef 0)]] (VRef 0) None
  = ([Object KObject "Object" false [("", VRef 0)]] ++ [wrapper_of (VRef 0)],
     Throw (TypeError "Converting circular structure to JSON")).
Proof.
  apply (empty_key_cycle_throws [Object KObject "Object" false [("", VRef 0)]] 0
           "Object" false None).
  reflexivity.
Defined.
(** ** An object met twice *)

Section Shared.

Implicit Types (h l : heap) (k ka kb : string) (o w z : object).

#[local] Arguments get : simpl never.
#[local] Arguments Str.replace : simpl never.
#[local] Arguments String.eqb : simpl nomatch.

(** [get] of lodash on a key that the object has. *)
Lemma get_own_key h a o k v :
  h !! a = Some o → Props.lookup k (props o) = Some v →
  get h (VRef a) k = v.
Proof.
  intros Ha Hk. unfold get, castPath, isKey, has_property. cbn [nullish].
  rewrite Ha, Hk. rewrite bool_decide_true by done.
  rewrite orb_true_r. cbn [baseGet nullish]. unfold Get. by rewrite Ha, Hk.
Qed.

Lemma eqb_root_dot k : String.eqb ("root." +:+ k) "root" = false.
Proof. by destruct k. Qed.

(** [parse] of the text of [{ ka: {}, kb: '_duplicate_root.ka' }]. *)
Lemma parse_shared h ka kb :
  ka ≠ kb → ka ≠ "" → kb ≠ "" → ka ≠ MARKER → kb ≠ MARKER →
  parse h (JObj [(ka, JObj []); (kb, JStr ("_duplicate_" +:+ "root." +:+ ka))])
  = (h ++ [Object KObject "Object" false [];
           Object KObject "Object" false [(ka, VRef (length h)); (kb, VRef (length h))];
           wrapper_of (VRef (S (length h)))],
     Ok (VRef (S (length h)))).
Proof.
  intros Hab Ha Hb Hma Hmb.
  assert (Hba : String.eqb kb ka = false) by (by apply String.eqb_neq).
  apply String.eqb_neq in Hab, Ha, Hb, Hma, Hmb.
  unfold parse, JSON_parse. cbn [build fold_left Props.set fst snd alloc].
  rewrite Hab.
  rewrite !length_app. cbn [length height foldr]. rewrite !Nat.add_1_r.
  rewrite <- !app_assoc. cbn [app].
  cbn [InternalizeJSONProperty Nat.max].
  set (dup := "_duplicate_" +:+ "root." +:+ ka).
  set (c := Object KObject "Object" false []).
  set (w := wrapper_of (VRef (S (length h)))).
  set (r0 := Object KObject "Object" false [(ka, VRef (length h)); (kb, VStr dup)]).
  set (r1 := Object KObject "Object" false [(ka, VRef (length h)); (kb, VNull)]).
  set (r2 := Object KObject "Object" false
               [(ka, VRef (length h)); (kb, VRef (length h))]).
  set (rf := Ref kb (VRef (S (length h))) ("root." +:+ ka)).
  (* the member [ka] *)
  assert (Hka : ∀ recur,
    internalize recur (VRef (S (length h))) ka (Dec (h ++ [c; r0; w]) [] VUndef)
    = (Dec (h ++ [c; r0; w]) [] VUndef, Ok (VRef (length h)))).
  { intros recur. unfold internalize, internalize_members, revive, restore_refs,
      revive_value, mbind, M_bind, gets, mret, M_ret, Get, isObject.
    cbn [dec_heap]. rewrite lookup_fresh_S. cbn [r0 props Props.lookup].
    rewrite String.eqb_refl, !lookup_fresh, Ha, Hma. cbn.
    rewrite ?lookup_fresh. reflexivity. }
  (* the member [kb] *)
  assert (Hkb : ∀ recur,
    internalize recur (VRef (S (length h))) kb (Dec (h ++ [c; r0; w]) [] VUndef)
    = (Dec (h ++ [c; r0; w]) [rf] VUndef, Ok VNull)).
  { intros recur. unfold internalize, internalize_members, revive, restore_refs,
      revive_value, mbind, M_bind, gets, mret, M_ret, Get, set_refs, modify.
    cbn [dec_heap]. rewrite lookup_fresh_S. cbn [r0 props Props.lookup].
    rewrite Hab, String.eqb_refl, Hb, Hmb.
    change (Str.startsWith dup "_function_") with false.
    change (Str.startsWith dup "_regexp_") with false.
    change (Str.startsWith dup "_date_") with false.
    assert (Hst : Str.startsWith dup "_duplicate_" = true) by apply prefix_refl_append.
    rewrite Hst. cbn [refs dec_heap root app]. unfold dup.
    by rewrite replace_prefix. }
  assert (Hput1 : put_element (S (length h)) ka (VRef (length h))
                    (Dec (h ++ [c; r0; w]) [] VUndef)
                  = (Dec (h ++ [c; r0; w]) [] VUndef, Ok tt)).
  { unfold put_element, mbind, M_bind, gets, set_heap, modify, write.
    cbn [dec_heap]. rewrite lookup_fresh_S. cbn [r0 frozen okind props Props.set set_props cname].
    rewrite String.eqb_refl, insert_fresh_S. reflexivity. }
  assert (Hput2 : put_element (S (length h)) kb VNull
                    (Dec (h ++ [c; r0; w]) [rf] VUndef)
                  = (Dec (h ++ [c; r1; w]) [rf] VUndef, Ok tt)).
  { unfold put_element, mbind, M_bind, gets, set_heap, modify, write.
    cbn [dec_heap]. rewrite lookup_fresh_S. cbn [r0 frozen okind props Props.set set_props cname].
    rewrite Hab, String.eqb_refl, insert_fresh_S. reflexivity. }
  (* the root call *)
  assert (Hres :
    restore rf (Dec (h ++ [c; r1; w]) [rf] (VRef (S (length h))))
    = (Dec (h ++ [c; r2; w]) [rf] (VRef (S (length h))), Ok tt)).
  { unfold restore, mbind, M_bind, gets.
    cbn [dec_heap root rf replacement container target].
    rewrite eqb_root_dot, replace_prefix.
    rewrite (get_own_key _ _ r1 ka (VRef (length h))); [|apply lookup_fresh_S|];
      last first.
    { cbn [r1 props Props.lookup]. by rewrite String.eqb_refl. }
    unfold assign, mbind, M_bind, gets, Set_, set_heap, modify, write.
    cbn [dec_heap]. rewrite lookup_fresh_S.
    cbn [r1 frozen okind props Props.set set_props cname refs root].
    rewrite Hab, String.eqb_refl, insert_fresh_S. reflexivity. }
  assert (Hroot :
    revive (VRef (S (S (length h)))) "" (VRef (S (length h)))
      (Dec (h ++ [c; r1; w]) [rf] VUndef)
    = (Dec (h ++ [c; r2; w]) [rf] (VRef (S (length h))), Ok (VRef (S (length h))))).
  { unfold revive, restore_refs. rewrite String.eqb_refl.
    erewrite bind_ok; last first.
    { erewrite bind_ok; [|reflexivity].
      erewrite bind_ok; [|reflexivity].
      erewrite bind_ok; [reflexivity|].
      cbn [refs mapM]. erewrite bind_ok; [|apply Hres]. reflexivity. }
    unfold revive_value. change (String.eqb "" MARKER) with false. cbv iota.
    unfold mbind, M_bind, gets, mret, M_ret, isObject, Get. cbn [dec_heap].
    rewrite !lookup_fresh_S.
    cbn [r2 okind props Props.lookup is_array is_callable negb andb].
    rewrite Hma, Hmb. reflexivity. }
  unfold internalize at 1. unfold mbind at 1, M_bind at 1, gets at 1. cbn [dec_heap].
  assert (HGetW : Get (h ++ [c; r0; w]) (VRef (S (S (length h)))) "" = VRef (S (length h))).
  { unfold Get. by rewrite lookup_fresh_SS. }
  rewrite !HGetW.
  erewrite bind_ok; last first.
  { unfold internalize_members. unfold mbind at 1, M_bind at 1, gets at 1. cbn [dec_heap].
    rewrite lookup_fresh_S. cbn [r0 okind props fmap list_fmap fst mapM].
    erewrite bind_ok; [reflexivity|].
    erewrite bind_ok; last first.
    { erewrite bind_ok; [apply Hput1|apply Hka]. }
    erewrite bind_ok; last first.
    { erewrite bind_ok; last first.
      { erewrite bind_ok; [apply Hput2|apply Hkb]. }
      reflexivity. }
    reflexivity. }
  cbv beta. rewrite Hroot. reflexivity.
Qed.

End Shared.

Section SharedEncode.

Implicit Types (h l : heap) (k ka kb : string) (o w z : object).

(** [stringify] of [{ ka: o, kb: o }] for an empty object [o]. *)
Lemma stringify_shared h a b ka kb :
  h !! a = Some (Object KObject "Object" false [(ka, VRef b); (kb, VRef b)]) →
  h !! b = Some (Object KObject "Object" false []) →
  ka ≠ kb → ka ≠ "" → kb ≠ "" →
  stringify h (VRef a) None
  = (h ++ [wrapper_of (VRef a)],
     Ok (Some (JObj [(ka, JObj []);
                     (kb, JStr ("_duplicate_" +:+ "root." +:+ ka))]))).
Proof.
  intros Ha Hb Hab Hka Hkb.
  assert (Hne : a ≠ b) by (intros ->; congruence).
  assert (Hne' : Nat.eqb a b = false) by (by apply Nat.eqb_neq).
  apply String.eqb_neq in Hab as Hab'.
  pose proof (lookup_lt_Some _ _ _ Ha) as Hla.
  unfold stringify, JSON_stringify, alloc, depth_option.
  rewrite length_app. cbn [length]. rewrite Nat.add_1_r.
  remember (S (S (length h))) as gas eqn:Hgas.
  destruct gas as [|[|gas]]; [lia..|]. clear Hgas.
  pose proof (lookup_app_l_Some _ [wrapper_of (VRef a)] _ _ Ha) as Ha'.
  pose proof (lookup_app_l_Some _ [wrapper_of (VRef a)] _ _ Hb) as Hb'.
  set (h1 := h ++ [wrapper_of (VRef a)]) in *.
  assert (Hattach : attach_name h1 (VRef b) = h1).
  { by apply (attach_name_Object _ _ _ Hb'). }
  assert (Hwalk : walkable h1 (VRef b) = true).
  { cbn [walkable]. by rewrite Hb'. }
  set (t0 := Tracker [("root", VRef a)] [] ["root"]).
  set (t1 := Tracker [("root", VRef a); ("root." +:+ ka, VRef b)] [VRef b] ["root"; ka]).
  set (t2 := Tracker [("root", VRef a); ("root." +:+ ka, VRef b)] [] ["root"]).
  assert (Hfirst :
    SerializeJSONProperty (S gas) 10 (VRef a) ka (Enc h1 (Some t0) [a])
    = (Enc h1 (Some t1) [a], Ok (Some (JObj [])))).
  { cbn [SerializeJSONProperty].
    erewrite serialize_run; last first.
    { unfold Get, call_toJSON, kind_of. cbn [enc_heap]. rewrite Ha'.
      cbn [props Props.lookup]. rewrite String.eqb_refl. rewrite Hb'.
      cbn [fmap option_fmap option_map okind].
      rewrite (replace_walk _ _ _ _ _ t0); [|done|done|exact Hwalk].
      unfold walk. cbn [t0 stack keys objects unwind fst snd length].
      cbn [Z.leb Z.of_nat Z.compare List.find strict_eq snd].
      rewrite Hne'. cbn [enc_heap enc_path app]. rewrite Hattach. reflexivity. }
    erewrite serialize_value_object;
      [|exact Hb'|done|done|cbn [enc_path]; by intros ->%list_elem_of_singleton].
    reflexivity. }
  assert (Hsecond :
    SerializeJSONProperty (S gas) 10 (VRef a) kb (Enc h1 (Some t1) [a])
    = (Enc h1 (Some t2) [a],
       Ok (Some (JStr ("_duplicate_" +:+ "root." +:+ ka))))).
  { cbn [SerializeJSONProperty].
    erewrite serialize_run; last first.
    { unfold Get, call_toJSON, kind_of. cbn [enc_heap]. rewrite Ha'.
      cbn [props Props.lookup]. rewrite Hab', String.eqb_refl. rewrite Hb'.
      cbn [fmap option_fmap option_map okind].
      rewrite (replace_walk _ _ _ _ _ t1); [|done|done|exact Hwalk].
      unfold walk. cbn [t1 stack keys objects unwind strict_eq]. rewrite Hne'.
      cbn [removelast unwind fst snd length].
      cbn [Z.leb Z.of_nat Z.compare List.find strict_eq snd].
      rewrite Hne', Nat.eqb_refl. reflexivity. }
    reflexivity. }
  change (SerializeJSONProperty (S (S gas)))
    with (fun d => serialize (SerializeJSONProperty (S gas) d) d).
  cbv beta.
  erewrite serialize_run; last first.
  { cbn [enc_heap]. unfold h1. rewrite Get_wrapper. fold h1.
    unfold call_toJSON, kind_of. rewrite Ha'.
    cbn [fmap option_fmap option_map okind]. apply replace_root. }
  erewrite serialize_value_object; [|exact Ha'|done|done|apply not_elem_of_nil].
  cbn [props fmap list_fmap fst enc_heap enc_vars enc_path].
  fold t0.
  assert (Hm : mapM (fun k => e ← SerializeJSONProperty (S gas) 10 (VRef a) k; mret (k, e))
                 [ka; kb] (Enc h1 (Some t0) [a])
               = (Enc h1 (Some t2) [a],
                  Ok [(ka, Some (JObj []));
                      (kb, Some (JStr ("_duplicate_" +:+ "root." +:+ ka)))])).
  { cbn [mapM].
    erewrite bind_ok; last first.
    { erewrite bind_ok; [reflexivity|apply Hfirst]. }
    erewrite bind_ok; last first.
    { erewrite bind_ok; last first.
      { erewrite bind_ok; [reflexivity|apply Hsecond]. }
      reflexivity. }
    reflexivity. }
  by rewrite Hm.
Qed.

End SharedEncode.

(** X4: an object met twice comes back as one object. For a root object
    with two members [ka] and [kb] (different keys, neither the empty key
    nor [_constructor-name_]) that hold the same empty object, [stringify]
    with the default options writes the object under [ka] and the marker
    [_duplicate_root.ka] under [kb], and [parse] of that text yields an
    object whose [ka] and [kb] hold one and the same new object. *)
Theorem shared_reference_preserved (h : heap) (a b : nat) (ka kb : string) :
  h !! a = Some (Object KObject "Object" false [(ka, VRef b); (kb, VRef b)]) →
  h !! b = Some (Object KObject "Object" false []) →
  ka ≠ kb → ka ≠ "" → kb ≠ "" → ka ≠ MARKER → kb ≠ MARKER →
  ∃ h1 j h2 r c,
    stringify h (VRef a) None = (h1, Ok (Some j))
    ∧ j = JObj [(ka, JObj []); (kb, JStr ("_duplicate_" +:+ "root." +:+ ka))]
    ∧ parse h1 j = (h2, Ok (VRef r))
    ∧ Get h2 (VRef r) ka = VRef c
    ∧ Get h2 (VRef r) kb = VRef c
    ∧ h2 !! c = Some (Object KObject "Object" false [])
    ∧ h !! c = None.
Proof.
  intros Ha Hb Hab Hka Hkb Hma Hmb.
  set (h1 := h ++ [wrapper_of (VRef a)]).
  exists h1. eexists _, _, (S (length h1)), (length h1). split_and!.
  - by apply (stringify_shared h a b).
  - reflexivity.
  - by apply parse_shared.
  - unfold Get. rewrite lookup_fresh_S. cbn [props Props.lookup].
    by rewrite String.eqb_refl.
  - unfold Get. rewrite lookup_fresh_S. cbn [props Props.lookup].
    apply String.eqb_neq in Hab. by rewrite Hab, String.eqb_refl.
  - apply lookup_fresh.
  - apply lookup_ge_None. unfold h1. rewrite length_app. lia.
Qed.

Lemma shared_reference_preserved_witness :
  let h := [Object KObject "Object" false [("first", VRef 1); ("second", VRef 1)];
            Object KObject "Object" false []] in
  ∃ h1 j h2 r c,
    stringify h (VRef 0) None = (h1, Ok (Some j))
    ∧ j = JObj [("first", JObj []);
                ("second", JStr ("_duplicate_" +:+ "root." +:+ "first"))]
    ∧ parse h1 j = (h2, Ok (VRef r))
    ∧ Get h2 (VRef r) "first" = VRef c
    ∧ Get h2 (VRef r) "second" = VRef c
    ∧ h2 !! c = Some (Object KObject "Object" false [])
    ∧ h !! c = None.
Proof.
  intros h. apply (shared_reference_preserved h 0 1 "first" "second").
  - reflexivity.
  - reflexivity.
  - vm_compute. discriminate.
  - vm_compute. discriminate.
  - vm_compute. discriminate.
  - vm_compute. discriminate.
  - vm_compute. discriminate.
Defined.
(** ** The depth limit *)

Section Depth.

Implicit Types (h l : heap) (k : string) (o w z : object) (x : value).


End Depth.



(** Under the key [constructor] the value is the constructor that [replace]
    reads: when it has a [name], the name is attached to the object that
    holds it, and written as one more member. *)
Example own_constructor_key_attached :
  let h := [Object KObject "Object" false [("a", VRef 1)];
            Object KObject "Object" false [("constructor", VRef 2)];
            Object KObject "Object" false [("name", VStr "Evil")]] in
  stringify h (VRef 0) (Some 1%Z)
  = ([Object KObject "Object" false [("a", VRef 1)];
      Object KObject "Object" false [("constructor", VRef 2); (MARKER, VStr "Evil")];
      Object KObject "Object" false [("name", VStr "Evil")];
      wrapper_of (VRef 0)],
     Ok (Some (JObj [("a", JObj [("constructor", JStr "[Object]");
                                 (MARKER, JStr "Evil")])]))).
Proof. vm_compute. reflexivity. Qed.
(** ** More on [isJSON] *)

(** X19: [isJSON] refuses every text with a line terminator, wherever it
    stands: a JSON text printed on several lines is not recognised. *)
Theorem isJSON_single_line (text : string) :
  Spec.all Str.is_dot text = false → isJSON text = None.
Proof.
  intros Hdot. destruct (isJSON text) as [m|] eqn:E; [|done]. exfalso.
  assert (Hs : is_Some (isJSON text)) by (by rewrite E).
  apply isJSON_accepts in Hs as (c1 & mid & c2 & -> & H1 & Hmid & H2).
  cbn [Spec.all] in Hdot. rewrite all_append, Hmid in Hdot. cbn [Spec.all] in Hdot.
  assert (Hc1 : Str.is_dot c1 = true).
  { unfold Str.one_of in H1. cbn [list_ascii_of_string existsb] in H1.
    repeat (apply orb_true_iff in H1 as [H1|H1]); try done;
      by apply Ascii.eqb_eq in H1 as ->. }
  assert (Hc2 : Str.is_dot c2 = true).
  { unfold Str.one_of in H2. cbn [list_ascii_of_string existsb] in H2.
    repeat (apply orb_true_iff in H2 as [H2|H2]); try done;
      by apply Ascii.eqb_eq in H2 as ->. }
  by rewrite Hc1, Hc2 in Hdot.
Qed.

Lemma isJSON_single_line_witness :
  isJSON ("{" +:+ String Str.LF "}") = None.
Proof.
  apply (isJSON_single_line ("{" +:+ String Str.LF "}")). vm_compute. reflexivity.
Defined.



(** ** The variables of the replacer *)

Section Tracker.

Implicit Types (t : tracker) (st : enc) (v this : value).

Lemma length_removelast {A} (l : list A) : length (removelast l) = pred (length l).
Proof.
  induction l as [|x [|y l] IH]; [done..|]. cbn [removelast length] in *. by rewrite IH.
Qed.

Lemma unwind_ok this stk : ∀ ks,
  length ks = S (length stk) →
  length (unwind this stk ks).2 = S (length (unwind this stk ks).1).
Proof.
  induction stk as [|top stk IH]; intros ks Hks; [done|].
  cbn [unwind]. destruct (strict_eq this top); [done|].
  apply IH. rewrite length_removelast, Hks. done.
Qed.

End Tracker.

(** X13: [replace] keeps its variables in step. Once the root call has
    been made, a call of [replace] does not throw; it leaves [keys] one
    longer than [stack], as the root call sets them, and under a key other
    than the empty one it only adds to [objects]: the entries recorded
    before stay, in their order. *)
Theorem replace_keeps_tracker (depth : Z) (this : value) (key : string) (v : value)
    (st : enc) (t : tracker) :
  enc_vars st = Some t → tracker_ok t →
  ∃ st' w t',
    replace depth this key v st = (st', Ok w)
    ∧ enc_vars st' = Some t' ∧ tracker_ok t'
    ∧ (key ≠ "" → objects t `prefix_of` objects t').
Proof.
  intros Ht Hok. unfold replace.
  destruct (String.eqb_spec key "") as [->|Hkey].
  { eexists _, _, _. split; [reflexivity|]. by split_and!. }
  unfold mbind, M_bind, gets. rewrite Ht.
  pose proof (unwind_ok this (stack t) (keys t) Hok) as Hun.
  destruct (unwind this (stack t) (keys t)) as [stk ks]. cbn [fst snd] in Hun.
  unfold put_vars, put_heap, modify, mret, M_ret. cbn [enc_heap enc_vars enc_path].
  assert (Hsame : tracker_ok (Tracker (objects t) stk ks)) by done.
  assert (Hpush : tracker_ok (Tracker (objects t ++ [(Str.join "." (ks ++ [key]), v)])
                                (v :: stk) (ks ++ [key]))).
  { unfold tracker_ok. cbn [keys stack length]. rewrite length_app. cbn [length]. lia. }
  repeat case_match; subst; eexists _, _, _;
    (split; [reflexivity|]); cbn [enc_vars]; (split; [reflexivity|]);
    (split; [assumption|]); intros _; cbn [objects];
    first [done|by apply prefix_app_r].
Qed.

Lemma replace_keeps_tracker_witness :
  ∃ st' w t',
    replace 10 (VRef 0) "k" (VBool true)
      (Enc [] (Some (Tracker [("root", VRef 0)] [] ["root"])) [0]) = (st', Ok w)
    ∧ enc_vars st' = Some t' ∧ tracker_ok t'
    ∧ ("k" ≠ "" → [("root", VRef 0)] `prefix_of` objects t').
Proof.
  apply (replace_keeps_tracker 10 (VRef 0) "k" (VBool true)
           (Enc [] (Some (Tracker [("root", VRef 0)] [] ["root"])) [0])
           (Tracker [("root", VRef 0)] [] ["root"])).
  - reflexivity.
  - reflexivity.
Defined.
(** ** Texts without tags *)

Section PlainText.

Implicit Types (h : heap) (e j : json).

Lemma plain_decodable e : plain e = true → decodable e = true.
Proof.
  induction e as [|b|f|s|l IH|l IH] using json_ind'; cbn [plain decodable]; try done.
  - intros Hs. unfold decodable_string. by rewrite Hs.
  - rewrite !forallb_forall. intros Hp x Hx.
    rewrite Forall_forall in IH. apply IH; [by apply list_elem_of_In|by apply Hp].
  - intros [Hp Hnd]%andb_true_iff. rewrite Hnd, andb_true_r.
    rewrite forallb_forall in Hp. apply forallb_forall. intros m Hm.
    rewrite Forall_forall in IH.
    specialize (Hp m Hm). apply andb_true_iff in Hp as [Hk%member_key_plain Hv].
    rewrite (plain_key_decode _ Hk). apply IH; [by apply list_elem_of_In|done].
Qed.

Lemma plain_no_marker e : plain e = true → marker_path e = None.
Proof. destruct e; try done. apply plain_string_not_marker. Qed.

End PlainText.

(** X3: on a text without tags [parse] is [JSON.parse]. For a text made
    of finite numbers, strings that are no tag, booleans, [null], arrays and
    objects with distinct keys (no empty key, no [_constructor-name_], no
    dot or bracket in a key, no array index, which the engine would list
    first, and none of the names that an object inherits), [parse] returns
    a value with the structure of the text: the primitives of the text, an
    array for an array and an ordinary object for an object, member by
    member in the order of the text. *)
Theorem parse_plain_text (h : heap) (e : json) :
  plain e = true → ∃ h2 v, parse h e = (h2, Ok v) ∧ shape h2 v e.
Proof.
  intros Hp.
  destruct (decode_root [] h e (plain_decodable _ Hp) (plain_no_marker _ Hp))
    as (h2 & v & all & lo & hi & w & Hparse & Hlaid).
  { intros _ p x Hin. by apply elem_of_nil in Hin. }
  { destruct (plain_members _ Hp) as [Hpm _].
    apply Forall_fmap. eapply Forall_impl; [exact Hpm|]. by intros m [Hm _]. }
  exists h2, v. split; [done|].
  eapply (laid_shape eq); [| |exact Hlaid|reflexivity|exact Hp].
  - intros j' e' -> He. split_and!; [done..|].
    apply Forall2_same_length_lookup_2; [done|].
    intros i x y Hx Hy. by simplify_eq.
  - clear. intros holder k e v j [_ H2] He <- Hp.
    rewrite (plain_no_marker _ Hp) in H2. rewrite (H2 He).
    destruct j; try done; cbn [leaf_value plain] in *; constructor.
    by apply eqb_finite.
Qed.

Lemma parse_plain_text_witness :
  let e := JObj [("name", JStr "telejson");
                 ("tags", JArr [JStr "a"; JNull; JBool true]);
                 ("n", JNum 2)] in
  ∃ h2 v, parse [] e = (h2, Ok v) ∧ shape h2 v e.
Proof.
  intros e. apply (parse_plain_text [] e). vm_compute. reflexivity.
Defined.
(** ** Strings that collide with tags *)

Section Collide.

Implicit Types (h : heap) (k s : string) (x v : value).

#[local] Arguments revive_value : simpl never.



End Collide.



(** X22: a symbol without a description comes back with the empty
    description. For a root object whose one member [k] holds a symbol that
    was made without a description, [stringify] with the default options
    writes the bare tag [_symbol_], and [parse] of that text yields an object
    whose [k] is a new symbol with the empty string for its description:
    its identity is none of the heap of the caller, and it is not [===] to
    the symbol that was written. *)
Theorem symbol_without_description (h : heap) (a id : nat) (k : string) :
  h !! a = Some (Object KObject "Object" false [(k, VSym id None)]) →
  (id < length h)%nat → k ≠ "" → k ≠ MARKER →
  ∃ h1 h2 b id',
    stringify h (VRef a) None = (h1, Ok (Some (JObj [(k, JStr "_symbol_")])))
    ∧ parse h1 (JObj [(k, JStr "_symbol_")]) = (h2, Ok (VRef b))
    ∧ Get h2 (VRef b) k = VSym id' (Some "")
    ∧ (length h ≤ id')%nat
    ∧ strict_eq (VSym id' (Some "")) (VSym id None) = false.
Proof.
  intros Ha Hid Hk Hm.
  set (h1 := h ++ [wrapper_of (VRef a)]).
  exists h1,
    (h1 ++ [Object KObject "Object" false (member k (VSym (S (S (length h1))) (Some "")));
            wrapper_of (VRef (length h1))] ++ [Object KObject "Symbol" true []]),
    (length h1), (S (S (length h1))).
  split_and!.
  - apply (stringify_single_string h a k (VSym id None)); [done..|].
    intros st Hst [t Ht].
    change (call_toJSON (enc_heap st) (VSym id None)) with (VSym id None).
    apply String.eqb_neq in Hk.
    unfold replace. rewrite Hk. unfold mbind, M_bind, gets. rewrite Ht.
    destruct (unwind (VRef a) (stack t) (keys t)) as [stk ks].
    unfold put_vars, modify. cbn [enc_heap enc_vars enc_path kind_of].
    by eexists.
  - apply parse_single_string; [done..|].
    apply String.eqb_neq in Hm.
    unfold revive_value. rewrite Hm.
    unfold mbind at 1, M_bind at 1, gets at 1.
    change (Str.startsWith "_symbol_" "_function_") with false.
    change (Str.startsWith "_symbol_" "_regexp_") with false.
    change (Str.startsWith "_symbol_" "_date_") with false.
    change (Str.startsWith "_symbol_" "_duplicate_") with false.
    change (Str.startsWith "_symbol_" "_symbol_") with true.
    change (Str.replace "_symbol_" "" "_symbol_") with "".
    cbv iota.
    unfold new_Symbol, mbind, M_bind, gets, alloc, set_heap, modify, mret, M_ret.
    cbn [dec_heap refs root]. rewrite !length_app. cbn [length].
    by rewrite Nat.add_comm.
  - unfold Get. cbn [app]. rewrite lookup_fresh. cbn [props member Props.lookup].
    by rewrite String.eqb_refl.
  - unfold h1. rewrite length_app. lia.
  - cbn [strict_eq]. apply Nat.eqb_neq. unfold h1. rewrite length_app. lia.
Qed.

Lemma symbol_without_description_witness :
  let h := [Object KObject "Symbol" true [];
            Object KObject "Object" false [("s", VSym 0 None)]] in
  ∃ h1 h2 b id',
    stringify h (VRef 1) None = (h1, Ok (Some (JObj [("s", JStr "_symbol_")])))
    ∧ parse h1 (JObj [("s", JStr "_symbol_")]) = (h2, Ok (VRef b))
    ∧ Get h2 (VRef b) "s" = VSym id' (Some "")
    ∧ (length h ≤ id')%nat
    ∧ strict_eq (VSym id' (Some "")) (VSym 0 None) = false.
Proof.
  intros h. apply (symbol_without_description h 1 0 "s").
  - reflexivity.
  - cbn. lia.
  - vm_compute. discriminate.
  - vm_compute. discriminate.
Defined.

(** X23: a string that reads as a regular expression tag with flags that
    [RegExp] refuses makes [parse] throw. For a root object whose one member
    [k] holds the string [_regexp_], flags without a bar, a bar and a source
    on one line, where the flags are not letters of [dgimsuvy] each at most
    once, or have [u] together with [v], [stringify] with the default options writes the string as it is,
    and [parse] of that text throws a syntax error. *)
Theorem regexp_string_bad_flags_throws (h : heap) (a : nat) (k flags source : string) :
  h !! a = Some (Object KObject "Object" false
                   [(k, VStr ("_regexp_" +:+ flags +:+ "|" +:+ source))]) →
  k ≠ "" → k ≠ MARKER →
  Spec.all (Str.none_of "|") flags = true → Spec.all Str.is_dot source = true →
  valid_flags flags = false →
  ∃ h1 h2 msg,
    stringify h (VRef a) None
      = (h1, Ok (Some (JObj [(k, JStr ("_regexp_" +:+ flags +:+ "|" +:+ source))])))
    ∧ parse h1 (JObj [(k, JStr ("_regexp_" +:+ flags +:+ "|" +:+ source))])
      = (h2, Throw (SyntaxError msg)).
Proof.
  intros Ha Hk Hm Hflags Hsource Hbad.
  set (s := "_regexp_" +:+ flags +:+ "|" +:+ source) in *.
  set (h1 := h ++ [wrapper_of (VRef a)]).
  exists h1. do 2 eexists. split.
  - apply (stringify_single_string h a k (VStr s)); [done..|].
    intros st Hst [t Ht]. eexists.
    change (call_toJSON (enc_heap st) (VStr s)) with (VStr s).
    apply replace_string; [done..|]. apply test_dateFormat_underscore.
  - apply parse_single_throw; [done|].
    apply String.eqb_neq in Hm.
    unfold revive_value. rewrite Hm.
    unfold mbind at 1, M_bind at 1, gets at 1.
    change (Str.startsWith s "_function_") with false.
    assert (Hst : Str.startsWith s "_regexp_" = true) by apply prefix_refl_append.
    rewrite Hst. unfold regexp_re, s. rewrite match_two_fields by done.
    unfold new_RegExp. rewrite Hbad. reflexivity.
Qed.

Lemma regexp_string_bad_flags_throws_witness :
  let h := [Object KObject "Object" false [("note", VStr "_regexp_ tags look like a|b")]] in
  ∃ h1 h2 msg,
    stringify h (VRef 0) None
      = (h1, Ok (Some (JObj [("note", JStr ("_regexp_" +:+ " tags look like a"
                                           +:+ "|" +:+ "b"))])))
    ∧ parse h1 (JObj [("note", JStr ("_regexp_" +:+ " tags look like a" +:+ "|" +:+ "b"))])
      = (h2, Throw (SyntaxError msg)).
Proof.
  intros h.
  apply (regexp_string_bad_flags_throws h 0 "note" " tags look like a" "b").
  - reflexivity.
  - vm_compute. discriminate.
  - vm_compute. discriminate.
  - vm_compute. reflexivity.
  - vm_compute. reflexivity.
  - vm_compute. reflexivity.
Defined.
(** ** A root object with one member, again *)

Section SingleMore.

Implicit Types (h l : heap) (k n : string) (o w z : object) (x : value).

#[local] Arguments get : simpl never.
#[local] Arguments is_identifier : simpl never.

Ltac eval_single :=
  repeat first
    [ progress cbn
    | progress (unfold mbind, M_bind, mret, M_ret, gets, modify, set_heap,
        set_refs, set_root, put_element, revive, rename, remove,
        restore_refs, revive_value, Get, write, isObject, internalize,
        internalize_members)
    | rewrite lookup_fresh | rewrite lookup_fresh_S | rewrite insert_fresh
    | rewrite String.eqb_refl
    | match goal with
      | H : String.eqb _ _ = _ |- _ => rewrite H
      | H : is_identifier _ = _ |- _ => rewrite H
      end ].

(** [parse] of the text of [{ '_constructor-name_': n }]. *)
Lemma parse_marker_root h n :
  n ≠ "" → n ≠ "Object" →
  parse h (JObj [(MARKER, JStr n)])
  = if is_identifier n
    then (h ++ [Object KObject n false []; wrapper_of (VRef (length h))],
          Ok (VRef (length h)))
    else (h ++ [Object KObject "Object" false [(MARKER, VStr n)];
                wrapper_of (VRef (length h))],
          Throw (SyntaxError "Unexpected token")).
Proof.
  intros Hn%String.eqb_neq Ho%String.eqb_neq.
  unfold parse, JSON_parse. cbn [build fold_left Props.set fst snd alloc].
  rewrite !length_app. cbn [length height foldr]. rewrite !Nat.add_1_r.
  rewrite <- !app_assoc. cbn [app].
  destruct (is_identifier n) eqn:Hid; eval_single; reflexivity.
Qed.



End SingleMore.

(** X24: a data key [_constructor-name_] is taken for a constructor name.
    For an ordinary root object whose one member, under the key
    [_constructor-name_], holds a string [n] that is an identifier other
    than [Object], [stringify] with the default options writes the member as
    it is, and [parse] of that text yields an object without that member
    and with a constructor of the name [n]. *)
Theorem marker_key_consumed (h : heap) (a : nat) (n : string) :
  h !! a = Some (Object KObject "Object" false [(MARKER, VStr n)]) →
  is_identifier n = true → n ≠ "Object" →
  ∃ h1 h2 b,
    stringify h (VRef a) None = (h1, Ok (Some (JObj [(MARKER, JStr n)])))
    ∧ parse h1 (JObj [(MARKER, JStr n)]) = (h2, Ok (VRef b))
    ∧ h2 !! b = Some (Object KObject n false []).
Proof.
  intros Ha Hid Ho.
  assert (Hn : n ≠ "") by (by intros ->).
  set (h1 := h ++ [wrapper_of (VRef a)]).
  exists h1. eexists _, (length h1). split_and!.
  - apply (stringify_single_string h a MARKER (VStr n)); [done..|].
    intros st Hst [t Ht]. eexists.
    change (call_toJSON (enc_heap st) (VStr n)) with (VStr n).
    apply replace_string; [done..|]. by apply identifier_not_date.
  - rewrite parse_marker_root by done. rewrite Hid. reflexivity.
  - apply lookup_fresh.
Qed.

Lemma marker_key_consumed_witness :
  let h := [Object KObject "Object" false [(MARKER, VStr "Widget")]] in
  ∃ h1 h2 b,
    stringify h (VRef 0) None = (h1, Ok (Some (JObj [(MARKER, JStr "Widget")])))
    ∧ parse h1 (JObj [(MARKER, JStr "Widget")]) = (h2, Ok (VRef b))
    ∧ h2 !! b = Some (Object KObject "Widget" false []).
Proof.
  intros h. apply (marker_key_consumed h 0 "Widget").
  - reflexivity.
  - vm_compute. reflexivity.
  - vm_compute. discriminate.
Defined.


(** ** Objects that cannot be written to *)

(** X26: a frozen object loses its constructor name without an error.
    For a root object whose one member [k] holds a frozen object without
    properties of its own whose constructor has a name [n] (not empty, not
    [Object]), the write of [_constructor-name_] throws and is dropped:
    [stringify] with the default options returns the text of an empty object
    under [k], and leaves the heap as it was, the wrapper object of
    [JSON.stringify] apart. *)
Theorem frozen_instance_unnamed (h : heap) (a b : nat) (k n : string) :
  h !! a = Some (Object KObject "Object" false [(k, VRef b)]) →
  h !! b = Some (Object KObject n true []) →
  k ≠ "" → n ≠ "" → n ≠ "Object" →
  stringify h (VRef a) None
  = (h ++ [wrapper_of (VRef a)], Ok (Some (JObj [(k, JObj [])]))).
Proof.
  intros Ha Hb Hk Hn Ho.
  assert (Hab : a ≠ b) by (intros ->; congruence).
  assert (Hab' : Nat.eqb a b = false) by (by apply Nat.eqb_neq).
  pose proof (lookup_lt_Some _ _ _ Ha) as Hla.
  unfold stringify, JSON_stringify, alloc, depth_option.
  rewrite length_app. cbn [length]. rewrite Nat.add_1_r.
  remember (S (S (length h))) as gas eqn:Hgas.
  destruct gas as [|[|gas]]; [lia..|]. clear Hgas.
  pose proof (lookup_app_l_Some _ [wrapper_of (VRef a)] _ _ Ha) as Ha'.
  pose proof (lookup_app_l_Some _ [wrapper_of (VRef a)] _ _ Hb) as Hb'.
  set (h1 := h ++ [wrapper_of (VRef a)]) in *.
  assert (Hattach : attach_name h1 (VRef b) = h1).
  { unfold attach_name, isObject, Set_, constructor_name. rewrite Hb'.
    cbn [okind cname frozen is_array is_callable negb andb props Props.lookup].
    by repeat case_match. }
  assert (Hwalk : walkable h1 (VRef b) = true).
  { cbn [walkable]. by rewrite Hb'. }
  set (t0 := Tracker [("root", VRef a)] [] ["root"]).
  set (t1 := Tracker [("root", VRef a); (Str.join "." ["root"; k], VRef b)]
               [VRef b] ["root"; k]).
  assert (Hmember :
    SerializeJSONProperty (S gas) 10 (VRef a) k (Enc h1 (Some t0) [a])
    = (Enc h1 (Some t1) [a], Ok (Some (JObj [])))).
  { cbn [SerializeJSONProperty].
    erewrite serialize_run; last first.
    { unfold Get, call_toJSON, kind_of. cbn [enc_heap]. rewrite Ha'.
      cbn [props Props.lookup]. rewrite String.eqb_refl. rewrite Hb'.
      cbn [fmap option_fmap option_map okind].
      rewrite (replace_walk _ _ _ _ _ t0); [|done|done|exact Hwalk].
      unfold walk. cbn [t0 stack keys objects unwind fst snd length].
      cbn [Z.leb Z.of_nat Z.compare List.find strict_eq snd].
      rewrite Hab'. cbn [enc_heap enc_path app]. rewrite Hattach. reflexivity. }
    erewrite serialize_value_object;
      [|exact Hb'|done|done|cbn [enc_path]; by intros ->%list_elem_of_singleton].
    reflexivity. }
  change (SerializeJSONProperty (S (S gas)))
    with (fun d => serialize (SerializeJSONProperty (S gas) d) d).
  cbv beta.
  erewrite serialize_run; last first.
  { cbn [enc_heap]. unfold h1. rewrite Get_wrapper. fold h1.
    unfold call_toJSON, kind_of. rewrite Ha'.
    cbn [fmap option_fmap option_map okind]. apply replace_root. }
  erewrite serialize_value_object; [|exact Ha'|done|done|apply not_elem_of_nil].
  cbn [props fmap list_fmap fst enc_heap enc_vars enc_path].
  fold t0.
  assert (Hm : mapM (fun k => e ← SerializeJSONProperty (S gas) 10 (VRef a) k; mret (k, e))
                 [k] (Enc h1 (Some t0) [a])
               = (Enc h1 (Some t1) [a], Ok [(k, Some (JObj []))])).
  { cbn [mapM].
    erewrite bind_ok; last first.
    { erewrite bind_ok; [reflexivity|apply Hmember]. }
    reflexivity. }
  by rewrite Hm.
Qed.

Lemma frozen_instance_unnamed_witness :
  let h := [Object KObject "Object" false [("at", VRef 1)];
            Object KObject "Point" true []] in
  stringify h (VRef 0) None
  = (h ++ [wrapper_of (VRef 0)], Ok (Some (JObj [("at", JObj [])]))).
Proof.
  intros h. apply (frozen_instance_unnamed h 0 1 "at" "Point").
  - reflexivity.
  - reflexivity.
  - vm_compute. discriminate.
  - vm_compute. discriminate.
  - vm_compute. discriminate.
Defined.
(** ** A cycle below the root *)

Section NestedCycle.

Implicit Types (h l : heap) (k ka ks : string) (o w z : object).

#[local] Arguments get : simpl never.

Ltac eval_cycle :=
  repeat first
    [ progress cbn
    | progress (unfold mbind, M_bind, mret, M_ret, gets, modify, set_heap,
        set_refs, set_root, put_element, assign, restore, revive,
        restore_refs, revive_value, Get, Set_, write, isObject, internalize,
        internalize_members)
    | rewrite lookup_fresh | rewrite lookup_fresh_S | rewrite lookup_fresh_SS
    | rewrite insert_fresh | rewrite insert_fresh_S
    | rewrite String.eqb_refl | rewrite prefix_nil
    | match goal with
      | H : String.eqb _ _ = _ |- _ => rewrite H
      end ].

(** [parse] of the text of [{ ka: { ks: '_duplicate_root.ka' } }]. *)
Lemma parse_nested_cycle h ka ks :
  ka ≠ "" → ks ≠ "" → ka ≠ MARKER → ks ≠ MARKER →
  parse h (JObj [(ka, JObj [(ks, JStr ("_duplicate_" +:+ "root." +:+ ka))])])
  = (h ++ [Object KObject "Object" false [(ks, VRef (length h))];
           Object KObject "Object" false [(ka, VRef (length h))];
           wrapper_of (VRef (S (length h)))],
     Ok (VRef (S (length h)))).
Proof.
  intros Ha Hs Hma Hms.
  apply String.eqb_neq in Ha, Hs, Hma, Hms.
  unfold parse, JSON_parse. cbn [build fold_left Props.set fst snd alloc].
  rewrite !length_app. cbn [length height foldr]. rewrite !Nat.add_1_r.
  rewrite <- !app_assoc. cbn [app].
  eval_cycle.
  rewrite (get_own_key _ (S (length h))
             (Object KObject "Object" false [(ka, VRef (length h))]) ka (VRef (length h)));
    [|apply lookup_fresh_S|cbn; by rewrite String.eqb_refl].
  eval_cycle. reflexivity.
Qed.

End NestedCycle.

Section NestedCycleEncode.

Implicit Types (h l : heap) (k ka ks : string) (o w z : object).

(** [stringify] of [{ ka: o }] for an object [o] whose one member holds [o]
    itself. *)
Lemma stringify_nested_cycle h a b ka ks :
  h !! a = Some (Object KObject "Object" false [(ka, VRef b)]) →
  h !! b = Some (Object KObject "Object" false [(ks, VRef b)]) →
  a ≠ b → ka ≠ "" → ks ≠ "" →
  stringify h (VRef a) None
  = (h ++ [wrapper_of (VRef a)],
     Ok (Some (JObj [(ka, JObj [(ks, JStr ("_duplicate_" +:+ "root." +:+ ka))])]))).
Proof.
  intros Ha Hb Hne Hka Hks.
  assert (Hne' : Nat.eqb a b = false) by (by apply Nat.eqb_neq).
  pose proof (lookup_lt_Some _ _ _ Ha) as Hla.
  pose proof (lookup_lt_Some _ _ _ Hb) as Hlb.
  unfold stringify, JSON_stringify, alloc, depth_option.
  rewrite length_app. cbn [length]. rewrite Nat.add_1_r.
  remember (S (S (length h))) as gas eqn:Hgas.
  destruct gas as [|[|[|gas]]]; [lia..|]. clear Hgas.
  pose proof (lookup_app_l_Some _ [wrapper_of (VRef a)] _ _ Ha) as Ha'.
  pose proof (lookup_app_l_Some _ [wrapper_of (VRef a)] _ _ Hb) as Hb'.
  set (h1 := h ++ [wrapper_of (VRef a)]) in *.
  assert (Hattach : attach_name h1 (VRef b) = h1).
  { apply (attach_name_unnamed _ _ _ Hb'). unfold constructor_name.
    cbn [props Props.lookup cname].
    destruct (String.eqb_spec ks "constructor") as [->|]; [|done].
    unfold Get. by rewrite Hb'. }
  assert (Hwalk : walkable h1 (VRef b) = true).
  { cbn [walkable]. by rewrite Hb'. }
  set (t0 := Tracker [("root", VRef a)] [] ["root"]).
  set (t1 := Tracker [("root", VRef a); ("root." +:+ ka, VRef b)] [VRef b] ["root"; ka]).
  assert (Hself : ∀ path,
    SerializeJSONProperty (S gas) 10 (VRef b) ks (Enc h1 (Some t1) path)
    = (Enc h1 (Some t1) path, Ok (Some (JStr ("_duplicate_" +:+ "root." +:+ ka))))).
  { intros path. cbn [SerializeJSONProperty].
    erewrite serialize_run; last first.
    { unfold Get, call_toJSON, kind_of. cbn [enc_heap]. rewrite Hb'.
      cbn [props Props.lookup]. rewrite String.eqb_refl. rewrite Hb'.
      cbn [fmap option_fmap option_map okind].
      rewrite (replace_walk _ _ _ _ _ t1); [|done|done|exact Hwalk].
      unfold walk. cbn [t1 stack keys objects unwind strict_eq].
      rewrite Nat.eqb_refl. cbn [fst snd length].
      cbn [Z.leb Z.of_nat Z.compare List.find strict_eq snd Pos.of_succ_nat].
      rewrite Hne', Nat.eqb_refl. reflexivity. }
    reflexivity. }
  assert (Hmember :
    SerializeJSONProperty (S (S gas)) 10 (VRef a) ka (Enc h1 (Some t0) [a])
    = (Enc h1 (Some t1) [a],
       Ok (Some (JObj [(ks, JStr ("_duplicate_" +:+ "root." +:+ ka))])))).
  { change (SerializeJSONProperty (S (S gas)))
      with (fun d => serialize (SerializeJSONProperty (S gas) d) d).
    cbv beta.
    erewrite serialize_run; last first.
    { unfold Get, call_toJSON, kind_of. cbn [enc_heap]. rewrite Ha'.
      cbn [props Props.lookup]. rewrite String.eqb_refl. rewrite Hb'.
      cbn [fmap option_fmap option_map okind].
      rewrite (replace_walk _ _ _ _ _ t0); [|done|done|exact Hwalk].
      unfold walk. cbn [t0 stack keys objects unwind fst snd length].
      cbn [Z.leb Z.of_nat Z.compare List.find strict_eq snd].
      rewrite Hne'. cbn [enc_heap enc_path app]. rewrite Hattach. reflexivity. }
    erewrite serialize_value_object;
      [|exact Hb'|done|done|cbn [enc_path]; by intros ->%list_elem_of_singleton].
    cbn [props fmap list_fmap fst enc_heap enc_vars enc_path mapM].
    erewrite bind_ok; last first.
    { erewrite bind_ok; [reflexivity|apply Hself]. }
    reflexivity. }
  change (SerializeJSONProperty (S (S (S gas))))
    with (fun d => serialize (SerializeJSONProperty (S (S gas)) d) d).
  cbv beta.
  erewrite serialize_run; last first.
  { cbn [enc_heap]. unfold h1. rewrite Get_wrapper. fold h1.
    unfold call_toJSON, kind_of. rewrite Ha'.
    cbn [fmap option_fmap option_map okind]. apply replace_root. }
  erewrite serialize_value_object; [|exact Ha'|done|done|apply not_elem_of_nil].
  cbn [props fmap list_fmap fst enc_heap enc_vars enc_path].
  fold t0.
  assert (Hm : mapM (fun k => e ← SerializeJSONProperty (S (S gas)) 10 (VRef a) k;
                              mret (k, e))
                 [ka] (Enc h1 (Some t0) [a])
               = (Enc h1 (Some t1) [a],
                  Ok [(ka, Some (JObj [(ks, JStr ("_duplicate_" +:+ "root." +:+ ka))]))])).
  { cbn [mapM].
    erewrite bind_ok; last first.
    { erewrite bind_ok; [reflexivity|apply Hmember]. }
    reflexivity. }
  by rewrite Hm.
Qed.

End NestedCycleEncode.

(** X27: a cycle below the root is preserved. For a root object whose
    one member [ka] holds an object whose one member [ks] holds that object
    itself (neither key being the empty key or [_constructor-name_]),
    [stringify] with the default options writes the marker
    [_duplicate_root.ka] under [ks], and [parse] of that text yields an
    object whose [ka] is a new object whose [ks] is that new object
    itself. *)
Theorem nested_cycle_preserved (h : heap) (a b : nat) (ka ks : string) :
  h !! a = Some (Object KObject "Object" false [(ka, VRef b)]) →
  h !! b = Some (Object KObject "Object" false [(ks, VRef b)]) →
  a ≠ b → ka ≠ "" → ks ≠ "" → ka ≠ MARKER → ks ≠ MARKER →
  ∃ h1 j h2 r c,
    stringify h (VRef a) None = (h1, Ok (Some j))
    ∧ j = JObj [(ka, JObj [(ks, JStr ("_duplicate_" +:+ "root." +:+ ka))])]
    ∧ parse h1 j = (h2, Ok (VRef r))
    ∧ Get h2 (VRef r) ka = VRef c
    ∧ Get h2 (VRef c) ks = VRef c
    ∧ h !! c = None.
Proof.
  intros Ha Hb Hne Hka Hks Hma Hms.
  set (h1 := h ++ [wrapper_of (VRef a)]).
  exists h1. eexists _, _, (S (length h1)), (length h1). split_and!.
  - by apply (stringify_nested_cycle h a b).
  - reflexivity.
  - by apply parse_nested_cycle.
  - unfold Get. rewrite lookup_fresh_S. cbn [props Props.lookup].
    by rewrite String.eqb_refl.
  - unfold Get. rewrite lookup_fresh. cbn [props Props.lookup].
    by rewrite String.eqb_refl.
  - apply lookup_ge_None. unfold h1. rewrite length_app. lia.
Qed.

Lemma nested_cycle_preserved_witness :
  let h := [Object KObject "Object" false [("node", VRef 1)];
            Object KObject "Object" false [("self", VRef 1)]] in
  ∃ h1 j h2 r c,
    stringify h (VRef 0) None = (h1, Ok (Some j))
    ∧ j = JObj [("node", JObj [("self", JStr ("_duplicate_" +:+ "root." +:+ "node"))])]
    ∧ parse h1 j = (h2, Ok (VRef r))
    ∧ Get h2 (VRef r) "node" = VRef c
    ∧ Get h2 (VRef c) "self" = VRef c
    ∧ h !! c = None.
Proof.
  intros h. apply (nested_cycle_preserved h 0 1 "node" "self").
  - reflexivity.
  - reflexivity.
  - lia.
  - vm_compute. discriminate.
  - vm_compute. discriminate.
  - vm_compute. discriminate.
  - vm_compute. discriminate.
Defined.
(** ** A key with a dot on the path of a marker *)

Section Dotted.

Implicit Types (h l : heap) (k ka kc x y : string) (o w z : object).

#[local] Arguments get : simpl never.
#[local] Arguments Str.join : simpl never.

Lemma lookup_fresh_SSS h o w z u l :
  (h ++ o :: w :: z :: u :: l) !! S (S (S (length h))) = Some u.
Proof.
  rewrite lookup_app_r by lia.
  by replace (S (S (S (length h))) - length h) with 3 by lia.
Qed.

Lemma insert_fresh_SS h o w z z' l :
  <[S (S (length h)) := z']> (h ++ o :: w :: z :: l) = h ++ o :: w :: z' :: l.
Proof.
  rewrite insert_app_r_alt by lia.
  by replace (S (S (length h)) - length h) with 2 by lia.
Qed.

Lemma eqb_append_dot k t : String.eqb k (k +:+ String "." t) = false.
Proof.
  induction k as [|c k IH]; [done|]. cbn [String.append String.eqb].
  by rewrite Ascii.eqb_refl.
Qed.

Lemma dotted_not_empty x y : String.eqb (x +:+ String "." y) "" = false.
Proof. by destruct x. Qed.

Lemma dotted_not_marker x y : String.eqb (x +:+ String "." y) MARKER = false.
Proof.
  apply String.eqb_neq. intros Heq.
  assert (H : Spec.all (Str.none_of ".") (x +:+ String "." y) = true)
    by (by rewrite Heq).
  rewrite all_append in H. apply andb_true_iff in H as [_ H]. done.
Qed.

Lemma dotted_not_constructor x y :
  String.eqb (x +:+ String "." y) "constructor" = false.
Proof.
  apply String.eqb_neq. intros Heq.
  assert (H : Spec.all (Str.none_of ".") (x +:+ String "." y) = true)
    by (by rewrite Heq).
  rewrite all_append in H. apply andb_true_iff in H as [_ H]. done.
Qed.

(** [get] of lodash on a path whose second segment the object on the way
    does not have. *)
Lemma get_dotted_unresolved h a o m om ka x y :
  h !! a = Some o → Props.lookup ka (props o) = Some (VRef m) →
  h !! m = Some om → Props.lookup x (props om) = None →
  okind om = KObject →
  has_property h (VRef a) (Str.join "." [ka; x; y]) = false →
  plain_key ka = true → plain_key x = true → plain_key y = true →
  get h (VRef a) (Str.join "." [ka; x; y]) = VUndef.
Proof.
  intros Ha Hka Hm Hx Harr Hprop Hpa Hpx Hpy. unfold get. cbn [nullish].
  rewrite castPath_join; [|done|by repeat constructor|by left].
  assert (H1 : Get h (VRef a) ka = VRef m) by (unfold Get; by rewrite Ha, Hka).
  assert (H2 : Get h (VRef m) x = VUndef).
  { unfold Get. by rewrite Hm, Hx, Harr. }
  cbn [baseGet nullish]. rewrite H1. cbn [nullish]. by rewrite H2.
Qed.

Ltac eval_dotted :=
  repeat first
    [ progress cbn
    | progress (unfold mbind, M_bind, mret, M_ret, gets, modify, set_heap,
        set_refs, set_root, put_element, assign, restore, revive,
        restore_refs, revive_value, Get, Set_, write, isObject, internalize,
        internalize_members)
    | rewrite lookup_fresh | rewrite lookup_fresh_S | rewrite lookup_fresh_SS
    | rewrite lookup_fresh_SSS
    | rewrite insert_fresh | rewrite insert_fresh_S | rewrite insert_fresh_SS
    | rewrite String.eqb_refl | rewrite prefix_nil | rewrite dotted_not_marker | rewrite dotted_not_empty
    | match goal with
      | H : String.eqb _ _ = _ |- _ => rewrite H
      end ].

(** [parse] of the text of [{ ka: { 'x.y': {} }, kc: '_duplicate_root.ka.x.y' }]. *)
Lemma parse_dotted h ka kc x y :
  plain_key ka = true → plain_key x = true → plain_key y = true →
  kc ≠ "" → kc ≠ MARKER → kc ≠ ka → kc ≠ Str.join "." [ka; x; y] →
  parse h (JObj [(ka, JObj [(x +:+ String "." y, JObj [])]);
                 (kc, JStr ("_duplicate_" +:+ "root." +:+ Str.join "." [ka; x; y]))])
  = (h ++ [Object KObject "Object" false [];
           Object KObject "Object" false [(x +:+ String "." y, VRef (length h))];
           Object KObject "Object" false [(ka, VRef (S (length h))); (kc, VUndef)];
           wrapper_of (VRef (S (S (length h))))],
     Ok (VRef (S (S (length h))))).
Proof.
  intros Hpa Hpx Hpy Hc Hmc Hca Hcj.
  assert (Ha : ka ≠ "" ∧ ka ≠ MARKER).
  { unfold plain_key in Hpa. apply andb_true_iff in Hpa as [[H1 H2]%andb_true_iff _].
    apply negb_true_iff in H1, H2. by split; apply String.eqb_neq. }
  destruct Ha as [Ha Hma].
  assert (Hac : String.eqb ka kc = false) by (apply String.eqb_neq; congruence).
  assert (Hja : String.eqb ka (Str.join "." [ka; x; y]) = false) by apply eqb_append_dot.
  assert (Hjc : String.eqb kc (Str.join "." [ka; x; y]) = false) by (by apply String.eqb_neq).
  assert (Hdx : String.eqb (x +:+ String "." y) x = false).
  { rewrite String.eqb_sym. apply eqb_append_dot. }
  apply String.eqb_neq in Ha, Hma, Hc, Hmc.
  unfold parse, JSON_parse. cbn [build fold_left Props.set fst snd alloc].
  rewrite Hac.
  rewrite !length_app. cbn [length height foldr]. rewrite !Nat.add_1_r.
  rewrite <- !app_assoc. cbn [app].
  eval_dotted.
  match goal with
  | |- context [get ?hh ?rr ?pp] => assert (Hget : get hh rr pp = VUndef)
  end.
  { eapply get_dotted_unresolved; [apply lookup_fresh_SS| |apply lookup_fresh_S| | | |done..].
    - cbn. by rewrite String.eqb_refl.
    - cbn. by rewrite Hdx.
    - done.
    - unfold has_property. rewrite lookup_fresh_SS.
      cbn [props set_props Props.lookup okind is_array].
      rewrite Hja, Hjc. by rewrite bool_decide_false by (by intros [? [=]]). }
  rewrite Hget. reflexivity.
Qed.

End Dotted.

Section DottedEncode.

Implicit Types (h l : heap) (k ka kc kd : string) (r m o : nat).

(** [stringify] of [{ ka: { kd: o }, kc: o }] for an empty object [o]. *)
Lemma stringify_nested_shared h r m o ka kc kd :
  h !! r = Some (Object KObject "Object" false [(ka, VRef m); (kc, VRef o)]) →
  h !! m = Some (Object KObject "Object" false [(kd, VRef o)]) →
  h !! o = Some (Object KObject "Object" false []) →
  ka ≠ "" → kc ≠ "" → kd ≠ "" → ka ≠ kc → kd ≠ "constructor" →
  stringify h (VRef r) None
  = (h ++ [wrapper_of (VRef r)],
     Ok (Some (JObj [(ka, JObj [(kd, JObj [])]);
                     (kc, JStr ("_duplicate_" +:+ Str.join "." ["root"; ka; kd]))]))).
Proof.
  intros Hr Hm Ho Hka Hkc Hkd Hac Hcon.
  assert (Hrm : Nat.eqb r m = false) by (apply Nat.eqb_neq; intros ->; congruence).
  assert (Hro : Nat.eqb r o = false) by (apply Nat.eqb_neq; intros ->; congruence).
  assert (Hmo : Nat.eqb m o = false) by (apply Nat.eqb_neq; intros ->; congruence).
  apply String.eqb_neq in Hac as Hac'.
  pose proof (lookup_lt_Some _ _ _ Hr) as Hlr.
  unfold stringify, JSON_stringify, alloc, depth_option.
  rewrite length_app. cbn [length]. rewrite Nat.add_1_r.
  remember (S (S (length h))) as gas eqn:Hgas.
  destruct gas as [|[|[|gas]]]; [lia| | |].
  { apply Nat.eqb_neq in Hrm, Hro.
    pose proof (lookup_lt_Some _ _ _ Hm). lia. }
  { apply Nat.eqb_neq in Hrm, Hro.
    pose proof (lookup_lt_Some _ _ _ Hm). lia. }
  clear Hgas.
  pose proof (lookup_app_l_Some _ [wrapper_of (VRef r)] _ _ Hr) as Hr'.
  pose proof (lookup_app_l_Some _ [wrapper_of (VRef r)] _ _ Hm) as Hm'.
  pose proof (lookup_app_l_Some _ [wrapper_of (VRef r)] _ _ Ho) as Ho'.
  set (h1 := h ++ [wrapper_of (VRef r)]) in *.
  assert (Hatm : attach_name h1 (VRef m) = h1).
  { apply (attach_name_Object _ _ _ Hm'). cbn [Props.lookup].
    by apply String.eqb_neq in Hcon as ->. }
  assert (Hato : attach_name h1 (VRef o) = h1).
  { by apply (attach_name_Object _ _ _ Ho'). }
  assert (Hwm : walkable h1 (VRef m) = true) by (cbn [walkable]; by rewrite Hm').
  assert (Hwo : walkable h1 (VRef o) = true) by (cbn [walkable]; by rewrite Ho').
  set (p1 := Str.join "." ["root"; ka]).
  set (p2 := Str.join "." ["root"; ka; kd]).
  set (t0 := Tracker [("root", VRef r)] [] ["root"]).
  set (t1 := Tracker [("root", VRef r); (p1, VRef m)] [VRef m] ["root"; ka]).
  set (t2 := Tracker [("root", VRef r); (p1, VRef m); (p2, VRef o)]
               [VRef o; VRef m] ["root"; ka; kd]).
  set (t3 := Tracker [("root", VRef r); (p1, VRef m); (p2, VRef o)] [] ["root"]).
  assert (Hinner :
    SerializeJSONProperty (S gas) 10 (VRef m) kd (Enc h1 (Some t1) [m; r])
    = (Enc h1 (Some t2) [m; r], Ok (Some (JObj [])))).
  { cbn [SerializeJSONProperty].
    erewrite serialize_run; last first.
    { unfold Get, call_toJSON, kind_of. cbn [enc_heap]. rewrite Hm'.
      cbn [props Props.lookup]. rewrite String.eqb_refl. rewrite Ho'.
      cbn [fmap option_fmap option_map okind].
      rewrite (replace_walk _ _ _ _ _ t1); [|done|done|exact Hwo].
      unfold walk. cbn [t1 stack keys objects unwind strict_eq].
      rewrite Nat.eqb_refl. cbn [fst snd length].
      change (10 <=? Z.of_nat 1)%Z with false. cbv iota.
      cbn [List.find strict_eq snd]. rewrite Hro, Hmo.
      cbn [enc_heap enc_path app]. rewrite Hato. reflexivity. }
    erewrite serialize_value_object; [|exact Ho'|done|done|].
    - reflexivity.
    - cbn [enc_path]. intros [->|[->|[]%elem_of_nil]%elem_of_cons]%elem_of_cons.
      + by rewrite Nat.eqb_refl in Hmo.
      + by rewrite Nat.eqb_refl in Hro. }
  assert (Hfirst :
    SerializeJSONProperty (S (S gas)) 10 (VRef r) ka (Enc h1 (Some t0) [r])
    = (Enc h1 (Some t2) [r], Ok (Some (JObj [(kd, JObj [])])))).
  { change (SerializeJSONProperty (S (S gas)))
      with (fun d => serialize (SerializeJSONProperty (S gas) d) d).
    cbv beta.
    erewrite serialize_run; last first.
    { unfold Get, call_toJSON, kind_of. cbn [enc_heap]. rewrite Hr'.
      cbn [props Props.lookup]. rewrite String.eqb_refl. rewrite Hm'.
      cbn [fmap option_fmap option_map okind].
      rewrite (replace_walk _ _ _ _ _ t0); [|done|done|exact Hwm].
      unfold walk. cbn [t0 stack keys objects unwind fst snd length].
      cbn [Z.leb Z.of_nat Z.compare List.find strict_eq snd].
      rewrite Hrm. cbn [enc_heap enc_path app]. rewrite Hatm. reflexivity. }
    erewrite serialize_value_object;
      [|exact Hm'|done|done|cbn [enc_path]; intros ->%list_elem_of_singleton;
                            by rewrite Nat.eqb_refl in Hrm].
    cbn [props fmap list_fmap fst enc_heap enc_vars enc_path mapM].
    fold p1. fold t1.
    erewrite bind_ok; last first.
    { erewrite bind_ok; [reflexivity|apply Hinner]. }
    reflexivity. }
  assert (Hsecond :
    SerializeJSONProperty (S (S gas)) 10 (VRef r) kc (Enc h1 (Some t2) [r])
    = (Enc h1 (Some t3) [r], Ok (Some (JStr ("_duplicate_" +:+ p2))))).
  { cbn [SerializeJSONProperty].
    erewrite serialize_run; last first.
    { unfold Get, call_toJSON, kind_of. cbn [enc_heap]. rewrite Hr'.
      cbn [props Props.lookup]. rewrite Hac', String.eqb_refl. rewrite Ho'.
      cbn [fmap option_fmap option_map okind].
      rewrite (replace_walk _ _ _ _ _ t2); [|done|done|exact Hwo].
      unfold walk. cbn [t2 stack keys objects unwind strict_eq].
      rewrite Hro. cbn [removelast unwind strict_eq]. rewrite Hrm.
      cbn [removelast unwind fst snd length].
      cbn [Z.leb Z.of_nat Z.compare List.find strict_eq snd].
      rewrite Hro, Hmo, Nat.eqb_refl. reflexivity. }
    reflexivity. }
  change (SerializeJSONProperty (S (S (S gas))))
    with (fun d => serialize (SerializeJSONProperty (S (S gas)) d) d).
  cbv beta.
  erewrite serialize_run; last first.
  { cbn [enc_heap]. unfold h1. rewrite Get_wrapper. fold h1.
    unfold call_toJSON, kind_of. rewrite Hr'.
    cbn [fmap option_fmap option_map okind]. apply replace_root. }
  erewrite serialize_value_object; [|exact Hr'|done|done|apply not_elem_of_nil].
  cbn [props fmap list_fmap fst enc_heap enc_vars enc_path].
  fold t0.
  assert (Hmm : mapM (fun k => e ← SerializeJSONProperty (S (S gas)) 10 (VRef r) k;
                               mret (k, e))
                 [ka; kc] (Enc h1 (Some t0) [r])
               = (Enc h1 (Some t3) [r],
                  Ok [(ka, Some (JObj [(kd, JObj [])]));
                      (kc, Some (JStr ("_duplicate_" +:+ p2)))])).
  { cbn [mapM].
    erewrite bind_ok; last first.
    { erewrite bind_ok; [reflexivity|apply Hfirst]. }
    erewrite bind_ok; last first.
    { erewrite bind_ok; last first.
      { erewrite bind_ok; [reflexivity|apply Hsecond]. }
      reflexivity. }
    reflexivity. }
  by rewrite Hmm.
Qed.

End DottedEncode.

(** X28: a dot in a key below the root breaks a reference. For a root
    object whose member [ka] holds an object that holds an empty object [o]
    under a key with a dot, [x.y], and whose member [kc] holds [o] as well,
    [stringify] with the default options writes under [kc] the marker
    [_duplicate_root.ka.x.y]; [parse] of that text looks for [y] in the [x]
    of the object under [ka], finds nothing, and yields an object whose
    [kc] is [undefined], while the object under [ka] still holds the empty
    object under [x.y]. The segment [x] is none of the names that the
    object under [ka] inherits: on such a name the walk would go on into
    [Object.prototype]. The keys [ka] and [kc] are no array indices, which
    the engine would list first. *)
Theorem dotted_key_reference_lost (h : heap) (r m o : nat) (ka kc x y : string) :
  h !! r = Some (Object KObject "Object" false [(ka, VRef m); (kc, VRef o)]) →
  h !! m = Some (Object KObject "Object" false [(x +:+ String "." y, VRef o)]) →
  h !! o = Some (Object KObject "Object" false []) →
  plain_key ka = true → plain_key x = true → plain_key y = true →
  inherited x = false → to_index ka = None → to_index kc = None →
  kc ≠ "" → kc ≠ MARKER → kc ≠ ka → kc ≠ Str.join "." [ka; x; y] →
  ∃ h1 j h2 r' m' o',
    stringify h (VRef r) None = (h1, Ok (Some j))
    ∧ j = JObj [(ka, JObj [(x +:+ String "." y, JObj [])]);
                (kc, JStr ("_duplicate_"
                           +:+ Str.join "." ["root"; ka; x +:+ String "." y]))]
    ∧ parse h1 j = (h2, Ok (VRef r'))
    ∧ Get h2 (VRef r') ka = VRef m'
    ∧ Get h2 (VRef m') (x +:+ String "." y) = VRef o'
    ∧ h2 !! o' = Some (Object KObject "Object" false [])
    ∧ Get h2 (VRef r') kc = VUndef.
Proof.
  intros Hr Hm Ho Hpa Hpx Hpy _ _ _ Hc Hmc Hca Hcj.
  assert (Ha : ka ≠ "").
  { unfold plain_key in Hpa. apply andb_true_iff in Hpa as [[H1 _]%andb_true_iff _].
    apply negb_true_iff in H1. by apply String.eqb_neq. }
  set (h1 := h ++ [wrapper_of (VRef r)]).
  exists h1. eexists _, _, (S (S (length h1))), (S (length h1)), (length h1).
  split_and!.
  - apply (stringify_nested_shared h r m o); try done;
      first [apply String.eqb_neq, dotted_not_empty
            |apply String.eqb_neq, dotted_not_constructor|congruence].
  - reflexivity.
  - by apply (parse_dotted h1 ka kc x y).
  - unfold Get. rewrite lookup_fresh_SS. cbn [props Props.lookup].
    by rewrite String.eqb_refl.
  - unfold Get. rewrite lookup_fresh_S. cbn [props Props.lookup].
    by rewrite String.eqb_refl.
  - apply lookup_fresh.
  - unfold Get. rewrite lookup_fresh_SS. cbn [props Props.lookup].
    assert (Hac : String.eqb ka kc = false) by (apply String.eqb_neq; congruence).
    by rewrite Hac, String.eqb_refl.
Qed.

Lemma dotted_key_reference_lost_witness :
  let h := [Object KObject "Object" false [("files", VRef 1); ("main", VRef 2)];
            Object KObject "Object" false [("index" +:+ String "." "js", VRef 2)];
            Object KObject "Object" false []] in
  ∃ h1 j h2 r' m' o',
    stringify h (VRef 0) None = (h1, Ok (Some j))
    ∧ j = JObj [("files", JObj [("index" +:+ String "." "js", JObj [])]);
                ("main", JStr ("_duplicate_"
                               +:+ Str.join "." ["root"; "files";
                                                 "index" +:+ String "." "js"]))]
    ∧ parse h1 j = (h2, Ok (VRef r'))
    ∧ Get h2 (VRef r') "files" = VRef m'
    ∧ Get h2 (VRef m') ("index" +:+ String "." "js") = VRef o'
    ∧ h2 !! o' = Some (Object KObject "Object" false [])
    ∧ Get h2 (VRef r') "main" = VUndef.
Proof.
  intros h. apply (dotted_key_reference_lost h 0 1 2 "files" "main" "index" "js").
  - reflexivity.
  - reflexivity.
  - reflexivity.
  - vm_compute. reflexivity.
  - vm_compute. reflexivity.
  - vm_compute. reflexivity.
  - vm_compute. reflexivity.
  - vm_compute. reflexivity.
  - vm_compute. reflexivity.
  - vm_compute. discriminate.
  - vm_compute. discriminate.
  - vm_compute. discriminate.
  - vm_compute. discriminate.
Defined.
(** ** A boolean met twice *)

Section Repeated.

Implicit Types (h l : heap) (k ka kb : string) (v : value).

#[local] Arguments get : simpl never.

Ltac eval_repeated :=
  repeat first
    [ progress cbn
    | progress (unfold mbind, M_bind, mret, M_ret, gets, modify, set_heap,
        set_refs, set_root, put_element, assign, restore, revive,
        restore_refs, revive_value, Get, Set_, write, isObject, internalize,
        internalize_members)
    | rewrite lookup_fresh | rewrite lookup_fresh_S
    | rewrite insert_fresh | rewrite insert_fresh_S
    | rewrite String.eqb_refl | rewrite prefix_nil
    | match goal with
      | H : String.eqb _ _ = _ |- _ => rewrite H
      end ].

(** [parse] of the text of [{ ka: v, kb: '_duplicate_root.ka' }] for a
    boolean or [null] [v]. *)
Lemma parse_repeated h ka kb v :
  is_prim v = true → ka ≠ kb → ka ≠ "" → kb ≠ "" → ka ≠ MARKER → kb ≠ MARKER →
  parse h (JObj [(ka, json_of v); (kb, JStr ("_duplicate_" +:+ "root." +:+ ka))])
  = (h ++ [Object KObject "Object" false [(ka, v); (kb, v)];
           wrapper_of (VRef (length h))],
     Ok (VRef (length h))).
Proof.
  intros Hv Hab Ha Hb Hma Hmb.
  assert (Hba : String.eqb kb ka = false) by (by apply String.eqb_neq).
  apply String.eqb_neq in Hab, Ha, Hb, Hma, Hmb.
  assert (Hbuild : ∀ hh, build (json_of v) hh = (hh, v)) by (by destruct v).
  unfold parse, JSON_parse. cbn [build fold_left Props.set fst snd alloc].
  rewrite Hbuild. cbn [fold_left Props.set fst snd]. rewrite Hab.
  rewrite !length_app. cbn [length]. rewrite !Nat.add_1_r.
  rewrite <- !app_assoc. cbn [app].
  assert (Hh : height (JObj [(ka, json_of v);
                             (kb, JStr ("_duplicate_" +:+ "root." +:+ ka))]) = 1)
    by (by destruct v).
  rewrite Hh.
  destruct v as [| |b| | | |]; try done; eval_repeated.
  - match goal with
    | |- context [get ?hh ?rr ?pp] => assert (Hget : get hh rr pp = VNull)
    end.
    { eapply get_own_key; [apply lookup_fresh|]. cbn. by rewrite String.eqb_refl. }
    rewrite Hget. reflexivity.
  - match goal with
    | |- context [get ?hh ?rr ?pp] => assert (Hget : get hh rr pp = VBool b)
    end.
    { eapply get_own_key; [apply lookup_fresh|]. cbn. by rewrite String.eqb_refl. }
    rewrite Hget. reflexivity.
Qed.

(** [stringify] of [{ ka: v, kb: v }] for a boolean or [null] [v]. *)
Lemma stringify_repeated h a ka kb v :
  h !! a = Some (Object KObject "Object" false [(ka, v); (kb, v)]) →
  is_prim v = true → ka ≠ kb → ka ≠ "" → kb ≠ "" →
  stringify h (VRef a) None
  = (h ++ [wrapper_of (VRef a)],
     Ok (Some (JObj [(ka, json_of v);
                     (kb, JStr ("_duplicate_" +:+ "root." +:+ ka))]))).
Proof.
  intros Ha Hv Hab Hka Hkb.
  apply String.eqb_neq in Hab as Hab'.
  pose proof (lookup_lt_Some _ _ _ Ha) as Hla.
  unfold stringify, JSON_stringify, alloc, depth_option.
  rewrite length_app. cbn [length]. rewrite Nat.add_1_r.
  remember (S (S (length h))) as gas eqn:Hgas.
  destruct gas as [|[|gas]]; [lia..|]. clear Hgas.
  pose proof (lookup_app_l_Some _ [wrapper_of (VRef a)] _ _ Ha) as Ha'.
  set (h1 := h ++ [wrapper_of (VRef a)]) in *.
  assert (Hj : call_toJSON h1 v = v) by (by destruct v).
  assert (Hwalk : walkable h1 v = true) by (by destruct v).
  assert (Hattach : attach_name h1 v = h1) by (by destruct v).
  assert (Hself : strict_eq v v = true) by (destruct v as [| |[]| | | |]; done).
  assert (Hroot : strict_eq (VRef a) v = false) by (by destruct v).
  assert (Hser : ∀ recur (st : enc), serialize_value recur v st = (st, Ok (Some (json_of v))))
    by (by destruct v).
  set (t0 := Tracker [("root", VRef a)] [] ["root"]).
  set (t1 := Tracker [("root", VRef a); ("root." +:+ ka, v)] [v] ["root"; ka]).
  set (t2 := Tracker [("root", VRef a); ("root." +:+ ka, v)] [] ["root"]).
  assert (Hfirst :
    SerializeJSONProperty (S gas) 10 (VRef a) ka (Enc h1 (Some t0) [a])
    = (Enc h1 (Some t1) [a], Ok (Some (json_of v)))).
  { cbn [SerializeJSONProperty].
    erewrite serialize_run; last first.
    { unfold Get. cbn [enc_heap]. rewrite Ha'.
      cbn [props Props.lookup]. rewrite String.eqb_refl, Hj.
      rewrite (replace_walk _ _ _ _ _ t0); [|done|done|exact Hwalk].
      unfold walk. cbn [t0 stack keys objects unwind fst snd length].
      cbn [Z.leb Z.of_nat Z.compare List.find snd]. rewrite Hroot.
      cbn [enc_heap enc_path app]. rewrite Hattach. reflexivity. }
    apply Hser. }
  assert (Hsecond :
    SerializeJSONProperty (S gas) 10 (VRef a) kb (Enc h1 (Some t1) [a])
    = (Enc h1 (Some t2) [a],
       Ok (Some (JStr ("_duplicate_" +:+ "root." +:+ ka))))).
  { cbn [SerializeJSONProperty].
    erewrite serialize_run; last first.
    { unfold Get. cbn [enc_heap]. rewrite Ha'.
      cbn [props Props.lookup]. rewrite Hab', String.eqb_refl, Hj.
      rewrite (replace_walk _ _ _ _ _ t1); [|done|done|exact Hwalk].
      unfold walk. cbn [t1 stack keys objects unwind]. rewrite Hroot.
      cbn [removelast unwind fst snd length].
      cbn [Z.leb Z.of_nat Z.compare List.find snd].
      rewrite Hroot, Hself. reflexivity. }
    reflexivity. }
  change (SerializeJSONProperty (S (S gas)))
    with (fun d => serialize (SerializeJSONProperty (S gas) d) d).
  cbv beta.
  erewrite serialize_run; last first.
  { cbn [enc_heap]. unfold h1. rewrite Get_wrapper. fold h1.
    unfold call_toJSON, kind_of. rewrite Ha'.
    cbn [fmap option_fmap option_map okind]. apply replace_root. }
  erewrite serialize_value_object; [|exact Ha'|done|done|apply not_elem_of_nil].
  cbn [props fmap list_fmap fst enc_heap enc_vars enc_path].
  fold t0.
  assert (Hm : mapM (fun k => e ← SerializeJSONProperty (S gas) 10 (VRef a) k; mret (k, e))
                 [ka; kb] (Enc h1 (Some t0) [a])
               = (Enc h1 (Some t2) [a],
                  Ok [(ka, Some (json_of v));
                      (kb, Some (JStr ("_duplicate_" +:+ "root." +:+ ka)))])).
  { cbn [mapM].
    erewrite bind_ok; last first.
    { erewrite bind_ok; [reflexivity|apply Hfirst]. }
    erewrite bind_ok; last first.
    { erewrite bind_ok; last first.
      { erewrite bind_ok; [reflexivity|apply Hsecond]. }
      reflexivity. }
    reflexivity. }
  by rewrite Hm.
Qed.

End Repeated.

(** X29: a boolean or [null] met twice is written as a marker the second
    time. For a root object with two members [ka] and [kb] (different keys,
    neither the empty key nor [_constructor-name_]) that hold the same
    boolean, or both [null], [stringify] with the default options writes the
    value under [ka] and the string [_duplicate_root.ka] under [kb]; [parse]
    of that text yields an object that holds the value under both keys. *)
Theorem repeated_boolean_marked (h : heap) (a : nat) (ka kb : string) (v : value) :
  h !! a = Some (Object KObject "Object" false [(ka, v); (kb, v)]) →
  is_prim v = true →
  ka ≠ kb → ka ≠ "" → kb ≠ "" → ka ≠ MARKER → kb ≠ MARKER →
  ∃ h1 j h2 r,
    stringify h (VRef a) None = (h1, Ok (Some j))
    ∧ j = JObj [(ka, json_of v); (kb, JStr ("_duplicate_" +:+ "root." +:+ ka))]
    ∧ parse h1 j = (h2, Ok (VRef r))
    ∧ Get h2 (VRef r) ka = v
    ∧ Get h2 (VRef r) kb = v.
Proof.
  intros Ha Hv Hab Hka Hkb Hma Hmb.
  set (h1 := h ++ [wrapper_of (VRef a)]).
  exists h1. eexists _, _, (length h1). split_and!.
  - by apply (stringify_repeated h a ka kb v).
  - reflexivity.
  - by apply parse_repeated.
  - unfold Get. rewrite lookup_fresh. cbn [props Props.lookup].
    by rewrite String.eqb_refl.
  - unfold Get. rewrite lookup_fresh. cbn [props Props.lookup].
    apply String.eqb_neq in Hab. by rewrite Hab, String.eqb_refl.
Qed.

Lemma repeated_boolean_marked_witness :
  let h := [Object KObject "Object" false [("open", VBool true); ("done", VBool true)]] in
  ∃ h1 j h2 r,
    stringify h (VRef 0) None = (h1, Ok (Some j))
    ∧ j = JObj [("open", json_of (VBool true));
                ("done", JStr ("_duplicate_" +:+ "root." +:+ "open"))]
    ∧ parse h1 j = (h2, Ok (VRef r))
    ∧ Get h2 (VRef r) "open" = VBool true
    ∧ Get h2 (VRef r) "done" = VBool true.
Proof.
  intros h. apply (repeated_boolean_marked h 0 "open" "done" (VBool true)).
  - reflexivity.
  - reflexivity.
  - vm_compute. discriminate.
  - vm_compute. discriminate.
  - vm_compute. discriminate.
  - vm_compute. discriminate.
  - vm_compute. discriminate.
Defined.
